(* ===== verification/_CoqProject ===== *)
-Q . S2P
Prelude.v
Resolution.v
PyDict.v
PyPath.v
PathNorm.v
NtPath.v
PySorted.v
FileSys.v
Consistent.v
Imaging.v
Focus.v
Engine.v
Presenter.v
Window.v
Render.v
Typing.v
Exporter.v
App.v
Loop.v
Gui.v
