(* ===== verification/Prelude.v ===== *)
(** * Image Quality Categorizer: a verification development

    ** The program

    [src/main.py] is a desktop tool.  The user picks image files or a
    folder; every file that Pillow accepts as an image ([is_image]) is given
    a category key, the resolution bucket of its pixel count
    ([categorize_image]) followed by [" (Blurry)"] or [" (Clear)"] according
    to the variance of the Laplacian computed by OpenCV ([is_blurry]); the
    global dictionary [categorized] maps each key to the list of
    (base name, path) pairs filed under it ([analyze_images]); the window
    shows one frame per category, in a fixed order, with a grid of
    thumbnails and a download button ([show_results]); the button copies the
    files of its category into a temporary directory and packs them into a
    ZIP archive at a path that the user chooses ([download_category]).  The
    handlers run one at a time in the event loop of Tk.

    ** The files, from the leaves to the root

    - [Prelude] (this file): exceptions as values ([exn], [outcome], the
      bare [except:] as [try_except]); statements over a state that may
      raise ([prog], with [finally] for the exit of a [with] block and
      [for_each] for a loop); [keeps], the properties of the state that a
      statement keeps however it ends, with its rules for sequences and
      loops; the list builtins [in] and [index]; the tactics, the hint
      database [iqc] and generic lemmas.
    - [Resolution]: [categorize_image] (lines 42-57) on unbounded integers,
      proved equal to the table of bounds of the specification, with its
      ranges, boundaries and monotonicity.
    - [PyDict]: the operations of [dict] that the program calls, on an
      association list in insertion order ([dict_wf]: unique keys), and
      their refinement to the finite map [dict_to_gmap].
    - [PyPath]: [os.path.basename], [os.path.join] and [str.replace] on
      strings, in the POSIX flavour, and what it is for a path to lie under
      a directory.
    - [PathNorm]: the functions that [shutil.make_archive] runs on the
      name of the archive: [os.path.abspath] with the loop of [normpath] on
      the components of the path, [os.path.dirname], and [ancestors], the
      directories above a path.
    - [NtPath]: the same functions in the flavour of Windows
      ([ntpath.splitdrive], [basename], [join]: drive letters, UNC paths,
      two separators), and the class [PathLib] of what the program needs of
      [os.path] on either platform, with the instances [posixpath] and
      [ntpath].
    - [PySorted]: [sorted] with a key as a stable insertion sort;
      [stable_sort_unique] shows that any stable sort returns the same list,
      [sorted_by_classes] gives the result in closed form.
    - [FileSys]: the file system as a finite map from paths to [node]s
      (a file with its bytes, or a directory) and the calls of [os],
      [shutil] and [tempfile] that the program makes: a file is written
      only where the directories above it exist, and [make_archive] is the
      sequence of the library (the name made absolute, the change of
      directory, the directory of the archive created when it is missing,
      the archive written); the ZIP format as the interface [Archiver]
      (unpacking what was packed gives the entries back); [fs_ok], the
      consistency of a file system; [agree_outside], the equivalence of
      file systems that differ only inside a directory, and [confined], the
      changes that a write at a path may make.
    - [Consistent]: what the calls do to a consistent file system: each
      keeps it consistent, and [makedirs] and [make_archive] are all or
      nothing.
    - [Imaging]: Pillow and OpenCV as the interface [ImageLib]; [is_image]
      (lines 23-29) and [is_blurry] (lines 31-39) with their bare [except:];
      a small concrete library [toy_imaging] and folder [toy_fs] on which
      the definitions are evaluated.
    - [Focus]: the score behind [is_blurry] (lines 35-36): the 8-bit grey
      conversion [cvtColor], the 3x3 filter [Laplacian] with the reflected
      border of OpenCV, the population variance [var] as an exact rational;
      [focus_lib] makes an [ImageLib] of it for any decoder of pixels.
    - [Engine]: the loop of [analyze_images] (lines 79-95) as
      [categorize_files]; the contents of the dictionary in closed form, its
      invariant [categorized_inv], and the refinement to a grouping in a
      finite map.
    - [Presenter]: [show_results] (lines 123-190) with widgets as data; the
      display order, the frames and their buttons, the grid of thumbnails.
    - [Window]: the widgets of Tk as a store in creation order (a widget's
      identifier is its index): the constructors, [pack], [grid],
      [create_window], [configure], [winfo_children] and [destroy] as
      statements that raise [TclError] where Tk does; the construction of
      the window (lines 194-228) as [build_window], statement by statement;
      the bindings of lines 241-245; the well-formedness [store_wf] of a
      store.
    - [Render]: [show_results] as calls on the store ([refresh]: destroy the
      children of the content frame, then create, pack and grid the widgets
      of the content), and [view], which reads the content back from the
      store.
    - [Typing]: the use that the program makes of each class of widget, as
      a boolean typing of the store ([store_typed]).
    - [Exporter]: [download_category] (lines 102-120) on a [world] (file
      system and message boxes); its early exits, its frame (it changes no
      path but the archive and the missing directories above it, and leaves
      no staging directory; when it raises it changes nothing), the
      contents of the archive, and where the archive is written.
    - [App]: the start-up (lines 12-20 and 59), the handlers
      [analyze_folder], [analyze_selected_images], [analyze_images] and the
      wheel handlers, the bindings of events to handlers and the event loop
      as the reachability relation [reachable]; the invariant of the
      reachable states, the consistency of the file system along every run,
      and the round trip from a folder analysis to an archive.
    - [Loop]: the same handlers and [root.mainloop()] (line 247) as an
      interaction tree over the questions that the program asks its
      environment ([uiE]: the next event, the three file dialogs, the name of
      a temporary directory), with [ITree.iter] as the loop; [script], a user
      who answers from a list; [responsive], the liveness property of the
      loop, as a greatest fixed point.
    - [Gui]: the composition: the reachable states of [App] are shown by
      stores of [Window] rendered by [Render]; and the program with its
      widgets, [handle_gui] on a state [gui] made of the state of [App] and
      the store, with the calls on widgets in the order of the code.

    ** How the model corresponds to the code

    A definition keeps the name of the function it models and its doc
    comment gives the lines.  Integers are unbounded, as in Python.  A call
    that may raise returns an [outcome]; a handler is a [prog] over the
    state it changes.  What the outside world contributes is an input of the
    handler that receives it: the answer of a dialog (empty when it is
    cancelled), the name that the system picks for a temporary directory,
    the motion of the wheel.  An exception that leaves a handler is reported
    by Tk and the loop goes on: [mainloop_step] keeps the state and drops
    the outcome.  The event [FsChange] stands for other programs changing
    the file system between two events.  [Loop] turns these inputs into
    questions: a handler is a tree that asks for them at the point where the
    code calls the dialog, and [mainloop_script] shows that asking gives the
    state of [mainloop_step] on the answers.  [Presenter] computes the
    content of the window as data and [Render] makes the calls that create
    it; [refresh_view] shows that the two agree, and [gui_run_refines]
    that the handlers of [Gui], which change the state and the widgets
    together, compute the state of [App] and widgets that show it.  The
    paths of [Engine], [Exporter] and [App] are POSIX paths; [nt_join_agrees]
    relates them to the paths of Windows.

    ** What the theorems show

    - Classifier: the chain of comparisons is the table of exclusive upper
      bounds; the ranges are total and disjoint; a pixel count equal to a
      bound belongs to the tier above; the tier is monotone in the pixel
      count; the bucket is decided by area, not by height.
    - Validator and scorer: they never raise; [is_image] accepts exactly the
      regular files that Pillow opens and verifies; [is_blurry] answers
      [True] exactly when OpenCV reads the file and the variance is strictly
      below the threshold, so an image that OpenCV cannot read is filed as
      Clear.
    - Focus score: the grey level of a pixel is an 8-bit value; a flat
      picture has variance zero and is blurry at every positive threshold;
      the variance is never negative, so nothing is blurry at a threshold
      that is not positive; multiplying the grey levels by [k] and shifting
      them multiplies the variance by [k * k], so the verdict follows the
      contrast and not the brightness; for 8-bit pixels the entries of the
      Laplacian lie within 1020 of zero, the score is at most 1040400, and
      the sums that the variance needs are below 2^53 for fewer than 2^32
      pixels.
    - Paths: on Windows, [basename] finds the name that [join] appended to
      a folder that is not a UNC path; [ntpath] and [posixpath] agree up to
      the spelling of the separators; with either, the files of a folder
      are filed under their own names and distinct paths.  [normpath] is
      idempotent and returns a path without doubled or trailing separator,
      so that the directories above the archive are those above its
      [dirname], then its [dirname], each lying above the next.
    - File system: in a consistent file system [os.makedirs] and
      [shutil.make_archive] are all or nothing: they make the directories
      that are missing and, for the second, write the archive, or they
      raise and have changed nothing; every call of the program keeps the
      file system consistent.
    - Engine: each category holds exactly the accepted paths with its key,
      in scan order; keys are in order of first occurrence; every accepted
      path is filed once per occurrence and no rejected path is filed; the
      previous dictionary plays no part, so a second analysis of the same
      files leaves the same dictionary and content; reordering the files,
      which [os.listdir] is free to do, permutes the list of every key and
      changes nothing else; the association list refines the grouping in a
      finite map.
    - Presenter: the sort is the concatenation of the categories in the
      order of [category_order]; for dictionaries of the engine the fallback
      priority is never used; one frame per category whose button exports
      that category; thumbnails fill the grid five to a row and a file whose
      thumbnail fails takes no cell.
    - Exporter: an absent or empty category gives the warning and no write;
      a cancelled dialog gives nothing; in every case no path changes but
      the archive and the directories above it that were missing, which are
      created; a failure changes nothing and shows nothing; the file system
      stays consistent; on success the archive unpacks to the directory of
      the category with, under each base name, the bytes of the last file
      of that name, which is one entry per file when base names are
      distinct; the archive is at the chosen path when the path is normal
      and [".zip"] occurs in it only as the extension, and elsewhere
      otherwise, possibly in a directory that the export creates.
    - Application: every reachable state satisfies [app_inv]; the file
      system stays consistent along every run in which the changes from
      outside leave it so; a download button never leads to the warning; a folder analysis scans the regular
      files directly in the folder, with distinct base names, so that an
      export after it is a round trip; the wheel scrolls by the ceiling of
      [-delta/120] units.
    - Widgets: every call of the program keeps the store well formed (a
      live widget has a live master created before it; no master mixes
      [pack] and [grid]), whether it returns or raises; the construction of
      the window raises nothing and binds each button and scrollbar as the
      code says; clearing a frame leaves it without a child and touches no
      widget created before it; rendering never raises and the content
      frame reads back as the content that was rendered.
    - Loop: against any script the tree computes the state of the step
      relation (refinement); every handler asks finitely many questions and
      returns, and the loop returns on every finite script (termination);
      for ever, after each event the loop comes back to waiting, also after
      a handler that raised (liveness); every reachable state is shown by a
      well-formed store in which a download is enabled exactly when its
      button is there.
    - Classes of widgets: the window as built is typed, and clearing a
      frame, rendering and [show_results] keep a typed store typed; typing
      respects [same_shape], the equivalence of stores that differ only by
      the widgets that are destroyed.
    - Program with widgets: one event of [Gui] raises no [TclError],
      projects to one step of [App] and keeps the widgets showing the state
      (a lockstep simulation, extended to runs by [lockstep_run]); the
      three descriptions of the program agree on every list of events; the
      store stays typed along every run.

    Each theorem with hypotheses is applied to a concrete world by a lemma
    named after it ([_witness]); the concrete worlds are [toy_fs] with
    [toy_imaging], [export_fs] and [calls_fs] with [bits_archiver], the
    pictures [example_pictures] of [Focus], the store [window_store] and
    the script [example_script].

    ** Bounds

    No definition uses fuel: every recursion is structural on a list or a
    string, and the loops of the program are folds over finite lists.  The
    event loop, which need not end, is [ITree.iter]; its termination on a
    finite script and the finiteness of every handler are theorems
    ([mainloop_terminates]), not assumptions.  No integer is bounded,
    because Python integers are not; grey levels are integers proved to lie
    in 0..255, and the variance is a rational, so no rounding occurs.

    ** What is not modelled

    The decoders of Pillow and OpenCV (a decoder of pixels is a parameter
    of [focus_lib]) and the rounding of the 64-bit variance; the resizing of
    thumbnails; the ZIP format (an [Archiver]); the sizes and positions that
    [pack] and [grid] compute, the drawing of widgets, the dialogs
    themselves (their answers are inputs) and the clamping of a scroll to
    the scroll region, which are Tk's; fonts and colours are carried as
    options and nothing is proved of them; permissions, disk space and
    symbolic links.  The root directory is not a node of the file system:
    it exists ([path_exists]) and is above every path without being listed
    in [ancestors], but it cannot be listed as a folder.  The working
    directory is not part of the state: [abspath] is [normpath], which is
    what it is on the absolute paths that the dialogs return, and a
    relative path stays relative.  Two spellings of one path that
    [normpath] does not identify are two keys of the file system.  The
    order in which [os.listdir] lists a folder is the order of the map.
    [make_archive] follows Python 3.8 to 3.10, where it changes the working
    directory to the tree it packs; the handler packs a directory that it
    has just made, for which later releases do the same.
    [NtPath] follows Python 3.8 to 3.10; later releases split the drive of
    a path that starts with two separators differently, and the theorems on
    Windows paths leave such paths out.  The file system is keyed by POSIX
    paths: that Windows treats both separators and the case of letters
    alike is not modelled.  The imports of lines 1-10 have no behaviour of
    their own. *)

From Stdlib Require Import ZArith Lia.
From stdpp Require Import base tactics option list strings.

Declare Scope py_scope.
Delimit Scope py_scope with py.

Create HintDb iqc discriminated.
Create Rewrite HintDb iqc.

(** ** Exceptions as values *)

(** The exception classes that the library calls of [main.py] raise.  The
    handlers of the program are bare [except:] clauses, so the class never
    selects a handler; it is kept for the paths on which an exception
    leaves a handler-less function. *)
Inductive exn : Type :=
| OSError
| UnidentifiedImageError
| Cv2Error
| KeyError
| TclError.

#[export] Instance exn_eq_dec : EqDecision exn.
Proof. solve_decision. Defined.

(** The result of running a statement or an expression that may raise. *)
Inductive outcome (A : Type) : Type :=
| Ok (a : A)
| Raise (e : exn).
Arguments Ok {A} a.
Arguments Raise {A} e.

#[export] Instance outcome_eq_dec `{EqDecision A} : EqDecision (outcome A).
Proof. solve_decision. Defined.

#[export] Instance outcome_ret : MRet outcome := fun A => @Ok A.
#[export] Instance outcome_bind : MBind outcome := fun A B f m =>
  match m with Ok a => f a | Raise e => Raise e end.
#[export] Instance outcome_fmap : FMap outcome := fun A B f m =>
  match m with Ok a => Ok (f a) | Raise e => Raise e end.

(** [try: body except: return handler]: the value of the body when it does
    not raise, the handler's value when it does, whatever the exception. *)
Definition try_except {A : Type} (body : outcome A) (handler : A) : A :=
  match body with Ok a => a | Raise _ => handler end.

(** Whether a computation raised. *)
Definition raised {A : Type} (m : outcome A) : bool :=
  match m with Ok _ => false | Raise _ => true end.

Notation "'try!' body 'except!' handler" := (try_except body handler)
  (at level 10, body at level 9, handler at level 9) : py_scope.

(** ** List builtins *)

(** [x in l] on a Python list. *)
Definition py_in `{EqDecision A} (x : A) (l : list A) : bool :=
  bool_decide (x ∈ l).

(** [l.index(x)]: the position of the first element equal to [x]; [None]
    stands for the [ValueError] that Python raises when there is none. *)
Fixpoint index_of `{EqDecision A} (x : A) (l : list A) : option nat :=
  match l with
  | [] => None
  | y :: l' => if decide (x = y) then Some 0 else S <$> index_of x l'
  end.

(** ** Tactics *)

(** Case analysis on every integer comparison of the goal. *)
Ltac case_ltb :=
  repeat match goal with
  | |- context [Z.ltb ?a ?b] => destruct (Z.ltb_spec a b)
  | |- context [Z.leb ?a ?b] => destruct (Z.leb_spec a b)
  end.

(** Case analysis on the outcome that blocks the goal. *)
Ltac case_outcome :=
  match goal with
  | |- context [try_except ?m _] => destruct m eqn:?
  | |- context [mbind _ ?m] => destruct m eqn:?
  | |- context [match ?m with Ok _ => _ | Raise _ => _ end] => destruct m eqn:?
  end; simpl.

(** ** Lemmas on outcomes *)

Section outcome.
Context {A B : Type}.
Implicit Types (m : outcome A) (f : A → outcome B).

Lemma bind_Ok f a : Ok a ≫= f = f a.
Proof. reflexivity. Qed.

Lemma bind_Raise f e : Raise e ≫= f = Raise e.
Proof. reflexivity. Qed.

Lemma bind_Ok_inv f m b :
  m ≫= f = Ok b ↔ ∃ a, m = Ok a ∧ f a = Ok b.
Proof.
  destruct m as [a|e]; simpl; split.
  - eauto.
  - by intros (? & [= <-] & ?).
  - done.
  - by intros (? & ? & ?).
Qed.

Lemma try_except_Ok (a h : A) : try_except (Ok a) h = a.
Proof. reflexivity. Qed.

Lemma try_except_Raise e (h : A) : try_except (Raise e) h = h.
Proof. reflexivity. Qed.

Lemma try_except_total m (h : A) :
  try_except m h = h ∨ ∃ a, m = Ok a ∧ try_except m h = a.
Proof. destruct m; eauto. Qed.

Lemma raised_false m : raised m = false ↔ ∃ a, m = Ok a.
Proof. destruct m; simpl; split; eauto; try done. by intros [? ?]. Qed.

End outcome.

#[export] Hint Rewrite @bind_Ok @bind_Raise @try_except_Ok @try_except_Raise : iqc.

(** ** Lemmas on [index_of] and [py_in] *)

Section index_of.
Context `{EqDecision A}.
Implicit Types (x y : A) (l : list A) (i : nat).

Lemma py_in_true x l : py_in x l = true ↔ x ∈ l.
Proof. apply bool_decide_eq_true. Qed.

Lemma py_in_false x l : py_in x l = false ↔ x ∉ l.
Proof. apply bool_decide_eq_false. Qed.

Lemma index_of_lookup x l i : index_of x l = Some i → l !! i = Some x.
Proof.
  revert i. induction l as [|y l IH]; intros i; simpl; [done|].
  case_decide as Hxy.
  - by intros [= <-]; subst.
  - destruct (index_of x l) as [j|]; simpl; [|done].
    intros [= <-]. by apply IH.
Qed.

Lemma index_of_first x l i j :
  index_of x l = Some i → (j < i)%nat → l !! j ≠ Some x.
Proof.
  revert i j. induction l as [|y l IH]; intros i j; simpl; [done|].
  case_decide as Hxy.
  - intros [= <-]. lia.
  - destruct (index_of x l) as [k|] eqn:Hk; simpl; [|done].
    intros [= <-] Hj. destruct j as [|j]; simpl.
    + congruence.
    + apply (IH k); [done|lia].
Qed.

Lemma index_of_None x l : index_of x l = None ↔ x ∉ l.
Proof.
  induction l as [|y l IH]; simpl.
  - split; [intros _; apply not_elem_of_nil|done].
  - rewrite not_elem_of_cons. case_decide as Hxy.
    + split; [done|]. by intros [? _].
    + destruct (index_of x l); simpl; split; try done.
      * intros [_ Hl]. by apply IH in Hl.
      * intros _. split; [done|]. by apply IH.
Qed.

Lemma index_of_is_Some x l : is_Some (index_of x l) ↔ x ∈ l.
Proof.
  rewrite <-not_eq_None_Some, index_of_None.
  destruct (decide (x ∈ l)); tauto.
Qed.

Lemma index_of_lt x l i : index_of x l = Some i → (i < length l)%nat.
Proof. intros H. eapply lookup_lt_Some, index_of_lookup, H. Qed.

Lemma index_of_inj x y l i :
  index_of x l = Some i → index_of y l = Some i → x = y.
Proof.
  intros Hx%index_of_lookup Hy%index_of_lookup. congruence.
Qed.

Lemma index_of_NoDup l i x :
  NoDup l → l !! i = Some x → index_of x l = Some i.
Proof.
  intros Hnd Hi.
  destruct (index_of x l) as [j|] eqn:Hj.
  - f_equal. eapply NoDup_lookup; eauto using index_of_lookup.
  - apply index_of_None in Hj. destruct Hj. eapply list_elem_of_lookup_2, Hi.
Qed.

End index_of.

#[export] Hint Resolve index_of_lookup index_of_lt : iqc.

(** ** Boolean tests on every element *)

Lemma forallb_Forall {A : Type} (f : A → bool) (l : list A) :
  forallb f l = true ↔ Forall (λ x, f x = true) l.
Proof.
  induction l as [|x l IH]; simpl; [by split|].
  by rewrite andb_true_iff, Forall_cons, IH.
Qed.

Lemma forallb_elem_of {A : Type} (f : A → bool) (l : list A) (x : A) :
  forallb f l = true → x ∈ l → f x = true.
Proof. rewrite forallb_Forall, Forall_forall. auto. Qed.

(** ** Statements that change a state and may raise *)

(** A statement over a state [S]: the state it leaves, also when it raises,
    and its result. *)
Definition prog (S A : Type) : Type := S → S * outcome A.

#[export] Instance prog_ret {S} : MRet (prog S) := fun A a s => (s, Ok a).
#[export] Instance prog_bind {S} : MBind (prog S) := fun A B f m s =>
  match m s with
  | (s', Ok a) => f a s'
  | (s', Raise e) => (s', Raise e)
  end.

(** A statement that only changes the state. *)
Definition modify_state {S : Type} (f : S → S) : prog S unit :=
  fun s => (f s, Ok tt).

(** An expression that reads the state and may raise. *)
Definition read_state {S A : Type} (f : S → outcome A) : prog S A :=
  fun s => (s, f s).

(** [try: body finally: cleanup], and the exit of a [with] block: the
    cleanup runs on every exit path and the outcome of the body is kept. *)
Definition finally {S A : Type} (body : prog S A) (cleanup : S → S) : prog S A :=
  fun s => let '(s', r) := body s in (cleanup s', r).

(** [for x in l: body(x)]: the iterations in order, up to the first one
    that raises. *)
Fixpoint for_each {S X : Type} (body : X → prog S unit) (l : list X) : prog S unit :=
  match l with
  | [] => mret tt
  | x :: l' => body x ≫= fun _ => for_each body l'
  end.

Section prog.
Context {S A B X : Type}.
Implicit Types (s : S) (m : prog S A) (f : A → prog S B).

Lemma prog_bind_Ok m f s s' a :
  m s = (s', Ok a) → (m ≫= f) s = f a s'.
Proof. unfold mbind, prog_bind. by intros ->. Qed.

Lemma prog_bind_Raise m f s s' e :
  m s = (s', Raise e) → (m ≫= f) s = (s', Raise e).
Proof. unfold mbind, prog_bind. by intros ->. Qed.

Lemma read_state_bind (g : S → outcome A) f s :
  (read_state g ≫= f) s = match g s with Ok a => f a s | Raise e => (s, Raise e) end.
Proof. reflexivity. Qed.

Lemma finally_state (body : prog S A) (cleanup : S → S) s :
  (finally body cleanup s).1 = cleanup (body s).1.
Proof. unfold finally. by destruct (body s). Qed.

Lemma finally_outcome (body : prog S A) (cleanup : S → S) s :
  (finally body cleanup s).2 = (body s).2.
Proof. unfold finally. by destruct (body s). Qed.

Lemma for_each_nil (body : X → prog S unit) s : for_each body [] s = (s, Ok tt).
Proof. reflexivity. Qed.

Lemma for_each_cons_Ok (body : X → prog S unit) x l s s' :
  body x s = (s', Ok tt) → for_each body (x :: l) s = for_each body l s'.
Proof. intros Hx. simpl. unfold mbind, prog_bind. by rewrite Hx. Qed.

Lemma for_each_cons_Raise (body : X → prog S unit) x l s s' e :
  body x s = (s', Raise e) → for_each body (x :: l) s = (s', Raise e).
Proof. intros Hx. simpl. unfold mbind, prog_bind. by rewrite Hx. Qed.

Lemma for_each_app_Ok (body : X → prog S unit) (l1 l2 : list X) s s' :
  for_each body l1 s = (s', Ok tt) →
  for_each body (l1 ++ l2) s = for_each body l2 s'.
Proof.
  revert s. induction l1 as [|x l1 IH]; intros s; simpl.
  - by intros [= ->].
  - unfold mbind, prog_bind. destruct (body x s) as [s1 [[]|e]]; [apply IH|done].
Qed.

(** A loop whose iterations all keep a property of the state keeps it,
    however it ends. *)
Lemma for_each_preserves (P : S → Prop) (body : X → prog S unit) (l : list X) s :
  (∀ x s, P s → P (body x s).1) → P s → P (for_each body l s).1.
Proof.
  intros Hbody. revert s. induction l as [|x l IH]; intros s Hs; simpl; [done|].
  unfold mbind, prog_bind. specialize (Hbody x s Hs).
  destruct (body x s) as [s1 [[]|e]]; [by apply IH|done].
Qed.

End prog.

(** ** Properties that statements keep *)

(** A statement keeps a property of the state, however it ends. *)
Definition keeps {S A : Type} (P : S → Prop) (m : prog S A) : Prop :=
  ∀ s, P s → P (m s).1.

Lemma keeps_bind {S A B : Type} (P : S → Prop) (m : prog S A) (f : A → prog S B) :
  keeps P m → (∀ a, keeps P (f a)) → keeps P (m ≫= f).
Proof.
  intros Hm Hf s Hs. unfold mbind, prog_bind. specialize (Hm s Hs).
  destruct (m s) as [s' [a|e]]; [by apply Hf|done].
Qed.

Lemma keeps_ret {S A : Type} (P : S → Prop) (a : A) : keeps P (mret a : prog S A).
Proof. by intros s. Qed.

Lemma keeps_read_state {S A : Type} (P : S → Prop) (f : S → outcome A) :
  keeps P (read_state f).
Proof. by intros s. Qed.

Lemma keeps_for_each {S X : Type} (P : S → Prop) (body : X → prog S unit) l :
  (∀ x, keeps P (body x)) → keeps P (for_each body l).
Proof. intros Hbody s Hs. apply for_each_preserves; [|done]. intros x s'. apply Hbody. Qed.

Lemma keeps_modify_state {S : Type} (P : S → Prop) (f : S → S) :
  (∀ s, P s → P (f s)) → keeps P (modify_state f).
Proof. intros Hf s Hs. by apply Hf. Qed.

Lemma keeps_finally {S A : Type} (P : S → Prop) (body : prog S A) (cleanup : S → S) :
  keeps P body → (∀ s, P s → P (cleanup s)) → keeps P (finally body cleanup).
Proof. intros Hbody Hc s Hs. rewrite finally_state. by apply Hc, Hbody. Qed.

#[export] Hint Resolve keeps_ret keeps_read_state keeps_for_each : iqc.

(** One step of a sequence of statements, from the equation [H] that says
    what the first statement does on the state of the goal. *)
Ltac prog_step H :=
  first [rewrite (prog_bind_Ok _ _ _ _ _ H) | rewrite (prog_bind_Raise _ _ _ _ _ H)].

(** Side conditions that the lemmas of the hint database settle. *)
Ltac iqc := by eauto with iqc.

(** A sequence of statements keeps what each of them keeps. *)
Ltac keeps_steps := repeat (apply keeps_bind; [|intros ?]); auto with iqc.

(** ** Lists without repetition, in order of first occurrence *)

Section first_occurrences.
Context `{EqDecision A}.
Implicit Types (x : A) (l : list A).

(** The elements of [l], each once, in the order in which they first
    occur. *)
Definition first_occurrences l : list A := reverse (remove_dups (reverse l)).

(** [Some l] for a list that has an element. *)
Definition nonempty l : option (list A) :=
  match l with [] => None | _ :: _ => Some l end.

Lemma first_occurrences_nil : first_occurrences [] = [].
Proof. reflexivity. Qed.

Lemma first_occurrences_snoc l x :
  first_occurrences (l ++ [x]) =
    if decide (x ∈ l) then first_occurrences l else first_occurrences l ++ [x].
Proof.
  unfold first_occurrences. rewrite reverse_snoc. simpl.
  destruct (decide_rel elem_of x (reverse l)) as [Hx|Hx];
    rewrite elem_of_reverse in Hx.
  - by rewrite decide_True.
  - by rewrite decide_False, reverse_cons.
Qed.

Lemma elem_of_first_occurrences l x : x ∈ first_occurrences l ↔ x ∈ l.
Proof.
  unfold first_occurrences.
  by rewrite elem_of_reverse, elem_of_remove_dups, elem_of_reverse.
Qed.

Lemma NoDup_first_occurrences l : NoDup (first_occurrences l).
Proof.
  unfold first_occurrences. rewrite reverse_Permutation.
  apply NoDup_remove_dups.
Qed.

Lemma nonempty_Some l l' : nonempty l = Some l' ↔ l = l' ∧ l ≠ [].
Proof. destruct l; simpl; split; [done|by intros []|by intros [= <-]|by intros [-> _]]. Qed.

Lemma nonempty_None l : nonempty l = None ↔ l = [].
Proof. by destruct l. Qed.

Lemma nonempty_snoc l x : nonempty (l ++ [x]) = Some (l ++ [x]).
Proof. by destruct l. Qed.

End first_occurrences.

#[export] Hint Rewrite @first_occurrences_snoc @nonempty_snoc : iqc.
#[export] Hint Resolve NoDup_first_occurrences : iqc.

(** ** Permutations *)

Lemma nonempty_Permutation {A : Type} (l l' : list A) :
  l ≡ₚ l' → option_Forall2 (≡ₚ) (nonempty l) (nonempty l').
Proof.
  intros Hp. destruct l as [|x l], l' as [|x' l']; try by constructor.
  - by apply Permutation_nil_cons in Hp.
  - symmetry in Hp. by apply Permutation_nil_cons in Hp.
Qed.

(** ** Logic *)

Lemma and_iff_compat_l_strong (A B C : Prop) : (A → (B ↔ C)) → (A ∧ B ↔ A ∧ C).
Proof. tauto. Qed.

(** ** Filters *)

Lemma filter_none {A : Type} (P : A → Prop) `{∀ x, Decision (P x)} (l : list A) :
  Forall (λ x, ¬ P x) l → filter P l = [].
Proof.
  induction 1 as [|x l Hx _ IH]; [done|]. by rewrite filter_cons, decide_False.
Qed.

Lemma filter_all {A : Type} (P : A → Prop) `{∀ x, Decision (P x)} (l : list A) :
  Forall P l → filter P l = l.
Proof.
  induction 1 as [|x l Hx _ IH]; [done|].
  by rewrite filter_cons, decide_True, IH.
Qed.

(** ** Lockstep simulation *)

(** Two machines driven by the same events: when one step of the second
    keeps an invariant and projects to one step of the first, so does every
    run. *)
Section lockstep.
Context {C1 C2 E : Type}.
Variables (step1 : C1 → E → C1) (step2 : C2 → E → C2).
Variables (inv : C2 → Prop) (proj : C2 → C1).
Hypothesis simulation :
  ∀ c e, inv c → inv (step2 c e) ∧ proj (step2 c e) = step1 (proj c) e.

Lemma lockstep_run (es : list E) (c : C2) :
  inv c → inv (foldl step2 c es) ∧ proj (foldl step2 c es) = foldl step1 (proj c) es.
Proof.
  revert c. induction es as [|e es IH]; intros c Hc; [done|]. simpl.
  destruct (simulation c e Hc) as [Hinv <-]. by apply IH.
Qed.

End lockstep.
