(* ===== verification/Resolution.v ===== *)
(** * Resolution Classifier

    [categorize_image] of [main.py]: the chain of comparisons that maps the
    pixel count [width * height] of an image to the name of a resolution
    bucket.  Python integers are unbounded, so the width, the height and
    their product are in [Z] and nothing wraps.

    The reference the chain is compared with is the table of the
    specification: the six exclusive upper bounds in increasing order
    ([thresholds]), the seven names in the same order ([bucket_names]), and
    the tier of a pixel count, the number of bounds it has reached
    ([tier_of_pixels]). *)

From Stdlib Require Import ZArith Lia Sorting.Sorted.
From stdpp Require Import base tactics option list strings.
From S2P Require Import Prelude.

#[local] Open Scope Z_scope.

(** ** The code *)

(** [def categorize_image(width, height)], lines 42-57. *)
Definition categorize_image (width height : Z) : string :=
  let pixels := width * height in
  if pixels <? 480 * 360 then "Below 360p"
  else if pixels <? 720 * 480 then "360p"
  else if pixels <? 1280 * 720 then "480p"
  else if pixels <? 1920 * 1080 then "720p"
  else if pixels <? 2560 * 1440 then "1080p"
  else if pixels <? 3840 * 2160 then "1440p"
  else "4K or above".

(** The bounds that the chain tests, in the order it tests them. *)
Definition thresholds : list Z :=
  [480 * 360; 720 * 480; 1280 * 720; 1920 * 1080; 2560 * 1440; 3840 * 2160].

(** The names that the chain returns, in the order of its branches. *)
Definition bucket_names : list string :=
  ["Below 360p"; "360p"; "480p"; "720p"; "1080p"; "1440p"; "4K or above"].

(** ** The reference *)

(** The tier of a pixel count: how many bounds it has reached. *)
Definition tier_of_pixels (pixels : Z) : nat :=
  length (filter (λ t, t ≤ pixels) thresholds).

(** The tier of a bucket name: its position in [bucket_names]. *)
Definition tier (name : string) : option nat := index_of name bucket_names.

(** ** Tactics *)

(** Settle every [decide] of the goal on an arithmetic fact. *)
Ltac decide_by_lia :=
  repeat match goal with
  | |- context [decide ?P] =>
      first [ rewrite (decide_True (P:=P)) by lia
            | rewrite (decide_False (P:=P)) by lia ]
  end.

(** ** Sorted bounds: the reached bounds are a prefix *)

Section sorted_bounds.
Context (p : Z).
Implicit Types (ts : list Z) (t : Z) (j : nat).

Lemma filter_le_above t ts :
  p < t → Forall (Z.lt t) ts → filter (λ u, u ≤ p) ts = [].
Proof.
  intros Hp Hts. induction Hts as [|u ts Hu _ IH]; [done|].
  rewrite filter_cons, decide_False by lia. done.
Qed.

Lemma sorted_reached ts j t :
  StronglySorted Z.lt ts → ts !! j = Some t →
  t ≤ p ↔ (j < length (filter (λ u, (u ≤ p)%Z) ts))%nat.
Proof.
  intros Hs. revert j. induction Hs as [|a ts Hs IH Ha]; intros j; [done|].
  rewrite filter_cons. destruct (decide (a ≤ p)) as [Hle|Hgt].
  - destruct j as [|j]; simpl.
    + intros [= ->]. split; [lia|done].
    + intros Hj. rewrite (IH _ Hj). lia.
  - rewrite (filter_le_above a) by (done || lia). simpl.
    intros Hj. split; [|lia]. intros Ht. exfalso.
    destruct j as [|j]; simpl in Hj; [injection Hj as ->; lia|].
    rewrite Forall_forall in Ha.
    apply list_elem_of_lookup_2, Ha in Hj. lia.
Qed.

End sorted_bounds.

Lemma thresholds_sorted : StronglySorted Z.lt thresholds.
Proof. unfold thresholds. repeat constructor; lia. Qed.

Lemma bucket_names_NoDup : NoDup bucket_names.
Proof. apply (bool_decide_unpack _). by vm_compute. Qed.

Lemma thresholds_length : length bucket_names = S (length thresholds).
Proof. reflexivity. Qed.

(** ** The chain against the table *)

(** The chain of comparisons returns the name found in the table at the
    tier of the pixel count: one case per branch of the chain. *)
Lemma categorize_image_lookup (w h : Z) :
  bucket_names !! tier_of_pixels (w * h) = Some (categorize_image w h).
Proof.
  unfold categorize_image, tier_of_pixels, thresholds.
  generalize (w * h); intros p; cbn zeta.
  case_ltb; rewrite ?filter_cons, ?filter_nil; decide_by_lia; reflexivity.
Qed.

Lemma tier_of_pixels_le (p : Z) : (tier_of_pixels p ≤ length thresholds)%nat.
Proof. apply length_filter. Qed.

Lemma tier_of_pixels_mono (p q : Z) :
  p ≤ q → (tier_of_pixels p ≤ tier_of_pixels q)%nat.
Proof.
  intros Hpq. unfold tier_of_pixels.
  induction thresholds as [|t ts IH]; [done|].
  rewrite !filter_cons. repeat case_decide; simpl; lia.
Qed.

(** The [j]-th bound is reached exactly by the pixel counts of a tier
    above [j]. *)
Lemma tier_of_pixels_reached (p : Z) (j : nat) (t : Z) :
  thresholds !! j = Some t → t ≤ p ↔ (j < tier_of_pixels p)%nat.
Proof. apply sorted_reached, thresholds_sorted. Qed.

Lemma categorize_image_tier (w h : Z) :
  tier (categorize_image w h) = Some (tier_of_pixels (w * h)).
Proof.
  apply index_of_NoDup; [apply bucket_names_NoDup|apply categorize_image_lookup].
Qed.

Lemma categorize_image_tier_iff (w h : Z) (i : nat) (name : string) :
  bucket_names !! i = Some name →
  categorize_image w h = name ↔ tier_of_pixels (w * h) = i.
Proof.
  intros Hi. pose proof (categorize_image_lookup w h) as Htab. split.
  - intros <-. eapply NoDup_lookup; eauto using bucket_names_NoDup.
  - intros <-. congruence.
Qed.

#[export] Hint Resolve thresholds_sorted bucket_names_NoDup : iqc.
#[export] Hint Rewrite categorize_image_tier : iqc.

(** A tier is determined by the two bounds around it: the pixel count is
    below the bound of the tier, when it has one, and has reached the bound
    of the tier before, when there is one. *)
Lemma tier_of_pixels_eq (p : Z) (i : nat) :
  (i ≤ length thresholds)%nat →
  tier_of_pixels p = i ↔
    (∀ t, thresholds !! i = Some t → p < t) ∧
    (∀ j t, i = S j → thresholds !! j = Some t → t ≤ p).
Proof.
  intros Hi. split.
  - intros <-. split.
    + intros t Ht. pose proof (tier_of_pixels_reached p _ t Ht). lia.
    + intros j t Hj Ht. apply (tier_of_pixels_reached p j t Ht). lia.
  - intros [Hup Hlo]. pose proof (tier_of_pixels_le p) as Hk.
    destruct (lt_eq_lt_dec (tier_of_pixels p) i) as [[Hlt| ->]|Hgt]; [|done|].
    + destruct i as [|j]; [lia|].
      destruct (lookup_lt_is_Some_2 thresholds j) as [t Ht]; [lia|].
      pose proof (tier_of_pixels_reached p j t Ht). specialize (Hlo j t eq_refl Ht). lia.
    + destruct (lookup_lt_is_Some_2 thresholds i) as [t Ht]; [lia|].
      pose proof (tier_of_pixels_reached p i t Ht). specialize (Hup t Ht). lia.
Qed.

(** ** Properties of the classifier *)

(** C24: the chain of comparisons agrees with the table of the specification:
    it returns the name the table holds at the tier of the pixel count, and
    the position of that name in the table is the tier. *)
Theorem categorize_image_table (w h : Z) :
  bucket_names !! tier_of_pixels (w * h) = Some (categorize_image w h) ∧
  tier (categorize_image w h) = Some (tier_of_pixels (w * h)).
Proof. split; [apply categorize_image_lookup|apply categorize_image_tier]. Qed.

(** The classifier is total and returns one of the seven bucket names. *)
Theorem categorize_image_total (w h : Z) :
  categorize_image w h ∈ bucket_names.
Proof. eapply list_elem_of_lookup_2, categorize_image_lookup. Qed.

(** C3: an image is in the bucket of tier [i] exactly when its pixel count is
    below the bound of that tier (the last tier has none) and has reached
    the bound of the tier before (the first tier has none): the bounds are
    exclusive upper bounds and the ranges do not overlap. *)
Theorem categorize_image_range (w h : Z) (i : nat) (name : string) :
  bucket_names !! i = Some name →
  categorize_image w h = name ↔
    (∀ t, thresholds !! i = Some t → w * h < t) ∧
    (∀ j t, i = S j → thresholds !! j = Some t → t ≤ w * h).
Proof.
  intros Hi. pose proof (lookup_lt_Some _ _ _ Hi) as Hlt.
  rewrite <-tier_of_pixels_eq by (rewrite thresholds_length in Hlt; lia).
  by apply categorize_image_tier_iff.
Qed.

Lemma categorize_image_range_witness :
  bucket_names !! 4%nat = Some "1080p" ∧
  (categorize_image 1920 1080 = "1080p" ↔
    (∀ t, thresholds !! 4%nat = Some t → 1920 * 1080 < t) ∧
    (∀ j t, 4%nat = S j → thresholds !! j = Some t → t ≤ 1920 * 1080)).
Proof. split; [reflexivity|]. apply categorize_image_range. reflexivity. Defined.

(** C39: more pixels never give a lower tier. *)
Theorem categorize_image_monotone (w1 h1 w2 h2 : Z) :
  w1 * h1 ≤ w2 * h2 →
  ∃ t1 t2, tier (categorize_image w1 h1) = Some t1 ∧
           tier (categorize_image w2 h2) = Some t2 ∧ (t1 ≤ t2)%nat.
Proof.
  intros Hle. eexists _, _. rewrite !categorize_image_tier.
  eauto using tier_of_pixels_mono.
Qed.

Lemma categorize_image_monotone_witness :
  300 * 200 ≤ 1920 * 1080 ∧
  ∃ t1 t2, tier (categorize_image 300 200) = Some t1 ∧
           tier (categorize_image 1920 1080) = Some t2 ∧ (t1 ≤ t2)%nat.
Proof. split; [lia|]. apply categorize_image_monotone. lia. Defined.

(** A pixel count equal to a bound belongs to the tier above the bound,
    and one pixel less to the tier of the bound. *)
Theorem categorize_image_boundary (w h : Z) (i : nat) (t : Z) :
  thresholds !! i = Some t →
  (w * h = t → bucket_names !! S i = Some (categorize_image w h)) ∧
  (w * h = t - 1 → bucket_names !! i = Some (categorize_image w h)).
Proof.
  intros Hi.
  split; intros Hwh; rewrite <-categorize_image_lookup, Hwh;
    do 6 (destruct i as [|i]; [injection Hi as <-; reflexivity|]); done.
Qed.

Lemma categorize_image_boundary_witness :
  thresholds !! 0%nat = Some (480 * 360) ∧
  (480 * 360 = 480 * 360 → bucket_names !! 1%nat = Some (categorize_image 480 360)) ∧
  (1 * 172799 = 480 * 360 - 1 → bucket_names !! 0%nat = Some (categorize_image 1 172799)).
Proof.
  split; [reflexivity|].
  split; intros Hwh.
  - exact (proj1 (categorize_image_boundary 480 360 0 _ eq_refl) Hwh).
  - exact (proj2 (categorize_image_boundary 1 172799 0 _ eq_refl) Hwh).
Defined.

(** The bucket depends on the pixel count alone, so a portrait image and
    its landscape rotation are in the same bucket. *)
Theorem categorize_image_comm (w h : Z) :
  categorize_image w h = categorize_image h w.
Proof. unfold categorize_image. by rewrite (Z.mul_comm w h). Qed.

(** Sizes that are not positive, which no decoder reports, fall in the
    lowest bucket. *)
Lemma categorize_image_nonpositive (w h : Z) :
  w * h ≤ 0 → categorize_image w h = "Below 360p".
Proof.
  intros Hle. apply (categorize_image_tier_iff w h 0); [done|].
  apply tier_of_pixels_eq; [simpl; lia|].
  split; [|done]. intros t [= <-]. lia.
Qed.

(** The three sizes of the specification's example. *)
Example categorize_image_spec_example :
  categorize_image 4000 3000 = "4K or above" ∧
  categorize_image 1920 1080 = "1080p" ∧
  categorize_image 300 200 = "Below 360p".
Proof. by vm_compute. Qed.

(** The 16:9 frame of each named format is in the bucket of its name. *)
Example categorize_image_nominal :
  categorize_image 640 360 = "360p" ∧ categorize_image 854 480 = "480p" ∧
  categorize_image 1280 720 = "720p" ∧ categorize_image 1920 1080 = "1080p" ∧
  categorize_image 2560 1440 = "1440p" ∧ categorize_image 3840 2160 = "4K or above".
Proof. by vm_compute. Qed.

(** The bucket is decided by area, not by height: the 4:3 frames of
    height 480, 720 and 1080 are labelled one format lower than their
    height. *)
Theorem categorize_image_area_not_height :
  categorize_image 640 480 = "360p" ∧
  categorize_image 960 720 = "480p" ∧
  categorize_image 1440 1080 = "720p".
Proof. by vm_compute. Qed.
