(* ===== verification/PyDict.v ===== *)
(** * Python dictionaries

    The global [categorized] of [main.py] is a [dict] from category keys to
    lists.  A Python dictionary keeps its keys in insertion order, and the
    program depends on that order ([show_results] sorts the items with a
    stable sort), so a dictionary is modelled by the list of its items in
    insertion order, without duplicate keys ([dict_wf]).

    The operations are the ones the program calls: [dict_clear] for
    [d.clear()], [dict_contains] for [k in d], [dict_get] for the lookup
    behind [d[k]] and [dict_index] for the expression, which raises,
    [dict_setdefault] for [d.setdefault(k, v)], [dict_alter] for a mutation
    of the object stored under a key, [dict_items] for [d.items()].

    The abstract view of a dictionary is the finite map [dict_to_gmap]; the
    second half of the file proves that each operation implements the
    corresponding operation on finite maps. *)

From stdpp Require Import base tactics option list gmap.
From S2P Require Import Prelude.

(** ** Operations *)

Section dict.
Context {K V : Type} `{EqDecision K}.
Implicit Types (k : K) (v : V) (d : list (K * V)) (f : V → V).

(** [d[k]]; [None] stands for [KeyError]. *)
Fixpoint dict_get k d : option V :=
  match d with
  | [] => None
  | (k', v) :: d' => if decide (k = k') then Some v else dict_get k d'
  end.

(** [k in d]. *)
Definition dict_contains k d : bool :=
  match dict_get k d with Some _ => true | None => false end.

(** [d[k]] as an expression, which raises [KeyError] for an absent key. *)
Definition dict_index k d : outcome V :=
  match dict_get k d with Some v => Ok v | None => Raise KeyError end.

(** [d.clear()]. *)
Definition dict_clear d : list (K * V) := [].

(** [d.items()], in insertion order. *)
Definition dict_items d : list (K * V) := d.

(** [list(d)], the keys in insertion order. *)
Definition dict_keys d : list K := d.*1.

(** The dictionary after [d.setdefault(k, v)]: a key that is absent is
    added after every other key; a key that is present keeps its value and
    its place.  The call returns [d[k]] of the result. *)
Definition dict_setdefault k v d : list (K * V) :=
  if dict_contains k d then d else d ++ [(k, v)].

(** The dictionary after the object stored under [k] has been mutated by
    [f]; nothing changes when [k] is absent. *)
Fixpoint dict_alter f k d : list (K * V) :=
  match d with
  | [] => []
  | (k', v) :: d' =>
      if decide (k = k') then (k', f v) :: d' else (k', v) :: dict_alter f k d'
  end.

(** Keys are unique. *)
Definition dict_wf d : Prop := NoDup d.*1.

#[export] Instance dict_wf_dec d : Decision (dict_wf d).
Proof. unfold dict_wf. apply _. Defined.

(** ** Lookup *)

Lemma dict_get_None k d : dict_get k d = None ↔ k ∉ d.*1.
Proof.
  induction d as [|[k' v] d IH]; simpl.
  - split; [intros _; apply not_elem_of_nil|done].
  - rewrite not_elem_of_cons, <-IH. case_decide; [|tauto].
    split; [done|]. by intros [? _].
Qed.

Lemma dict_get_Some_elem k v d : dict_get k d = Some v → (k, v) ∈ d.
Proof.
  induction d as [|[k' v'] d IH]; simpl; [done|].
  case_decide; [intros [= ->]; subst; left|right; auto].
Qed.

Lemma dict_get_elem k v d : dict_wf d → (k, v) ∈ d → dict_get k d = Some v.
Proof.
  unfold dict_wf. induction d as [|[k' v'] d IH]; simpl.
  - by intros _ ?%elem_of_nil.
  - rewrite NoDup_cons, elem_of_cons. intros [Hk' Hd] [[= -> ->]|Hin].
    + by rewrite decide_True.
    + rewrite decide_False; [auto|].
      intros ->. apply Hk'. apply list_elem_of_fmap. by exists (k', v).
Qed.

Lemma dict_contains_true k d : dict_contains k d = true ↔ k ∈ d.*1.
Proof.
  unfold dict_contains. pose proof (dict_get_None k d) as [Hn1 Hn2].
  destruct (dict_get k d); split; try done.
  - intros _. destruct (decide (k ∈ d.*1)); [done|]. by specialize (Hn2 ltac:(done)).
  - intros Hk. by destruct Hn1.
Qed.

Lemma dict_contains_false k d : dict_contains k d = false ↔ k ∉ d.*1.
Proof.
  rewrite <-dict_contains_true.
  by destruct (dict_contains k d); split; try done; intros Hn; destruct Hn.
Qed.

Lemma dict_contains_is_Some k d :
  dict_contains k d = true ↔ is_Some (dict_get k d).
Proof.
  unfold dict_contains.
  destruct (dict_get k d); split; intros Hx;
    first [done | by eexists | by destruct Hx].
Qed.

Lemma dict_index_Ok k d v : dict_index k d = Ok v ↔ dict_get k d = Some v.
Proof.
  unfold dict_index. destruct (dict_get k d); split; (done || by intros [= ->]).
Qed.

(** ** [setdefault] *)

Lemma dict_setdefault_present k v d :
  k ∈ d.*1 → dict_setdefault k v d = d.
Proof. intros Hk%dict_contains_true. unfold dict_setdefault. by rewrite Hk. Qed.

Lemma dict_setdefault_absent k v d :
  k ∉ d.*1 → dict_setdefault k v d = d ++ [(k, v)].
Proof. intros Hk%dict_contains_false. unfold dict_setdefault. by rewrite Hk. Qed.

Lemma dict_get_app k d1 d2 :
  dict_get k (d1 ++ d2) =
    match dict_get k d1 with Some v => Some v | None => dict_get k d2 end.
Proof.
  induction d1 as [|[k' v'] d1 IH]; simpl; [done|]. by case_decide.
Qed.

Lemma dict_setdefault_get k v d :
  dict_get k (dict_setdefault k v d) = Some (default v (dict_get k d)).
Proof.
  unfold dict_setdefault, dict_contains.
  destruct (dict_get k d) as [v'|] eqn:Hk; simpl; [done|].
  rewrite dict_get_app, Hk. simpl. by rewrite decide_True.
Qed.

Lemma dict_setdefault_get_ne k k' v d :
  k ≠ k' → dict_get k' (dict_setdefault k v d) = dict_get k' d.
Proof.
  intros Hne. unfold dict_setdefault. destruct (dict_contains k d); [done|].
  rewrite dict_get_app. simpl. rewrite decide_False by done.
  by destruct (dict_get k' d).
Qed.

Lemma dict_setdefault_keys k v d :
  dict_keys (dict_setdefault k v d) =
    if dict_contains k d then dict_keys d else dict_keys d ++ [k].
Proof.
  unfold dict_setdefault, dict_keys. destruct (dict_contains k d); [done|].
  by rewrite fmap_app.
Qed.

Lemma dict_setdefault_wf k v d : dict_wf d → dict_wf (dict_setdefault k v d).
Proof.
  unfold dict_wf. intros Hd.
  destruct (decide (k ∈ d.*1)) as [Hk|Hk].
  - by rewrite dict_setdefault_present.
  - rewrite dict_setdefault_absent, fmap_app by done. simpl.
    apply NoDup_app. split_and!; [done| |apply NoDup_singleton].
    intros k' Hk' ->%list_elem_of_singleton. done.
Qed.

(** ** Mutation of a stored object *)

Lemma dict_alter_keys f k d : (dict_alter f k d).*1 = d.*1.
Proof.
  induction d as [|[k' v] d IH]; simpl; [done|].
  case_decide; simpl; by f_equal.
Qed.

Lemma dict_alter_wf f k d : dict_wf d → dict_wf (dict_alter f k d).
Proof. unfold dict_wf. by rewrite dict_alter_keys. Qed.

Lemma dict_alter_get f k d :
  dict_get k (dict_alter f k d) = f <$> dict_get k d.
Proof.
  induction d as [|[k' v] d IH]; simpl; [done|].
  case_decide; simpl; by rewrite ?decide_True, ?decide_False by done.
Qed.

Lemma dict_alter_get_ne f k k' d :
  k ≠ k' → dict_get k' (dict_alter f k d) = dict_get k' d.
Proof.
  intros Hne. induction d as [|[k'' v] d IH]; simpl; [done|].
  case_decide; simpl; [subst; by rewrite !decide_False by done|].
  by case_decide.
Qed.

Lemma dict_alter_absent f k d : k ∉ d.*1 → dict_alter f k d = d.
Proof.
  induction d as [|[k' v] d IH]; simpl; [done|].
  rewrite not_elem_of_cons. intros [Hne Hk].
  rewrite decide_False by done. f_equal. auto.
Qed.

Lemma dict_alter_app_l f k d1 d2 :
  k ∈ d1.*1 → dict_alter f k (d1 ++ d2) = dict_alter f k d1 ++ d2.
Proof.
  induction d1 as [|[k' v] d1 IH]; simpl; [by intros ?%elem_of_nil|].
  rewrite elem_of_cons. case_decide; [done|].
  intros [?|Hk]; [done|]. simpl. f_equal. auto.
Qed.

Lemma dict_alter_app_r f k d1 d2 :
  k ∉ d1.*1 → dict_alter f k (d1 ++ d2) = d1 ++ dict_alter f k d2.
Proof.
  induction d1 as [|[k' v] d1 IH]; simpl; [done|].
  rewrite not_elem_of_cons. intros [Hne Hk].
  rewrite decide_False by done. f_equal. auto.
Qed.

End dict.

(** ** Dictionaries of lists *)

Section dict_append.
Context {K X : Type} `{EqDecision K}.
Implicit Types (k : K) (x : X) (d : list (K * list X)).

(** The dictionary after [d.setdefault(k, []).append(x)]: [setdefault]
    returns the list stored under [k], after storing an empty one when there
    is none, and [append] mutates that list in place. *)
Definition dict_append k x d : list (K * list X) :=
  dict_alter (λ l, l ++ [x]) k (dict_setdefault k [] d).

Lemma dict_append_get k x d :
  dict_get k (dict_append k x d) = Some (default [] (dict_get k d) ++ [x]).
Proof.
  unfold dict_append. by rewrite dict_alter_get, dict_setdefault_get.
Qed.

Lemma dict_append_get_ne k k' x d :
  k ≠ k' → dict_get k' (dict_append k x d) = dict_get k' d.
Proof.
  intros Hne. unfold dict_append.
  by rewrite dict_alter_get_ne, dict_setdefault_get_ne.
Qed.

Lemma dict_append_keys k x d :
  (dict_append k x d).*1 = if decide (k ∈ d.*1) then d.*1 else d.*1 ++ [k].
Proof.
  unfold dict_append. rewrite dict_alter_keys. case_decide as Hk.
  - by rewrite dict_setdefault_present.
  - by rewrite dict_setdefault_absent, fmap_app.
Qed.

Lemma dict_append_wf k x d : dict_wf d → dict_wf (dict_append k x d).
Proof. intros Hd. by apply dict_alter_wf, dict_setdefault_wf. Qed.

(** What [dict_append] does to the items: the list under [k] grows at its
    end, or a new item with the one-element list is added at the end. *)
Lemma dict_append_items k x d :
  dict_append k x d =
    if decide (k ∈ d.*1) then dict_alter (λ l, l ++ [x]) k d else d ++ [(k, [x])].
Proof.
  unfold dict_append. case_decide as Hk.
  - by rewrite dict_setdefault_present.
  - rewrite dict_setdefault_absent, dict_alter_app_r by done.
    simpl. by rewrite decide_True.
Qed.

(** The entries of all lists together: [dict_append] adds one. *)
Lemma dict_append_concat k x d :
  concat (dict_append k x d).*2 ≡ₚ concat d.*2 ++ [x].
Proof.
  rewrite dict_append_items. case_decide as Hk.
  - induction d as [|[k' l] d IH]; simpl; [by apply elem_of_nil in Hk|].
    case_decide as Hkk'; simpl; [by rewrite <-!(assoc_L (++)), (comm (++) [x])|].
    apply elem_of_cons in Hk as [?|Hk]; [done|].
    by rewrite IH, (assoc_L (++)).
  - by rewrite fmap_app, concat_app; simpl.
Qed.

End dict_append.

#[export] Hint Resolve dict_setdefault_wf dict_alter_wf dict_append_wf : iqc.
#[export] Hint Rewrite @dict_setdefault_get @dict_alter_get @dict_alter_keys : iqc.

(** ** The abstract view: a finite map *)

Section dict_gmap.
Context `{Countable K} {V : Type}.
Implicit Types (k : K) (v : V) (d : list (K * V)) (f : V → V).

(** The finite map a dictionary denotes. *)
Definition dict_to_gmap d : gmap K V := list_to_map d.

Lemma dict_to_gmap_lookup k d : dict_to_gmap d !! k = dict_get k d.
Proof.
  unfold dict_to_gmap. induction d as [|[k' v] d IH]; simpl; [done|].
  case_decide; [subst; apply lookup_insert_eq|].
  by rewrite lookup_insert_ne.
Qed.

Lemma dict_to_gmap_clear d : dict_to_gmap (dict_clear d) = ∅.
Proof. reflexivity. Qed.

Lemma dict_to_gmap_dom d : dom (dict_to_gmap d) = list_to_set (dict_keys d).
Proof. apply dom_list_to_map_L. Qed.

Lemma dict_to_gmap_setdefault k v d :
  dict_to_gmap (dict_setdefault k v d) =
    <[k := default v (dict_to_gmap d !! k)]> (dict_to_gmap d).
Proof.
  apply map_eq; intros k'.
  rewrite (dict_to_gmap_lookup k' (dict_setdefault k v d)).
  destruct (decide (k = k')) as [<-|Hne].
  - by rewrite lookup_insert_eq, dict_to_gmap_lookup, dict_setdefault_get.
  - by rewrite lookup_insert_ne, dict_to_gmap_lookup, dict_setdefault_get_ne.
Qed.

Lemma dict_to_gmap_alter f k d :
  dict_to_gmap (dict_alter f k d) = alter f k (dict_to_gmap d).
Proof.
  apply map_eq; intros k'. rewrite dict_to_gmap_lookup.
  destruct (decide (k = k')) as [<-|Hne].
  - by rewrite lookup_alter_eq, dict_to_gmap_lookup, dict_alter_get.
  - by rewrite lookup_alter_ne, dict_to_gmap_lookup, dict_alter_get_ne.
Qed.

End dict_gmap.

Section dict_gmap_append.
Context `{Countable K} {X : Type}.
Implicit Types (k : K) (x : X) (d : list (K * list X)).

Lemma dict_to_gmap_append k x d :
  dict_to_gmap (dict_append k x d) =
    <[k := default [] (dict_to_gmap d !! k) ++ [x]]> (dict_to_gmap d).
Proof.
  apply map_eq; intros k'. rewrite (dict_to_gmap_lookup k' (dict_append k x d)).
  destruct (decide (k = k')) as [<-|Hne].
  - by rewrite lookup_insert_eq, dict_to_gmap_lookup, dict_append_get.
  - by rewrite lookup_insert_ne, dict_to_gmap_lookup, dict_append_get_ne.
Qed.

End dict_gmap_append.

#[export] Hint Rewrite @dict_to_gmap_lookup : iqc.
