(* ===== verification/PyPath.v ===== *)
(** * Strings and paths

    The string and path functions of the Python library that [main.py]
    calls, on byte strings: [os.path.basename] and [os.path.join] with the
    POSIX separator (the [posixpath] flavour of [os.path]; the [ntpath]
    flavour of Windows is in [NtPath]), [str.replace], [str.startswith] and
    the test that a path lies under a directory.  Each function is a
    structural recursion on the string, so it evaluates on concrete paths. *)

From Stdlib Require Import Ascii String.
From stdpp Require Import base tactics option list strings.
From S2P Require Import Prelude.

(** ** Definitions *)

(** The separator of [posixpath]. *)
Definition sep : ascii := "/"%char.

(** Whether a string contains a separator. *)
Fixpoint has_sep (s : string) : bool :=
  match s with
  | "" => false
  | String c s' => bool_decide (c = sep) || has_sep s'
  end.

(** [os.path.basename(p)]: what follows the last separator of [p], the
    whole of [p] when it has none.  [acc] is what follows the last separator
    seen so far. *)
Fixpoint basename_go (acc p : string) : string :=
  match p with
  | "" => acc
  | String c p' => if decide (c = sep) then basename_go p' p' else basename_go acc p'
  end.

Definition basename (p : string) : string := basename_go p p.

(** [s.startswith(pre)]. *)
Definition startswith (pre s : string) : bool := String.prefix pre s.

(** [s.endswith("/")]. *)
Fixpoint endswith_sep (s : string) : bool :=
  match s with
  | "" => false
  | String c "" => bool_decide (c = sep)
  | String _ s' => endswith_sep s'
  end.

(** [os.path.join(a, b)]: [b] when it is absolute, otherwise [a] and [b]
    with exactly one separator added between them unless [a] is empty or
    ends with one. *)
Definition join (a b : string) : string :=
  if startswith "/" b then b
  else if bool_decide (a = "") || endswith_sep a then a +:+ b
  else a +:+ "/" +:+ b.

(** Whether [old] occurs in [s]. *)
Fixpoint occurs (old s : string) : bool :=
  String.prefix old s ||
  match s with "" => false | String _ s' => occurs old s' end.

(** [s.replace(old, new)] for a non-empty [old]: every occurrence of [old],
    found from left to right without overlap, is replaced by [new].  [skip]
    counts the characters of the occurrence being replaced that are still to
    be dropped. *)
Fixpoint replace_go (old new : string) (skip : nat) (s : string) : string :=
  match s with
  | "" => ""
  | String c s' =>
      match skip with
      | S n => replace_go old new n s'
      | O =>
          if String.prefix old s
          then new +:+ replace_go old new (String.length old - 1) s'
          else String c (replace_go old new 0 s')
      end
  end.

(** [s.replace("", new)]: [new] before every character and at the end. *)
Fixpoint interleave (new s : string) : string :=
  match s with
  | "" => new
  | String c s' => new +:+ String c (interleave new s')
  end.

Definition str_replace (old new s : string) : string :=
  match old with
  | "" => interleave new s
  | _ => replace_go old new 0 s
  end.

(** What follows [pre] in [s], when [s] starts with [pre]. *)
Fixpoint strip_prefix (pre s : string) : option string :=
  match pre, s with
  | "", _ => Some s
  | String a pre', String b s' =>
      if decide (a = b) then strip_prefix pre' s' else None
  | String _ _, "" => None
  end.

(** The name of the path [p] relative to the directory [dir], when [p] lies
    strictly under [dir]. *)
Definition relpath (dir p : string) : option string :=
  match strip_prefix (dir +:+ "/") p with
  | Some "" | None => None
  | Some r => Some r
  end.

(** Whether the path [p] lies under the directory [dir]: it starts with
    [dir] and a separator. *)
Definition is_under (dir p : string) : bool := startswith (dir +:+ "/") p.

(** ** Append *)

Lemma app_nil_l_s (s : string) : "" +:+ s = s.
Proof. reflexivity. Qed.

Lemma app_cons_s (c : ascii) (s t : string) :
  String c s +:+ t = String c (s +:+ t).
Proof. reflexivity. Qed.

Lemma app_nil_r_s (s : string) : s +:+ "" = s.
Proof. induction s as [|c s IH]; [done|]. by rewrite app_cons_s, IH. Qed.

Lemma app_assoc_s (s t u : string) : (s +:+ t) +:+ u = s +:+ t +:+ u.
Proof. induction s as [|c s IH]; [done|]. by rewrite !app_cons_s, IH. Qed.

Lemma app_length_s (s t : string) :
  String.length (s +:+ t) = String.length s + String.length t.
Proof. induction s as [|c s IH]; [done|]. rewrite app_cons_s. simpl. by rewrite IH. Qed.

Lemma app_inv_head_s (s t u : string) : s +:+ t = s +:+ u → t = u.
Proof.
  induction s as [|c s IH]; [done|]. rewrite !app_cons_s. intros [= ?]. auto.
Qed.

#[export] Hint Rewrite app_nil_l_s app_cons_s app_nil_r_s app_assoc_s : iqc.

(** ** Prefixes *)

Lemma prefix_nil (s : string) : String.prefix "" s = true.
Proof. by destruct s. Qed.

Lemma prefix_cons (a b : ascii) (s t : string) :
  String.prefix (String a s) (String b t) =
    if decide (a = b) then String.prefix s t else false.
Proof. simpl. destruct (ascii_dec a b); by case_decide. Qed.

Lemma prefix_app (s t : string) : String.prefix s (s +:+ t) = true.
Proof.
  induction s as [|c s IH]; [apply prefix_nil|].
  by rewrite app_cons_s, prefix_cons, decide_True.
Qed.

Lemma prefix_true (s t : string) :
  String.prefix s t = true ↔ ∃ u, t = s +:+ u.
Proof.
  split; [|intros [u ->]; apply prefix_app].
  revert t. induction s as [|c s IH]; intros t; [by exists t|].
  destruct t as [|d t]; [done|]. rewrite prefix_cons.
  case_decide as Hcd; [|done]. subst d. intros [u ->]%IH. by exists u.
Qed.

Lemma strip_prefix_Some (pre s u : string) :
  strip_prefix pre s = Some u ↔ s = pre +:+ u.
Proof.
  revert s. induction pre as [|a pre IH]; intros s; simpl.
  - rewrite app_nil_l_s. split; [by intros [= ->]|by intros ->].
  - destruct s as [|b s]; [done|]. rewrite app_cons_s. case_decide as Hab.
    + subst b. rewrite IH. split; [by intros ->|by intros [= ->]].
    + split; [done|]. by intros [= -> _].
Qed.

Lemma strip_prefix_app (pre u : string) : strip_prefix pre (pre +:+ u) = Some u.
Proof. by apply strip_prefix_Some. Qed.

(** ** [basename] and [join] *)

Lemma basename_go_no_sep (acc p : string) :
  has_sep p = false → basename_go acc p = acc.
Proof.
  revert acc. induction p as [|c p IH]; intros acc; simpl; [done|].
  case_decide as Hc.
  - by rewrite bool_decide_eq_true_2.
  - rewrite bool_decide_eq_false_2 by done. apply IH.
Qed.

Lemma basename_no_sep (p : string) : has_sep p = false → basename p = p.
Proof. apply basename_go_no_sep. Qed.

Lemma basename_go_app_sep (acc d f : string) :
  has_sep f = false → basename_go acc (d +:+ String sep f) = f.
Proof.
  intros Hf. revert acc. induction d as [|c d IH]; intros acc.
  - rewrite app_nil_l_s. simpl. by apply basename_go_no_sep.
  - rewrite app_cons_s. simpl. case_decide; apply IH.
Qed.

Lemma basename_app_sep (d f : string) :
  has_sep f = false → basename (d +:+ String sep f) = f.
Proof. apply basename_go_app_sep. Qed.

Lemma basename_go_sep_free (acc p : string) :
  (has_sep p = false → has_sep acc = false) →
  has_sep (basename_go acc p) = false.
Proof.
  revert acc. induction p as [|c p IH]; intros acc Hacc; simpl; [by apply Hacc|].
  case_decide as Hc; [by apply IH|].
  apply IH. intros Hp. apply Hacc. simpl.
  by rewrite bool_decide_eq_false_2, Hp.
Qed.

(** A base name contains no separator. *)
Lemma basename_sep_free (p : string) : has_sep (basename p) = false.
Proof. by apply basename_go_sep_free. Qed.

Lemma join_relative (a b : string) :
  a ≠ "" → endswith_sep a = false → startswith "/" b = false →
  join a b = a +:+ String sep b.
Proof.
  intros Ha Hend Hb. unfold join. rewrite Hb, Hend, bool_decide_eq_false_2 by done.
  done.
Qed.

Lemma startswith_sep_no_sep (b : string) :
  has_sep b = false → startswith "/" b = false.
Proof.
  destruct b as [|c b]; [done|]. intros Hb. unfold startswith.
  rewrite prefix_cons. simpl in Hb. apply orb_false_elim in Hb as [Hc _].
  apply bool_decide_eq_false in Hc. rewrite decide_False; [done|]. by intros <-.
Qed.

Lemma endswith_sep_inv (a : string) :
  endswith_sep a = true → ∃ a', a = a' +:+ "/".
Proof.
  induction a as [|c a IH]; [done|]. simpl. destruct a as [|c' a].
  - intros ->%bool_decide_eq_true. by exists "".
  - intros [a' Ha']%IH. exists (String c a'). by rewrite app_cons_s, <-Ha'.
Qed.

(** The name of a file that [join] puts in a directory is found again by
    [basename]. *)
Lemma basename_join (a b : string) :
  has_sep b = false → basename (join a b) = b.
Proof.
  intros Hb. unfold join. rewrite startswith_sep_no_sep by done.
  destruct (bool_decide (a = "") || endswith_sep a) eqn:Ha.
  - apply orb_true_iff in Ha as [->%bool_decide_eq_true|[a' ->]%endswith_sep_inv].
    + by apply basename_no_sep.
    + rewrite app_assoc_s. by apply basename_app_sep.
  - by apply basename_app_sep.
Qed.

#[export] Hint Resolve basename_sep_free startswith_sep_no_sep : iqc.
#[export] Hint Rewrite basename_join using done : iqc.

(** ** Paths under a directory *)

Lemma relpath_Some (dir p r : string) :
  relpath dir p = Some r ↔ r ≠ "" ∧ p = dir +:+ "/" +:+ r.
Proof.
  unfold relpath. destruct (strip_prefix _ p) as [u|] eqn:Hu.
  - apply strip_prefix_Some in Hu. rewrite app_assoc_s in Hu. subst p.
    destruct u as [|c u]; split; try done.
    + by intros [? ?%app_inv_head_s%app_inv_head_s].
    + by intros [= <-].
    + by intros [_ <-%app_inv_head_s%app_inv_head_s].
  - split; [done|]. intros [_ ->].
    by rewrite <-app_assoc_s, strip_prefix_app in Hu.
Qed.

Lemma is_under_true (dir p : string) :
  is_under dir p = true ↔ ∃ r, p = dir +:+ "/" +:+ r.
Proof.
  unfold is_under, startswith. rewrite prefix_true.
  by setoid_rewrite app_assoc_s.
Qed.

Lemma is_under_child (dir r : string) : is_under dir (dir +:+ "/" +:+ r) = true.
Proof. apply is_under_true. eauto. Qed.

Lemma is_under_self (dir : string) : is_under dir dir = false.
Proof.
  apply not_true_is_false. intros [r Heq]%is_under_true.
  apply (f_equal String.length) in Heq. rewrite !app_length_s in Heq.
  simpl in Heq. lia.
Qed.

(** What [join] puts in a directory is under it. *)
Lemma is_under_join (dir b : string) :
  dir ≠ "" → endswith_sep dir = false → startswith "/" b = false →
  join dir b = dir +:+ "/" +:+ b ∧ is_under dir (join dir b) = true.
Proof.
  intros Hdir Hend Hb. rewrite (join_relative dir b) by done.
  split; [done|apply is_under_child].
Qed.

(** ** Trailing separators *)

Lemma endswith_sep_app (a b : string) :
  b ≠ "" → endswith_sep (a +:+ b) = endswith_sep b.
Proof.
  intros Hb. induction a as [|c a IH]; [done|].
  rewrite app_cons_s. simpl. destruct (a +:+ b) eqn:Hab; [|done].
  destruct a, b; done.
Qed.

Lemma endswith_sep_has_sep (b : string) : endswith_sep b = true → has_sep b = true.
Proof.
  induction b as [|c b IH]; [done|]. simpl. destruct b as [|c' b].
  - intros ->. done.
  - intros Hb. rewrite IH by done. apply orb_true_r.
Qed.

Lemma endswith_sep_child (dir name : string) :
  name ≠ "" → has_sep name = false → endswith_sep (dir +:+ "/" +:+ name) = false.
Proof.
  intros Hne Hsep. rewrite <-app_assoc_s, endswith_sep_app by done.
  apply not_true_is_false. intros Hend%endswith_sep_has_sep. congruence.
Qed.

(** ** [str.replace] *)

Lemma occurs_cons (old : string) (c : ascii) (s : string) :
  occurs old (String c s) = String.prefix old (String c s) || occurs old s.
Proof. reflexivity. Qed.

(** With nothing left to skip, a string in which [old] does not occur is
    left as it is. *)
Lemma replace_go_absent (old new s : string) :
  occurs old s = false → replace_go old new 0 s = s.
Proof.
  induction s as [|c s IH]; [done|]. rewrite occurs_cons.
  intros [Hp Hs]%orb_false_elim. cbn [replace_go]. by rewrite Hp, IH.
Qed.

(** The characters of an occurrence that are still to be dropped. *)
Lemma replace_go_skip (old new s t : string) :
  replace_go old new (String.length s) (s +:+ t) = replace_go old new 0 t.
Proof.
  induction s as [|c s IH]; [done|]. rewrite app_cons_s. by cbn [replace_go String.length].
Qed.

(** An occurrence of [".zip"] that starts in [stem] and ends in the
    appended [".zip"] would make the two overlap, which the characters of
    [".zip"] do not allow. *)
Lemma prefix_zip_stem (stem : string) :
  stem ≠ "" → String.prefix ".zip" (stem +:+ ".zip") = String.prefix ".zip" stem.
Proof.
  intros Hne.
  destruct stem as [|c1 [|c2 [|c3 [|c4 stem]]]]; [done|..];
    rewrite ?app_cons_s, ?app_nil_l_s, ?prefix_cons, ?prefix_nil;
    repeat case_decide; simplify_eq; done.
Qed.

Lemma replace_go_zip_suffix (stem : string) :
  occurs ".zip" stem = false → replace_go ".zip" "" 0 (stem +:+ ".zip") = stem.
Proof.
  induction stem as [|c stem IH].
  - intros _. reflexivity.
  - rewrite occurs_cons. intros [Hp Hs]%orb_false_elim.
    rewrite app_cons_s. cbn [replace_go].
    rewrite <-app_cons_s, prefix_zip_stem, Hp by done.
    by rewrite IH.
Qed.

Lemma str_replace_absent (old new s : string) :
  old ≠ "" → occurs old s = false → str_replace old new s = s.
Proof. destruct old; [done|]. intros _. apply replace_go_absent. Qed.

(** The name that [make_archive] is given leads back to the chosen path
    when [".zip"] occurs in it only as its extension. *)
Lemma str_replace_zip_suffix (stem : string) :
  occurs ".zip" stem = false → str_replace ".zip" "" (stem +:+ ".zip") = stem.
Proof. intros Hs. unfold str_replace. by rewrite replace_go_zip_suffix. Qed.
