(* ===== verification/PathNorm.v ===== *)
(** * Directory names and normal paths

    The path functions of [posixpath] that the library calls of [main.py]
    run on the path of an archive: [os.path.dirname], and [os.path.abspath]
    with the [os.path.normpath] it ends with ([shutil.make_archive] makes the
    base name of the archive absolute and creates its directory when it is
    missing).  [normpath] is the loop of the library on the components of
    the path: empty components and ["."] are dropped, [".."] removes the
    component before it.

    [ancestors] lists the directories above a path, the outermost first;
    the root is not one of them.  A path is [tidy] when its directory part
    is written without a doubled or trailing separator; [normpath] returns
    tidy paths, and on a tidy path the directories above it are the
    directories above its [dirname], then the [dirname]. *)

From Stdlib Require Import Ascii String Sorting.Sorted.
From stdpp Require Import base tactics option list strings sorting.
From S2P Require Import Prelude PyPath.

(** ** Definitions *)

(** [s == sep * len(s)]: every character of [s] is a separator. *)
Fixpoint all_sep (s : string) : bool :=
  match s with
  | "" => true
  | String c s' => bool_decide (c = sep) && all_sep s'
  end.

(** [p[:p.rfind(sep) + 1]]: [p] up to its last separator. *)
Fixpoint dir_part (p : string) : string :=
  match p with
  | "" => ""
  | String c p' => if has_sep p then String c (dir_part p') else ""
  end.

(** [s.rstrip(sep)]. *)
Fixpoint rstrip_sep (s : string) : string :=
  match s with
  | "" => ""
  | String c s' => if all_sep s then "" else String c (rstrip_sep s')
  end.

(** [os.path.dirname(p)]: the directory part without its trailing
    separators, unless it consists of separators only. *)
Definition dirname (p : string) : string :=
  let head := dir_part p in
  if negb (bool_decide (head = "")) && negb (all_sep head) then rstrip_sep head
  else head.

(** [p.split(sep)]. *)
Fixpoint split_sep (p : string) : list string :=
  match p with
  | "" => [""]
  | String c p' =>
      if bool_decide (c = sep) then "" :: split_sep p'
      else match split_sep p' with
           | comp :: comps => String c comp :: comps
           | [] => [String c ""]
           end
  end.

(** [sep.join(comps)]. *)
Fixpoint join_sep (comps : list string) : string :=
  match comps with
  | [] => ""
  | [comp] => comp
  | comp :: comps' => comp +:+ "/" +:+ join_sep comps'
  end.

(** [sep * n]. *)
Fixpoint seps (n : nat) : string :=
  match n with
  | O => ""
  | S n' => String sep (seps n')
  end.

(** The number of initial slashes that [normpath] keeps: one, or two when
    the path starts with exactly two. *)
Definition initial_slashes (path : string) : nat :=
  if startswith "/" path then
    if startswith "//" path && negb (startswith "///" path) then 2 else 1
  else 0.

(** One round of the loop of [normpath] on the component [comp]; [stack]
    is [new_comps] with its last component first. *)
Definition norm_step (initial : nat) (stack : list string) (comp : string) :
    list string :=
  if bool_decide (comp = "") || bool_decide (comp = ".") then stack
  else if negb (bool_decide (comp = ".."))
          || (bool_decide (initial = 0) && bool_decide (stack = []))
          || bool_decide (head stack = Some "..")
  then comp :: stack
  else tail stack.

(** [os.path.normpath(path)]. *)
Definition normpath (path : string) : string :=
  if bool_decide (path = "") then "."
  else
    let initial := initial_slashes path in
    let comps := reverse (foldl (norm_step initial) [] (split_sep path)) in
    let path := seps initial +:+ join_sep comps in
    if bool_decide (path = "") then "." else path.

(** [os.path.abspath(path)] on an absolute path.  A relative path stays
    relative to the working directory, which the program never changes. *)
Definition abspath (path : string) : string := normpath path.

(** The proper ancestors of a path, from the outermost on: for
    ["/a/b/c"], ["/a"] and ["/a/b"].  [pre] is the part of the path that has
    been read; the root is not listed. *)
Fixpoint ancestors_go (pre p : string) : list string :=
  match p with
  | "" => []
  | String c p' =>
      (if bool_decide (c = sep) && negb (all_sep pre) then [pre] else [])
      ++ ancestors_go (pre +:+ String c "") p'
  end.

Definition ancestors (path : string) : list string := ancestors_go "" path.

(** A component of a normal path: not empty, without a separator. *)
Definition comp_ok (comp : string) : Prop := comp ≠ "" ∧ has_sep comp = false.

(** A path whose directory part has no doubled and no trailing separator:
    a name at the top, or a name in a directory that is not the root. *)
Inductive tidy : string → Prop :=
| tidy_top pre name :
    all_sep pre = true → has_sep name = false → tidy (pre +:+ name)
| tidy_child dir name :
    all_sep dir = false → endswith_sep dir = false → has_sep name = false →
    tidy (dir +:+ "/" +:+ name).

(** A component that the loop of [normpath] keeps. *)
Definition kept (comp : string) : Prop :=
  comp ≠ "" ∧ comp ≠ "." ∧ has_sep comp = false.

(** Below a [".."] of the stack there are only [".."]. *)
Fixpoint dots_below (stack : list string) : Prop :=
  match stack with
  | [] => True
  | comp :: stack' => (comp = ".." → Forall (λ c, c = "..") stack') ∧ dots_below stack'
  end.

(** The stacks of the loop: kept components, [".."] only at the bottom and
    only in a relative path. *)
Definition stack_ok (initial : nat) (stack : list string) : Prop :=
  Forall kept stack ∧ dots_below stack ∧ (".." ∈ stack → initial = 0).

(** ** Separators *)

Lemma has_sep_app (a b : string) : has_sep (a +:+ b) = has_sep a || has_sep b.
Proof.
  induction a as [|c a IH]; [done|]. rewrite app_cons_s. simpl.
  by rewrite IH, orb_assoc.
Qed.

Lemma all_sep_app (a b : string) : all_sep (a +:+ b) = all_sep a && all_sep b.
Proof.
  induction a as [|c a IH]; [done|]. rewrite app_cons_s. simpl.
  by rewrite IH, andb_assoc.
Qed.

Lemma all_sep_endswith (s : string) :
  all_sep s = true → s ≠ "" → endswith_sep s = true.
Proof.
  induction s as [|c s IH]; [done|]. simpl.
  intros [Hc Hs]%andb_true_iff _. destruct s as [|c' s]; [done|]. by apply IH.
Qed.

(** A path that is a directory name, as the dialogs and [mkdtemp] give
    them, is not the root. *)
Lemma all_sep_no_end (s : string) :
  s ≠ "" → endswith_sep s = false → all_sep s = false.
Proof.
  intros Hs Hend. apply not_true_is_false. intros Hall.
  by rewrite all_sep_endswith in Hend.
Qed.

Lemma comp_ok_all_sep (comp rest : string) :
  comp_ok comp → all_sep (comp +:+ rest) = false.
Proof.
  intros [Hne Hsep]. destruct comp as [|c comp]; [done|].
  simpl in *. apply orb_false_elim in Hsep as [-> _]. done.
Qed.

Lemma all_sep_seps (n : nat) : all_sep (seps n) = true.
Proof. induction n as [|n IH]; [done|]. simpl. by rewrite IH. Qed.

(** ** [dirname] *)

Lemma dir_part_cons (c : ascii) (p : string) :
  dir_part (String c p) = if has_sep (String c p) then String c (dir_part p) else "".
Proof. reflexivity. Qed.

Lemma rstrip_sep_cons (c : ascii) (s : string) :
  rstrip_sep (String c s) = if all_sep (String c s) then "" else String c (rstrip_sep s).
Proof. reflexivity. Qed.

Lemma dir_part_no_sep (p : string) : has_sep p = false → dir_part p = "".
Proof. destruct p as [|c p]; [done|]. simpl. by intros ->. Qed.

Lemma dir_part_app_sep (d name : string) :
  has_sep name = false → dir_part (d +:+ "/" +:+ name) = d +:+ "/".
Proof.
  intros Hname. induction d as [|c d IH].
  - rewrite !app_nil_l_s. simpl. by rewrite dir_part_no_sep.
  - rewrite app_cons_s, dir_part_cons, IH. simpl. rewrite has_sep_app. simpl.
    by rewrite !orb_true_r.
Qed.

Lemma dir_part_top (pre name : string) :
  all_sep pre = true → has_sep name = false → dir_part (pre +:+ name) = pre.
Proof.
  intros Hpre Hname. induction pre as [|c pre IH].
  - by apply dir_part_no_sep.
  - simpl in Hpre. apply andb_true_iff in Hpre as [Hc Hpre].
    rewrite app_cons_s. simpl. by rewrite Hc, IH.
Qed.

(** A suffix without a separator does not change the directory. *)
Lemma dir_part_app (p x : string) : has_sep x = false → dir_part (p +:+ x) = dir_part p.
Proof.
  intros Hx. induction p as [|c p IH]; [by apply dir_part_no_sep|].
  rewrite app_cons_s. simpl. by rewrite has_sep_app, Hx, orb_false_r, IH.
Qed.

Lemma dirname_app (p x : string) : has_sep x = false → dirname (p +:+ x) = dirname p.
Proof. intros Hx. unfold dirname. by rewrite dir_part_app. Qed.

Lemma rstrip_sep_snoc (d : string) : rstrip_sep (d +:+ "/") = rstrip_sep d.
Proof.
  induction d as [|c d IH]; [done|].
  rewrite app_cons_s, !rstrip_sep_cons, IH. simpl. rewrite all_sep_app. simpl.
  by rewrite andb_true_r.
Qed.

Lemma rstrip_sep_id (d : string) : endswith_sep d = false → rstrip_sep d = d.
Proof.
  induction d as [|c d IH]; [done|]. intros Hend. rewrite rstrip_sep_cons.
  destruct (all_sep (String c d)) eqn:Hall.
  - by rewrite all_sep_endswith in Hend.
  - destruct d as [|c' d]; [done|]. by rewrite IH.
Qed.

Lemma dirname_child (dir name : string) :
  all_sep dir = false → endswith_sep dir = false → has_sep name = false →
  dirname (dir +:+ "/" +:+ name) = dir.
Proof.
  intros Hdir Hend Hname. unfold dirname. rewrite dir_part_app_sep by done.
  rewrite all_sep_app, Hdir. simpl.
  rewrite bool_decide_eq_false_2 by (by destruct dir). simpl.
  by rewrite rstrip_sep_snoc, rstrip_sep_id.
Qed.

Lemma dirname_top (pre name : string) :
  all_sep pre = true → has_sep name = false → dirname (pre +:+ name) = pre.
Proof.
  intros Hpre Hname. unfold dirname. rewrite dir_part_top by done.
  by rewrite Hpre, andb_false_r.
Qed.

(** ** Components *)

Lemma split_sep_sep_free (p : string) :
  Forall (λ comp, has_sep comp = false) (split_sep p).
Proof.
  induction p as [|c p IH]; simpl; [by repeat constructor|].
  case_bool_decide as Hc; [by constructor|].
  destruct (split_sep p) as [|comp comps].
  - repeat constructor. simpl. by rewrite bool_decide_eq_false_2.
  - apply Forall_cons in IH as [Hcomp Hcomps]. constructor; [|done].
    simpl. by rewrite bool_decide_eq_false_2.
Qed.

Lemma norm_step_ok (initial : nat) (stack : list string) (comp : string) :
  Forall comp_ok stack → has_sep comp = false →
  Forall comp_ok (norm_step initial stack comp).
Proof.
  intros Hstack Hcomp. unfold norm_step.
  case_bool_decide as Hempty; [done|]. simpl.
  destruct (bool_decide (comp = ".")); [done|].
  destruct (_ || _); [by constructor|].
  destruct Hstack; [constructor|done].
Qed.

Lemma foldl_norm_step_ok (initial : nat) (comps stack : list string) :
  Forall comp_ok stack → Forall (λ comp, has_sep comp = false) comps →
  Forall comp_ok (foldl (norm_step initial) stack comps).
Proof.
  intros Hstack Hcomps. revert stack Hstack.
  induction Hcomps as [|comp comps Hcomp _ IH]; intros stack Hstack; [done|].
  simpl. by apply IH, norm_step_ok.
Qed.

Lemma join_sep_snoc (comps : list string) (comp : string) :
  comps ≠ [] → join_sep (comps ++ [comp]) = join_sep comps +:+ "/" +:+ comp.
Proof.
  induction comps as [|c comps IH]; [done|]. intros _.
  destruct comps as [|c' comps]; [done|].
  change (join_sep ((c :: c' :: comps) ++ [comp])) with
    (c +:+ "/" +:+ join_sep ((c' :: comps) ++ [comp])).
  rewrite IH by done.
  change (join_sep (c :: c' :: comps)) with (c +:+ "/" +:+ join_sep (c' :: comps)).
  by rewrite !app_assoc_s.
Qed.

Lemma join_sep_all_sep (comps : list string) :
  comps ≠ [] → Forall comp_ok comps → all_sep (join_sep comps) = false.
Proof.
  intros Hne Hcomps. destruct Hcomps as [|comp comps Hcomp _]; [done|].
  destruct comps as [|comp' comps]; [|by apply comp_ok_all_sep].
  rewrite <-(app_nil_r_s (join_sep _)). by apply comp_ok_all_sep.
Qed.

Lemma comp_ok_endswith (pre comp : string) :
  comp_ok comp → endswith_sep (pre +:+ comp) = false.
Proof.
  intros [Hne Hsep]. rewrite endswith_sep_app by done.
  apply not_true_is_false. intros Hend%endswith_sep_has_sep. congruence.
Qed.

(** What [normpath] builds from its components is tidy. *)
Lemma tidy_join_sep (pre : string) (comps : list string) :
  all_sep pre = true → Forall comp_ok comps → tidy (pre +:+ join_sep comps).
Proof.
  intros Hpre Hcomps.
  destruct comps as [|comp comps _] using rev_ind; [by constructor|].
  apply Forall_app in Hcomps as [Hcomps [[Hne Hsep] _]%Forall_cons].
  destruct (decide (comps = [])) as [->|Hcomps_ne]; [by constructor|].
  rewrite join_sep_snoc, <-app_assoc_s by done. constructor; [|  |done].
  - by rewrite all_sep_app, join_sep_all_sep, andb_false_r.
  - destruct comps as [|comp' comps _] using rev_ind; [done|].
    apply Forall_app in Hcomps as [_ [Hcomp' _]%Forall_cons].
    destruct (decide (comps = [])) as [->|Hne'].
    + by apply comp_ok_endswith.
    + rewrite join_sep_snoc, <-!app_assoc_s by done. by apply comp_ok_endswith.
Qed.

Lemma tidy_normpath (path : string) : tidy (normpath path).
Proof.
  unfold normpath. case_bool_decide; [by apply (tidy_top "" ".")|].
  case_bool_decide; [by apply (tidy_top "" ".")|].
  apply tidy_join_sep; [apply all_sep_seps|].
  apply Forall_reverse, foldl_norm_step_ok; [constructor|apply split_sep_sep_free].
Qed.

(** A suffix without a separator keeps a path tidy. *)
Lemma tidy_app (p x : string) : tidy p → has_sep x = false → tidy (p +:+ x).
Proof.
  intros Hp Hx. destruct Hp as [pre name Hpre Hname|dir name Hdir Hend Hname].
  - rewrite app_assoc_s. constructor; [done|]. by rewrite has_sep_app, Hname, Hx.
  - rewrite !app_assoc_s. constructor; [done..|]. by rewrite has_sep_app, Hname, Hx.
Qed.

(** ** The directories above a path *)

Lemma ancestors_go_app (pre a b : string) :
  ancestors_go pre (a +:+ b) = ancestors_go pre a ++ ancestors_go (pre +:+ a) b.
Proof.
  revert pre. induction a as [|c a IH]; intros pre.
  - by rewrite app_nil_l_s, app_nil_r_s.
  - rewrite app_cons_s. simpl. rewrite IH, <-(assoc_L (++)).
    by rewrite app_assoc_s.
Qed.

Lemma ancestors_go_no_sep (pre p : string) : has_sep p = false → ancestors_go pre p = [].
Proof.
  revert pre. induction p as [|c p IH]; intros pre; simpl; [done|].
  intros [Hc Hp]%orb_false_elim. by rewrite Hc, IH.
Qed.

Lemma ancestors_go_all_sep (pre p : string) :
  all_sep pre = true → all_sep p = true → ancestors_go pre p = [].
Proof.
  revert pre. induction p as [|c p IH]; intros pre Hpre; simpl; [done|].
  intros [Hc Hp]%andb_true_iff. rewrite Hpre, andb_false_r. simpl.
  apply IH; [|done]. rewrite all_sep_app, Hpre. simpl. by rewrite Hc.
Qed.

Lemma ancestors_child (dir name : string) :
  all_sep dir = false → has_sep name = false →
  ancestors (dir +:+ "/" +:+ name) = ancestors dir ++ [dir].
Proof.
  intros Hdir Hname. unfold ancestors.
  rewrite ancestors_go_app, app_nil_l_s. f_equal. simpl.
  by rewrite Hdir, ancestors_go_no_sep.
Qed.

Lemma ancestors_top (pre name : string) :
  all_sep pre = true → has_sep name = false → ancestors (pre +:+ name) = [].
Proof.
  intros Hpre Hname. unfold ancestors.
  by rewrite ancestors_go_app, ancestors_go_all_sep, ancestors_go_no_sep.
Qed.

Lemma elem_of_ancestors_go (pre p a : string) :
  a ∈ ancestors_go pre p ↔
  all_sep a = false ∧ ∃ x r, p = x +:+ "/" +:+ r ∧ a = pre +:+ x.
Proof.
  revert pre. induction p as [|c p IH]; intros pre; simpl.
  - rewrite elem_of_nil. split; [done|]. intros (_ & x & r & Hp & _).
    by destruct x.
  - rewrite elem_of_app, IH. split.
    + intros [Hhead|(Ha & x & r & -> & ->)].
      * destruct (bool_decide (c = sep)) eqn:Hc; [|by apply elem_of_nil in Hhead].
        destruct (all_sep pre) eqn:Hpre; [by apply elem_of_nil in Hhead|].
        apply list_elem_of_singleton in Hhead as ->.
        apply bool_decide_eq_true in Hc as ->.
        split; [done|]. exists "", p. by rewrite app_nil_r_s.
      * split; [done|]. exists (String c x), r. by rewrite app_assoc_s.
    + intros (Ha & x & r & Hp & ->). destruct x as [|c' x].
      * left. rewrite app_nil_r_s in Ha. injection Hp as -> _.
        rewrite Ha, bool_decide_eq_true_2, app_nil_r_s by done.
        by apply list_elem_of_singleton.
      * right. injection Hp as -> ->. split; [done|].
        exists x, r. by rewrite app_assoc_s.
Qed.

(** The directories above a path are its prefixes that end before a
    separator, the root apart. *)
Lemma elem_of_ancestors (p a : string) :
  a ∈ ancestors p ↔ all_sep a = false ∧ ∃ r, p = a +:+ "/" +:+ r.
Proof.
  unfold ancestors. rewrite elem_of_ancestors_go. split.
  - intros (Ha & x & r & -> & ->). eauto.
  - intros (Ha & r & ->). eauto.
Qed.

Lemma ancestors_under (p a : string) : a ∈ ancestors p → is_under a p = true.
Proof. intros (_ & r & ->)%elem_of_ancestors. apply is_under_child. Qed.

Lemma ancestors_length (p a : string) :
  a ∈ ancestors p → String.length a < String.length p.
Proof.
  intros (_ & r & ->)%elem_of_ancestors. rewrite !app_length_s. simpl. lia.
Qed.

Lemma ancestors_trans (p a b : string) :
  b ∈ ancestors a → a ∈ ancestors p → b ∈ ancestors p.
Proof.
  rewrite !elem_of_ancestors. intros (Hb & r1 & ->) (_ & r2 & ->).
  split; [done|]. exists (r1 +:+ "/" +:+ r2). by rewrite !app_assoc_s.
Qed.

(** What lies above a path under [dir] is [dir], above [dir] or under
    [dir]. *)
Lemma is_under_trans (dir a p : string) :
  is_under dir a = true → is_under a p = true → is_under dir p = true.
Proof.
  rewrite !is_under_true. intros [r1 ->] [r2 ->].
  exists (r1 +:+ "/" +:+ r2). by rewrite !app_assoc_s.
Qed.

(** The directories above a path, then the path, are in the order in which
    they contain each other. *)
Lemma ancestors_go_sorted (pre p : string) :
  StronglySorted (λ a b, a ∈ ancestors b) (ancestors_go pre p ++ [pre +:+ p]).
Proof.
  revert pre. induction p as [|c p IH]; intros pre; simpl; [repeat constructor|].
  replace (pre +:+ String c p) with ((pre +:+ String c "") +:+ p)
    by by rewrite app_assoc_s.
  rewrite <-(assoc_L (++)).
  destruct (bool_decide (c = sep) && negb (all_sep pre)) eqn:Hc; [|apply IH].
  apply andb_true_iff in Hc as [->%bool_decide_eq_true Hpre%negb_true_iff].
  apply StronglySorted_cons. split; [|apply IH].
  apply Forall_forall. intros b Hb. apply elem_of_ancestors. split; [done|].
  apply elem_of_app in Hb as [(_ & x & r & -> & ->)%elem_of_ancestors_go|
                               ->%list_elem_of_singleton].
  - exists x. by rewrite !app_assoc_s.
  - exists p. by rewrite !app_assoc_s.
Qed.

Lemma ancestors_sorted (p : string) :
  StronglySorted (λ a b, a ∈ ancestors b) (ancestors p ++ [p]).
Proof. apply (ancestors_go_sorted "" p). Qed.

(** On a tidy path the directories above it are those above its
    [dirname], then the [dirname]; there are none when the [dirname] is
    empty or the root. *)
Lemma tidy_ancestors (p : string) :
  tidy p →
  ancestors p = if all_sep (dirname p) then [] else ancestors (dirname p) ++ [dirname p].
Proof.
  intros [pre name Hpre Hname|dir name Hdir Hend Hname].
  - by rewrite dirname_top, Hpre, ancestors_top.
  - by rewrite dirname_child, Hdir, ancestors_child.
Qed.

(** The directories above a path that [normpath] has returned, with a
    suffix without separator such as the extension of an archive: its
    [dirname] is the [dirname] of the path, the directories above it are
    those above its [dirname] followed by the [dirname] (none when the
    [dirname] is empty or the root), and each of them lies above the
    next. *)
Theorem normpath_ancestors (path x : string) :
  has_sep x = false →
  let q := normpath path +:+ x in
  dirname q = dirname (normpath path) ∧
  ancestors q = (if all_sep (dirname q) then [] else ancestors (dirname q) ++ [dirname q]) ∧
  StronglySorted (λ a b, a ∈ ancestors b) (ancestors q ++ [q]).
Proof.
  intros Hx. split_and!; [by apply dirname_app| |apply ancestors_sorted].
  by apply tidy_ancestors, tidy_app; [apply tidy_normpath|].
Qed.

Lemma normpath_ancestors_witness :
  let q := normpath "/home//photos.d/./old/../blurry" +:+ ".zip" in
  dirname q = dirname (normpath "/home//photos.d/./old/../blurry") ∧
  ancestors q = (if all_sep (dirname q) then [] else ancestors (dirname q) ++ [dirname q]) ∧
  StronglySorted (λ a b, a ∈ ancestors b) (ancestors q ++ [q]).
Proof. exact (normpath_ancestors "/home//photos.d/./old/../blurry" ".zip" eq_refl). Defined.

(** [normpath] on examples: doubled separators, [.] and [..], the two
    initial slashes that POSIX keeps, and the empty path. *)
Example normpath_examples :
  normpath "/home//photos.d/./old/../blurry" = "/home/photos.d/blurry" ∧
  normpath "//srv/share/" = "//srv/share" ∧ normpath "///srv" = "/srv" ∧
  normpath "a/../.." = ".." ∧ normpath "/.." = "/" ∧ normpath "" = "." ∧
  dirname "/home/photos.d/blurry" = "/home/photos.d" ∧ dirname "/blurry" = "/" ∧
  ancestors "/home/photos.d/blurry.zip" = ["/home"; "/home/photos.d"].
Proof. by vm_compute. Qed.

(** ** [normpath] is idempotent *)

Lemma dots_below_tail stack : dots_below stack → dots_below (tail stack).
Proof. destruct stack as [|comp stack]; [done|]. by intros [_ ?]. Qed.

Lemma dots_below_app l stack :
  dots_below (l ++ ".." :: stack) → Forall (λ c, c = "..") stack.
Proof.
  induction l as [|c l IH]; simpl; [|by intros [_ ?%IH]].
  intros [Hdots _]. by apply Hdots.
Qed.

Lemma norm_step_stack_ok initial stack comp :
  stack_ok initial stack → has_sep comp = false →
  stack_ok initial (norm_step initial stack comp).
Proof.
  intros (Hkept & Hdots & Hrel) Hcomp. unfold norm_step.
  case_bool_decide as Hempty; [done|]. case_bool_decide as Hdot; [done|]. simpl.
  case_bool_decide as Hdd; simpl.
  - destruct (_ || _) eqn:Hpush.
    + apply orb_true_iff in Hpush
        as [[->%bool_decide_eq_true ->%bool_decide_eq_true]%andb_true_iff|
            Hhead%bool_decide_eq_true].
      * split_and!; [by repeat constructor|by split|done].
      * destruct stack as [|c stack]; [done|]. injection Hhead as ->.
        split_and!; [by constructor| |intros _; apply Hrel; by left].
        split; [|done]. intros _. destruct Hdots as [Hdots _].
        constructor; [done|by apply Hdots].
    + split_and!.
      * destruct Hkept; [constructor|done].
      * by apply dots_below_tail.
      * intros Hin. apply Hrel. destruct stack; [done|by right].
  - split_and!; [by constructor|by split|].
    intros [?|?]%elem_of_cons; [done|auto].
Qed.

Lemma foldl_norm_step_stack_ok initial comps stack :
  stack_ok initial stack → Forall (λ comp, has_sep comp = false) comps →
  stack_ok initial (foldl (norm_step initial) stack comps).
Proof.
  intros Hstack Hcomps. revert stack Hstack.
  induction Hcomps as [|comp comps Hcomp _ IH]; intros stack Hstack; [done|].
  simpl. by apply IH, norm_step_stack_ok.
Qed.

(** The loop pushes every component of a stack it has built. *)
Lemma foldl_norm_step_kept initial comps stack :
  stack_ok initial (reverse comps ++ stack) →
  foldl (norm_step initial) stack comps = reverse comps ++ stack.
Proof.
  revert stack. induction comps as [|comp comps IH]; intros stack; [done|].
  rewrite reverse_cons, <-(assoc_L (++)). simpl. intros Hok.
  rewrite <-(IH (comp :: stack) Hok). f_equal.
  destruct Hok as (Hkept & Hdots & Hrel). unfold norm_step.
  apply Forall_app in Hkept as [_ [(Hne & Hdot & _) _]%Forall_cons].
  rewrite !bool_decide_eq_false_2 by done. simpl.
  case_bool_decide as Hdd; [subst comp|done]. simpl.
  apply dots_below_app in Hdots.
  rewrite (Hrel ltac:(apply elem_of_app; right; by left)). simpl.
  destruct Hdots as [|c stack' -> _]; [done|]. cbn [head].
  by rewrite (bool_decide_eq_true_2 (Some ".." = Some "..")), orb_true_r.
Qed.

(** ** Splitting what was joined *)

Lemma split_sep_no_sep comp : has_sep comp = false → split_sep comp = [comp].
Proof.
  induction comp as [|c comp IH]; [done|]. simpl.
  intros [Hc Hcomp]%orb_false_elim. by rewrite Hc, IH.
Qed.

Lemma split_sep_app_sep comp rest :
  has_sep comp = false → split_sep (comp +:+ "/" +:+ rest) = comp :: split_sep rest.
Proof.
  induction comp as [|c comp IH]; [done|]. simpl.
  intros [Hc Hcomp]%orb_false_elim. rewrite Hc.
  by rewrite (IH Hcomp).
Qed.

Lemma split_sep_join_sep comps :
  comps ≠ [] → Forall (λ comp, has_sep comp = false) comps →
  split_sep (join_sep comps) = comps.
Proof.
  intros Hne Hcomps. induction Hcomps as [|comp comps Hcomp Hcomps IH]; [done|].
  destruct comps as [|comp' comps]; [by apply split_sep_no_sep|].
  change (join_sep (comp :: comp' :: comps)) with
    (comp +:+ "/" +:+ join_sep (comp' :: comps)).
  by rewrite split_sep_app_sep, IH.
Qed.

Lemma split_sep_seps n path :
  split_sep (seps n +:+ path) = replicate n "" ++ split_sep path.
Proof. induction n as [|n IH]; [done|]. simpl. by rewrite IH. Qed.

Lemma foldl_norm_step_empty initial n stack comps :
  foldl (norm_step initial) stack (replicate n "" ++ comps) =
    foldl (norm_step initial) stack comps.
Proof. induction n as [|n IH]; [done|]. simpl. exact IH. Qed.

Lemma kept_comp_ok comp : kept comp → comp_ok comp.
Proof. by intros (? & _ & ?). Qed.

Lemma startswith_sep_kept comp rest :
  kept comp → startswith "/" (comp +:+ rest) = false.
Proof.
  intros (Hne & _ & Hsep). destruct comp as [|c comp]; [done|]. simpl in Hsep.
  apply orb_false_elim in Hsep as [Hc%bool_decide_eq_false _].
  unfold startswith. rewrite app_cons_s, prefix_cons.
  rewrite decide_False; [done|]. by intros <-.
Qed.

Lemma startswith_sep_join_sep comps :
  Forall kept comps → startswith "/" (join_sep comps) = false.
Proof.
  intros Hcomps. destruct Hcomps as [|comp comps' Hcomp _]; [done|].
  destruct comps' as [|comp' comps']; [|by apply startswith_sep_kept].
  rewrite <-(app_nil_r_s (join_sep _)). by apply startswith_sep_kept.
Qed.

(** The initial slashes of a result of [normpath] are those that it
    kept. *)
Lemma initial_slashes_seps n comps :
  n ≤ 2 → Forall kept comps →
  initial_slashes (seps n +:+ join_sep comps) = n.
Proof.
  intros Hn Hcomps. pose proof (startswith_sep_join_sep comps Hcomps) as Hstart.
  unfold initial_slashes, startswith in *.
  destruct n as [|[|[|n]]]; [| | |lia]; cbn [seps];
    rewrite ?app_cons_s, app_nil_l_s, ?prefix_cons, ?prefix_nil, ?Hstart;
    by rewrite ?decide_True by done.
Qed.

Lemma initial_slashes_le path : initial_slashes path ≤ 2.
Proof. unfold initial_slashes. repeat case_match; lia. Qed.

Lemma stack_ok_nil initial : stack_ok initial [].
Proof. split_and!; [constructor|done|by intros ?%elem_of_nil]. Qed.

(** The second pass of [normpath] over components that a first pass has
    left. *)
Lemma normpath_rebuild n stack :
  n ≤ 2 → stack_ok n stack →
  seps n +:+ join_sep (reverse stack) ≠ "" →
  normpath (seps n +:+ join_sep (reverse stack)) = seps n +:+ join_sep (reverse stack).
Proof.
  intros Hn Hok Hne. pose proof Hok as (Hkept & _).
  apply Forall_reverse in Hkept.
  unfold normpath. rewrite bool_decide_eq_false_2 by done.
  rewrite initial_slashes_seps, split_sep_seps, foldl_norm_step_empty by done.
  assert (foldl (norm_step n) [] (split_sep (join_sep (reverse stack))) = stack) as ->.
  { destruct (decide (reverse stack = [])) as [Hnil|Hnil].
    - rewrite Hnil. apply (f_equal reverse) in Hnil.
      by rewrite reverse_involutive in Hnil.
    - rewrite split_sep_join_sep; [|done|].
      + by rewrite foldl_norm_step_kept, reverse_involutive, app_nil_r
          by by rewrite reverse_involutive, app_nil_r.
      + eapply Forall_impl; [exact Hkept|]. by intros c (_ & _ & ?). }
  by rewrite bool_decide_eq_false_2.
Qed.

(** C33: [normpath] is idempotent: a path that it returns is returned
    unchanged, so the name of an archive that [abspath] has made normal is
    the name under which the archive is found again. *)
Theorem normpath_idempotent (path : string) : normpath (normpath path) = normpath path.
Proof.
  unfold normpath at 2 3. case_bool_decide; [done|].
  case_bool_decide; [done|].
  apply normpath_rebuild; [apply initial_slashes_le| |done].
  apply foldl_norm_step_stack_ok; [apply stack_ok_nil|apply split_sep_sep_free].
Qed.
