(* ===== verification/NtPath.v ===== *)
(** * Paths on Windows

    [main.py] asks for DPI awareness on Windows (lines 12-20), so it is
    meant to run there, where [os.path] is [ntpath]: two separators, drive
    letters and UNC paths.  This file gives [ntpath.splitdrive],
    [ntpath.basename] and [ntpath.join] (with one path to append, as lines
    65 and 114 call it) as Python 3.8 to 3.10 define them; later releases
    differ on paths that start with two separators.  The library is not
    part of the repository: the definitions follow its reference.

    [PathLib] is what the program needs of [os.path] on any platform, with
    the instances [posixpath] (the functions of [PyPath]) and [ntpath].

    The theorems: [basename] finds the name that [join] appended to a
    folder that is not a UNC path, and [join] keeps the drive of the
    folder; up to the spelling of the separators, [join] and [basename] of
    [ntpath] give what those of [posixpath] give, so what is proved of the
    paths of the program on POSIX holds on Windows for folders with a
    drive letter; with either library the files of a folder are filed
    under their own names and under distinct paths. *)

From Stdlib Require Import Ascii String.
From stdpp Require Import base tactics option list strings.
From S2P Require Import Prelude PyPath.

(** ** Definitions *)

(** [sep], [altsep] and [colon] of [ntpath]. *)
Definition nt_sep : ascii := ascii_of_nat 92.
Definition altsep : ascii := "/"%char.
Definition colon : ascii := ":"%char.

(** [c in seps]. *)
Definition is_seps (c : ascii) : bool :=
  bool_decide (c = nt_sep) || bool_decide (c = altsep).

Fixpoint has_seps (s : string) : bool :=
  match s with
  | "" => false
  | String c s' => is_seps c || has_seps s'
  end.

Fixpoint has_colon (s : string) : bool :=
  match s with
  | "" => false
  | String c s' => bool_decide (c = colon) || has_colon s'
  end.

(** [p[0] in seps], false for the empty string. *)
Definition starts_with_sep (s : string) : bool :=
  match s with String c _ => is_seps c | "" => false end.

(** [p[-1] in seps], false for the empty string. *)
Fixpoint ends_with_sep (s : string) : bool :=
  match s with
  | "" => false
  | String c "" => is_seps c
  | String _ s' => ends_with_sep s'
  end.

(** [d[-1:] == colon]. *)
Fixpoint ends_with_colon (s : string) : bool :=
  match s with
  | "" => false
  | String c "" => bool_decide (c = colon)
  | String _ s' => ends_with_colon s'
  end.

(** The longest prefix of [s] without a separator, and the rest of [s],
    which is empty or starts with a separator: [s.find(sep)] on the
    normalised path, as the two slices it delimits. *)
Fixpoint break_sep (s : string) : string * string :=
  match s with
  | "" => ("", "")
  | String c s' =>
      if is_seps c then ("", s)
      else let '(a, b) := break_sep s' in (String c a, b)
  end.

(** [ntpath.splitdrive(p)]: the drive of a path that starts with a drive
    letter and a colon, or with the host and the share of a UNC path, and
    the rest of the path. *)
Definition splitdrive (p : string) : string * string :=
  match p with
  | String c0 (String c1 rest) =>
      if is_seps c0 && is_seps c1 && negb (starts_with_sep rest) then
        let '(host, rest1) := break_sep rest in
        match rest1 with
        | "" => ("", p)
        | String s1 rest2 =>
            let '(share, rest3) := break_sep rest2 in
            if bool_decide (share = "") && starts_with_sep rest3 then ("", p)
            else (String c0 (String c1 (host +:+ String s1 share)), rest3)
        end
      else if bool_decide (c1 = colon) then (String c0 (String c1 ""), rest)
      else ("", p)
  | _ => ("", p)
  end.

(** What follows the last separator of [p]; [acc] is what follows the last
    separator seen so far. *)
Fixpoint nt_tail_go (acc p : string) : string :=
  match p with
  | "" => acc
  | String c p' => if is_seps c then nt_tail_go p' p' else nt_tail_go acc p'
  end.

Definition nt_tail (p : string) : string := nt_tail_go p p.

(** [ntpath.basename(p)], the second component of [ntpath.split(p)]. *)
Definition nt_basename (p : string) : string := nt_tail (splitdrive p).2.

(** [c.lower()] on a byte. *)
Definition lower_ascii (c : ascii) : ascii :=
  let n := nat_of_ascii c in
  if (65 <=? n) && (n <=? 90) then ascii_of_nat (n + 32) else c.

Fixpoint lower (s : string) : string :=
  match s with
  | "" => ""
  | String c s' => String (lower_ascii c) (lower s')
  end.

(** The relative path [p_path] appended to [result_path]. *)
Definition nt_append (result_path p_path : string) : string :=
  if negb (bool_decide (result_path = "")) && negb (ends_with_sep result_path)
  then result_path +:+ String nt_sep p_path
  else result_path +:+ p_path.

(** [ntpath.join(path, p)]. *)
Definition nt_join (path p : string) : string :=
  let '(result_drive, result_path) := splitdrive path in
  let '(p_drive, p_path) := splitdrive p in
  let '(result_drive, result_path) :=
    if starts_with_sep p_path then
      (if negb (bool_decide (p_drive = "")) || bool_decide (result_drive = "")
       then p_drive else result_drive, p_path)
    else if negb (bool_decide (p_drive = "")) && negb (bool_decide (p_drive = result_drive))
    then
      if negb (bool_decide (lower p_drive = lower result_drive)) then (p_drive, p_path)
      else (p_drive, nt_append result_path p_path)
    else (result_drive, nt_append result_path p_path) in
  if negb (bool_decide (result_path = "")) && negb (starts_with_sep result_path) &&
     negb (bool_decide (result_drive = "")) && negb (ends_with_colon result_drive)
  then result_drive +:+ String nt_sep result_path
  else result_drive +:+ result_path.

(** The path with [/] for every separator. *)
Fixpoint slashes (s : string) : string :=
  match s with
  | "" => ""
  | String c s' => String (if is_seps c then altsep else c) (slashes s')
  end.

(** A UNC path: it starts with two separators. *)
Definition unc (p : string) : bool :=
  match p with
  | String c0 (String c1 _) => is_seps c0 && is_seps c1
  | _ => false
  end.

(** A file name: no separator and no colon. *)
Definition plain (name : string) : bool := negb (has_seps name) && negb (has_colon name).

(** A drive letter alone is a current directory, not a folder. *)
Definition bare_drive (p : string) : bool :=
  match p with
  | String _ (String c "") => bool_decide (c = colon)
  | _ => false
  end.

(** ** The interface of [os.path] *)

(** What the program needs of [os.path], whatever the platform: [join] and
    [basename], the file names that a folder can hold and the folders that
    a dialog can return, with the law that the analysis and the export rely
    on. *)
Class PathLib : Type := {
  os_path_join : string → string → string;
  os_path_basename : string → string;
  file_name : string → bool;
  folder_ok : string → bool;
  os_path_basename_join folder name :
    folder_ok folder = true → file_name name = true →
    os_path_basename (os_path_join folder name) = name;
}.

Section entries.
Context `{PathLib}.

(** Lines 65 and 95: the entry filed for the file [name] of [folder]. *)
Definition folder_entry folder name : string * string :=
  (os_path_basename (os_path_join folder name), os_path_join folder name).

End entries.

(** ** Separators *)

Lemma is_seps_colon : is_seps colon = false.
Proof. done. Qed.

Lemma is_seps_nt_sep : is_seps nt_sep = true.
Proof. done. Qed.

Lemma has_seps_app (s t : string) : has_seps (s +:+ t) = has_seps s || has_seps t.
Proof.
  induction s as [|c s IH]; [done|]. rewrite app_cons_s. simpl.
  by rewrite IH, orb_assoc.
Qed.

Lemma plain_cons (c : ascii) (s : string) :
  plain (String c s) = true ↔ is_seps c = false ∧ c ≠ colon ∧ plain s = true.
Proof.
  unfold plain. simpl. rewrite !negb_orb, !andb_true_iff, !negb_true_iff.
  rewrite bool_decide_eq_false. tauto.
Qed.

Lemma plain_has_seps (name : string) : plain name = true → has_seps name = false.
Proof. unfold plain. by intros [?%negb_true_iff _]%andb_true_iff. Qed.

Lemma starts_with_sep_plain (name : string) :
  plain name = true → starts_with_sep name = false.
Proof. destruct name as [|c s]; [done|]. by intros (? & _)%plain_cons. Qed.

Lemma ends_with_sep_inv (s : string) :
  ends_with_sep s = true → ∃ s' c, s = s' +:+ String c "" ∧ is_seps c = true.
Proof.
  induction s as [|c s IH]; [done|]. simpl. destruct s as [|c' s].
  - intros Hc. by exists "", c.
  - intros (s' & c'' & Hs & Hc)%IH. exists (String c s'), c''.
    by rewrite app_cons_s, <-Hs.
Qed.

(** ** What follows the last separator *)

Lemma nt_tail_go_no_seps (acc p : string) :
  has_seps p = false → nt_tail_go acc p = acc.
Proof.
  revert acc. induction p as [|c p IH]; intros acc; simpl; [done|].
  intros [-> Hp]%orb_false_elim. by apply IH.
Qed.

Lemma nt_tail_no_seps (p : string) : has_seps p = false → nt_tail p = p.
Proof. apply nt_tail_go_no_seps. Qed.

Lemma nt_tail_go_app_sep (acc d : string) (c : ascii) (f : string) :
  is_seps c = true → has_seps f = false → nt_tail_go acc (d +:+ String c f) = f.
Proof.
  intros Hc Hf. revert acc. induction d as [|c' d IH]; intros acc.
  - rewrite app_nil_l_s. simpl. rewrite Hc. by apply nt_tail_go_no_seps.
  - rewrite app_cons_s. simpl. destruct (is_seps c'); apply IH.
Qed.

Lemma nt_tail_app_sep (d : string) (c : ascii) (f : string) :
  is_seps c = true → has_seps f = false → nt_tail (d +:+ String c f) = f.
Proof. apply nt_tail_go_app_sep. Qed.

(** The last component of a path to which a file name was appended. *)
Lemma nt_tail_append (result_path name : string) :
  has_seps name = false → nt_tail (nt_append result_path name) = name.
Proof.
  intros Hname. unfold nt_append.
  destruct (bool_decide (result_path = "")) eqn:He; simpl.
  { apply bool_decide_eq_true in He as ->. by apply nt_tail_no_seps. }
  destruct (ends_with_sep result_path) eqn:Hs; simpl.
  - apply ends_with_sep_inv in Hs as (s' & c & -> & Hc).
    rewrite app_assoc_s. by apply nt_tail_app_sep.
  - by apply nt_tail_app_sep.
Qed.

(** ** Drives *)

Lemma splitdrive_plain (name : string) :
  plain name = true → splitdrive name = ("", name).
Proof.
  destruct name as [|c0 [|c1 rest]]; [done..|].
  intros (Hc0 & _ & (_ & Hc1 & _)%plain_cons)%plain_cons. simpl.
  by rewrite Hc0, bool_decide_eq_false_2.
Qed.

(** The drive of a path that is not a UNC path: none, or a letter and a
    colon. *)
Lemma splitdrive_letter (c0 : ascii) (rest : string) :
  splitdrive (String c0 (String colon rest)) = (String c0 (String colon ""), rest).
Proof. simpl. by rewrite andb_false_r. Qed.

Lemma splitdrive_cases (p : string) :
  unc p = false →
  (splitdrive p = ("", p) ∧ ∀ c0 rest, p ≠ String c0 (String colon rest)) ∨
  (∃ c0 rest, p = String c0 (String colon rest)).
Proof.
  destruct p as [|c0 [|c1 rest]]; [by left..|]. simpl. intros Hunc.
  destruct (decide (c1 = colon)) as [->|Hc1]; [right; eauto|]. left.
  rewrite Hunc. simpl. rewrite bool_decide_eq_false_2 by done.
  split; [done|]. by intros ?? [= _ ? _].
Qed.

Lemma nt_append_cons (c0 c1 : ascii) (s name : string) :
  ∃ t, nt_append (String c0 (String c1 s)) name = String c0 (String c1 t).
Proof. unfold nt_append. destruct (_ && _); rewrite !app_cons_s; eauto. Qed.

(** A file name appended to a path without a drive gives a path without a
    drive. *)
Lemma splitdrive_append (folder name : string) :
  unc folder = false → (∀ c0 rest, folder ≠ String c0 (String colon rest)) →
  plain name = true →
  splitdrive (nt_append folder name) = ("", nt_append folder name).
Proof.
  intros Hunc Hcolon Hname. destruct folder as [|c0 [|c1 rest]].
  - by apply splitdrive_plain.
  - unfold nt_append. simpl. destruct (is_seps c0) eqn:Hc0; simpl.
    + destruct name as [|n0 name]; [done|].
      apply plain_cons in Hname as (Hn0 & Hn0' & _). simpl.
      by rewrite Hn0, andb_false_r, bool_decide_eq_false_2.
    + by rewrite Hc0.
  - assert (c1 ≠ colon) as Hc1 by (intros ->; by eapply Hcolon).
    simpl in Hunc. destruct (nt_append_cons c0 c1 rest name) as [t ->]. simpl.
    by rewrite Hunc, bool_decide_eq_false_2.
Qed.

(** ** [join] with a file name *)

Lemma nt_join_plain (path name : string) :
  plain name = true →
  nt_join path name =
    let result_path := nt_append (splitdrive path).2 name in
    if negb (bool_decide (result_path = "")) && negb (starts_with_sep result_path) &&
       negb (bool_decide ((splitdrive path).1 = "")) &&
       negb (ends_with_colon (splitdrive path).1)
    then (splitdrive path).1 +:+ String nt_sep result_path
    else (splitdrive path).1 +:+ result_path.
Proof.
  intros Hname. unfold nt_join. rewrite (splitdrive_plain name Hname).
  destruct (splitdrive path) as [d rp]. by rewrite starts_with_sep_plain.
Qed.

Lemma nt_join_no_drive (folder name : string) :
  unc folder = false → (∀ c0 rest, folder ≠ String c0 (String colon rest)) →
  plain name = true → nt_join folder name = nt_append folder name.
Proof.
  intros Hunc Hcolon Hname. rewrite nt_join_plain by done.
  destruct (splitdrive_cases folder Hunc) as [[-> _]|(c0 & rest & ->)].
  - simpl. by rewrite andb_false_r.
  - by destruct (Hcolon c0 rest).
Qed.

Lemma nt_join_letter (c0 : ascii) (rest name : string) :
  plain name = true →
  nt_join (String c0 (String colon rest)) name =
    String c0 (String colon (nt_append rest name)).
Proof.
  intros Hname. rewrite nt_join_plain, splitdrive_letter by done. simpl.
  by rewrite andb_false_r.
Qed.

(** The name of a file that [join] puts in a folder is found again by
    [basename], for a folder that is not a UNC path. *)
Lemma nt_basename_join (folder name : string) :
  unc folder = false → plain name = true →
  nt_basename (nt_join folder name) = name.
Proof.
  intros Hunc Hname. pose proof (plain_has_seps name Hname) as Hseps.
  unfold nt_basename.
  destruct (splitdrive_cases folder Hunc) as [[_ Hcolon]|(c0 & rest & ->)].
  - rewrite nt_join_no_drive, splitdrive_append by done. by apply nt_tail_append.
  - rewrite nt_join_letter, splitdrive_letter by done. by apply nt_tail_append.
Qed.

(** ** The two flavours *)

Lemma slashes_app (s t : string) : slashes (s +:+ t) = slashes s +:+ slashes t.
Proof. induction s as [|c s IH]; [done|]. rewrite !app_cons_s. simpl. by rewrite IH. Qed.

Lemma slashes_no_seps (s : string) : has_seps s = false → slashes s = s.
Proof.
  induction s as [|c s IH]; [done|]. simpl. intros [-> Hs]%orb_false_elim.
  by rewrite IH.
Qed.

Lemma slashes_nil (s : string) : slashes s = "" ↔ s = "".
Proof. by destruct s. Qed.

Lemma is_seps_sep (c : ascii) :
  bool_decide ((if is_seps c then altsep else c) = sep) = is_seps c.
Proof.
  destruct (is_seps c) eqn:Hc; [done|]. apply bool_decide_eq_false. intros ->.
  done.
Qed.

Lemma endswith_sep_slashes (s : string) : endswith_sep (slashes s) = ends_with_sep s.
Proof.
  induction s as [|c s IH]; [done|]. destruct s as [|c' s]; [apply is_seps_sep|].
  exact IH.
Qed.

Lemma has_sep_has_seps (s : string) : has_seps s = false → has_sep s = false.
Proof.
  induction s as [|c s IH]; [done|]. simpl. intros [Hc Hs]%orb_false_elim.
  rewrite IH, orb_false_r by done. apply bool_decide_eq_false. intros ->. done.
Qed.

(** Appending a file name is the [join] of [posixpath] up to the spelling
    of the separators. *)
Lemma slashes_append (folder name : string) :
  has_seps name = false →
  slashes (nt_append folder name) = join (slashes folder) name.
Proof.
  intros Hname. unfold nt_append, join.
  rewrite startswith_sep_no_sep by (by apply has_sep_has_seps).
  rewrite endswith_sep_slashes, (bool_decide_ext _ _ (slashes_nil folder)).
  rewrite <-negb_orb. destruct (_ || _); simpl.
  - by rewrite slashes_app, (slashes_no_seps name).
  - rewrite slashes_app. simpl. by rewrite (slashes_no_seps name).
Qed.

Lemma basename_go_slashes (acc p : string) :
  basename_go (slashes acc) (slashes p) = slashes (nt_tail_go acc p).
Proof.
  revert acc. induction p as [|c p IH]; intros acc; simpl; [done|].
  pose proof (is_seps_sep c) as Hc. destruct (is_seps c).
  - rewrite decide_True by done. apply IH.
  - apply bool_decide_eq_false in Hc. rewrite decide_False by done. apply IH.
Qed.

Lemma has_seps_nt_tail_go (acc p : string) :
  (has_seps p = false → has_seps acc = false) → has_seps (nt_tail_go acc p) = false.
Proof.
  revert acc. induction p as [|c p IH]; intros acc Hacc; simpl; [by apply Hacc|].
  destruct (is_seps c) eqn:Hc; [by apply IH|].
  apply IH. intros Hp. apply Hacc. simpl. by rewrite Hc.
Qed.

(** The last component does not depend on the spelling of the separators. *)
Lemma nt_tail_basename (p : string) : nt_tail p = basename (slashes p).
Proof.
  unfold basename. rewrite basename_go_slashes. symmetry. apply slashes_no_seps.
  by apply has_seps_nt_tail_go.
Qed.

Lemma join_relative_cons (c : ascii) (a b : string) :
  a ≠ "" → startswith "/" b = false → join (String c a) b = String c (join a b).
Proof.
  intros Ha Hb. unfold join. rewrite Hb, (bool_decide_eq_false_2 (a = "")) by done.
  destruct a as [|c' a]; [done|].
  change (endswith_sep (String c (String c' a))) with (endswith_sep (String c' a)).
  rewrite (bool_decide_eq_false_2 (String c _ = "")) by done.
  cbn [orb]. by destruct (endswith_sep _).
Qed.

Lemma nt_join_posix (folder name : string) :
  unc folder = false → bare_drive folder = false → plain name = true →
  slashes (nt_join folder name) = join (slashes folder) name.
Proof.
  intros Hunc Hbare Hname. pose proof (plain_has_seps name Hname) as Hseps.
  destruct (splitdrive_cases folder Hunc) as [[_ Hcolon]|(c0 & rest & ->)].
  - rewrite nt_join_no_drive by done. by apply slashes_append.
  - rewrite nt_join_letter by done. destruct rest as [|r0 rest]; [done|].
    assert (startswith "/" name = false) as Hrel
      by (by apply startswith_sep_no_sep, has_sep_has_seps).
    cbn [slashes]. rewrite slashes_append by done.
    by rewrite !join_relative_cons by done.
Qed.

Lemma nt_tail_go_has_seps (acc acc' p : string) :
  has_seps p = true → nt_tail_go acc p = nt_tail_go acc' p.
Proof.
  revert acc acc'. induction p as [|c p IH]; intros acc acc'; simpl; [done|].
  destruct (is_seps c); [done|]. apply IH.
Qed.

(** [basename] of a path with separators after the drive, if any. *)
Lemma nt_basename_posix (p : string) :
  unc p = false → (∀ c0 rest, p = String c0 (String colon rest) → has_seps rest = true) →
  nt_basename p = basename (slashes p).
Proof.
  intros Hunc Hrest. unfold nt_basename.
  destruct (splitdrive_cases p Hunc) as [[-> _]|(c0 & rest & ->)].
  - apply nt_tail_basename.
  - rewrite splitdrive_letter, <-nt_tail_basename. unfold nt_tail. cbn [snd nt_tail_go].
    rewrite is_seps_colon. specialize (Hrest c0 rest eq_refl).
    destruct (is_seps c0); by apply nt_tail_go_has_seps.
Qed.

(** ** The two libraries *)

(** [os.path] on POSIX systems and on Windows. *)
Definition posixpath : PathLib := {|
  os_path_join := join;
  os_path_basename := basename;
  file_name name := negb (has_sep name);
  folder_ok _ := true;
  os_path_basename_join folder name _ Hname :=
    basename_join folder name (proj1 (negb_true_iff _) Hname);
|}.

Definition ntpath : PathLib := {|
  os_path_join := nt_join;
  os_path_basename := nt_basename;
  file_name := plain;
  folder_ok folder := negb (unc folder);
  os_path_basename_join folder name Hfolder Hname :=
    nt_basename_join folder name (proj1 (negb_true_iff _) Hfolder) Hname;
|}.

(** ** Files of a folder *)

Section scan.
Context `{PathLib}.
Implicit Types (folder name : string) (names : list string).

Lemma os_path_join_inj folder name1 name2 :
  folder_ok folder = true → file_name name1 = true → file_name name2 = true →
  os_path_join folder name1 = os_path_join folder name2 → name1 = name2.
Proof.
  intros Hf H1 H2 Heq. rewrite <-(os_path_basename_join folder name1) by done.
  by rewrite Heq, os_path_basename_join.
Qed.

Lemma folder_entry_names folder names :
  folder_ok folder = true → Forall (λ name, file_name name = true) names →
  (folder_entry folder <$> names).*1 = names.
Proof.
  intros Hf Hnames. induction Hnames as [|name names Hname _ IH]; [done|].
  cbn. by rewrite os_path_basename_join, IH.
Qed.

Lemma folder_entry_paths folder names :
  folder_ok folder = true → Forall (λ name, file_name name = true) names →
  NoDup names → NoDup (folder_entry folder <$> names).*2.
Proof.
  intros Hf Hnames. rewrite <-list_fmap_compose.
  induction Hnames as [|name names Hname Hnames IH]; [constructor|].
  intros [Hnotin Hnd]%NoDup_cons. cbn. constructor; [|by apply IH].
  intros (name' & Heq & Hin)%list_elem_of_fmap. simpl in Heq.
  apply os_path_join_inj in Heq; [by subst|done..|].
  by eapply Forall_forall in Hnames.
Qed.

End scan.

(** ** Properties of the paths *)

Lemma splitdrive_join (folder name : string) :
  unc folder = false → plain name = true →
  (splitdrive (nt_join folder name)).1 = (splitdrive folder).1.
Proof.
  intros Hunc Hname.
  destruct (splitdrive_cases folder Hunc) as [[Hd Hcolon]|(c0 & rest & ->)].
  - by rewrite nt_join_no_drive, splitdrive_append, Hd.
  - by rewrite nt_join_letter, !splitdrive_letter.
Qed.

(** C34: round trip on Windows: for a folder that is not a UNC path and a
    file name (no separator, no colon), [basename] gives back the name that
    [join] appended, and the joined path is on the drive of the folder. *)
Theorem nt_basename_join_roundtrip (folder name : string) :
  unc folder = false → plain name = true →
  nt_basename (nt_join folder name) = name ∧
  (splitdrive (nt_join folder name)).1 = (splitdrive folder).1.
Proof. intros. split; [by apply nt_basename_join|by apply splitdrive_join]. Qed.

(** The two flavours agree: for a folder that is neither a UNC path nor
    a drive letter alone, and a file name, [ntpath.join] gives the path of
    [posixpath.join] up to the spelling of the separators, and the two
    [basename]s give the same name. *)
Theorem nt_join_agrees (folder name : string) :
  unc folder = false → bare_drive folder = false → plain name = true →
  slashes (nt_join folder name) = join (slashes folder) name ∧
  nt_basename (nt_join folder name) = basename (join (slashes folder) name).
Proof.
  intros Hunc Hbare Hname. split; [by apply nt_join_posix|].
  rewrite nt_basename_join, basename_join by done || by apply has_sep_has_seps, plain_has_seps.
  done.
Qed.

(** With either library, the files of a folder are filed under their own
    names, and distinct files under distinct paths: line 95 finds the name
    that line 65 appended. *)
Theorem folder_entries_distinct `{PathLib} (folder : string) (names : list string) :
  folder_ok folder = true → Forall (λ name, file_name name = true) names →
  NoDup names →
  (folder_entry folder <$> names).*1 = names ∧
  NoDup (folder_entry folder <$> names).*2.
Proof.
  intros. split; [by apply folder_entry_names|by apply folder_entry_paths].
Qed.

(** ** Examples *)

(** A folder as the dialog of Windows returns it, a folder on a share, the
    root of a drive; a second path on another drive or with a root replaces
    the first. *)
Lemma nt_join_examples :
  nt_join "C:/Users/x" "a.png" = "C:/Users/x" +:+ String nt_sep "a.png" ∧
  nt_join "C:/" "a.png" = "C:/a.png" ∧
  nt_join "C:" "a.png" = "C:a.png" ∧
  nt_join "//host/share" "a.png" = "//host/share" +:+ String nt_sep "a.png" ∧
  nt_join "c:/x" "D:y" = "D:y" ∧
  nt_join "c:/x" "C:y" = "C:/x" +:+ String nt_sep "y" ∧
  nt_join "c:/x" "/y" = "c:/y".
Proof. by vm_compute. Qed.

(** On a share the round trip holds; on a host without a share the joined
    path is all drive and its base name is empty. *)
Lemma nt_basename_unc :
  splitdrive "//host/share/dir" = ("//host/share", "/dir") ∧
  nt_basename (nt_join "//host/share/dir" "a.png") = "a.png" ∧
  nt_basename (nt_join "//host" "a.png") = "".
Proof. by vm_compute. Qed.

Lemma nt_basename_join_roundtrip_witness :
  nt_basename (nt_join "C:/Users/x" "a.png") = "a.png" ∧
  (splitdrive (nt_join "C:/Users/x" "a.png")).1 = (splitdrive "C:/Users/x").1.
Proof. by apply nt_basename_join_roundtrip. Defined.

Lemma nt_join_agrees_witness :
  slashes (nt_join "C:/Users/x" "a.png") = join (slashes "C:/Users/x") "a.png" ∧
  nt_basename (nt_join "C:/Users/x" "a.png") =
    basename (join (slashes "C:/Users/x") "a.png").
Proof. by apply nt_join_agrees. Defined.

Lemma folder_entries_distinct_witness :
  (folder_entry (H:=ntpath) "C:/Users/x" <$> ["a.png"; "b.png"]).*1 = ["a.png"; "b.png"] ∧
  NoDup (folder_entry (H:=ntpath) "C:/Users/x" <$> ["a.png"; "b.png"]).*2.
Proof.
  apply (folder_entries_distinct (H:=ntpath)); [done|by repeat constructor|].
  apply (bool_decide_unpack _). by vm_compute.
Defined.
