(* ===== verification/PySorted.v ===== *)
(** * [sorted] with a key

    [show_results] orders the categories with [sorted(items, key=...)].
    Python guarantees that [sorted] is stable: items with equal keys keep
    their relative order.  [sorted_by] is a stable insertion sort on natural
    keys.  It stands for the algorithm of the interpreter because of
    [stable_sort_unique]: a list that is ordered by key and holds, for every
    key, the same items in the same order as the input is the result of
    [sorted_by], whatever algorithm produced it.

    [sorted_by_classes] gives the result in closed form: the items of key
    0 in input order, then the items of key 1, and so on. *)

From Stdlib Require Import Sorting.Sorted.
From stdpp Require Import base tactics option list.
From S2P Require Import Prelude.

Section sorted_by.
Context {A : Type} (key : A → nat).
Implicit Types (x y : A) (l : list A) (n m : nat).

(** ** Definitions *)

(** [x] is put before the first item whose key is not below its own. *)
Fixpoint insert_by x l : list A :=
  match l with
  | [] => [x]
  | y :: l' => if decide (key x ≤ key y) then x :: y :: l' else y :: insert_by x l'
  end.

(** [sorted(l, key=key)]. *)
Definition sorted_by l : list A := foldr insert_by [] l.

(** The items of key [n], in the order of [l]. *)
Definition key_class n l : list A := filter (λ x, key x = n) l.

(** Ordered by key. *)
Definition key_sorted l : Prop := StronglySorted (λ x y, key x ≤ key y) l.

(** ** Insertion *)

Lemma insert_by_le x l :
  Forall (λ y, key x ≤ key y) l → insert_by x l = x :: l.
Proof.
  destruct 1 as [|y l Hy _]; simpl; [done|]. by rewrite decide_True.
Qed.

Lemma insert_by_app_lt x l1 l2 :
  Forall (λ y, key y < key x) l1 → insert_by x (l1 ++ l2) = l1 ++ insert_by x l2.
Proof.
  induction 1 as [|y l1 Hy _ IH]; simpl; [done|].
  rewrite decide_False by lia. by rewrite IH.
Qed.

Lemma insert_by_Permutation x l : insert_by x l ≡ₚ x :: l.
Proof.
  induction l as [|y l IH]; simpl; [done|].
  case_decide; [done|]. by rewrite IH, Permutation_swap.
Qed.

Lemma insert_by_key_class x l n :
  key_class n (insert_by x l) =
    if decide (key x = n) then x :: key_class n l else key_class n l.
Proof.
  unfold key_class. induction l as [|y l IH]; simpl.
  { by rewrite filter_cons. }
  destruct (decide (key x ≤ key y)) as [Hxy|Hxy].
  { by rewrite (filter_cons _ x). }
  rewrite !(filter_cons _ y), IH. repeat case_decide; try done. lia.
Qed.

Lemma insert_by_sorted x l : key_sorted l → key_sorted (insert_by x l).
Proof.
  unfold key_sorted. induction 1 as [|y l Hl IH Hy]; simpl.
  - repeat constructor.
  - case_decide as Hxy.
    + constructor; [by constructor|]. constructor; [done|].
      eapply Forall_impl; [exact Hy|]. simpl. lia.
    + constructor; [done|]. rewrite insert_by_Permutation.
      constructor; [lia|done].
Qed.

(** ** The sort *)

Lemma sorted_by_Permutation l : sorted_by l ≡ₚ l.
Proof.
  induction l as [|x l IH]; simpl; [done|].
  by rewrite insert_by_Permutation, IH.
Qed.

Lemma sorted_by_sorted l : key_sorted (sorted_by l).
Proof.
  induction l as [|x l IH]; simpl; [constructor|]. by apply insert_by_sorted.
Qed.

Lemma sorted_by_key_class l n : key_class n (sorted_by l) = key_class n l.
Proof.
  induction l as [|x l IH]; simpl; [done|].
  rewrite insert_by_key_class, IH. unfold key_class.
  rewrite filter_cons. by case_decide.
Qed.

Lemma sorted_by_id l : key_sorted l → sorted_by l = l.
Proof.
  unfold key_sorted. induction 1 as [|x l Hl IH Hx]; simpl; [done|].
  rewrite IH. by apply insert_by_le.
Qed.

(** ** Closed form: the key classes in increasing order *)

Lemma key_class_cons n x l :
  key_class n (x :: l) = if decide (key x = n) then x :: key_class n l else key_class n l.
Proof. unfold key_class. by rewrite filter_cons. Qed.

Lemma key_class_keys n l : Forall (λ y, key y = n) (key_class n l).
Proof. apply Forall_forall. by intros y [? _]%list_elem_of_filter. Qed.

Lemma classes_cons_ne x l (ns : list nat) :
  key x ∉ ns →
  flat_map (λ n, key_class n (x :: l)) ns = flat_map (λ n, key_class n l) ns.
Proof.
  induction ns as [|n ns IH]; simpl; [done|].
  rewrite not_elem_of_cons. intros [Hne Hns].
  by rewrite key_class_cons, decide_False, IH.
Qed.

Lemma classes_keys l (ns : list nat) (P : nat → Prop) :
  Forall P ns → Forall (λ y, P (key y)) (flat_map (λ n, key_class n l) ns).
Proof.
  induction 1 as [|n ns Hn _ IH]; simpl; [done|].
  apply Forall_app. split; [|done].
  eapply Forall_impl; [apply key_class_keys|]. by intros y ->.
Qed.

(** The classes of [x :: l] for the keys from [a] on, [b] keys in all:
    [x] goes in front of the classes from its own key on. *)
Lemma classes_insert x l a b :
  a ≤ key x < a + b →
  insert_by x (flat_map (λ n, key_class n l) (seq a b)) =
    flat_map (λ n, key_class n (x :: l)) (seq a b).
Proof.
  intros Hx.
  replace b with ((key x - a) + S (a + b - S (key x))) by lia.
  rewrite seq_app, !flat_map_app.
  replace (a + (key x - a)) with (key x) by lia. simpl.
  rewrite insert_by_app_lt, key_class_cons, decide_True by
    (done || apply (classes_keys l _ (λ n, n < key x)), Forall_forall;
     intros n ?%list_elem_of_In%in_seq; lia).
  rewrite !classes_cons_ne by (intros ?%list_elem_of_In%in_seq; lia).
  f_equal. rewrite <-app_comm_cons. apply insert_by_le, Forall_app. split.
  - eapply Forall_impl; [apply key_class_keys|]. simpl. lia.
  - apply (classes_keys l _ (λ n, key x ≤ n)), Forall_forall.
    intros n ?%list_elem_of_In%in_seq. lia.
Qed.

Lemma sorted_by_classes l m :
  Forall (λ x, key x < m) l →
  sorted_by l = flat_map (λ n, key_class n l) (seq 0 m).
Proof.
  induction 1 as [|x l Hx _ IH]; simpl.
  - induction (seq 0 m) as [|n ns IHn]; [done|]. simpl. by rewrite <-IHn.
  - rewrite IH. apply classes_insert. lia.
Qed.

Lemma key_bound l : Forall (λ x, key x < S (max_list (key <$> l))) l.
Proof.
  apply Forall_forall. intros x Hx.
  apply Nat.lt_succ_r, max_list_elem_of_le, list_elem_of_fmap. eauto.
Qed.

(** A list that is ordered by key and has the key classes of [l] is the
    result of sorting [l]. *)
Lemma stable_sort_unique l l' :
  key_sorted l' → (∀ n, key_class n l' = key_class n l) → l' = sorted_by l.
Proof.
  intros Hs Hcl. rewrite <-(sorted_by_id l' Hs).
  pose proof (key_bound (l ++ l')) as [Hl Hl']%Forall_app.
  rewrite (sorted_by_classes l _ Hl), (sorted_by_classes l' _ Hl').
  apply flat_map_ext. intros n. apply Hcl.
Qed.

End sorted_by.

#[export] Hint Resolve sorted_by_sorted sorted_by_Permutation : iqc.
