(* ===== verification/FileSys.v ===== *)
(** * The file system

    [main.py] reads image files, lists a folder, and, to export a category,
    creates a temporary directory, copies files into it, writes a ZIP
    archive and removes the directory.  The file system is a finite map from
    paths to nodes; a node is a regular file with its bytes or a directory.

    The operations are the library calls of the program, each with the
    failures that matter to it: [fs_read] (opening a file for reading),
    [isfile], [isdir], [listdir], [mkdtemp] and [rmtree] (the two ends of
    [tempfile.TemporaryDirectory]), [makedirs] with [exist_ok=True],
    [shutil_copy] and [make_archive], which creates the directory of the
    archive when it is missing.  Statements that change the file system are
    [prog] statements over it.

    A file system is consistent ([fs_ok]) when every directory above a node
    is a directory of the map; the root is not a node.  What the calls do
    to a consistent file system is in [Consistent].

    The ZIP format is not modelled: the interface [Archiver] states what the
    program needs of it, that the entries packed into an archive are the
    entries unpacked from it.  [bits_archiver] is a small concrete format,
    used to evaluate the definitions on examples.

    The lemmas give each call on the states in which the exporter makes it,
    and the frame of a block of calls: [agree_outside dir] relates two file
    systems that hold the same nodes outside [dir], and removing [dir]
    undoes every change confined to it. *)

From Stdlib Require Import Ascii String.
From stdpp Require Import base tactics option list strings gmap.
From S2P Require Import Prelude PyPath PathNorm.

(** ** Nodes and archives *)

Inductive node : Type :=
| File (data : string)
| Dir.

#[export] Instance node_eq_dec : EqDecision node.
Proof. solve_decision. Defined.

(** The archive format, as far as the program depends on it. *)
Class Archiver : Type := {
  zip_pack : list (string * node) → string;
  zip_unpack : string → option (list (string * node));
  zip_unpack_pack entries : zip_unpack (zip_pack entries) = Some entries;
}.

(** ** Reading *)

Section read.
Implicit Types (s : gmap string node) (path dir : string).

(** The bytes that [open(path, "rb").read()] returns. *)
Definition fs_read s path : outcome string :=
  match s !! path with
  | Some (File data) => Ok data
  | Some Dir | None => Raise OSError
  end.

(** [os.path.isfile(path)]. *)
Definition isfile s path : bool :=
  match s !! path with Some (File _) => true | _ => false end.

(** [os.path.isdir(path)]. *)
Definition isdir s path : bool :=
  match s !! path with Some Dir => true | _ => false end.

(** The name of [p] in [dir], when [p] is an entry of [dir] itself. *)
Definition child_name dir (p : string) : option string :=
  match relpath dir p with
  | Some r => if has_sep r then None else Some r
  | None => None
  end.

(** [os.listdir(dir)]: the names of the entries of [dir], in the order the
    file system enumerates them. *)
Definition listdir s dir : outcome (list string) :=
  if isdir s dir then Ok (omap (child_name dir) (map_to_list s).*1)
  else Raise OSError.

(** [os.path.exists(path)]; the root is there without being a node of the
    map. *)
Definition path_exists s path : bool :=
  negb (bool_decide (path = "")) && all_sep path || bool_decide (is_Some (s !! path)).

(** The directories above every node are directories. *)
Definition fs_ok s : Prop :=
  map_Forall (λ p _, forallb (isdir s) (ancestors p) = true) s.

#[export] Instance fs_ok_dec s : Decision (fs_ok s).
Proof. unfold fs_ok. apply _. Defined.

(** No node at [dir] or under it. *)
Definition fs_fresh s dir : Prop :=
  map_Forall (λ p _, p ≠ dir ∧ is_under dir p = false) s.

#[export] Instance fs_fresh_dec s dir : Decision (fs_fresh s dir).
Proof. unfold fs_fresh. apply _. Defined.

(** The entries of an archive of the tree under [root]: every node under
    it, with its path relative to [root]. *)
Definition archive_entries s (root : string) : list (string * node) :=
  omap (λ '(p, n), (λ r, (r, n)) <$> relpath root p) (map_to_list s).

End read.

(** ** Writing *)

Section write.
Implicit Types (s : gmap string node) (path dir : string).

(** [shutil.rmtree(dir)], the cleanup of a temporary directory: [dir] and
    everything under it are removed. *)
Definition rmtree dir s : gmap string node :=
  filter (λ pn, pn.1 ≠ dir ∧ is_under dir pn.1 = false) s.

(** The directory that [tempfile.TemporaryDirectory()] creates: [tmp] is
    the name the system picks.  The directory is made when nothing is there
    and the directories above it exist. *)
Definition mkdtemp (tmp : string) : prog (gmap string node) string := fun s =>
  if bool_decide (fs_fresh s tmp) && forallb (isdir s) (ancestors tmp)
  then (<[tmp := Dir]> s, Ok tmp)
  else (s, Raise OSError).

(** One level of [os.makedirs(.., exist_ok=True)]: a directory that exists
    is kept, a file in its place is an error. *)
Definition mkdir_p dir : prog (gmap string node) unit := fun s =>
  match s !! dir with
  | Some (File _) => (s, Raise OSError)
  | Some Dir => (s, Ok tt)
  | None => (<[dir := Dir]> s, Ok tt)
  end.

(** [os.makedirs(path, exist_ok=True)]: the missing ancestors of [path],
    then [path]. *)
Definition makedirs path : prog (gmap string node) unit :=
  for_each mkdir_p (ancestors path ++ [path]).

(** The file system with a directory at each path of [dirs]. *)
Definition mkdirs (dirs : list string) s : gmap string node :=
  foldl (λ s dir, <[dir := Dir]> s) s dirs.

(** [os.chdir(dir)], as far as it can fail: the working directory is not
    part of the state. *)
Definition chdir dir : prog (gmap string node) unit := fun s =>
  if isdir s dir then (s, Ok tt) else (s, Raise OSError).

(** [open(path, "wb")] followed by the writing of [data]: the directories
    above [path] must exist, a file already there is overwritten, a
    directory in its place is an error. *)
Definition write_file path (data : string) : prog (gmap string node) unit := fun s =>
  if forallb (isdir s) (ancestors path) then
    match s !! path with
    | Some Dir => (s, Raise OSError)
    | Some (File _) | None => (<[path := File data]> s, Ok tt)
    end
  else (s, Raise OSError).

(** [shutil.copy(src, dst)]: the bytes of the file [src] are written to
    [dst], or to the entry of [dst] named like [src] when [dst] is a
    directory.  Copying a file onto itself is an error. *)
Definition shutil_copy (src dst : string) : prog (gmap string node) unit := fun s =>
  match fs_read s src with
  | Raise e => (s, Raise e)
  | Ok data =>
      let target := if isdir s dst then join dst (basename src) else dst in
      if bool_decide (target = src) then (s, Raise OSError)
      else write_file target data s
  end.

(** The first step of the library on a ZIP archive: the directory of the
    archive is created, with the directories above it, when it does not
    exist.  [os.makedirs] is called on a path at which nothing exists,
    where it does what it does with [exist_ok=True]. *)
Definition make_archive_dir (archive_dir : string) : prog (gmap string node) unit :=
  fun s =>
    if negb (bool_decide (archive_dir = "")) && negb (path_exists s archive_dir)
    then makedirs archive_dir s
    else (s, Ok tt).

(** The second step: the archive of the tree under [root_dir] is written
    to the file [zip_filename]. *)
Definition zip_write `{Archiver} (zip_filename root_dir : string) :
    prog (gmap string node) unit :=
  fun s => write_file zip_filename (zip_pack (archive_entries s root_dir)) s.

(** [shutil.make_archive(base_name, "zip", root_dir)]: the base name is
    made absolute, the working directory becomes [root_dir], and the tree
    under it is packed into the file [base_name + ".zip"], whose name is
    returned.  This is the sequence of Python 3.8 to 3.10; later releases
    read the tree without changing the working directory, which makes a
    difference only when [root_dir] is not a directory. *)
Definition make_archive `{Archiver} (base_name root_dir : string) :
    prog (gmap string node) string :=
  let base_name := abspath base_name in
  let zip_filename := base_name +:+ ".zip" in
  let archive_dir := dirname base_name in
  chdir root_dir ≫= λ _,
  make_archive_dir archive_dir ≫= λ _,
  zip_write zip_filename root_dir ≫= λ _,
  mret zip_filename.

(** The conditions under which [make_archive] writes the archive: the
    tree to pack is a directory, no file is in the place of a directory
    above the archive, and no directory is in the place of the archive. *)
Definition archive_ready s (base_name root_dir : string) : Prop :=
  isdir s root_dir = true ∧
  Forall (λ dir, isfile s dir = false) (ancestors (abspath base_name +:+ ".zip")) ∧
  s !! (abspath base_name +:+ ".zip") ≠ Some Dir.

(** [s'] is [s] after a write at [target]: except at [target], the only
    change is that directories above [target] that were missing exist. *)
Definition confined (target : string) s s' : Prop :=
  ∀ p, p ≠ target →
    s' !! p = s !! p ∨ (p ∈ ancestors target ∧ s !! p = None ∧ s' !! p = Some Dir).

#[export] Instance archive_ready_dec s base_name root_dir :
  Decision (archive_ready s base_name root_dir).
Proof. unfold archive_ready. apply _. Defined.

End write.

(** ** Lemmas *)

Section lemmas.
Implicit Types (s : gmap string node) (path dir p r name src dst : string).
Implicit Types (dirs : list string).

(** ** Directories *)

Lemma isdir_true s dir : isdir s dir = true ↔ s !! dir = Some Dir.
Proof. unfold isdir. by destruct (s !! dir) as [[]|]. Qed.

Lemma isfile_true s path : isfile s path = true ↔ ∃ data, s !! path = Some (File data).
Proof.
  unfold isfile. destruct (s !! path) as [[data|]|]; split; eauto; try done;
    by intros [? ?].
Qed.

Lemma isdir_not_isfile s dir : isdir s dir = true → isfile s dir = false.
Proof. unfold isdir, isfile. by destruct (s !! dir) as [[]|]. Qed.

Lemma fs_read_Ok s path data : fs_read s path = Ok data ↔ s !! path = Some (File data).
Proof.
  unfold fs_read. destruct (s !! path) as [[d|]|]; split; try done;
    by intros [= ->].
Qed.

Lemma chdir_isdir s dir : isdir s dir = true → chdir dir s = (s, Ok tt).
Proof. unfold chdir. by intros ->. Qed.

Lemma chdir_not_isdir s dir : isdir s dir = false → chdir dir s = (s, Raise OSError).
Proof. unfold chdir. by intros ->. Qed.

Lemma mkdir_p_isdir s dir : isdir s dir = true → mkdir_p dir s = (s, Ok tt).
Proof. intros Hd%isdir_true. unfold mkdir_p. by rewrite Hd. Qed.

Lemma mkdir_p_missing s dir :
  s !! dir = None → mkdir_p dir s = (<[dir := Dir]> s, Ok tt).
Proof. intros Hd. unfold mkdir_p. by rewrite Hd. Qed.

Lemma for_each_mkdir_p_isdir s dirs :
  forallb (isdir s) dirs = true → for_each mkdir_p dirs s = (s, Ok tt).
Proof.
  induction dirs as [|dir dirs IH]; simpl; [done|].
  intros [Hd Hds]%andb_true_iff.
  prog_step (mkdir_p_isdir s dir Hd). auto.
Qed.

(** A new directory in a directory that exists with its ancestors. *)
Lemma makedirs_child s dir name :
  all_sep dir = false → has_sep name = false →
  forallb (isdir s) (ancestors dir) = true → isdir s dir = true →
  s !! (dir +:+ "/" +:+ name) = None →
  makedirs (dir +:+ "/" +:+ name) s = (<[dir +:+ "/" +:+ name := Dir]> s, Ok tt).
Proof.
  intros Hdir Hname Hanc Hd Hnew. unfold makedirs.
  rewrite ancestors_child by done.
  rewrite (for_each_app_Ok _ _ _ s s).
  - simpl. by prog_step (mkdir_p_missing s _ Hnew).
  - apply for_each_mkdir_p_isdir. rewrite forallb_app. simpl. by rewrite Hanc, Hd.
Qed.

(** ** Removing a tree *)

Lemma rmtree_lookup dir s p :
  rmtree dir s !! p =
    if decide (p ≠ dir ∧ is_under dir p = false) then s !! p else None.
Proof.
  unfold rmtree. case_decide as Hp.
  - destruct (s !! p) as [n|] eqn:Hs.
    + by apply map_lookup_filter_Some.
    + apply map_lookup_filter_None. left. done.
  - apply map_lookup_filter_None. right. intros n _. done.
Qed.

Lemma rmtree_insert_under dir s p n :
  p = dir ∨ is_under dir p = true → rmtree dir (<[p := n]> s) = rmtree dir s.
Proof.
  intros Hp. apply map_eq. intros q. rewrite !rmtree_lookup.
  case_decide as Hq; [|done]. apply lookup_insert_ne. intros ->.
  destruct Hq as [Hq1 Hq2]. destruct Hp; congruence.
Qed.

Lemma rmtree_insert_outside dir s p n :
  p ≠ dir → is_under dir p = false →
  rmtree dir (<[p := n]> s) = <[p := n]> (rmtree dir s).
Proof.
  intros Hp1 Hp2. apply map_eq. intros q. rewrite rmtree_lookup.
  destruct (decide (q = p)) as [->|Hq].
  - by rewrite decide_True, !lookup_insert_eq.
  - by rewrite !lookup_insert_ne, rmtree_lookup.
Qed.

Lemma rmtree_fresh dir s : fs_fresh s dir → rmtree dir s = s.
Proof.
  intros Hfresh. apply map_eq. intros p. rewrite rmtree_lookup.
  case_decide as Hp; [done|]. destruct (s !! p) as [n|] eqn:Hs; [|done].
  destruct Hp. by apply (Hfresh p n).
Qed.

(** After the removal nothing is at the directory or under it. *)
Lemma rmtree_fs_fresh dir s : fs_fresh (rmtree dir s) dir.
Proof.
  intros p n Hp. rewrite rmtree_lookup in Hp. by case_decide.
Qed.

(** ** Writing a file *)

Lemma write_file_Ok s path data :
  forallb (isdir s) (ancestors path) = true → s !! path ≠ Some Dir →
  write_file path data s = (<[path := File data]> s, Ok tt).
Proof.
  intros Hanc Hnd. unfold write_file. rewrite Hanc.
  by destruct (s !! path) as [[]|].
Qed.

Lemma write_file_cases s path data :
  (forallb (isdir s) (ancestors path) = true ∧ s !! path ≠ Some Dir ∧
   write_file path data s = (<[path := File data]> s, Ok tt)) ∨
  write_file path data s = (s, Raise OSError).
Proof.
  unfold write_file. destruct (forallb _ _); [|by right].
  destruct (s !! path) as [[]|]; [left|by right|left]; done.
Qed.

Lemma zip_write_Ok `{Archiver} s path root :
  forallb (isdir s) (ancestors path) = true → s !! path ≠ Some Dir →
  zip_write path root s =
    (<[path := File (zip_pack (archive_entries s root))]> s, Ok tt).
Proof. apply write_file_Ok. Qed.

Lemma zip_write_cases `{Archiver} s path root :
  (forallb (isdir s) (ancestors path) = true ∧ s !! path ≠ Some Dir ∧
   zip_write path root s =
     (<[path := File (zip_pack (archive_entries s root))]> s, Ok tt)) ∨
  zip_write path root s = (s, Raise OSError).
Proof. apply write_file_cases. Qed.

(** ** Copies *)

Lemma shutil_copy_into s src dst data :
  isdir s dst = true → s !! src = Some (File data) →
  join dst (basename src) ≠ src →
  forallb (isdir s) (ancestors (join dst (basename src))) = true →
  s !! join dst (basename src) ≠ Some Dir →
  shutil_copy src dst s = (<[join dst (basename src) := File data]> s, Ok tt).
Proof.
  intros Hdst Hsrc%fs_read_Ok Hne Hanc Hnd. unfold shutil_copy.
  rewrite Hsrc, Hdst, bool_decide_eq_false_2 by done.
  by apply write_file_Ok.
Qed.

Lemma shutil_copy_unreadable s src dst :
  isfile s src = false → ∃ e, shutil_copy src dst s = (s, Raise e).
Proof.
  unfold isfile, shutil_copy, fs_read. destruct (s !! src) as [[]|]; [done|eauto..].
Qed.

(** ** Archives *)

Lemma elem_of_archive_entries s root r n :
  (r, n) ∈ archive_entries s root ↔ r ≠ "" ∧ s !! (root +:+ "/" +:+ r) = Some n.
Proof.
  unfold archive_entries. rewrite list_elem_of_omap. split.
  - intros ([p n'] & Hin%elem_of_map_to_list & Hr).
    destruct (relpath root p) as [r'|] eqn:Hrel; [|done].
    injection Hr as -> ->. by apply relpath_Some in Hrel as [? ->].
  - intros [Hr Hs]. exists (root +:+ "/" +:+ r, n).
    split; [by apply elem_of_map_to_list|].
    by rewrite (proj2 (relpath_Some root _ r)).
Qed.

Lemma NoDup_archive_entries s root : NoDup (archive_entries s root).*1.
Proof.
  unfold archive_entries.
  pose proof (NoDup_fst_map_to_list s) as Hnd.
  induction (map_to_list s) as [|[p n] l IH]; simpl; [constructor|].
  apply NoDup_cons in Hnd as [Hp Hl].
  destruct (relpath root p) as [r|] eqn:Hrel; simpl; [|by apply IH].
  constructor; [|by apply IH].
  intros ([r' n'] & -> & ([p' n''] & Hin & Hr')%list_elem_of_omap)%list_elem_of_fmap.
  simpl in *. destruct (relpath root p') as [r''|] eqn:Hrel'; [|done].
  injection Hr' as -> ->.
  apply relpath_Some in Hrel as [_ ->]. apply relpath_Some in Hrel' as [_ ->].
  apply Hp. apply list_elem_of_fmap. by exists (root +:+ "/" +:+ r', n').
Qed.

(** The entries of an archive as a tree. *)
Lemma archive_entries_lookup s root r :
  (list_to_map (archive_entries s root) : gmap string node) !! r =
    if decide (r = "") then None else s !! (root +:+ "/" +:+ r).
Proof.
  destruct (list_to_map _ !! r) as [n|] eqn:Hl.
  - apply elem_of_list_to_map in Hl; [|apply NoDup_archive_entries].
    apply elem_of_archive_entries in Hl as [Hr Hs]. by rewrite decide_False.
  - case_decide as Hr; [done|]. apply not_elem_of_list_to_map in Hl.
    destruct (s !! _) as [n|] eqn:Hs; [|done]. destruct Hl.
    apply list_elem_of_fmap. exists (r, n). split; [done|].
    by apply elem_of_archive_entries.
Qed.

End lemmas.

(** ** Changes confined to a directory *)

(** The two file systems hold the same nodes outside [dir]. *)
Definition agree_outside (dir : string) (s s' : gmap string node) : Prop :=
  ∀ p, p ≠ dir → is_under dir p = false → s' !! p = s !! p.

#[export] Instance agree_outside_equiv dir : Equivalence (agree_outside dir).
Proof.
  split.
  - by intros s p.
  - intros s s' Hs p ??. symmetry. by apply Hs.
  - intros s1 s2 s3 H12 H23 p ??. by rewrite H23, H12.
Qed.

(** Removing [dir] forgets what the file systems hold inside it. *)
#[export] Instance rmtree_proper dir : Proper (agree_outside dir ==> (=)) (rmtree dir).
Proof.
  intros s s' Hs. apply map_eq. intros p. rewrite !rmtree_lookup.
  case_decide as Hp; [|done]. destruct Hp. symmetry. by apply Hs.
Qed.

Section frame.
Implicit Types (s : gmap string node) (path dir p r name src dst tmp : string).

(** Removing the directory undoes every change confined to it, when
    nothing was there. *)
Lemma rmtree_agree_outside dir s s' :
  fs_fresh s dir → agree_outside dir s s' → rmtree dir s' = s.
Proof. intros Hfresh Hs. rewrite <-Hs. by apply rmtree_fresh. Qed.

Lemma fs_fresh_lookup s dir p :
  fs_fresh s dir → p = dir ∨ is_under dir p = true → s !! p = None.
Proof.
  intros Hfresh Hp. destruct (s !! p) as [n|] eqn:Hs; [|done].
  destruct (Hfresh p n Hs) as [? ?]. destruct Hp; congruence.
Qed.

Lemma isdir_insert_Dir s p dir : isdir s dir = true → isdir (<[p := Dir]> s) dir = true.
Proof.
  rewrite !isdir_true. intros Hd. destruct (decide (p = dir)) as [->|Hne].
  - apply lookup_insert_eq.
  - by rewrite lookup_insert_ne.
Qed.

Lemma mkdtemp_Ok s tmp :
  fs_fresh s tmp → forallb (isdir s) (ancestors tmp) = true →
  mkdtemp tmp s = (<[tmp := Dir]> s, Ok tmp).
Proof.
  intros Hfresh Hanc. unfold mkdtemp. by rewrite bool_decide_eq_true_2, Hanc.
Qed.

Lemma mkdtemp_cases s tmp :
  (fs_fresh s tmp ∧ forallb (isdir s) (ancestors tmp) = true ∧
   mkdtemp tmp s = (<[tmp := Dir]> s, Ok tmp)) ∨
  mkdtemp tmp s = (s, Raise OSError).
Proof.
  unfold mkdtemp. case_bool_decide as Hfresh; simpl; [|by right].
  destruct (forallb _ _) eqn:Hanc; [by left|by right].
Qed.

Lemma shutil_copy_frame s src dst s' (o : outcome unit) p :
  shutil_copy src dst s = (s', o) →
  p ≠ dst → p ≠ join dst (basename src) → s' !! p = s !! p.
Proof.
  unfold shutil_copy. intros Hcopy Hp1 Hp2.
  destruct (fs_read s src); [|by injection Hcopy as <- _].
  case_bool_decide; [by injection Hcopy as <- _|].
  destruct (write_file_cases s (if isdir s dst then join dst (basename src) else dst) a)
    as [(_ & _ & Hw)|Hw]; rewrite Hw in Hcopy; injection Hcopy as <- _; [|done].
  destruct (isdir s dst); by rewrite lookup_insert_ne.
Qed.

End frame.

(** ** Listing a directory *)

Section listdir.
Implicit Types (s : gmap string node) (dir p name : string).

Lemma child_name_Some dir p name :
  child_name dir p = Some name ↔
  name ≠ "" ∧ has_sep name = false ∧ p = dir +:+ "/" +:+ name.
Proof.
  unfold child_name. destruct (relpath dir p) as [r|] eqn:Hr.
  - apply relpath_Some in Hr as [Hr ->]. destruct (has_sep r) eqn:Hsep; split.
    + done.
    + intros (_ & Hn & ->%app_inv_head_s%app_inv_head_s). congruence.
    + by intros [= <-].
    + by intros (_ & _ & ->%app_inv_head_s%app_inv_head_s).
  - split; [done|]. intros (Hne & _ & ->).
    by rewrite (proj2 (relpath_Some dir _ name)) in Hr.
Qed.

Lemma elem_of_listdir s dir names name :
  listdir s dir = Ok names →
  name ∈ names ↔ name ≠ "" ∧ has_sep name = false ∧
                 is_Some (s !! (dir +:+ "/" +:+ name)).
Proof.
  unfold listdir. destruct (isdir s dir); [|done]. intros [= <-].
  rewrite list_elem_of_omap. split.
  - intros (p & [[p' n] [Hp Hin%elem_of_map_to_list]]%list_elem_of_fmap
              & (Hne & Hsep & Heq)%child_name_Some).
    simpl in *. subst. eauto.
  - intros (Hne & Hsep & [n Hn]). exists (dir +:+ "/" +:+ name). split.
    + apply list_elem_of_fmap. exists (dir +:+ "/" +:+ name, n).
      split; [done|]. by apply elem_of_map_to_list.
    + by apply child_name_Some.
Qed.

Lemma NoDup_listdir s dir names : listdir s dir = Ok names → NoDup names.
Proof.
  unfold listdir. destruct (isdir s dir); [|done]. intros [= <-].
  pose proof (NoDup_fst_map_to_list s) as Hnd.
  induction ((map_to_list s).*1) as [|p l IH]; simpl; [constructor|].
  apply NoDup_cons in Hnd as [Hp Hl].
  destruct (child_name dir p) as [name|] eqn:Hname; [|by apply IH].
  constructor; [|by apply IH].
  intros (p' & Hin & Hname')%list_elem_of_omap.
  apply child_name_Some in Hname as (_ & _ & ->).
  apply child_name_Some in Hname' as (_ & _ & ->). done.
Qed.

Lemma listdir_isdir s dir : isdir s dir = true → ∃ names, listdir s dir = Ok names.
Proof. intros Hd. unfold listdir. rewrite Hd. eauto. Qed.

End listdir.

(** ** An archive format for examples *)

(** An archive format for examples: the entries are numbered by the
    enumeration of their type and the number is written in binary. *)
Fixpoint pos_to_bits (p : positive) : string :=
  match p with
  | xH => ""
  | xO p' => String "0"%char (pos_to_bits p')
  | xI p' => String "1"%char (pos_to_bits p')
  end.

Fixpoint bits_to_pos (s : string) : option positive :=
  match s with
  | "" => Some xH
  | String c s' =>
      if decide (c = "0"%char) then xO <$> bits_to_pos s'
      else if decide (c = "1"%char) then xI <$> bits_to_pos s'
      else None
  end.

Lemma bits_to_pos_to_bits (p : positive) : bits_to_pos (pos_to_bits p) = Some p.
Proof. induction p as [p IH|p IH|]; simpl; by rewrite ?IH. Qed.

#[export] Instance node_countable : Countable node :=
  inj_countable' (λ n, match n with File data => Some data | Dir => None end)
                 (λ o, match o with Some data => File data | None => Dir end)
                 (λ n, match n with File _ => eq_refl | Dir => eq_refl end).

Definition bits_pack (entries : list (string * node)) : string :=
  pos_to_bits (encode entries).

Definition bits_unpack (data : string) : option (list (string * node)) :=
  bits_to_pos data ≫= decode.

Lemma bits_unpack_pack entries : bits_unpack (bits_pack entries) = Some entries.
Proof.
  unfold bits_unpack, bits_pack. rewrite bits_to_pos_to_bits. simpl.
  apply decode_encode.
Qed.

Definition bits_archiver : Archiver := {|
  zip_pack := bits_pack;
  zip_unpack := bits_unpack;
  zip_unpack_pack := bits_unpack_pack;
|}.
