(* ===== verification/Consistent.v ===== *)
(** * The calls on a consistent file system

    A file system is consistent ([fs_ok]) when the directories above every
    node are directories.  Every call that the program makes keeps a
    consistent file system consistent, and on a consistent file system the
    calls that make several changes are all or nothing: [makedirs] makes
    the directories that are missing when no file is in the place of one of
    them and makes nothing otherwise ([makedirs_spec]); [make_archive] makes
    the directories above the archive and writes the archive, or raises and
    has changed nothing ([make_archive_spec]).

    [confined target] relates a file system to what it is after a write at
    [target]: nothing has changed elsewhere, except that directories above
    [target] that were missing are there.

    The rules are stated with [keeps] and put in the hint database, so that
    a sequence of calls is shown to keep the file system consistent by the
    rules for sequences and loops. *)

From Stdlib Require Import Ascii String Sorting.Sorted.
From stdpp Require Import base tactics option list strings gmap sorting.
From S2P Require Import Prelude PyPath PathNorm FileSys.

Section consistency.
Implicit Types (s : gmap string node) (path dir p r name src dst : string).
Implicit Types (dirs : list string).

(** ** Consistency *)

Lemma fs_ok_lookup s p a :
  fs_ok s → is_Some (s !! p) → a ∈ ancestors p → s !! a = Some Dir.
Proof.
  intros Hok [n Hp] Ha. apply isdir_true.
  apply (forallb_elem_of _ (ancestors p)); [|done]. by apply (Hok p n).
Qed.

Lemma fs_ok_intro s :
  (∀ p a, is_Some (s !! p) → a ∈ ancestors p → s !! a = Some Dir) → fs_ok s.
Proof.
  intros Hs p n Hp. apply forallb_Forall, Forall_forall. intros a Ha.
  apply isdir_true. eauto.
Qed.

(** A node can be written where the directories above it exist; a file
    is not written in the place of a directory. *)
Lemma fs_ok_insert s p n :
  fs_ok s → forallb (isdir s) (ancestors p) = true →
  n = Dir ∨ s !! p ≠ Some Dir → fs_ok (<[p := n]> s).
Proof.
  intros Hok Hanc Hn. apply fs_ok_intro. intros q a Hq Ha.
  assert (s !! a = Some Dir) as Hdir.
  { destruct (decide (q = p)) as [->|Hqp].
    - by apply isdir_true, (forallb_elem_of _ (ancestors p)).
    - rewrite lookup_insert_ne in Hq by done. by apply (fs_ok_lookup s q). }
  destruct (decide (a = p)) as [->|Hap]; [|by rewrite lookup_insert_ne].
  rewrite lookup_insert_eq. by destruct Hn as [->|Hn].
Qed.

Lemma fs_ok_rmtree dir s : fs_ok s → fs_ok (rmtree dir s).
Proof.
  intros Hok. apply fs_ok_intro. intros q a Hq Ha.
  rewrite rmtree_lookup in Hq. case_decide as Hout; [|by destruct Hq].
  destruct Hout as [Hne Hout]. pose proof (ancestors_under q a Ha) as Hu.
  rewrite rmtree_lookup, decide_True; [by apply (fs_ok_lookup s q)|].
  split; [by intros ->; congruence|]. apply not_true_is_false. intros Hua.
  by rewrite (is_under_trans dir a q) in Hout.
Qed.

(** ** Directories made at once *)

Lemma mkdirs_lookup dirs s p :
  mkdirs dirs s !! p = if decide (p ∈ dirs) then Some Dir else s !! p.
Proof.
  revert s. induction dirs as [|dir dirs IH]; intros s.
  - by rewrite decide_False by apply not_elem_of_nil.
  - unfold mkdirs in *. simpl. rewrite IH.
    destruct (decide (p ∈ dirs)) as [Hin|Hout].
    + rewrite decide_True; [done|by right].
    + destruct (decide (p = dir)) as [->|Hne].
      * rewrite lookup_insert_eq, decide_True; [done|by left].
      * rewrite lookup_insert_ne, decide_False; [done| |done].
        by intros [?|?]%elem_of_cons.
Qed.

Lemma mkdirs_id dirs s : forallb (isdir s) dirs = true → mkdirs dirs s = s.
Proof.
  intros Hdirs. apply map_eq. intros p. rewrite mkdirs_lookup.
  case_decide as Hp; [|done]. symmetry. by apply isdir_true, (forallb_elem_of _ dirs).
Qed.

Lemma mkdirs_isdir dirs s : forallb (isdir (mkdirs dirs s)) dirs = true.
Proof.
  apply forallb_Forall, Forall_forall. intros dir Hdir.
  apply isdir_true. by rewrite mkdirs_lookup, decide_True.
Qed.

(** Directories made with the directories above them keep the file system
    consistent. *)
Lemma fs_ok_mkdirs dirs s :
  fs_ok s → (∀ q a, q ∈ dirs → a ∈ ancestors q → a ∈ dirs) → fs_ok (mkdirs dirs s).
Proof.
  intros Hok Hclosed. apply fs_ok_intro. intros q a Hq Ha.
  rewrite mkdirs_lookup in Hq |- *.
  destruct (decide (q ∈ dirs)) as [Hin|Hout].
  - rewrite decide_True; [done|]. eauto.
  - case_decide; [done|]. by apply (fs_ok_lookup s q).
Qed.

Lemma ancestors_closed path q a :
  q ∈ ancestors path ++ [path] → a ∈ ancestors q → a ∈ ancestors path ++ [path].
Proof.
  intros [Hq| ->%list_elem_of_singleton]%elem_of_app Ha; apply elem_of_app; left;
    [by apply (ancestors_trans path q)|done].
Qed.

(** ** [makedirs] *)

Lemma isfile_insert_Dir s dir p :
  isfile s p = false → isfile (<[dir := Dir]> s) p = false.
Proof.
  unfold isfile. destruct (decide (p = dir)) as [->|Hne].
  - by rewrite lookup_insert_eq.
  - by rewrite lookup_insert_ne.
Qed.

(** Where no file is in the way every directory is made. *)
Lemma for_each_mkdir_p_Ok s dirs :
  Forall (λ dir, isfile s dir = false) dirs →
  for_each mkdir_p dirs s = (mkdirs dirs s, Ok tt).
Proof.
  intros Hdirs. revert s Hdirs.
  induction dirs as [|dir dirs IH]; intros s Hdirs; [done|].
  apply Forall_cons in Hdirs as [Hdir Hdirs].
  assert (mkdir_p dir s = (<[dir := Dir]> s, Ok tt)) as Hstep.
  { unfold mkdir_p, isfile in *.
    destruct (s !! dir) as [[]|] eqn:Hs; [done| |done]. by rewrite insert_id. }
  rewrite (for_each_cons_Ok _ _ _ _ _ Hstep). apply IH.
  eapply Forall_impl; [exact Hdirs|]. intros p. apply isfile_insert_Dir.
Qed.

(** In a consistent file system the loop stops at a file before it has
    made a directory. *)
Lemma for_each_mkdir_p_Raise s dirs :
  fs_ok s → StronglySorted (λ a b, a ∈ ancestors b) dirs →
  ¬ Forall (λ dir, isfile s dir = false) dirs →
  for_each mkdir_p dirs s = (s, Raise OSError).
Proof.
  intros Hok Hsorted. induction Hsorted as [|dir dirs _ IH Hdir]; intros Hfile.
  - destruct Hfile. constructor.
  - destruct (s !! dir) as [[data|]|] eqn:Hs.
    + apply for_each_cons_Raise. unfold mkdir_p. by rewrite Hs.
    + rewrite (for_each_cons_Ok _ _ _ s s) by (unfold mkdir_p; by rewrite Hs).
      apply IH. intros Hdirs. apply Hfile. constructor; [|done].
      unfold isfile. by rewrite Hs.
    + destruct Hfile. constructor; [unfold isfile; by rewrite Hs|].
      rewrite Forall_forall in Hdir |- *. intros p Hp. unfold isfile.
      destruct (s !! p) as [n|] eqn:Hsp; [|done].
      by rewrite (fs_ok_lookup s p dir) in Hs by eauto.
Qed.

(** [makedirs] in a consistent file system: the directories are made when
    no file is in the place of one of them, and nothing is made
    otherwise. *)
Lemma makedirs_spec s path :
  fs_ok s →
  makedirs path s =
    if decide (Forall (λ dir, isfile s dir = false) (ancestors path ++ [path]))
    then (mkdirs (ancestors path ++ [path]) s, Ok tt)
    else (s, Raise OSError).
Proof.
  intros Hok. unfold makedirs. case_decide; [by apply for_each_mkdir_p_Ok|].
  apply for_each_mkdir_p_Raise; [done|apply ancestors_sorted|done].
Qed.

Lemma fs_ok_makedirs path : keeps fs_ok (makedirs path).
Proof.
  intros s Hok. rewrite makedirs_spec by done. case_decide; [|done].
  apply fs_ok_mkdirs; [done|apply ancestors_closed].
Qed.

(** ** Writes *)

Lemma fs_ok_write_file path data : keeps fs_ok (write_file path data).
Proof.
  intros s Hok. destruct (write_file_cases s path data) as [(Hanc & Hnd & ->)| ->];
    [|done].
  apply fs_ok_insert; auto.
Qed.

Lemma fs_ok_shutil_copy src dst : keeps fs_ok (shutil_copy src dst).
Proof.
  intros s Hok. unfold shutil_copy. destruct (fs_read s src); [|done].
  case_bool_decide; [done|]. by apply fs_ok_write_file.
Qed.

Lemma fs_ok_mkdtemp tmp : keeps fs_ok (mkdtemp tmp).
Proof.
  intros s Hok. destruct (mkdtemp_cases s tmp) as [(_ & Hanc & ->)| ->]; [|done].
  apply fs_ok_insert; auto.
Qed.

End consistency.

(** ** [make_archive] *)

Section make_archive.
Context `{Archiver} (s : gmap string node) (base_name root_dir : string).

#[local] Abbreviation zip := (abspath base_name +:+ ".zip").
#[local] Abbreviation archive_dir := (dirname (abspath base_name)).

(** The directories above the archive are those above its directory, then
    its directory. *)
Lemma ancestors_archive :
  ancestors zip =
    if all_sep archive_dir then [] else ancestors archive_dir ++ [archive_dir].
Proof.
  rewrite <-(dirname_app _ ".zip") by done.
  apply tidy_ancestors, tidy_app; [apply tidy_normpath|done].
Qed.

(** Nothing is made when the directories above the archive exist. *)
Lemma make_archive_dir_exists :
  forallb (isdir s) (ancestors zip) = true →
  make_archive_dir archive_dir s = (s, Ok tt).
Proof.
  rewrite ancestors_archive. intros Hanc. unfold make_archive_dir, path_exists.
  case_bool_decide as Hempty; [done|]. simpl.
  destruct (all_sep archive_dir); [done|]. simpl.
  apply (forallb_elem_of _ _ archive_dir) in Hanc; [|set_solver].
  apply isdir_true in Hanc. by rewrite bool_decide_eq_true_2 by by rewrite Hanc.
Qed.

Lemma make_archive_Ok :
  isdir s root_dir = true → forallb (isdir s) (ancestors zip) = true →
  s !! zip ≠ Some Dir →
  make_archive base_name root_dir s =
    (<[zip := File (zip_pack (archive_entries s root_dir))]> s, Ok zip).
Proof.
  intros Hroot Hanc Hnd. unfold make_archive.
  prog_step (chdir_isdir s root_dir Hroot).
  prog_step (make_archive_dir_exists Hanc).
  by prog_step (zip_write_Ok s zip root_dir Hanc Hnd).
Qed.

Context (Hok : fs_ok s).

(** In a consistent file system: the directory of the archive is left as
    it is when it exists, and made with the directories above it when no
    file is in the way. *)
Lemma make_archive_dir_spec :
  make_archive_dir archive_dir s = (s, Ok tt) ∧
    (forallb (isdir s) (ancestors zip) = true ∨
     ¬ Forall (λ dir, isfile s dir = false) (ancestors zip)) ∨
  s !! archive_dir = None ∧ ancestors zip = ancestors archive_dir ++ [archive_dir] ∧
    make_archive_dir archive_dir s = makedirs archive_dir s.
Proof.
  rewrite ancestors_archive. unfold make_archive_dir, path_exists.
  case_bool_decide as Hempty; [left; by rewrite Hempty; auto|]. simpl.
  destruct (all_sep archive_dir); [left; auto|]. simpl.
  destruct (s !! archive_dir) as [[data|]|] eqn:Hdir.
  - rewrite bool_decide_eq_true_2 by eauto. left. split; [done|]. right.
    rewrite Forall_app, Forall_singleton. unfold isfile. rewrite Hdir.
    by intros [_ ?].
  - rewrite bool_decide_eq_true_2 by eauto. left. split; [done|]. left.
    rewrite forallb_app. simpl. unfold isdir at 2. rewrite Hdir, andb_true_r.
    apply forallb_Forall, Forall_forall. intros a Ha.
    apply isdir_true, (fs_ok_lookup s archive_dir); eauto.
  - rewrite bool_decide_eq_false_2 by by intros [? ?]. by right.
Qed.

(** [make_archive] in a consistent file system: when it raises it has
    changed nothing. *)
Lemma make_archive_spec :
  make_archive base_name root_dir s =
    if decide (archive_ready s base_name root_dir)
    then (<[zip := File (zip_pack
                           (archive_entries (mkdirs (ancestors zip) s) root_dir))]>
            (mkdirs (ancestors zip) s), Ok zip)
    else (s, Raise OSError).
Proof.
  unfold make_archive. destruct (isdir s root_dir) eqn:Hroot; last first.
  { rewrite decide_False by (intros [? _]; congruence).
    by prog_step (chdir_not_isdir s root_dir Hroot). }
  prog_step (chdir_isdir s root_dir Hroot).
  destruct make_archive_dir_spec as [[Hskip Hanc]|(Hnone & Hchain & Hmake)].
  - prog_step Hskip. destruct Hanc as [Hanc|Hfile].
    + rewrite mkdirs_id by done.
      destruct (zip_write_cases s zip root_dir) as [(_ & Hnd & Hw)|Hw]; prog_step Hw.
      * rewrite decide_True; [done|]. split_and!; [done| |done].
        apply forallb_Forall in Hanc. eapply Forall_impl; [exact Hanc|].
        apply isdir_not_isfile.
      * rewrite decide_False; [done|]. intros (_ & _ & Hnd).
        by rewrite zip_write_Ok in Hw.
    + rewrite decide_False by (by intros (_ & ? & _)).
      destruct (zip_write_cases s zip root_dir) as [(Hanc & _)|Hw]; [|by prog_step Hw].
      destruct Hfile. apply forallb_Forall in Hanc.
      eapply Forall_impl; [exact Hanc|]. apply isdir_not_isfile.
  - rewrite makedirs_spec, <-Hchain in Hmake by done.
    destruct (decide (Forall _ (ancestors zip))) as [Hfile|Hfile]; prog_step Hmake;
      [|by rewrite decide_False by (by intros (_ & ? & _))].
    assert (mkdirs (ancestors zip) s !! zip = None) as Hzip.
    { rewrite mkdirs_lookup, decide_False by (intros Hin%ancestors_length; lia).
      destruct (s !! zip) as [n|] eqn:Hs; [|done].
      rewrite (fs_ok_lookup s zip archive_dir) in Hnone; [done|done|eauto|].
      rewrite Hchain. set_solver. }
    rewrite decide_True; last first.
    { split_and!; [done..|]. rewrite mkdirs_lookup, decide_False in Hzip;
        [by rewrite Hzip|intros Hin%ancestors_length; lia]. }
    by rewrite (prog_bind_Ok _ _ _ _ tt (zip_write_Ok _ zip root_dir (mkdirs_isdir _ s)
                  ltac:(by rewrite Hzip))).
Qed.

Lemma make_archive_Raise :
  raised (make_archive base_name root_dir s).2 = true →
  (make_archive base_name root_dir s).1 = s.
Proof. rewrite make_archive_spec. by case_decide. Qed.

(** Besides the archive, [make_archive] only makes directories that were
    missing above it. *)
Lemma make_archive_confined : confined zip s (make_archive base_name root_dir s).1.
Proof.
  rewrite make_archive_spec. case_decide as Hready; [|by left].
  destruct Hready as (_ & Hfile & _). intros p Hp. simpl.
  rewrite lookup_insert_ne, mkdirs_lookup by done. case_decide as Hin; [|by left].
  rewrite Forall_forall in Hfile. specialize (Hfile p Hin). unfold isfile in Hfile.
  destruct (s !! p) as [[]|]; [done|by left|by right].
Qed.

End make_archive.

(** Each step of [make_archive] keeps the file system consistent. *)
Lemma fs_ok_chdir dir : keeps fs_ok (chdir dir).
Proof. intros s Hok. unfold chdir. by destruct (isdir s dir). Qed.

Lemma fs_ok_make_archive_dir archive_dir : keeps fs_ok (make_archive_dir archive_dir).
Proof.
  intros s Hok. unfold make_archive_dir. destruct (_ && _); [|done].
  by apply fs_ok_makedirs.
Qed.

Lemma fs_ok_zip_write `{Archiver} zip_filename root_dir :
  keeps fs_ok (zip_write zip_filename root_dir).
Proof. intros s Hok. by apply fs_ok_write_file. Qed.

Lemma fs_ok_make_archive `{Archiver} base_name root_dir :
  keeps fs_ok (make_archive base_name root_dir).
Proof.
  unfold make_archive. cbv zeta.
  auto using keeps_bind, fs_ok_chdir, fs_ok_make_archive_dir, fs_ok_zip_write, keeps_ret.
Qed.

(** ** Changes confined to a write *)

Section confined.
Implicit Types (s : gmap string node) (dir p target : string).

#[export] Instance confined_refl target : Reflexive (confined target).
Proof. intros s p _. by left. Qed.

Lemma not_outside dir p :
  ¬ (p ≠ dir ∧ is_under dir p = false) → p = dir ∨ is_under dir p = true.
Proof.
  intros Hout. destruct (decide (p = dir)); [by left|right].
  apply not_false_is_true. intros Hu. by apply Hout.
Qed.

(** The directories above a path outside [dir] are outside [dir]. *)
Lemma ancestors_outside dir target a :
  target ≠ dir → is_under dir target = false → a ∈ ancestors target →
  a ≠ dir ∧ is_under dir a = false.
Proof.
  intros Hne Hout Ha. pose proof (ancestors_under target a Ha) as Hu. split.
  - intros ->. congruence.
  - apply not_true_is_false. intros Hua.
    by rewrite (is_under_trans dir a target) in Hout.
Qed.

(** Directories made outside [dir] while [dir] is in use are there after
    its removal. *)
Lemma rmtree_mkdirs dir dirs s s3 :
  fs_fresh s dir → agree_outside dir s s3 →
  Forall (λ a, a ≠ dir ∧ is_under dir a = false) dirs →
  rmtree dir (mkdirs dirs s3) = mkdirs dirs s.
Proof.
  intros Hfresh Hagree Hdirs. apply map_eq. intros p.
  rewrite rmtree_lookup, !mkdirs_lookup. rewrite Forall_forall in Hdirs.
  case_decide as Hout.
  - case_decide; [done|]. destruct Hout. by apply Hagree.
  - rewrite decide_False by (intros Hin; by apply Hout, Hdirs).
    symmetry. by apply (fs_fresh_lookup s dir), not_outside.
Qed.

(** A write that happens while a fresh directory is in use, seen after
    the directory has been removed. *)
Lemma confined_rmtree dir target s s3 s4 :
  fs_fresh s dir → agree_outside dir s s3 → confined target s3 s4 →
  confined target s (rmtree dir s4).
Proof.
  intros Hfresh Hagree Hconf p Hp. rewrite rmtree_lookup.
  case_decide as Hout.
  - destruct Hout as [Hne Hout]. rewrite <-(Hagree p) by done. by apply Hconf.
  - left. symmetry. by apply (fs_fresh_lookup s dir), not_outside.
Qed.

End confined.

#[export] Hint Resolve fs_ok_mkdtemp fs_ok_makedirs fs_ok_shutil_copy
  fs_ok_make_archive fs_ok_rmtree : iqc.

(** ** Properties of the calls *)

(** C22: [make_archive] is all or nothing in a consistent file system: when
    the tree to pack is a directory, no file is in the place of a directory
    above the archive and no directory in the place of the archive, the
    directories above the archive that are missing are made and the archive
    of the tree is written; otherwise the call raises [OSError] and the
    file system is as before. *)
Theorem make_archive_all_or_nothing `{Archiver} s base_name root_dir :
  fs_ok s →
  let zip := abspath base_name +:+ ".zip" in
  let s1 := mkdirs (ancestors zip) s in
  (archive_ready s base_name root_dir →
   make_archive base_name root_dir s =
     (<[zip := File (zip_pack (archive_entries s1 root_dir))]> s1, Ok zip)) ∧
  (¬ archive_ready s base_name root_dir →
   make_archive base_name root_dir s = (s, Raise OSError)).
Proof.
  intros Hok. cbv zeta. rewrite make_archive_spec by done.
  split; intros Hready; [by rewrite decide_True|by rewrite decide_False].
Qed.

(** [os.makedirs] in a consistent file system: the directory is made
    with the directories above it when no file is in the place of one of
    them, directories that exist being kept; otherwise the call raises and
    nothing is made.  In both cases the file system stays consistent. *)
Theorem makedirs_all_or_nothing s path :
  fs_ok s →
  let dirs := ancestors path ++ [path] in
  (Forall (λ dir, isfile s dir = false) dirs →
   makedirs path s = (mkdirs dirs s, Ok tt) ∧
   forallb (isdir (mkdirs dirs s)) dirs = true) ∧
  (¬ Forall (λ dir, isfile s dir = false) dirs →
   makedirs path s = (s, Raise OSError)) ∧
  fs_ok (makedirs path s).1.
Proof.
  intros Hok. cbv zeta. rewrite makedirs_spec by done. split_and!.
  - intros Hfile. rewrite decide_True by done. split; [done|apply mkdirs_isdir].
  - intros Hfile. by rewrite decide_False.
  - rewrite <-makedirs_spec by done. by apply fs_ok_makedirs.
Qed.

(** A file system with a staging directory, and a file in the place of a
    directory. *)
Definition calls_fs : gmap string node :=
  list_to_map
    [("/tmp", Dir); ("/tmp/t", Dir); ("/tmp/t/a.jpg", File "bytes of a");
     ("/home", Dir); ("/home/notes", File "to do")].

Lemma calls_fs_ok : fs_ok calls_fs.
Proof. apply (bool_decide_unpack _). by vm_compute. Qed.

Lemma make_archive_all_or_nothing_witness :
  isdir (make_archive (H:=bits_archiver) "/home/new.d/best" "/tmp/t" calls_fs).1
    "/home/new.d" = true ∧
  isfile (make_archive (H:=bits_archiver) "/home/new.d/best" "/tmp/t" calls_fs).1
    "/home/new.d/best.zip" = true ∧
  make_archive (H:=bits_archiver) "/home/notes/best" "/tmp/t" calls_fs =
    (calls_fs, Raise OSError).
Proof.
  destruct (make_archive_all_or_nothing (H:=bits_archiver) calls_fs
              "/home/new.d/best" "/tmp/t" calls_fs_ok) as [Hok _].
  destruct (make_archive_all_or_nothing (H:=bits_archiver) calls_fs
              "/home/notes/best" "/tmp/t" calls_fs_ok) as [_ Hraise].
  cbv zeta in Hok.
  rewrite Hok, Hraise by (apply (bool_decide_unpack _); by vm_compute).
  cbn [fst]. split_and!; [|apply isfile_true; eexists; apply lookup_insert_eq|done].
  apply isdir_true. rewrite lookup_insert_ne by done.
  by rewrite mkdirs_lookup, decide_True by (apply (bool_decide_unpack _); by vm_compute).
Defined.

Lemma makedirs_all_or_nothing_witness :
  makedirs "/home/a/b" calls_fs = (mkdirs ["/home"; "/home/a"; "/home/a/b"] calls_fs, Ok tt) ∧
  makedirs "/home/notes/b" calls_fs = (calls_fs, Raise OSError).
Proof.
  pose proof (makedirs_all_or_nothing calls_fs "/home/a/b" calls_fs_ok) as (Hmk & _ & _).
  pose proof (makedirs_all_or_nothing calls_fs "/home/notes/b" calls_fs_ok)
    as (_ & Hraise & _).
  cbv zeta in Hmk, Hraise. split.
  - apply Hmk, (bool_decide_unpack _). by vm_compute.
  - apply Hraise, (bool_decide_unpack _). by vm_compute.
Defined.
