(* ===== verification/Imaging.v ===== *)
(** * Image Validator and Focus Scorer

    [is_image] and [is_blurry] of [main.py].  Both open a file and hand its
    bytes to an imaging library (Pillow for [is_image], OpenCV for
    [is_blurry]); both wrap their body in a bare [except:] that turns every
    failure into [False].

    The libraries are the interface [ImageLib]: what [Image.open] makes of
    the bytes of a file, whether [verify] accepts it, its size, and what
    [cv2.imread] decodes with the variance of the Laplacian of its grey
    levels.  The variance is a rational number: the comparison of the
    program is on a 64-bit float, whose rounding is not modelled.

    [toy_imaging] is a small concrete library, used to evaluate the
    definitions on examples. *)

From Stdlib Require Import ZArith QArith.
From stdpp Require Import base tactics option list strings gmap.
From S2P Require Import Prelude PyDict PyPath FileSys.

#[local] Close Scope Q_scope.

(** ** The imaging libraries *)

Class ImageLib : Type := {
  (** What [Image.open] returns: a lazily decoded image. *)
  pil_image : Type;
  (** [Image.open] on the bytes of a file: the header is parsed. *)
  Image_open : string → outcome pil_image;
  (** [img.verify()]. *)
  Image_verify : pil_image → outcome unit;
  (** [img.size]. *)
  Image_size : pil_image → Z * Z;
  (** [img.resize((50, 50), Image.LANCZOS)] and [ImageTk.PhotoImage]. *)
  Image_thumbnail : pil_image → outcome unit;
  (** What [cv2.imread] decodes. *)
  cv_image : Type;
  (** [cv2.imread] on the bytes of a file: [None] when it cannot decode
      them. *)
  cv2_imdecode : string → option cv_image;
  (** [cv2.Laplacian(cv2.cvtColor(img, cv2.COLOR_BGR2GRAY), cv2.CV_64F).var()]. *)
  cv2_laplacian_var : cv_image → Q;
}.

(** [a < b] on rationals. *)
Definition Qltb (a b : Q) : bool := negb (Qle_bool b a).

(** The default of the parameter [threshold] of [is_blurry]. *)
Definition default_threshold : Q := 100.

Section imaging.
Context `{ImageLib}.
Implicit Types (s : gmap string node) (path : string).

(** [Image.open(path)]: the file is opened and its header parsed. *)
Definition pil_open s path : outcome pil_image :=
  fs_read s path ≫= Image_open.

(** [cv2.imread(path)]: [None] when the file cannot be read or decoded. *)
Definition cv2_imread s path : option cv_image :=
  match fs_read s path with
  | Ok data => cv2_imdecode data
  | Raise _ => None
  end.

(** The two calls on the result of [imread], which raise on [None]. *)
Definition cv2_lap_var (img : option cv_image) : outcome Q :=
  match img with
  | Some i => Ok (cv2_laplacian_var i)
  | None => Raise Cv2Error
  end.

(** [def is_image(file_path)], lines 23-29. *)
Definition is_image s (file_path : string) : bool :=
  try_except
    (img ← pil_open s file_path;
     _ ← Image_verify img;
     Ok true)
    false.

(** [def is_blurry(path, threshold=100)], lines 31-39. *)
Definition is_blurry s path (threshold : Q) : bool :=
  try_except
    (let img := cv2_imread s path in
     lap_var ← cv2_lap_var img;
     Ok (Qltb lap_var threshold))
    false.

(** [with Image.open(path) as img: w, h = img.size], lines 85-86. *)
Definition image_size s path : outcome (Z * Z) :=
  img ← pil_open s path; Ok (Image_size img).

(** ** The validator *)

Lemma Qltb_lt (a b : Q) : Qltb a b = true ↔ (a < b)%Q.
Proof.
  unfold Qltb. rewrite negb_true_iff, <-not_true_iff_false, Qle_bool_iff.
  split; [apply Qnot_le_lt|apply Qlt_not_le].
Qed.

Lemma is_image_true s path :
  is_image s path = true ↔
  ∃ data img, s !! path = Some (File data) ∧ Image_open data = Ok img ∧
              Image_verify img = Ok tt.
Proof.
  unfold is_image, pil_open, fs_read. split.
  - destruct (s !! path) as [[data|]|]; simpl; try done.
    destruct (Image_open data) as [img|] eqn:Hopen; simpl; [|done].
    destruct (Image_verify img) as [[]|] eqn:Hv; simpl; [|done]. eauto.
  - intros (data & img & -> & Hopen & Hv). simpl. rewrite Hopen. simpl.
    by rewrite Hv.
Qed.

Lemma is_image_pil_open s path :
  is_image s path = true → ∃ img, pil_open s path = Ok img.
Proof.
  intros (data & img & Hs & Hopen & _)%is_image_true.
  exists img. unfold pil_open, fs_read. by rewrite Hs.
Qed.

(** After the validator has accepted a file, reading its size does not
    fail: the [except: continue] of lines 87-88 is not taken. *)
Lemma is_image_size s path :
  is_image s path = true → ∃ w h, image_size s path = Ok (w, h).
Proof.
  intros [img Himg]%is_image_pil_open. unfold image_size. rewrite Himg.
  destruct (Image_size img) as [w h] eqn:Hsz. exists w, h. simpl. by rewrite Hsz.
Qed.

Lemma is_image_missing s path : s !! path = None → is_image s path = false.
Proof. intros Hs. unfold is_image, pil_open, fs_read. by rewrite Hs. Qed.

(** ** The scorer *)

Lemma is_blurry_true s path threshold :
  is_blurry s path threshold = true ↔
  ∃ img, cv2_imread s path = Some img ∧ (cv2_laplacian_var img < threshold)%Q.
Proof.
  unfold is_blurry, cv2_lap_var.
  destruct (cv2_imread s path) as [img|]; simpl.
  - rewrite Qltb_lt. split; [eauto|]. by intros (? & [= <-] & ?).
  - split; [done|]. by intros (? & ? & _).
Qed.

Lemma is_blurry_unreadable s path threshold :
  cv2_imread s path = None → is_blurry s path threshold = false.
Proof. intros Himg. unfold is_blurry. by rewrite Himg. Qed.

Lemma is_blurry_sharp s path threshold img :
  cv2_imread s path = Some img → (threshold <= cv2_laplacian_var img)%Q →
  is_blurry s path threshold = false.
Proof.
  intros Himg Hle. apply not_true_is_false. rewrite is_blurry_true.
  intros (img' & Himg' & Hlt). rewrite Himg in Himg'. injection Himg' as <-.
  by apply Qlt_not_le in Hlt.
Qed.

(** ** Properties of the validator and of the scorer *)

(** C9: the validator never raises and answers [True] exactly for a path at
    which there is a regular file that Pillow opens and whose integrity
    check passes; a missing path, a directory, bytes that are not an image
    and an image that fails the check all give [False]. *)
Theorem is_image_spec s path :
  is_image s path = true ↔
  ∃ data img, s !! path = Some (File data) ∧ Image_open data = Ok img ∧
              Image_verify img = Ok tt.
Proof. apply is_image_true. Qed.

(** C10: the scorer never raises and answers [True] exactly when OpenCV reads
    the file and the variance of the Laplacian is strictly below the
    threshold; a variance equal to the threshold and a file that OpenCV
    cannot read both give [False]. *)
Theorem is_blurry_spec s path threshold :
  (is_blurry s path threshold = true ↔
   ∃ img, cv2_imread s path = Some img ∧
          (cv2_laplacian_var img < threshold)%Q) ∧
  (cv2_imread s path = None → is_blurry s path threshold = false).
Proof. split; [apply is_blurry_true|apply is_blurry_unreadable]. Qed.

End imaging.

(** ** A concrete library for examples *)

(** The files that the example library decodes: the bytes, the size, whether
    [verify] and the thumbnail succeed, and the variance of the Laplacian
    when OpenCV decodes the file. *)
Definition toy_files : list (string * (Z * Z * bool * option Q)) :=
  [("jpeg-4000x3000-sharp", (4000%Z, 3000%Z, true, Some (250 # 1)%Q));
   ("jpeg-1920x1080-soft", (1920%Z, 1080%Z, true, Some (81 # 2)%Q));
   ("jpeg-300x200-sharp", (300%Z, 200%Z, true, Some (180 # 1)%Q));
   ("png-640x480-soft", (640%Z, 480%Z, true, Some (12 # 1)%Q));
   ("gif-800x600", (800%Z, 600%Z, true, None));
   ("jpeg-truncated", (1280%Z, 720%Z, false, Some (5 # 1)%Q))].

Definition toy_lookup (data : string) : option (Z * Z * bool * option Q) :=
  dict_get data toy_files.

Definition toy_imaging : ImageLib := {|
  pil_image := Z * Z * bool;
  Image_open data :=
    match toy_lookup data with
    | Some (w, h, ok, _) => Ok (w, h, ok)
    | None => Raise UnidentifiedImageError
    end;
  Image_verify img := if img.2 then Ok tt else Raise OSError;
  Image_size img := img.1;
  Image_thumbnail img := if img.2 then Ok tt else Raise OSError;
  cv_image := Q;
  cv2_imdecode data :=
    match toy_lookup data with
    | Some (_, _, _, v) => v
    | None => None
    end;
  cv2_laplacian_var v := v;
|}.

(** A folder with three photographs, a text file with the extension of an
    image, an animation that Pillow reads and OpenCV does not, a truncated
    photograph and a sub-folder. *)
Definition toy_fs : gmap string node :=
  list_to_map
    [("/pics", Dir);
     ("/pics/a.jpg", File "jpeg-4000x3000-sharp");
     ("/pics/b.jpg", File "jpeg-1920x1080-soft");
     ("/pics/c.jpg", File "jpeg-300x200-sharp");
     ("/pics/notes.jpg", File "to do: sort the holiday pictures");
     ("/pics/anim.gif", File "gif-800x600");
     ("/pics/cut.jpg", File "jpeg-truncated");
     ("/pics/old", Dir);
     ("/pics/old/d.png", File "png-640x480-soft")].

Definition toy_file_list : list string :=
  ["/pics/a.jpg"; "/pics/notes.jpg"; "/pics/b.jpg"; "/pics/anim.gif";
   "/pics/c.jpg"; "/pics/cut.jpg"; "/pics/old/d.png"; "/pics/missing.jpg"].
