(* ===== verification/Focus.v ===== *)
(** * Focus Scorer: the variance of the Laplacian

    [Imaging.is_blurry] takes the variance of the Laplacian from the
    library.  Here it is computed, on the decoded pixels, the way the three
    calls of lines 35-36 compute it with their default arguments: the
    conversion of a colour image to grey levels ([cv2.cvtColor] with
    [COLOR_BGR2GRAY], in the fixed-point arithmetic of OpenCV for 8-bit
    pixels), the Laplacian with the 3x3 kernel of aperture 1
    ([[0,1,0],[1,-4,1],[0,1,0]]) and the border handling of OpenCV (the
    image is reflected about its border pixels), and the variance of numpy
    (the mean of the squares of the deviations from the mean).  OpenCV is
    not part of the repository: these definitions follow its documented
    behaviour and the specification.

    The Laplacian of 8-bit grey levels is an integer between -1020 and
    1020, which the 64-bit floats of [CV_64F] hold exactly; the variance is
    kept as a rational, so the rounding of the floating-point mean is not
    modelled.

    The theorems: the grey level of a pixel is an 8-bit value, and a grey
    pixel keeps its level; the variance is never negative; the Laplacian
    of a flat image is zero everywhere, so a flat image is blurry for every
    positive threshold; adding a constant to every grey level does not
    change the variance, and multiplying every grey level by [k] multiplies
    it by the square of [k], so the verdict depends on the contrast of the
    picture and not on its brightness. *)

From Stdlib Require Import ZArith QArith Lia.
From stdpp Require Import base tactics option list strings gmap.
From S2P Require Import Prelude FileSys Imaging.

#[local] Close Scope Q_scope.
#[local] Open Scope Z_scope.

(** ** Pixels *)

(** A pixel as OpenCV decodes it: blue, green, red. *)
Definition bgr : Type := Z * Z * Z.

(** A grey image: rows of grey levels. *)
Abbreviation gray_image := (list (list Z)).

(** The rounding of a fixed-point number with [shift] fractional bits to
    the nearest integer, as OpenCV does it: add a half and shift. *)
Definition descale (x shift : Z) : Z := Z.shiftr (x + Z.shiftl 1 (shift - 1)) shift.

(** The grey level of a pixel for integer weights with [shift] fractional
    bits. *)
Definition gray_with (wr wg wb shift : Z) (p : bgr) : Z :=
  let '(b, g, r) := p in descale (r * wr + g * wg + b * wb) shift.

(** [cv2.cvtColor(img, cv2.COLOR_BGR2GRAY)] on one 8-bit pixel:
    0.299 R + 0.587 G + 0.114 B with the weights of OpenCV 4, which have 15
    fractional bits.  Earlier releases use 14 bits and the weights 4899,
    9617 and 1868; the lemmas on [gray_with] cover both. *)
Definition gray_of : bgr → Z := gray_with 9798 19235 3735 15.

(** [cv2.cvtColor(img, cv2.COLOR_BGR2GRAY)], line 35. *)
Definition cvtColor (img : list (list bgr)) : gray_image :=
  (λ row : list bgr, gray_of <$> row) <$> img.

(** The pixel is an 8-bit pixel. *)
Definition pixel_ok (p : bgr) : Prop :=
  let '(b, g, r) := p in 0 ≤ b ≤ 255 ∧ 0 ≤ g ≤ 255 ∧ 0 ≤ r ≤ 255.

(** ** The Laplacian *)

(** The index that stands for [i] in a row or column of [n] pixels, for [i]
    from [-1] to [n]: [BORDER_REFLECT_101], the default border of OpenCV. *)
Definition border (n : nat) (i : Z) : nat :=
  if decide (n ≤ 1)%nat then 0%nat
  else if decide (i < 0) then Z.to_nat (- i)
  else if decide (Z.of_nat n ≤ i) then Z.to_nat (2 * Z.of_nat n - 2 - i)
  else Z.to_nat i.

(** The number of columns. *)
Definition width (g : gray_image) : nat :=
  match g with
  | row :: _ => length row
  | [] => 0%nat
  end.

(** The grey level at row [i] and column [j], reflected at the border. *)
Definition level (g : gray_image) (i j : Z) : Z :=
  (g !!! border (length g) i) !!! border (width g) j.

(** [cv2.Laplacian(gray, cv2.CV_64F)], line 36: the sum of the four
    neighbours minus four times the pixel. *)
Definition Laplacian (g : gray_image) : gray_image :=
  imap (λ i row,
    imap (λ j v,
      level g (Z.of_nat i - 1) (Z.of_nat j) + level g (Z.of_nat i + 1) (Z.of_nat j) +
      level g (Z.of_nat i) (Z.of_nat j - 1) + level g (Z.of_nat i) (Z.of_nat j + 1) -
      4 * v) row) g.

(** ** The variance *)

Definition sum_list (xs : list Z) : Z := foldr Z.add 0 xs.

Definition sum_sq (xs : list Z) : Z := sum_list ((λ x, x * x) <$> xs).

(** [a.var()] of numpy on the values [xs]: the mean of the squares minus
    the square of the mean, as a fraction. *)
Definition var (xs : list Z) : Q :=
  let n := Z.of_nat (length xs) in
  Qmake (n * sum_sq xs - sum_list xs * sum_list xs) (Z.to_pos (n * n)).

(** [cv2.Laplacian(gray, cv2.CV_64F).var()], line 36. *)
Definition laplacian_var (g : gray_image) : Q := var (concat (Laplacian g)).

(** ** Images *)

(** The image has [h] rows of [w] pixels. *)
Definition rect (h w : nat) {A : Type} (g : list (list A)) : Prop :=
  length g = h ∧ Forall (λ row, length row = w) g.

(** Every pixel has the grey level [c]. *)
Definition flat (c : Z) (g : gray_image) : Prop := Forall (Forall (λ v, v = c)) g.

(** Every grey level [x] becomes [k * x + d]. *)
Definition affine (k d : Z) (g : gray_image) : gray_image :=
  (λ row : list Z, (λ x, k * x + d) <$> row) <$> g.

(** The entries lie between [- b] and [b]. *)
Definition within (b : Z) (xs : list Z) : Prop := Forall (λ x, - b ≤ x ≤ b) xs.

(** ** The imaging library with a computed variance *)

Section focus_lib.
Context (base : ImageLib) (decode : string → option (list (list bgr))).

(** Pillow as in [base]; OpenCV decodes with [decode] and measures with the
    definitions above. *)
Definition focus_lib : ImageLib := {|
  pil_image := @pil_image base;
  Image_open := @Image_open base;
  Image_verify := @Image_verify base;
  Image_size := @Image_size base;
  Image_thumbnail := @Image_thumbnail base;
  cv_image := list (list bgr);
  cv2_imdecode := decode;
  cv2_laplacian_var img := laplacian_var (cvtColor img);
|}.

End focus_lib.

(** ** Grey levels *)

Lemma descale_div x shift :
  0 < shift → descale x shift = (2 * x + 2 ^ shift) / (2 * 2 ^ shift).
Proof.
  intros Hs. unfold descale. rewrite Z.shiftr_div_pow2, Z.shiftl_1_l by lia.
  replace (2 ^ shift) with (2 * 2 ^ (shift - 1)).
  - rewrite <-Z.mul_add_distr_l. rewrite Z.div_mul_cancel_l; lia.
  - rewrite <-Z.pow_succ_r by lia. f_equal. lia.
Qed.

(** Weights that are not negative and add up to one give an 8-bit grey level
    for an 8-bit pixel, and a grey pixel keeps its level. *)
Lemma gray_with_range wr wg wb shift p :
  0 < shift → 0 ≤ wr → 0 ≤ wg → 0 ≤ wb → wr + wg + wb = 2 ^ shift →
  pixel_ok p → 0 ≤ gray_with wr wg wb shift p ≤ 255.
Proof.
  destruct p as [[b g] r]. unfold pixel_ok, gray_with.
  intros Hs Hr Hg Hb Hsum (Hb' & Hg' & Hr').
  rewrite descale_div by done. pose proof (Z.pow_pos_nonneg 2 shift) as Hpow.
  split.
  - apply Z.div_pos; nia.
  - apply Z.lt_succ_r, Z.div_lt_upper_bound; nia.
Qed.

Lemma gray_with_gray wr wg wb shift v :
  0 < shift → wr + wg + wb = 2 ^ shift → gray_with wr wg wb shift (v, v, v) = v.
Proof.
  intros Hs Hsum. unfold gray_with. rewrite descale_div by done.
  pose proof (Z.pow_pos_nonneg 2 shift) as Hpow.
  replace (2 * (v * wr + v * wg + v * wb) + 2 ^ shift)
    with (v * (2 * 2 ^ shift) + 2 ^ shift) by nia.
  rewrite Z.div_add_l by lia. rewrite Z.div_small; lia.
Qed.

Lemma gray_of_range (p : bgr) : pixel_ok p → 0 ≤ gray_of p ≤ 255.
Proof. by apply gray_with_range. Qed.

Lemma gray_of_gray (v : Z) : gray_of (v, v, v) = v.
Proof. by apply gray_with_gray. Qed.

(** ** Sums *)

Lemma sum_list_cons x xs : sum_list (x :: xs) = x + sum_list xs.
Proof. done. Qed.

Lemma sum_sq_cons x xs : sum_sq (x :: xs) = x * x + sum_sq xs.
Proof. done. Qed.

Lemma sum_list_app xs ys : sum_list (xs ++ ys) = sum_list xs + sum_list ys.
Proof. induction xs as [|x xs IH]; [done|]. rewrite <-app_comm_cons, !sum_list_cons. lia. Qed.

Lemma sum_sq_nonneg xs : 0 ≤ sum_sq xs.
Proof. induction xs as [|x xs IH]; [done|]. rewrite sum_sq_cons. nia. Qed.

(** The sum of the squares of [a * x - b]. *)
Lemma sum_sq_affine (a b : Z) xs :
  sum_sq ((λ x, a * x - b) <$> xs) =
    a * a * sum_sq xs - 2 * a * b * sum_list xs + Z.of_nat (length xs) * (b * b).
Proof.
  induction xs as [|x xs IH]; [cbn; lia|].
  rewrite fmap_cons, !sum_sq_cons, sum_list_cons, IH. cbn [length].
  rewrite Nat2Z.inj_succ. lia.
Qed.

Lemma sum_list_affine (a b : Z) xs :
  sum_list ((λ x, a * x + b) <$> xs) = a * sum_list xs + Z.of_nat (length xs) * b.
Proof.
  induction xs as [|x xs IH]; [cbn; lia|].
  rewrite fmap_cons, !sum_list_cons, IH. cbn [length]. rewrite Nat2Z.inj_succ. lia.
Qed.

(** Cauchy's inequality for the sum and the sum of the squares. *)
Lemma sum_sq_bound xs : sum_list xs * sum_list xs ≤ Z.of_nat (length xs) * sum_sq xs.
Proof.
  pose proof (sum_sq_nonneg ((λ x, Z.of_nat (length xs) * x - sum_list xs) <$> xs)) as H.
  rewrite sum_sq_affine in H. destruct xs as [|x xs]; [done|].
  set (n := Z.of_nat (length (x :: xs))) in *.
  assert (0 < n) by (subst n; cbn [length]; lia). nia.
Qed.

(** ** The variance *)

Lemma var_nonneg xs : (0 <= var xs)%Q.
Proof.
  unfold var, Qle. simpl. pose proof (sum_sq_bound xs). lia.
Qed.

(** The variance of [k * x + d] is [k * k] times the variance of [x]. *)
Lemma var_affine (k d : Z) xs :
  Qeq (var ((λ x, k * x + d) <$> xs)) (Qmult (inject_Z (k * k)) (var xs)).
Proof.
  unfold var. rewrite length_fmap. set (n := Z.of_nat (length xs)).
  replace (sum_sq ((λ x, k * x + d) <$> xs))
    with (k * k * sum_sq xs + 2 * k * d * sum_list xs + n * (d * d)).
  2:{ rewrite (list_fmap_ext (λ x, k * x + d) (λ x, k * x - - d) xs) by (intros; lia).
      rewrite sum_sq_affine. subst n. lia. }
  rewrite sum_list_affine. fold n. unfold Qeq, Qmult, inject_Z. simpl. lia.
Qed.

Lemma var_zero xs : Forall (λ v, v = 0) xs → Qeq (var xs) 0.
Proof.
  intros Hxs. assert (sum_list xs = 0 ∧ sum_sq xs = 0) as [Hs Hq].
  { induction Hxs as [|x xs -> _ [IH1 IH2]]; [done|].
    by rewrite sum_list_cons, sum_sq_cons, IH1, IH2. }
  unfold var, Qeq. simpl. rewrite Hs, Hq. lia.
Qed.

(** ** Images *)

Lemma border_lt (n : nat) (i : Z) :
  (0 < n)%nat → -1 ≤ i ≤ Z.of_nat n → (border n i < n)%nat.
Proof. intros Hn Hi. unfold border. repeat case_decide; lia. Qed.

Lemma border_inner (n : nat) (i : nat) : (i < n)%nat → border n (Z.of_nat i) = i.
Proof. intros Hi. unfold border. repeat case_decide; lia. Qed.

Lemma width_rect {h w : nat} (g : gray_image) : rect h w g → (0 < h)%nat → width g = w.
Proof.
  intros [Hh Hw] Hpos. destruct g as [|row g]; [simpl in Hh; lia|].
  by apply Forall_cons in Hw as [? _].
Qed.

Section image.
Context (h w : nat) (g : gray_image).
Context (Hrect : rect h w g) (Hh : (0 < h)%nat) (Hw : (0 < w)%nat).

(** The grey level at a position, from one position outside the border on
    each side: a pixel of the image. *)
Lemma level_lookup (i j : Z) :
  -1 ≤ i ≤ Z.of_nat h → -1 ≤ j ≤ Z.of_nat w →
  ∃ row, g !! border h i = Some row ∧ row !! border w j = Some (level g i j).
Proof.
  intros Hi Hj. destruct Hrect as [Hlen Hrows].
  destruct (lookup_lt_is_Some_2 g (border h i)) as [row Hrow].
  { rewrite Hlen. by apply border_lt. }
  pose proof (Forall_lookup_1 _ _ _ _ Hrows Hrow) as Hlr. simpl in Hlr.
  destruct (lookup_lt_is_Some_2 row (border w j)) as [v Hv].
  { rewrite Hlr. by apply border_lt. }
  exists row. split; [done|]. unfold level.
  rewrite Hlen, (width_rect g Hrect Hh), (list_lookup_total_correct _ _ _ Hrow).
  by rewrite (list_lookup_total_correct _ _ _ Hv).
Qed.

Lemma level_inner (i j : nat) row v :
  g !! i = Some row → row !! j = Some v → level g (Z.of_nat i) (Z.of_nat j) = v.
Proof.
  intros Hrow Hv. destruct Hrect as [Hlen Hrows].
  pose proof (Forall_lookup_1 _ _ _ _ Hrows Hrow) as Hlr. simpl in Hlr.
  assert (i < h)%nat by (rewrite <-Hlen; by eapply lookup_lt_Some).
  assert (j < w)%nat by (rewrite <-Hlr; by eapply lookup_lt_Some).
  unfold level. rewrite Hlen, (width_rect g (conj Hlen Hrows) Hh).
  rewrite !border_inner by done. rewrite (list_lookup_total_correct _ _ _ Hrow).
  by rewrite (list_lookup_total_correct _ _ _ Hv).
Qed.

Lemma level_flat c (i j : Z) :
  flat c g → -1 ≤ i ≤ Z.of_nat h → -1 ≤ j ≤ Z.of_nat w → level g i j = c.
Proof.
  intros Hflat Hi Hj. destruct (level_lookup i j Hi Hj) as (row & Hrow & Hv).
  pose proof (Forall_lookup_1 _ _ _ _ Hflat Hrow) as Hr.
  by apply (Forall_lookup_1 _ _ _ _ Hr Hv).
Qed.

Lemma level_affine k d (i j : Z) :
  -1 ≤ i ≤ Z.of_nat h → -1 ≤ j ≤ Z.of_nat w →
  level (affine k d g) i j = k * level g i j + d.
Proof.
  intros Hi Hj. destruct (level_lookup i j Hi Hj) as (row & Hrow & Hv).
  assert (width (affine k d g) = width g) as Hwd.
  { unfold affine. destruct g; [done|]. simpl. by rewrite length_fmap. }
  unfold level at 1. unfold affine at 1 2. rewrite length_fmap. fold (affine k d g).
  rewrite Hwd. destruct Hrect as [Hlen _]. rewrite Hlen, (width_rect g Hrect Hh).
  unfold affine.
  rewrite (list_lookup_total_correct _ (border h i) ((λ x, k * x + d) <$> row))
    by (by rewrite list_lookup_fmap, Hrow).
  apply list_lookup_total_correct. by rewrite list_lookup_fmap, Hv.
Qed.

(** An entry of the Laplacian. *)
Lemma Laplacian_lookup (i j : nat) row v :
  Laplacian g !! i = Some row → row !! j = Some v →
  ∃ x, v = level g (Z.of_nat i - 1) (Z.of_nat j) + level g (Z.of_nat i + 1) (Z.of_nat j) +
           level g (Z.of_nat i) (Z.of_nat j - 1) + level g (Z.of_nat i) (Z.of_nat j + 1) -
           4 * x ∧
       x = level g (Z.of_nat i) (Z.of_nat j) ∧ (i < h)%nat ∧ (j < w)%nat.
Proof.
  unfold Laplacian. intros (row0 & Hrow0 & ->)%list_lookup_imap_Some.
  intros (x & Hx & ->)%list_lookup_imap_Some. exists x. split; [done|].
  destruct Hrect as [Hlen Hrows].
  pose proof (Forall_lookup_1 _ _ _ _ Hrows Hrow0) as Hlr. simpl in Hlr.
  split_and!.
  - symmetry. by eapply level_inner.
  - rewrite <-Hlen. by eapply lookup_lt_Some.
  - rewrite <-Hlr. by eapply lookup_lt_Some.
Qed.

(** The Laplacian of a flat image is zero. *)
Lemma Laplacian_flat c : flat c g → flat 0 (Laplacian g).
Proof.
  intros Hflat. apply Forall_lookup. intros i row Hrow.
  apply Forall_lookup. intros j v Hv.
  destruct (Laplacian_lookup i j row v Hrow Hv) as (x & -> & -> & Hi & Hj).
  rewrite !(level_flat c) by (done || lia). lia.
Qed.

(** The Laplacian is linear, and zero on constants. *)
Lemma Laplacian_affine k d : Laplacian (affine k d g) = affine k 0 (Laplacian g).
Proof.
  unfold Laplacian. set (lev := level (affine k d g)).
  assert (∀ i j, -1 ≤ i ≤ Z.of_nat h → -1 ≤ j ≤ Z.of_nat w →
                 lev i j = k * level g i j + d) as Hlev
    by (intros; by apply level_affine).
  clearbody lev. destruct Hrect as [Hlen Hrows].
  unfold affine. rewrite imap_fmap, fmap_imap. apply imap_ext. intros i row Hrow. simpl.
  rewrite imap_fmap, fmap_imap. apply imap_ext. intros j v Hv. simpl.
  pose proof (Forall_lookup_1 _ _ _ _ Hrows Hrow) as Hlr. simpl in Hlr.
  apply lookup_lt_Some in Hrow, Hv. rewrite !Hlev by lia. lia.
Qed.

End image.

Lemma concat_fmap_rows {A B : Type} (f : A → B) (l : list (list A)) :
  concat ((λ row : list A, f <$> row) <$> l) = f <$> concat l.
Proof.
  induction l as [|row l IH]; [done|]. rewrite fmap_cons. cbn [concat].
  by rewrite fmap_app, IH.
Qed.

Lemma Forall_concat_rows {A : Type} (P : A → Prop) (l : list (list A)) :
  Forall (Forall P) l → Forall P (concat l).
Proof. induction 1; simpl; [done|]. by apply Forall_app. Qed.

(** ** The variance of the Laplacian *)

Lemma laplacian_var_nonneg g : (0 <= laplacian_var g)%Q.
Proof. apply var_nonneg. Qed.

Lemma laplacian_var_flat h w g c :
  rect h w g → flat c g → Qeq (laplacian_var g) 0.
Proof.
  intros Hrect Hflat. apply var_zero.
  destruct (decide (0 < h)%nat) as [Hh|Hh].
  - destruct (decide (0 < w)%nat) as [Hw|Hw].
    + apply Forall_concat_rows. by eapply (Laplacian_flat h w).
    + apply Forall_concat_rows, Forall_lookup. intros i row Hrow.
      apply list_lookup_imap_Some in Hrow as (row0 & Hrow0 & ->).
      destruct Hrect as [_ Hrows].
      pose proof (Forall_lookup_1 _ _ _ _ Hrows Hrow0) as Hlr. simpl in Hlr.
      destruct row0; [done|simpl in Hlr; lia].
  - destruct Hrect as [Hlen _]. destruct g; [done|simpl in Hlen; lia].
Qed.

Lemma laplacian_var_affine h w g k d :
  rect h w g → (0 < h)%nat → (0 < w)%nat →
  Qeq (laplacian_var (affine k d g)) (Qmult (inject_Z (k * k)) (laplacian_var g)).
Proof.
  intros Hrect Hh Hw. unfold laplacian_var.
  rewrite (Laplacian_affine h w g Hrect Hh Hw). unfold affine.
  rewrite concat_fmap_rows. apply var_affine.
Qed.

(** ** The scorer with the computed variance *)

(** ** Bounds *)

Lemma sum_list_within b xs :
  within b xs → - (b * Z.of_nat (length xs)) ≤ sum_list xs ≤ b * Z.of_nat (length xs).
Proof.
  induction 1 as [|x xs Hx _ IH]; [cbn; lia|].
  rewrite sum_list_cons. cbn [length]. rewrite Nat2Z.inj_succ. lia.
Qed.

Lemma sum_sq_within b xs : within b xs → sum_sq xs ≤ b * b * Z.of_nat (length xs).
Proof.
  induction 1 as [|x xs Hx _ IH]; [cbn; lia|].
  rewrite sum_sq_cons. cbn [length]. rewrite Nat2Z.inj_succ. nia.
Qed.

(** The variance of numbers between [- b] and [b] is at most [b * b]. *)
Lemma var_within b xs : within b xs → (var xs <= inject_Z (b * b))%Q.
Proof.
  intros Hxs. pose proof (sum_sq_within b xs Hxs) as Hsq.
  unfold var, Qle, inject_Z. cbn [Qnum Qden]. set (n := Z.of_nat (length xs)) in *.
  destruct (decide (n = 0)) as [->|Hn]; [cbn; nia|].
  assert (0 < n) by (subst n; lia). rewrite Z2Pos.id by nia. nia.
Qed.

Lemma length_concat_rect {A : Type} (h w : nat) (l : list (list A)) :
  rect h w l → length (concat l) = (h * w)%nat.
Proof.
  intros [<- Hrows]. induction Hrows as [|row l Hrow _ IH]; [done|].
  cbn [concat length]. rewrite length_app, IH, Hrow. lia.
Qed.

Lemma rect_Laplacian (h w : nat) (g : gray_image) : rect h w g → rect h w (Laplacian g).
Proof.
  intros [Hlen Hrows]. unfold Laplacian. split; [by rewrite length_imap|].
  apply Forall_lookup. intros i row (row0 & Hrow0 & ->)%list_lookup_imap_Some.
  rewrite length_imap. by apply (Forall_lookup_1 _ _ _ _ Hrows Hrow0).
Qed.

Section range.
Context (h w : nat) (g : gray_image).
Context (Hrect : rect h w g) (Hh : (0 < h)%nat) (Hw : (0 < w)%nat).
Context (Hpix : Forall (Forall (λ v, 0 ≤ v ≤ 255)) g).

Lemma level_range (i j : Z) :
  -1 ≤ i ≤ Z.of_nat h → -1 ≤ j ≤ Z.of_nat w → 0 ≤ level g i j ≤ 255.
Proof.
  intros Hi Hj. destruct (level_lookup h w g Hrect Hh Hw i j Hi Hj) as (row & Hrow & Hv).
  pose proof (Forall_lookup_1 _ _ _ _ Hpix Hrow) as Hr.
  by apply (Forall_lookup_1 _ _ _ _ Hr Hv).
Qed.

(** The filter of an 8-bit image: four neighbours of at most 255, minus
    four times a pixel of at most 255. *)
Lemma Laplacian_range : Forall (within 1020) (Laplacian g).
Proof.
  apply Forall_lookup. intros i row Hrow. apply Forall_lookup. intros j v Hv.
  destruct (Laplacian_lookup h w g Hrect Hh i j row v Hrow Hv) as (x & -> & -> & Hi & Hj).
  pose proof (level_range (Z.of_nat i - 1) (Z.of_nat j)).
  pose proof (level_range (Z.of_nat i + 1) (Z.of_nat j)).
  pose proof (level_range (Z.of_nat i) (Z.of_nat j - 1)).
  pose proof (level_range (Z.of_nat i) (Z.of_nat j + 1)).
  pose proof (level_range (Z.of_nat i) (Z.of_nat j)).
  lia.
Qed.

Lemma Laplacian_within : within 1020 (concat (Laplacian g)).
Proof. apply Forall_concat_rows, Laplacian_range. Qed.

(** The score of an 8-bit image, and the sums it is made of. *)
Lemma laplacian_var_range :
  (0 <= laplacian_var g)%Q ∧ (laplacian_var g <= inject_Z 1040400)%Q.
Proof. split; [apply var_nonneg|apply (var_within 1020), Laplacian_within]. Qed.

Lemma laplacian_sums_exact :
  Z.of_nat (h * w) < 2 ^ 32 →
  Z.abs (sum_list (concat (Laplacian g))) < 2 ^ 53 ∧
  0 ≤ sum_sq (concat (Laplacian g)) < 2 ^ 53.
Proof.
  intros Hsize. pose proof Laplacian_within as Hin.
  pose proof (sum_list_within _ _ Hin) as Hs. pose proof (sum_sq_within _ _ Hin) as Hq.
  pose proof (sum_sq_nonneg (concat (Laplacian g))).
  rewrite (length_concat_rect h w) in Hs, Hq by (by apply rect_Laplacian).
  change (2 ^ 32) with 4294967296 in Hsize. change (2 ^ 53) with 9007199254740992.
  lia.
Qed.

End range.

Section focus.
Context (base : ImageLib) (decode : string → option (list (list bgr))).
Implicit Types (s : gmap string node) (path data : string) (threshold : Q).

(** The verdict on a file that OpenCV decodes. *)
Lemma is_blurry_focus s path data img threshold :
  s !! path = Some (File data) → decode data = Some img →
  is_blurry (H:=focus_lib base decode) s path threshold =
    Qltb (laplacian_var (cvtColor img)) threshold.
Proof.
  intros Hs Hd. unfold is_blurry, cv2_imread, fs_read. rewrite Hs. simpl. by rewrite Hd.
Qed.

Lemma Qltb_proper (a a' b b' : Q) : Qeq a a' → Qeq b b' → Qltb a b = Qltb a' b'.
Proof.
  intros Ha Hb. apply Bool.eq_iff_eq_true. rewrite !Qltb_lt. by rewrite Ha, Hb.
Qed.

Lemma Qltb_scale (z a b : Q) : (0 < z)%Q → Qltb (z * a) (z * b) = Qltb a b.
Proof.
  intros Hz. apply Bool.eq_iff_eq_true. rewrite !Qltb_lt. by apply Qmult_lt_l.
Qed.

(** C30: a flat picture is blurry: when every pixel of the decoded image has
    the same grey level, the Laplacian is zero everywhere, its variance is
    zero, and the scorer answers [True] for every positive threshold, in
    particular for the default of 100. *)
Theorem is_blurry_flat s path data img (h w : nat) c threshold :
  s !! path = Some (File data) → decode data = Some img →
  rect h w (cvtColor img) → flat c (cvtColor img) → (0 < threshold)%Q →
  is_blurry (H:=focus_lib base decode) s path threshold = true.
Proof.
  intros Hs Hd Hrect Hflat Ht. rewrite (is_blurry_focus s path data img) by done.
  apply Qltb_lt. by rewrite (laplacian_var_flat h w _ c).
Qed.

(** C31: the verdict depends on the contrast and not on the brightness: when
    the grey levels of one picture are those of another multiplied by [k]
    and shifted by [d], the variance of its Laplacian is [k * k] times the
    other, so the scorer gives it, at the threshold [k * k * t], the verdict
    it gives the other at the threshold [t]; with [k = 1], a brighter or
    darker copy gets the same verdict at the same threshold. *)
Theorem is_blurry_contrast s path1 path2 data1 data2 img1 img2 (h w : nat) (k d : Z) t :
  s !! path1 = Some (File data1) → decode data1 = Some img1 →
  s !! path2 = Some (File data2) → decode data2 = Some img2 →
  rect h w (cvtColor img1) → (0 < h)%nat → (0 < w)%nat → k ≠ 0 →
  cvtColor img2 = affine k d (cvtColor img1) →
  is_blurry (H:=focus_lib base decode) s path2 (Qmult (inject_Z (k * k)) t) =
  is_blurry (H:=focus_lib base decode) s path1 t.
Proof.
  intros Hs1 Hd1 Hs2 Hd2 Hrect Hh Hw Hk Hg.
  rewrite (is_blurry_focus s path1 data1 img1), (is_blurry_focus s path2 data2 img2)
    by done.
  rewrite Hg, (Qltb_proper _ _ _ _ (laplacian_var_affine h w _ k d Hrect Hh Hw)
                 (Qeq_refl _)).
  apply Qltb_scale. unfold Qlt, inject_Z. simpl. nia.
Qed.

(** The variance of the Laplacian is never negative, so with a threshold
    that is not positive the scorer finds no picture blurry. *)
Theorem is_blurry_threshold s path threshold :
  (threshold <= 0)%Q →
  is_blurry (H:=focus_lib base decode) s path threshold = false.
Proof.
  intros Ht. apply not_true_is_false. intros (img & _ & Hlt)%is_blurry_true.
  simpl in Hlt. pose proof (laplacian_var_nonneg (cvtColor img)) as Hge.
  apply (Qlt_irrefl 0). eapply Qle_lt_trans; [exact Hge|].
  eapply Qlt_le_trans; [exact Hlt|exact Ht].
Qed.

End focus.

(** The conversion to grey levels keeps 8-bit pixels 8-bit, so that the
    Laplacian of line 36 is taken on values between 0 and 255. *)
Lemma cvtColor_range (img : list (list bgr)) :
  Forall (Forall pixel_ok) img →
  Forall (Forall (λ v, 0 ≤ v ≤ 255)) (cvtColor img).
Proof.
  intros Himg. unfold cvtColor. apply Forall_fmap. eapply Forall_impl; [exact Himg|].
  intros row Hrow. simpl. apply Forall_fmap. eapply Forall_impl; [exact Hrow|].
  intros p. apply gray_of_range.
Qed.

(** C32: bounds of the score: for a decoded image of 8-bit pixels, every
    entry of the Laplacian lies between -1020 and 1020, so the score lies
    between 0 and 1020 * 1020 = 1040400; and for an image of fewer than
    2^32 pixels the sum of the entries and the sum of their squares are
    below 2^53 in absolute value, so the 64-bit floats of [CV_64F] hold
    them exactly. *)
Theorem laplacian_var_bounds (img : list (list bgr)) (h w : nat) :
  rect h w (cvtColor img) → (0 < h)%nat → (0 < w)%nat →
  Forall (Forall pixel_ok) img →
  Forall (within 1020) (Laplacian (cvtColor img)) ∧
  (0 <= laplacian_var (cvtColor img))%Q ∧
  (laplacian_var (cvtColor img) <= inject_Z 1040400)%Q ∧
  (Z.of_nat (h * w) < 2 ^ 32 →
   Z.abs (sum_list (concat (Laplacian (cvtColor img)))) < 2 ^ 53 ∧
   0 ≤ sum_sq (concat (Laplacian (cvtColor img))) < 2 ^ 53).
Proof.
  intros Hrect Hh Hw Hpix%cvtColor_range.
  destruct (laplacian_var_range h w _ Hrect Hh Hw Hpix) as [? ?].
  split_and!; [by eapply Laplacian_range|done..|by eapply laplacian_sums_exact].
Qed.

(** ** Examples *)

(** A grey picture of three rows of four pixels. *)
Definition flat_picture : list (list bgr) := replicate 3 (replicate 4 (128, 128, 128)).

(** A board of black and white pixels, and the same with a quarter of the
    contrast on a grey ground. *)
Definition board_picture : list (list bgr) :=
  [[(0, 0, 0); (252, 252, 252); (0, 0, 0); (252, 252, 252)];
   [(252, 252, 252); (0, 0, 0); (252, 252, 252); (0, 0, 0)];
   [(0, 0, 0); (252, 252, 252); (0, 0, 0); (252, 252, 252)]].

Definition hazy_picture : list (list bgr) :=
  [[(100, 100, 100); (101, 101, 101); (100, 100, 100); (101, 101, 101)];
   [(101, 101, 101); (100, 100, 100); (101, 101, 101); (100, 100, 100)];
   [(100, 100, 100); (101, 101, 101); (100, 100, 100); (101, 101, 101)]].

Definition example_decode (data : string) : option (list (list bgr)) :=
  if bool_decide (data = "flat") then Some flat_picture
  else if bool_decide (data = "board") then Some board_picture
  else if bool_decide (data = "hazy") then Some hazy_picture
  else None.

Definition example_pictures : gmap string node :=
  list_to_map [("/p/flat.png", File "flat"); ("/p/board.png", File "board");
               ("/p/hazy.png", File "hazy"); ("/p/notes.txt", File "notes")].

Lemma example_rect : rect 3 4 (cvtColor hazy_picture).
Proof. split; [done|]. by repeat constructor. Qed.

Lemma is_blurry_flat_witness :
  is_blurry (H:=focus_lib toy_imaging example_decode) example_pictures "/p/flat.png"
    default_threshold = true.
Proof.
  apply (is_blurry_flat toy_imaging example_decode example_pictures "/p/flat.png" "flat"
           flat_picture 3 4 128 default_threshold); try done.
  - split; [done|]. by repeat constructor.
  - by repeat constructor.
Defined.

Lemma is_blurry_contrast_witness :
  is_blurry (H:=focus_lib toy_imaging example_decode) example_pictures "/p/board.png"
    (Qmult (inject_Z (252 * 252)) default_threshold) =
  is_blurry (H:=focus_lib toy_imaging example_decode) example_pictures "/p/hazy.png"
    default_threshold.
Proof.
  apply (is_blurry_contrast toy_imaging example_decode example_pictures
           "/p/hazy.png" "/p/board.png" "hazy" "board" hazy_picture board_picture
           3 4 252 (-25200) default_threshold); try done; try lia.
  apply example_rect.
Defined.

Lemma is_blurry_threshold_witness :
  is_blurry (H:=focus_lib toy_imaging example_decode) example_pictures "/p/board.png"
    0%Q = false.
Proof.
  apply (is_blurry_threshold toy_imaging example_decode example_pictures "/p/board.png"
           0%Q).
  apply Qle_refl.
Defined.

Lemma laplacian_var_bounds_witness :
  Forall (within 1020) (Laplacian (cvtColor board_picture)) ∧
  (0 <= laplacian_var (cvtColor board_picture))%Q ∧
  (laplacian_var (cvtColor board_picture) <= inject_Z 1040400)%Q ∧
  (Z.of_nat (3 * 4) < 2 ^ 32 →
   Z.abs (sum_list (concat (Laplacian (cvtColor board_picture)))) < 2 ^ 53 ∧
   0 ≤ sum_sq (concat (Laplacian (cvtColor board_picture))) < 2 ^ 53).
Proof.
  apply (laplacian_var_bounds board_picture 3 4); [|lia..|].
  - split; [done|]. by repeat constructor.
  - apply Forall_forall. intros row Hrow. apply Forall_forall. intros [[b g] r] Hp.
    repeat (apply elem_of_cons in Hrow as [->|Hrow]; [|]);
      [..|by apply elem_of_nil in Hrow];
      repeat (apply elem_of_cons in Hp as [[= -> -> ->]|Hp]; [cbn; lia|]);
      by apply elem_of_nil in Hp.
Defined.

(** The three pictures at the default threshold: the board is clear, the
    same board in a haze is blurry, the flat picture is blurry, and a file
    that is not a picture is not blurry. *)
Lemma focus_example :
  let verdict path :=
    is_blurry (H:=focus_lib toy_imaging example_decode) example_pictures path
      default_threshold in
  verdict "/p/board.png" = false ∧ verdict "/p/hazy.png" = true ∧
  verdict "/p/flat.png" = true ∧ verdict "/p/notes.txt" = false.
Proof. by vm_compute. Qed.
