(* ===== verification/Engine.v ===== *)
(** * Categorization Engine

    The loop of [analyze_images] of [main.py] (lines 79-95): the global
    dictionary [categorized] is cleared, and every path of the list that the
    validator accepts and whose size can be read is appended, as the pair of
    its base name and the path, to the list stored under its category key,
    the resolution bucket followed by [" (Blurry)"] or [" (Clear)"].

    [category_key] is the part of the loop body that computes the key of a
    path or leaves the iteration with [continue]; [analyze_step] is the whole
    body; [categorize_files] is the clearing followed by the loop.

    The theorems give the contents of the dictionary in closed form (each
    category holds the accepted paths with that key, in scan order; the keys
    are in order of first occurrence), the invariant of the dictionary, and
    the refinement of the insertion-ordered dictionary to a grouping of the
    paths in a finite map. *)

From Stdlib Require Import ZArith QArith.
From stdpp Require Import base tactics option list strings gmap.
From S2P Require Import Prelude Resolution PyDict PyPath FileSys Imaging.

#[local] Close Scope Q_scope.

(** ** The code *)

Section engine.
Context `{ImageLib}.
Implicit Types (s : gmap string node) (path k : string).
Implicit Types (categorized d : list (string * list (string * string))).
Implicit Types (file_list : list string).

(** Lines 89-94: the resolution bucket and the sharpness suffix. *)
Definition category_of s path (w h : Z) : string :=
  let cat := categorize_image w h in
  let blurry := is_blurry s path default_threshold in
  if blurry then cat +:+ " (Blurry)" else cat +:+ " (Clear)".

(** Lines 82-94: the key under which a path is filed; [None] when the
    iteration is left by one of the two [continue]. *)
Definition category_key s path : option string :=
  if negb (is_image s path) then None
  else match image_size s path with
       | Raise _ => None
       | Ok (w, h) => Some (category_of s path w h)
       end.

(** Line 95: the pair that is stored for a path. *)
Definition entry path : string * string := (basename path, path).

(** Lines 82-95: the body of the loop. *)
Definition analyze_step s categorized path : list (string * list (string * string)) :=
  match category_key s path with
  | None => categorized
  | Some cat => dict_append cat (entry path) categorized
  end.

(** Lines 79-95: [categorized.clear()] and the loop over [file_list]. *)
Definition categorize_files s file_list categorized :
    list (string * list (string * string)) :=
  foldl (analyze_step s) (dict_clear categorized) file_list.

(** ** The reference: grouping in a finite map *)

(** The paths of [file_list] that are filed under [k], in scan order. *)
Definition filed_under s k file_list : list string :=
  filter (λ path, category_key s path = Some k) file_list.


(** The invariant of the dictionary: keys are unique, no list is empty,
    every key is a bucket name with a sharpness suffix, and every pair is
    the entry of a path that the validator accepts and that has the key it
    is filed under. *)
Definition valid_key k : Prop :=
  ∃ name, name ∈ bucket_names ∧ (k = name +:+ " (Clear)" ∨ k = name +:+ " (Blurry)").

Definition categorized_inv s d : Prop :=
  dict_wf d ∧
  Forall (λ item, item.2 ≠ [] ∧ valid_key item.1 ∧
                  Forall (λ e, e = entry e.2 ∧ category_key s e.2 = Some item.1)
                         item.2) d.

(** ** The key of a path *)

Lemma category_of_valid s path w h : valid_key (category_of s path w h).
Proof.
  exists (categorize_image w h). split; [apply categorize_image_total|].
  unfold category_of. destruct (is_blurry _ _ _); auto.
Qed.

Lemma category_key_valid s path k : category_key s path = Some k → valid_key k.
Proof.
  unfold category_key. destruct (is_image s path); simpl; [|done].
  destruct (image_size s path) as [[w h]|]; [|done].
  intros [= <-]. apply category_of_valid.
Qed.

Lemma category_key_is_image s path k :
  category_key s path = Some k → is_image s path = true.
Proof. unfold category_key. by destruct (is_image s path). Qed.

(** A path is filed exactly when the validator accepts it: the second
    [continue] is never taken. *)
Lemma category_key_is_Some s path :
  is_Some (category_key s path) ↔ is_image s path = true.
Proof.
  split; [intros [k Hk]; by eapply category_key_is_image|].
  intros Himg. unfold category_key. rewrite Himg. simpl.
  destruct (is_image_size s path Himg) as (w & h & ->). by eexists.
Qed.

(** ** One iteration *)

Lemma analyze_step_get s d path k :
  dict_get k (analyze_step s d path) =
    if decide (category_key s path = Some k)
    then Some (default [] (dict_get k d) ++ [entry path])
    else dict_get k d.
Proof.
  unfold analyze_step. destruct (category_key s path) as [cat|] eqn:Hkey.
  - case_decide as Hk.
    + injection Hk as ->. apply dict_append_get.
    + apply dict_append_get_ne. congruence.
  - by rewrite decide_False.
Qed.

Lemma analyze_step_keys s d path :
  (analyze_step s d path).*1 =
    match category_key s path with
    | Some cat => if decide (cat ∈ d.*1) then d.*1 else d.*1 ++ [cat]
    | None => d.*1
    end.
Proof.
  unfold analyze_step. destruct (category_key s path); [|done].
  apply dict_append_keys.
Qed.

Lemma analyze_step_inv s d path :
  categorized_inv s d → categorized_inv s (analyze_step s d path).
Proof.
  unfold analyze_step. destruct (category_key s path) as [cat|] eqn:Hkey; [|done].
  intros [Hwf Hall]. split; [by apply dict_append_wf|].
  rewrite dict_append_items. case_decide as Hin.
  - clear Hwf Hin. induction Hall as [|[k l] d (Hne & Hk & Hl) Hall IH]; simpl; [done|].
    case_decide as Hcat; constructor; simpl; try done.
    split_and!; [by destruct l|done|].
    apply Forall_app. split; [done|]. subst k. by repeat constructor.
  - apply Forall_app. split; [done|]. repeat constructor; simpl; try done.
    by eapply category_key_valid.
Qed.

(** ** The loop *)

Lemma foldl_analyze_step_inv s d file_list :
  categorized_inv s d → categorized_inv s (foldl (analyze_step s) d file_list).
Proof.
  revert d. induction file_list as [|path l IH]; intros d Hd; simpl; [done|].
  by apply IH, analyze_step_inv.
Qed.

Lemma categorized_inv_nil s : categorized_inv s [].
Proof. split; [apply NoDup_nil_2|constructor]. Qed.

Lemma categorize_files_snoc s file_list path d :
  categorize_files s (file_list ++ [path]) d =
    analyze_step s (categorize_files s file_list d) path.
Proof. unfold categorize_files. by rewrite foldl_app. Qed.

Lemma filed_under_snoc s k file_list path :
  filed_under s k (file_list ++ [path]) =
    filed_under s k file_list ++
      (if decide (category_key s path = Some k) then [path] else []).
Proof.
  unfold filed_under. rewrite filter_app. by f_equal.
Qed.

(** The list under a key holds the entries of the paths filed under it, in
    scan order; a key under which nothing is filed is absent. *)
Lemma categorize_files_get s file_list d k :
  dict_get k (categorize_files s file_list d) =
    nonempty (entry <$> filed_under s k file_list).
Proof.
  induction file_list as [|path l IH] using rev_ind; [done|].
  rewrite categorize_files_snoc, analyze_step_get, filed_under_snoc, IH.
  case_decide as Hk.
  - rewrite fmap_app. change (entry <$> [path]) with [entry path].
    rewrite nonempty_snoc. by destruct (entry <$> filed_under s k l).
  - by rewrite app_nil_r.
Qed.

(** The keys, in insertion order, are the keys of the paths in order of
    first occurrence. *)
Lemma categorize_files_keys_eq s file_list d :
  (categorize_files s file_list d).*1 =
    first_occurrences (omap (category_key s) file_list).
Proof.
  induction file_list as [|path l IH] using rev_ind; [done|].
  rewrite categorize_files_snoc, analyze_step_keys, omap_app, IH. simpl.
  destruct (category_key s path) as [cat|]; simpl.
  - rewrite first_occurrences_snoc.
    destruct (decide (cat ∈ omap (category_key s) l)) as [Hc|Hc];
      [rewrite decide_True|rewrite decide_False];
      by rewrite ?elem_of_first_occurrences.
  - by rewrite app_nil_r.
Qed.

Lemma categorize_files_inv_holds s file_list d :
  categorized_inv s (categorize_files s file_list d).
Proof. apply foldl_analyze_step_inv, categorized_inv_nil. Qed.

Lemma categorize_files_items s file_list d k l :
  (k, l) ∈ categorize_files s file_list d →
  l = entry <$> filed_under s k file_list.
Proof.
  intros Hin. eapply dict_get_elem in Hin; [|apply categorize_files_inv_holds].
  rewrite categorize_files_get in Hin. by apply nonempty_Some in Hin as [-> _].
Qed.

Lemma entry_paths (l : list string) : (entry <$> l).*2 = l.
Proof. induction l as [|path l IH]; [done|]. by rewrite !fmap_cons, IH. Qed.

(** In the dictionary of an analysis of files with distinct base names, the
    files of a category have distinct base names, and they are regular
    files of the list. *)
Lemma categorize_files_names s file_list d k l :
  NoDup (basename <$> file_list) →
  dict_get k (categorize_files s file_list d) = Some l →
  NoDup (basename <$> l.*2) ∧
  Forall (λ file, isfile s file.2 = true ∧ file.2 ∈ file_list) l.
Proof.
  intros Hnd. rewrite categorize_files_get. intros [<- Hne]%nonempty_Some.
  rewrite entry_paths. split.
  - eapply sublist_NoDup; [done|]. apply fmap_sublist, sublist_filter.
  - apply Forall_fmap, Forall_forall.
    intros path [Hkey%category_key_is_image Hin]%list_elem_of_filter.
    split; [|done]. apply is_image_true in Hkey as (data & _ & Hs & _).
    apply isfile_true. eauto.
Qed.

(** The entries of all categories together are the entries of the paths
    that have a key. *)
Lemma foldl_analyze_step_concat s d file_list :
  concat (foldl (analyze_step s) d file_list).*2 ≡ₚ
    concat d.*2 ++ (entry <$> filter (λ p, is_Some (category_key s p)) file_list).
Proof.
  revert d. induction file_list as [|path l IH]; intros d; simpl.
  { by rewrite app_nil_r. }
  rewrite IH, filter_cons. unfold analyze_step.
  destruct (category_key s path) as [cat|] eqn:Hkey.
  - rewrite decide_True by done. rewrite dict_append_concat.
    by rewrite <-(assoc_L (++)).
  - rewrite decide_False; [done|]. by intros [? ?].
Qed.


(** ** Properties of the engine *)

(** C1: the list stored under a key holds the entries (base name, path) of
    exactly the paths of the input list that are filed under that key, in
    the order of the input list; a key under which no path is filed is not
    in the dictionary.  The previous contents of the dictionary play no
    part. *)
Theorem categorize_files_contents s file_list d k :
  dict_get k (categorize_files s file_list d) =
    nonempty (entry <$> filed_under s k file_list) ∧
  (dict_contains k (categorize_files s file_list d) = true ↔
     ∃ path, path ∈ file_list ∧ category_key s path = Some k).
Proof.
  split; [apply categorize_files_get|].
  rewrite dict_contains_is_Some, categorize_files_get.
  unfold filed_under. split.
  - intros [l [_ Hne]%nonempty_Some].
    destruct (filter _ file_list) as [|path l'] eqn:Hf; [done|].
    exists path. apply and_comm.
    apply (list_elem_of_filter (λ p, category_key s p = Some k)).
    rewrite Hf. left.
  - intros (path & Hin & Hkey).
    assert (path ∈ filter (λ p, category_key s p = Some k) file_list) as Hp
      by by apply list_elem_of_filter.
    destruct (filter _ file_list); [by apply elem_of_nil in Hp|]. by eexists.
Qed.

(** The keys of the dictionary, in insertion order, are the keys of the
    paths of the input list in order of first occurrence. *)
Theorem categorize_files_key_order s file_list d :
  dict_keys (categorize_files s file_list d) =
    first_occurrences (omap (category_key s) file_list).
Proof. unfold dict_keys. apply categorize_files_keys_eq. Qed.

(** C7: after the loop the dictionary has unique keys, no empty list, only
    keys made of a bucket name and a sharpness suffix, and under each key
    only entries (base name, path) of paths that have that key. *)
Theorem categorize_files_invariant s file_list d :
  categorized_inv s (categorize_files s file_list d).
Proof. apply foldl_analyze_step_inv, categorized_inv_nil. Qed.

(** The engine replaces the dictionary in full: the result does not
    depend on what the dictionary held before. *)
Theorem categorize_files_replaces s file_list d1 d2 :
  categorize_files s file_list d1 = categorize_files s file_list d2.
Proof. unfold categorize_files, dict_clear. done. Qed.

(** The order in which the files are listed, which [os.listdir] does not
    fix, decides the order of the files inside a category and nothing else:
    reordering the input permutes the list of every key. *)
Lemma categorize_files_Permutation s file_list file_list' d d' k :
  file_list ≡ₚ file_list' →
  option_Forall2 (≡ₚ) (dict_get k (categorize_files s file_list d))
                      (dict_get k (categorize_files s file_list' d')).
Proof.
  intros Hp. rewrite !categorize_files_get. apply nonempty_Permutation.
  unfold filed_under. by rewrite Hp.
Qed.

(** C36: a path that the validator rejects (a file that is not an image, a
    missing file) is in no category. *)
Theorem categorize_files_excludes s file_list d path k l name :
  is_image s path = false →
  (k, l) ∈ categorize_files s file_list d → (name, path) ∉ l.
Proof.
  intros Himg ->%categorize_files_items.
  intros (p & [= -> ->] & Hp)%list_elem_of_fmap.
  apply list_elem_of_filter in Hp as [Hkey%category_key_is_image _].
  congruence.
Qed.

(** Every path that the validator accepts is filed, once per occurrence
    in the input list: the entries of all categories together are a
    permutation of the entries of the accepted paths. *)
Theorem categorize_files_conserves s file_list d :
  concat (categorize_files s file_list d).*2 ≡ₚ
    entry <$> filter (λ p, is_image s p = true) file_list.
Proof.
  unfold categorize_files. rewrite foldl_analyze_step_concat. simpl.
  rewrite (list_filter_iff (λ p, is_Some (category_key s p))
             (λ p, is_image s p = true)); [done|].
  intros p. apply category_key_is_Some.
Qed.


(** C38: an image that OpenCV cannot read is labelled Clear: the failure of
    the focus score is not told apart from a sharp image. *)
Theorem category_key_unreadable_clear s path :
  is_image s path = true → cv2_imread s path = None →
  ∃ name, name ∈ bucket_names ∧ category_key s path = Some (name +:+ " (Clear)").
Proof.
  intros Himg Hcv. destruct (is_image_size s path Himg) as (w & h & Hsz).
  exists (categorize_image w h). split; [apply categorize_image_total|].
  unfold category_key, category_of.
  by rewrite Himg, Hsz, is_blurry_unreadable.
Qed.

End engine.

#[export] Hint Resolve category_key_valid categorize_files_inv_holds : iqc.

(** ** The engine on the example folder *)

(** On the folder of the example, the three photographs of the
    specification are filed under three keys with one entry each, the text
    file, the truncated photograph and the missing file are in no category,
    and the animation that OpenCV cannot read is Clear. *)
Theorem categorize_files_example :
  categorize_files (H:=toy_imaging) toy_fs toy_file_list [] =
    [("4K or above (Clear)", [("a.jpg", "/pics/a.jpg")]);
     ("1080p (Blurry)", [("b.jpg", "/pics/b.jpg")]);
     ("480p (Clear)", [("anim.gif", "/pics/anim.gif")]);
     ("Below 360p (Clear)", [("c.jpg", "/pics/c.jpg")]);
     ("360p (Blurry)", [("d.png", "/pics/old/d.png")])].
Proof. by vm_compute. Qed.

Lemma categorize_files_excludes_witness :
  is_image (H:=toy_imaging) toy_fs "/pics/notes.jpg" = false ∧
  ("1080p (Blurry)", [("b.jpg", "/pics/b.jpg")])
    ∈ categorize_files (H:=toy_imaging) toy_fs toy_file_list [] ∧
  ("notes.jpg", "/pics/notes.jpg") ∉ [("b.jpg", "/pics/b.jpg")].
Proof.
  assert (is_image (H:=toy_imaging) toy_fs "/pics/notes.jpg" = false) as Himg
    by by vm_compute.
  assert (("1080p (Blurry)", [("b.jpg", "/pics/b.jpg")])
            ∈ categorize_files (H:=toy_imaging) toy_fs toy_file_list []) as Hin
    by (vm_compute; apply list_elem_of_In; simpl; tauto).
  split_and!; [done..|].
  exact (categorize_files_excludes (H:=toy_imaging) _ _ _ _ _ _ _ Himg Hin).
Defined.

Lemma category_key_unreadable_clear_witness :
  is_image (H:=toy_imaging) toy_fs "/pics/anim.gif" = true ∧
  cv2_imread (H:=toy_imaging) toy_fs "/pics/anim.gif" = None ∧
  ∃ name, name ∈ bucket_names ∧
    category_key (H:=toy_imaging) toy_fs "/pics/anim.gif" = Some (name +:+ " (Clear)").
Proof.
  split_and!; [by vm_compute..|].
  apply (category_key_unreadable_clear (H:=toy_imaging)); by vm_compute.
Defined.
