(* ===== verification/Presenter.v ===== *)
(** * Category Presenter

    [show_results] of [main.py] (lines 123-190), as far as it computes: the
    children of [content_frame] are destroyed; an empty dictionary gives the
    one label "No valid images found"; otherwise the items of the dictionary
    are sorted by their position in [category_order] (keys that are not
    listed after the listed ones), and each gives a frame with its title, a
    button that exports that category, and a grid of thumbnails, five to a
    row, with the name of each file in the row below its thumbnail.  A file
    whose thumbnail cannot be made is reported on the standard output and
    takes no cell.

    Widgets are data: what is modelled of a widget is what the program
    decides (texts, the category a button is bound to, grid positions), not
    how the toolkit draws it. *)

From Stdlib Require Import ZArith.
From stdpp Require Import base tactics option list strings gmap.
From S2P Require Import Prelude Resolution PyDict PyPath PySorted FileSys Imaging Engine.

(** ** Widgets *)

(** A label placed in the grid of a category: a thumbnail or a file name. *)
Inductive grid_label : Type :=
| ThumbLabel (path : string)
| NameLabel (text : string).

(** A child of [content_frame]. *)
Inductive widget : Type :=
| MessageLabel (text : string)
| CategoryFrame (title : string) (button_text : string) (button_category : string)
    (cells : list (grid_label * nat * nat)).

#[export] Instance grid_label_eq_dec : EqDecision grid_label.
Proof. solve_decision. Defined.

#[export] Instance widget_eq_dec : EqDecision widget.
Proof. solve_decision. Defined.

(** ** The display order *)

(** Lines 133-139. *)
Definition category_order : list string :=
  ["4K or above (Clear)"; "4K or above (Blurry)";
   "1440p (Clear)"; "1440p (Blurry)";
   "1080p (Clear)"; "1080p (Blurry)";
   "720p (Clear)"; "720p (Blurry)";
   "480p (Clear)"; "480p (Blurry)";
   "360p (Clear)"; "360p (Blurry)";
   "Below 360p (Clear)"; "Below 360p (Blurry)"].

(** Line 144: the key of the sort.  The position is looked up only for a
    listed key, so the [ValueError] of [index] cannot occur. *)
Definition sort_key {V : Type} (item : string * V) : nat :=
  if py_in item.1 category_order
  then match index_of item.1 category_order with Some i => i | None => 0 end
  else length category_order.

(** Lines 142-145. *)
Definition sorted_categories {V : Type} (categorized : list (string * V)) :
    list (string * V) :=
  sorted_by sort_key (dict_items categorized).

(** ** The grid of thumbnails *)

(** Line 169. *)
Definition max_cols : nat := 5.

Section presenter.
Context `{ImageLib}.
Implicit Types (s : gmap string node) (path name : string).
Implicit Types (files : list (string * string)).

(** Lines 173-175: the image is opened, resized and turned into a Tk
    image. *)
Definition load_thumbnail s path : outcome unit :=
  pil_open s path ≫= Image_thumbnail.

(** Lines 171-190: one iteration of the loop over the files of a category.
    The state is the row, the column, the labels placed so far and the
    paths reported on the standard output. *)
Definition thumb_step s (st : nat * nat * list (grid_label * nat * nat) * list string)
    (file : string * string) :
    nat * nat * list (grid_label * nat * nat) * list string :=
  let '(row, col, cells, printed) := st in
  let '(name, path) := file in
  match load_thumbnail s path with
  | Ok _ =>
      let cells := cells ++ [(ThumbLabel path, row * 2, col);
                             (NameLabel name, row * 2 + 1, col)] in
      let col := col + 1 in
      if decide (max_cols ≤ col) then (row + 1, 0, cells, printed)
      else (row, col, cells, printed)
  | Raise _ => (row, col, cells, printed ++ [path])
  end.

(** Lines 169-190. *)
Definition place_thumbnails s files :
    nat * nat * list (grid_label * nat * nat) * list string :=
  foldl (thumb_step s) (0, 0, [], []) files.

(** Lines 149-190: the frame of one category, and what making it prints. *)
Definition category_frame s (item : string * list (string * string)) :
    widget * list string :=
  let '(cat, files) := item in
  let '(_, _, cells, printed) := place_thumbnails s files in
  (CategoryFrame cat ("👇 Download " +:+ cat +:+ " ZIP") cat cells, printed).

(** [def show_results()], lines 123-190: the children of [content_frame]
    after the call, and the paths reported on the standard output. *)
Definition show_results s (categorized : list (string * list (string * string)))
    (content : list widget) : list widget * list string :=
  let content : list widget := [] in
  if bool_decide (categorized = [])
  then (content ++ [MessageLabel "No valid images found"], [])
  else
    let frames := category_frame s <$> sorted_categories categorized in
    (content ++ frames.*1, concat frames.*2).

End presenter.

(** ** The order of the categories *)

Section order.
Context {V : Type}.
Implicit Types (item : string * V) (d : list (string * V)) (c : string) (n : nat).

Lemma category_order_NoDup : NoDup category_order.
Proof. apply (bool_decide_unpack _). by vm_compute. Qed.

(** The list is made of the bucket names from the highest resolution down,
    each with the suffix Clear and then with the suffix Blurry. *)
Lemma category_order_buckets :
  category_order =
    flat_map (λ name, [name +:+ " (Clear)"; name +:+ " (Blurry)"])
             (reverse bucket_names).
Proof. reflexivity. Qed.

Lemma sort_key_listed item n :
  category_order !! n = Some item.1 → sort_key item = n.
Proof.
  intros Hn. unfold sort_key, py_in.
  rewrite bool_decide_eq_true_2 by (by eapply list_elem_of_lookup_2).
  by rewrite (index_of_NoDup _ _ _ category_order_NoDup Hn).
Qed.

Lemma sort_key_unlisted item :
  item.1 ∉ category_order → sort_key item = length category_order.
Proof. intros Hn. unfold sort_key, py_in. by rewrite bool_decide_eq_false_2. Qed.

Lemma sort_key_lookup item n :
  sort_key item = n → n < length category_order →
  category_order !! n = Some item.1.
Proof.
  unfold sort_key, py_in. case_bool_decide as Hin; [|lia].
  apply index_of_is_Some in Hin as [i Hi]. rewrite Hi.
  intros <- _. by apply index_of_lookup.
Qed.

Lemma sort_key_bound item : sort_key item < S (length category_order).
Proof.
  unfold sort_key, py_in. case_bool_decide as Hin; [|lia].
  apply index_of_is_Some in Hin as [i Hi]. rewrite Hi.
  apply index_of_lt in Hi. lia.
Qed.

(** The items of one priority are the items of one listed key. *)
Lemma key_class_listed d n c :
  category_order !! n = Some c →
  key_class sort_key n d = filter (λ item, item.1 = c) d.
Proof.
  intros Hn. apply list_filter_iff. intros item. split.
  - intros Hk. apply sort_key_lookup in Hk; [congruence|].
    by eapply lookup_lt_Some.
  - intros <-. by apply sort_key_listed.
Qed.

(** The items of the last priority are the items of the unlisted keys. *)
Lemma key_class_unlisted d :
  key_class sort_key (length category_order) d =
    filter (λ item, item.1 ∉ category_order) d.
Proof.
  apply list_filter_iff. intros item. split.
  - intros Hk Hin. apply list_elem_of_lookup in Hin as [n Hn].
    pose proof (lookup_lt_Some _ _ _ Hn). apply sort_key_listed in Hn. lia.
  - apply sort_key_unlisted.
Qed.

(** The sorted items: for each listed key in turn the items of that key,
    then the items of the unlisted keys, each group in insertion order. *)
Lemma sorted_categories_eq d :
  sorted_categories d =
    flat_map (λ c, filter (λ item, item.1 = c) d) category_order ++
    filter (λ item, item.1 ∉ category_order) d.
Proof.
  unfold sorted_categories, dict_items.
  rewrite (sorted_by_classes sort_key d (S (length category_order)))
    by (apply Forall_forall; intros; apply sort_key_bound).
  rewrite seq_S, flat_map_app. f_equal; simpl.
  - repeat match goal with
    | |- context [key_class sort_key ?n d] =>
        rewrite (key_class_listed d n _ eq_refl)
    end. done.
  - rewrite app_nil_r. apply key_class_unlisted.
Qed.

(** In a dictionary the items of one key are at most one. *)
Lemma dict_filter_key d c :
  dict_wf d →
  filter (λ item, item.1 = c) d =
    match dict_get c d with Some v => [(c, v)] | None => [] end.
Proof.
  unfold dict_wf. induction d as [|[k v] d IH]; simpl; [done|].
  rewrite NoDup_cons. intros [Hk Hd]. rewrite filter_cons. simpl.
  destruct (decide (k = c)) as [->|Hne].
  - rewrite decide_True by done. f_equal.
    apply dict_get_None in Hk. rewrite IH, Hk; done.
  - rewrite decide_False by done. by apply IH.
Qed.

End order.

(** The keys that the engine makes are the listed keys. *)
Lemma valid_key_listed (k : string) : valid_key k ↔ k ∈ category_order.
Proof.
  rewrite category_order_buckets, list_elem_of_In, in_flat_map.
  unfold valid_key. setoid_rewrite <-list_elem_of_In.
  setoid_rewrite elem_of_reverse. split.
  - intros (name & Hname & [->| ->]); exists name; (split; [done|]);
      [left|right; left].
  - intros (name & Hname & Hk). exists name. split; [done|].
    apply elem_of_cons in Hk as [->|Hk]; [by left|].
    apply list_elem_of_singleton in Hk as ->. by right.
Qed.

(** A key of the engine is a name of one path component. *)
Lemma valid_key_name (k : string) : valid_key k → k ≠ "" ∧ has_sep k = false.
Proof.
  rewrite valid_key_listed. revert k. apply Forall_forall.
  apply (bool_decide_unpack _). by vm_compute.
Qed.

Section display.
Context `{ImageLib}.
Implicit Types (s : gmap string node) (d : list (string * list (string * string))).

Lemma categorized_inv_listed s d :
  categorized_inv s d → Forall (λ item, item.1 ∈ category_order) d.
Proof.
  intros [_ Hall]. eapply Forall_impl; [exact Hall|].
  intros item (_ & Hk & _). by apply valid_key_listed.
Qed.

(** For a dictionary of the engine, the sorted items are the categories
    that are present, in the order of [category_order]. *)
Lemma sorted_categories_inv s d :
  categorized_inv s d →
  sorted_categories d =
    flat_map (λ c, match dict_get c d with Some files => [(c, files)] | None => [] end)
             category_order.
Proof.
  intros Hinv. rewrite sorted_categories_eq.
  rewrite (filter_none (λ item, item.1 ∉ category_order)), app_nil_r.
  - apply flat_map_ext. intros c. apply dict_filter_key, Hinv.
  - eapply Forall_impl; [by eapply categorized_inv_listed|].
    intros item Hin Hnot. by apply Hnot.
Qed.

(** ** The grid *)

(** The two labels of the [k]-th thumbnail that is shown. *)
Definition thumb_cells (k : nat) (file : string * string) :
    list (grid_label * nat * nat) :=
  [(ThumbLabel file.2, k / max_cols * 2, k mod max_cols);
   (NameLabel file.1, k / max_cols * 2 + 1, k mod max_cols)].

(** The files whose thumbnail can be made. *)
Definition shown s (files : list (string * string)) : list (string * string) :=
  filter (λ file, raised (load_thumbnail s file.2) = false) files.

Lemma next_cell (j : nat) :
  (j + 1) / max_cols =
    (if decide (max_cols ≤ j mod max_cols + 1) then j / max_cols + 1 else j / max_cols) ∧
  (j + 1) mod max_cols =
    (if decide (max_cols ≤ j mod max_cols + 1) then 0 else j mod max_cols + 1).
Proof.
  unfold max_cols.
  pose proof (Nat.div_mod_eq j 5).
  pose proof (Nat.mod_upper_bound j 5 ltac:(lia)).
  pose proof (Nat.div_mod_eq (j + 1) 5).
  pose proof (Nat.mod_upper_bound (j + 1) 5 ltac:(lia)).
  case_decide; lia.
Qed.

Lemma thumb_step_cell s (j : nat) cells printed (file : string * string) :
  thumb_step s (j / max_cols, j mod max_cols, cells, printed) file =
    if raised (load_thumbnail s file.2)
    then (j / max_cols, j mod max_cols, cells, printed ++ [file.2])
    else ((j + 1) / max_cols, (j + 1) mod max_cols,
          cells ++ thumb_cells j file, printed).
Proof.
  destruct file as [name path]. unfold thumb_step. cbn -[Nat.div Nat.modulo].
  destruct (load_thumbnail s path) as [[]|e]; cbn -[Nat.div Nat.modulo]; [|done].
  destruct (next_cell j) as [-> ->]. by case_decide.
Qed.

(** The loop from the [j]-th cell on. *)
Lemma foldl_thumb_step s (j : nat) cells printed files :
  foldl (thumb_step s) (j / max_cols, j mod max_cols, cells, printed) files =
    ((j + length (shown s files)) / max_cols,
     (j + length (shown s files)) mod max_cols,
     cells ++ concat (imap (λ i, thumb_cells (j + i)) (shown s files)),
     printed ++ (filter (λ file, raised (load_thumbnail s file.2) = true) files).*2).
Proof.
  revert j cells printed.
  induction files as [|file files IH]; intros j cells printed.
  { cbn -[Nat.div Nat.modulo]. by rewrite Nat.add_0_r, !app_nil_r. }
  cbn [foldl]. rewrite thumb_step_cell. unfold shown. rewrite !filter_cons.
  destruct (raised (load_thumbnail s file.2)) eqn:Hr.
  - rewrite decide_False, decide_True by done. rewrite IH.
    by rewrite fmap_cons, <-(assoc_L (++)).
  - rewrite decide_True, decide_False by done. rewrite IH.
    rewrite imap_cons, concat_cons, length_cons, Nat.add_0_r, <-!(assoc_L (++)).
    replace (j + 1 + length (shown s files)) with (j + S (length (shown s files))) by lia.
    rewrite (imap_ext (λ i, thumb_cells (j + 1 + i)) ((λ i, thumb_cells (j + i)) ∘ S))
      by (intros i x _; simpl; f_equal; lia).
    done.
Qed.

Lemma place_thumbnails_eq s files :
  place_thumbnails s files =
    (length (shown s files) / max_cols, length (shown s files) mod max_cols,
     concat (imap thumb_cells (shown s files)),
     (filter (λ file, raised (load_thumbnail s file.2) = true) files).*2).
Proof. apply (foldl_thumb_step s 0 [] []). Qed.

(** A cell of the closed form, by the index of its thumbnail. *)
Lemma elem_of_thumb_cells (l : list (string * string)) (c : grid_label * nat * nat) :
  c ∈ concat (imap thumb_cells l) ↔
  ∃ k file, l !! k = Some file ∧ c ∈ thumb_cells k file.
Proof.
  rewrite list_elem_of_In, in_concat. split.
  - intros (cs & Hcs & Hc).
    apply list_elem_of_In, elem_of_lookup_imap in Hcs as (k & file & -> & Hk).
    exists k, file. split; [done|]. by apply list_elem_of_In.
  - intros (k & file & Hk & Hc). exists (thumb_cells k file).
    split; apply list_elem_of_In; [|done]. apply elem_of_lookup_imap. eauto.
Qed.

(** A button of the window exports a category that is in the dictionary
    with files. *)
Lemma show_results_button s d content title text cat cells :
  categorized_inv s d →
  CategoryFrame title text cat cells ∈ (show_results s d content).1 →
  ∃ files, dict_get cat d = Some files ∧ files ≠ [].
Proof.
  intros [Hwf Hall]. unfold show_results. case_bool_decide as Hd; simpl.
  { by intros [=]%list_elem_of_singleton. }
  rewrite <-list_fmap_compose.
  intros ([c files] & Hw & Hin)%list_elem_of_fmap.
  rewrite (sorted_by_Permutation sort_key d) in Hin.
  simpl in Hw. unfold category_frame in Hw.
  destruct (place_thumbnails s files) as [[[row col] cs] printed].
  injection Hw as _ _ -> _. exists files. split; [by apply dict_get_elem|].
  rewrite Forall_forall in Hall. by destruct (Hall _ Hin).
Qed.

(** ** Properties of the presenter *)

(** The sorted items are, for each key of [category_order] in turn, the
    items of that key, followed by the items whose key is not listed, each
    group in insertion order; the result is a permutation of the items. *)
Theorem sorted_categories_order {V : Type} (d : list (string * V)) :
  sorted_categories d =
    flat_map (λ c, filter (λ item, item.1 = c) d) category_order ++
    filter (λ item, item.1 ∉ category_order) d ∧
  sorted_categories d ≡ₚ dict_items d.
Proof. split; [apply sorted_categories_eq|apply sorted_by_Permutation]. Qed.

(** Any stable sort gives the order of the model: a list that is ordered
    by priority and holds, for every priority, the items of the dictionary
    with that priority in insertion order, is [sorted_categories]. *)
Theorem sorted_categories_unique {V : Type} (d l' : list (string * V)) :
  key_sorted sort_key l' →
  (∀ n, key_class sort_key n l' = key_class sort_key n (dict_items d)) →
  l' = sorted_categories d.
Proof. apply stable_sort_unique. Qed.

(** The keys that the engine makes are exactly the keys that
    [category_order] lists, and the list names the buckets from the highest
    resolution down, Clear before Blurry. *)
Theorem category_order_keys (k : string) :
  (valid_key k ↔ k ∈ category_order) ∧
  category_order =
    flat_map (λ name, [name +:+ " (Clear)"; name +:+ " (Blurry)"])
             (reverse bucket_names).
Proof. split; [apply valid_key_listed|apply category_order_buckets]. Qed.

(** C8: for the dictionary that the engine leaves, the categories are shown
    in the order of [category_order], each present category once with its
    files: the fallback priority of unlisted keys is never used. *)
Theorem sorted_categories_engine s file_list d0 :
  let d := categorize_files s file_list d0 in
  sorted_categories d =
    flat_map (λ c, match dict_get c d with Some files => [(c, files)] | None => [] end)
             category_order ∧
  Forall (λ item, sort_key item < length category_order) d.
Proof.
  intros d. pose proof (categorize_files_inv_holds s file_list d0) as Hinv.
  split; [by eapply sorted_categories_inv|].
  eapply Forall_impl; [by eapply categorized_inv_listed|].
  intros item [n Hn]%list_elem_of_lookup.
  rewrite (sort_key_listed item n Hn). by eapply lookup_lt_Some.
Qed.

(** An empty dictionary gives the single label "No valid images found",
    whatever [content_frame] held before. *)
Theorem show_results_empty s content :
  show_results s [] content = ([MessageLabel "No valid images found"], []).
Proof. unfold show_results. by rewrite bool_decide_eq_true_2. Qed.

(** After an analysis, [content_frame] holds one frame per category of
    the dictionary, in display order; the title of a frame is its key and
    its button exports the category of that key, which is present in the
    dictionary with a list that is not empty. *)
Theorem show_results_frames s file_list d0 content :
  let d := categorize_files s file_list d0 in
  d ≠ [] →
  ∃ frames, (show_results s d content).1 = frames ∧
    Forall2 (λ w item, ∃ text cells,
               w = CategoryFrame item.1 text item.1 cells ∧
               ∃ files, dict_get item.1 d = Some files ∧ files ≠ [] ∧
                        cells = (place_thumbnails s files).1.2)
            frames (sorted_categories d).
Proof.
  intros d Hne. eexists. split; [done|].
  unfold show_results. rewrite bool_decide_eq_false_2 by done. simpl.
  rewrite <-list_fmap_compose. apply Forall2_fmap_l, Forall_Forall2_diag.
  apply Forall_forall. intros [cat files] Hin.
  assert ((cat, files) ∈ d) as Hd
    by (by rewrite <-(sorted_by_Permutation sort_key d)).
  pose proof (categorize_files_inv_holds s file_list d0) as [Hwf Hall].
  rewrite Forall_forall in Hall. destruct (Hall _ Hd) as (Hfiles & _).
  simpl. unfold category_frame.
  destruct (place_thumbnails s files) as [[[row col] cells] printed] eqn:Hp.
  eexists _, _. split; [done|]. exists files. rewrite Hp.
  split_and!; [by apply dict_get_elem|done|done].
Qed.

(** The thumbnails of a category fill the grid row by row, five to a
    row: the [k]-th file whose thumbnail can be made has its thumbnail at
    row [2 * (k / 5)] and column [k mod 5] and its name one row below; a
    file whose thumbnail cannot be made takes no cell and is reported. *)
Theorem place_thumbnails_grid s files :
  (place_thumbnails s files).1.2 = concat (imap thumb_cells (shown s files)) ∧
  (place_thumbnails s files).2 =
    (filter (λ file, raised (load_thumbnail s file.2) = true) files).*2 ∧
  Forall (λ c, c.2 < max_cols) (place_thumbnails s files).1.2.
Proof.
  rewrite place_thumbnails_eq. simpl. split_and!; [done..|].
  apply Forall_forall. intros c (k & file & _ & Hc)%elem_of_thumb_cells.
  unfold thumb_cells in Hc.
  assert (c.2 = k mod max_cols) as ->.
  { apply elem_of_cons in Hc as [->|Hc]; [done|].
    by apply list_elem_of_singleton in Hc as ->. }
  apply Nat.mod_upper_bound. done.
Qed.

End display.

#[export] Hint Resolve category_order_NoDup : iqc.

(** ** The presenter on examples *)

(** A dictionary with two unlisted keys: they come last, in their own
    order. *)
Definition unlisted_example : list (string * nat) :=
  [("zzz", 1); ("1080p (Clear)", 2); ("4K or above (Blurry)", 3); ("aaa", 4)].

Lemma sorted_categories_unique_witness :
  [("4K or above (Blurry)", 3); ("1080p (Clear)", 2); ("zzz", 1); ("aaa", 4)] =
    sorted_categories unlisted_example.
Proof.
  apply (sorted_categories_unique unlisted_example).
  - apply (sorted_by_sorted sort_key unlisted_example).
  - intros n. apply (sorted_by_key_class sort_key unlisted_example n).
Defined.

Lemma show_results_frames_witness :
  categorize_files (H:=toy_imaging) toy_fs toy_file_list [] ≠ [] ∧
  ∃ frames,
    (show_results (H:=toy_imaging) toy_fs
       (categorize_files (H:=toy_imaging) toy_fs toy_file_list []) []).1 = frames ∧
    Forall2 (λ w item, ∃ text cells,
               w = CategoryFrame item.1 text item.1 cells ∧
               ∃ files,
                 dict_get item.1
                   (categorize_files (H:=toy_imaging) toy_fs toy_file_list []) =
                   Some files ∧ files ≠ [] ∧
                 cells = (place_thumbnails (H:=toy_imaging) toy_fs files).1.2)
            frames
            (sorted_categories
               (categorize_files (H:=toy_imaging) toy_fs toy_file_list [])).
Proof.
  assert (categorize_files (H:=toy_imaging) toy_fs toy_file_list [] ≠ []) as Hne
    by by vm_compute.
  split; [done|].
  exact (show_results_frames (H:=toy_imaging) toy_fs toy_file_list [] [] Hne).
Defined.

(** What the window shows for the folder of the example: five frames from
    the highest resolution down. *)
Example show_results_example :
  (show_results (H:=toy_imaging) toy_fs
     (categorize_files (H:=toy_imaging) toy_fs toy_file_list []) []).1 =
  [CategoryFrame "4K or above (Clear)" "👇 Download 4K or above (Clear) ZIP"
     "4K or above (Clear)"
     [(ThumbLabel "/pics/a.jpg", 0, 0); (NameLabel "a.jpg", 1, 0)];
   CategoryFrame "1080p (Blurry)" "👇 Download 1080p (Blurry) ZIP"
     "1080p (Blurry)"
     [(ThumbLabel "/pics/b.jpg", 0, 0); (NameLabel "b.jpg", 1, 0)];
   CategoryFrame "480p (Clear)" "👇 Download 480p (Clear) ZIP"
     "480p (Clear)"
     [(ThumbLabel "/pics/anim.gif", 0, 0); (NameLabel "anim.gif", 1, 0)];
   CategoryFrame "360p (Blurry)" "👇 Download 360p (Blurry) ZIP"
     "360p (Blurry)"
     [(ThumbLabel "/pics/old/d.png", 0, 0); (NameLabel "d.png", 1, 0)];
   CategoryFrame "Below 360p (Clear)" "👇 Download Below 360p (Clear) ZIP"
     "Below 360p (Clear)"
     [(ThumbLabel "/pics/c.jpg", 0, 0); (NameLabel "c.jpg", 1, 0)]].
Proof. by vm_compute. Qed.

(** Seven files in one category, the third unreadable: six thumbnails, the
    sixth at the start of the second row of thumbnails. *)
Example place_thumbnails_example :
  place_thumbnails (H:=toy_imaging) toy_fs
    [("a", "/pics/a.jpg"); ("b", "/pics/b.jpg"); ("x", "/pics/cut.jpg");
     ("c", "/pics/c.jpg"); ("d", "/pics/old/d.png"); ("e", "/pics/anim.gif");
     ("f", "/pics/a.jpg")] =
  (1, 1,
   [(ThumbLabel "/pics/a.jpg", 0, 0); (NameLabel "a", 1, 0);
    (ThumbLabel "/pics/b.jpg", 0, 1); (NameLabel "b", 1, 1);
    (ThumbLabel "/pics/c.jpg", 0, 2); (NameLabel "c", 1, 2);
    (ThumbLabel "/pics/old/d.png", 0, 3); (NameLabel "d", 1, 3);
    (ThumbLabel "/pics/anim.gif", 0, 4); (NameLabel "e", 1, 4);
    (ThumbLabel "/pics/a.jpg", 2, 0); (NameLabel "f", 3, 0)],
   ["/pics/cut.jpg"]).
Proof. by vm_compute. Qed.
