(* ===== verification/Window.v ===== *)
(** * The window: widgets, geometry and bindings

    The widgets of Tk as the program creates and destroys them.  The state
    is the list of the widgets ever created, in the order of their creation;
    the identifier of a widget is its position in the list.  A widget
    records what the program gives it (class, master, text, image, command,
    look, placement) and whether it has been destroyed.

    The operations are the calls of [main.py] on widgets: a constructor with
    its master ([create]), [pack], [grid], [canvas.create_window],
    [configure], [winfo_children] and [destroy].  They raise [TclError]
    where Tk does: a master that does not exist any more, a widget placed
    by [pack] in a master whose other children are placed by [grid] and the
    other way round, the main window given to a geometry manager.

    [build_window] is the construction of lines 194-228, statement by
    statement; [bindings] the five bindings of lines 241-245;
    [clear_children] the loop of lines 77-78 and 125-126.  The widget
    calls of [show_results] are in [Render].

    The theorems: every operation keeps the store well formed (a live
    widget has a live master created before it; no master mixes [pack] and
    [grid]); the construction of the window raises nothing and wires the
    two buttons and the two scrollbars as intended; clearing a frame leaves
    it without children and the rest of the window untouched. *)

From Stdlib Require Import ZArith Lia.
From stdpp Require Import base tactics option list strings gmap.
From S2P Require Import Prelude Presenter.

(** ** Widgets *)

Inductive widget_class : Type :=
| TkToplevel
| TkLabel
| TkFrame
| TkLabelFrame
| TkButton
| TkCanvas
| TkScrollbar.

(** What a widget calls: a handler of the program, a method of the canvas
    (by the identifier of the canvas) or of a scrollbar. *)
Inductive callback : Type :=
| CallAnalyzeSelectedImages
| CallAnalyzeFolder
| CallDownloadCategory (cat : string)
| CallYview (canvas : nat)
| CallXview (canvas : nat)
| CallScrollbarSet (bar : nat)
| CallOnMousewheel
| CallOnShiftMousewheel
| CallYviewScroll (canvas : nat) (units : Z)
| CallUpdateScrollRegion.

Inductive side : Type := TOP | BOTTOM | LEFT | RIGHT.

Inductive fill : Type := NONE | X | Y | BOTH.

(** How a widget is placed in its master. *)
Inductive placement : Type :=
| Packed (s : side) (f : fill) (expand : bool) (padx pady : Z)
| Gridded (row column : nat) (padx pady : Z)
| CanvasWindow (x y : Z) (anchor : string).

(** The two geometry managers that cannot share a master. *)
Inductive manager : Type := ByPack | ByGrid.

Record tk_widget : Type := TkWidget {
  w_class : widget_class;
  (** [None] for the main window. *)
  w_master : option nat;
  w_text : string;
  w_image : option string;
  w_command : option callback;
  w_yscrollcommand : option callback;
  w_xscrollcommand : option callback;
  (** Colours, fonts, reliefs and paddings, as given. *)
  w_look : list (string * string);
  w_placement : option placement;
  w_alive : bool;
}.

#[export] Instance widget_class_eq_dec : EqDecision widget_class.
Proof. solve_decision. Defined.
#[export] Instance callback_eq_dec : EqDecision callback.
Proof. solve_decision. Defined.
#[export] Instance side_eq_dec : EqDecision side.
Proof. solve_decision. Defined.
#[export] Instance fill_eq_dec : EqDecision fill.
Proof. solve_decision. Defined.
#[export] Instance placement_eq_dec : EqDecision placement.
Proof. solve_decision. Defined.
#[export] Instance manager_eq_dec : EqDecision manager.
Proof. solve_decision. Defined.
#[export] Instance tk_widget_eq_dec : EqDecision tk_widget.
Proof. solve_decision. Defined.

(** The widgets ever created, in the order of their creation. *)
Abbreviation store := (list tk_widget).

Implicit Types (ws : store) (w : tk_widget) (i j m : nat).

(** ** Reading the store *)

(** The widget [i] exists and has not been destroyed. *)
Definition alive ws i : bool :=
  match ws !! i with Some w => w_alive w | None => false end.

(** The widget is a live child of [m]. *)
Definition child_of m w : bool :=
  w_alive w && bool_decide (w_master w = Some m).

(** The live children of [m] among the widgets [l], whose first one has the
    identifier [base]. *)
Fixpoint children_from (base : nat) (l : store) m : list nat :=
  match l with
  | [] => []
  | w :: l => (if child_of m w then [base] else []) ++ children_from (S base) l m
  end.

(** [m.winfo_children()]: the live children, in the order of creation. *)
Definition winfo_children ws m : list nat := children_from 0 ws m.

Definition manager_of (p : placement) : option manager :=
  match p with
  | Packed _ _ _ _ _ => Some ByPack
  | Gridded _ _ _ _ => Some ByGrid
  | CanvasWindow _ _ _ => None
  end.

(** The manager that places the widget [i], when one does. *)
Definition managed_by ws i : option manager :=
  match ws !! i with
  | Some w => match w_placement w with Some p => manager_of p | None => None end
  | None => None
  end.

(** A child of [m] other than [i] is placed by the manager [g]. *)
Definition sibling_managed ws m i (g : manager) : bool :=
  bool_decide (Exists (λ j, j ≠ i ∧ managed_by ws j = Some g) (winfo_children ws m)).

(** ** The calls *)

(** A constructor, [Label(master, ...)] and the like: the new widget is not
    placed yet. *)
Definition create (cls : widget_class) (master : nat) (text : string)
    (image : option string) (command : option callback)
    (look : list (string * string)) : prog store nat := fun ws =>
  if alive ws master
  then (ws ++ [TkWidget cls (Some master) text image command None None look None true],
        Ok (length ws))
  else (ws, Raise TclError).

(** The widget with another placement. *)
Definition place_widget (p : placement) w : tk_widget :=
  TkWidget (w_class w) (w_master w) (w_text w) (w_image w) (w_command w)
    (w_yscrollcommand w) (w_xscrollcommand w) (w_look w) (Some p) (w_alive w).

(** [w.pack(...)] and [w.grid(...)]: the widget [i] is handed to the manager
    of [p], unless the other children of its master are with the other
    manager. *)
Definition place_in_master (other : manager) (p : placement) i : prog store unit :=
  fun ws =>
    match ws !! i with
    | Some w =>
        match w_master w with
        | Some m =>
            if w_alive w && negb (sibling_managed ws m i other)
            then (<[i := place_widget p w]> ws, Ok tt)
            else (ws, Raise TclError)
        | None => (ws, Raise TclError)
        end
    | None => (ws, Raise TclError)
    end.

Definition pack i (s : side) (f : fill) (expand : bool) (padx pady : Z) :
    prog store unit :=
  place_in_master ByGrid (Packed s f expand padx pady) i.

Definition grid i (row column : nat) (padx pady : Z) : prog store unit :=
  place_in_master ByPack (Gridded row column padx pady) i.

(** [canvas.create_window((x, y), window=i, anchor=...)]. *)
Definition create_window (canvas : nat) (x y : Z) i (anchor : string) :
    prog store unit := fun ws =>
  match ws !! canvas, ws !! i with
  | Some c, Some w =>
      if w_alive c && bool_decide (w_class c = TkCanvas) && w_alive w
      then (<[i := place_widget (CanvasWindow x y anchor) w]> ws, Ok tt)
      else (ws, Raise TclError)
  | _, _ => (ws, Raise TclError)
  end.

(** [canvas.configure(yscrollcommand=..., xscrollcommand=...)]. *)
Definition configure_scroll i (yscroll xscroll : callback) : prog store unit :=
  fun ws =>
    match ws !! i with
    | Some w =>
        if w_alive w
        then (<[i := TkWidget (w_class w) (w_master w) (w_text w) (w_image w)
                       (w_command w) (Some yscroll) (Some xscroll) (w_look w)
                       (w_placement w) (w_alive w)]> ws, Ok tt)
        else (ws, Raise TclError)
    | None => (ws, Raise TclError)
    end.

(** The widget, destroyed. *)
Definition kill w : tk_widget :=
  TkWidget (w_class w) (w_master w) (w_text w) (w_image w) (w_command w)
    (w_yscrollcommand w) (w_xscrollcommand w) (w_look w) (w_placement w) false.

(** The widget [w], which comes after the widgets [done] that [i.destroy()]
    has gone through, goes with [i]: it is [i], or its master is gone. *)
Definition gone_with i (done : store) w : bool :=
  bool_decide (length done = i) ||
  match w_master w with
  | Some m => negb (alive done m)
  | None => false
  end.

(** One step of [i.destroy()], in the order of creation. *)
Definition destroy_step i (done : store) w : store :=
  done ++ [if gone_with i done w then kill w else w].

(** The store after [i.destroy()]. *)
Definition destroyed i ws : store := foldl (destroy_step i) [] ws.

(** [w.destroy()]: the widget and its descendants.  Destroying a widget
    that is gone already does nothing. *)
Definition destroy i : prog store unit := modify_state (destroyed i).

(** Lines 77-78 and 125-126:
    [for w in frame.winfo_children(): w.destroy()]. *)
Definition clear_children (frame : nat) : prog store unit := fun ws =>
  for_each destroy (winfo_children ws frame) ws.

(** ** The construction of the window *)

(** The widgets that the program names. *)
Record window : Type := Window {
  root : nat;
  title : nat;
  btn_frame : nat;
  select_images : nat;
  select_folder : nat;
  canvas_frame : nat;
  canvas : nat;
  scroll_y : nat;
  scroll_x : nat;
  content_frame : nat;
}.

(** Lines 194-199: [Tk()] with its title, its size and its look. *)
Definition Tk : tk_widget :=
  TkWidget TkToplevel None "Image Quality Categorizer" None None None None
    [("geometry", "1280x700"); ("bg", "#f2f2f2"); ("tk scaling", "1.5");
     ("*Font", "Arial 10")]
    None true.

(** Lines 194-228. *)
Definition build_window : prog store window :=
  modify_state (λ ws, ws ++ [Tk]) ≫= λ _,
  read_state (λ ws, Ok (length ws - 1)) ≫= λ root,
  create TkLabel root "Image Quality Categorizer" None None
    [("font", "Arial 16 bold"); ("bg", "#4A90E2"); ("fg", "white"); ("pady", "12")]
    ≫= λ title,
  pack title TOP X false 0 0 ≫= λ _,
  create TkFrame root "" None None [("bg", "#f2f2f2")] ≫= λ btn_frame,
  pack btn_frame TOP NONE false 0 10 ≫= λ _,
  create TkButton btn_frame "📸 Select Images" None (Some CallAnalyzeSelectedImages)
    [("bg", "#FF9800"); ("fg", "white"); ("relief", "groove")] ≫= λ select_images,
  pack select_images LEFT NONE false 10 0 ≫= λ _,
  create TkButton btn_frame "📁 Select Folder" None (Some CallAnalyzeFolder)
    [("bg", "#4CAF50"); ("fg", "white"); ("relief", "groove")] ≫= λ select_folder,
  pack select_folder LEFT NONE false 10 0 ≫= λ _,
  create TkFrame root "" None None [] ≫= λ canvas_frame,
  pack canvas_frame TOP BOTH true 0 0 ≫= λ _,
  create TkCanvas canvas_frame "" None None
    [("bg", "#f2f2f2"); ("highlightthickness", "0")] ≫= λ canvas,
  pack canvas LEFT BOTH true 0 0 ≫= λ _,
  create TkScrollbar canvas_frame "" None (Some (CallYview canvas))
    [("orient", "vertical")] ≫= λ scroll_y,
  pack scroll_y RIGHT Y false 0 0 ≫= λ _,
  create TkScrollbar root "" None (Some (CallXview canvas))
    [("orient", "horizontal")] ≫= λ scroll_x,
  pack scroll_x BOTTOM X false 0 0 ≫= λ _,
  configure_scroll canvas (CallScrollbarSet scroll_y) (CallScrollbarSet scroll_x)
    ≫= λ _,
  create TkFrame canvas "" None None [("bg", "#f2f2f2")] ≫= λ content_frame,
  create_window canvas 0 0 content_frame "nw" ≫= λ _,
  mret (Window root title btn_frame select_images select_folder canvas_frame
          canvas scroll_y scroll_x content_frame).

(** ** The bindings *)

(** What a binding is attached to. *)
Inductive bind_tag : Type :=
| OnWidget (i : nat)
| OnAll.

#[export] Instance bind_tag_eq_dec : EqDecision bind_tag.
Proof. solve_decision. Defined.

(** Lines 241-245. *)
Definition bindings (win : window) : list (bind_tag * string * callback) :=
  [(OnWidget (content_frame win), "<Configure>", CallUpdateScrollRegion);
   (OnAll, "<MouseWheel>", CallOnMousewheel);
   (OnAll, "<Shift-MouseWheel>", CallOnShiftMousewheel);
   (OnAll, "<Button-4>", CallYviewScroll (canvas win) (-1));
   (OnAll, "<Button-5>", CallYviewScroll (canvas win) 1)].

(** The callback that Tk runs for an event with the pattern [sequence] on
    the widget [i]: a binding of the widget goes before a binding of
    [all]. *)
Definition bound (bs : list (bind_tag * string * callback)) i (sequence : string) :
    option callback :=
  match list_find (λ b, b.1 = (OnWidget i, sequence)) bs with
  | Some (_, b) => Some b.2
  | None => snd <$> (snd <$> list_find (λ b, b.1 = (OnAll, sequence)) bs)
  end.

(** ** Well-formed stores *)

(** A live widget has a live master, created before it. *)
Definition masters_ok ws : Prop :=
  ∀ i w, ws !! i = Some w → w_alive w = true →
    match w_master w with
    | Some m => m < i ∧ alive ws m = true
    | None => True
    end.

(** The children of a master that a manager places are placed by the same
    manager. *)
Definition managers_ok ws : Prop :=
  ∀ m j1 j2 g1 g2,
    j1 ∈ winfo_children ws m → j2 ∈ winfo_children ws m →
    managed_by ws j1 = Some g1 → managed_by ws j2 = Some g2 → g1 = g2.

Definition store_wf ws : Prop := masters_ok ws ∧ managers_ok ws.

(** The two widgets have the same place in the tree. *)
Definition same_node w w' : Prop :=
  w_alive w' = w_alive w ∧ w_master w' = w_master w.

(** ** Lemmas on the store *)

Lemma alive_lt ws i : alive ws i = true → i < length ws.
Proof.
  unfold alive. destruct (ws !! i) eqn:Hi; [|done]. intros _. by eapply lookup_lt_Some.
Qed.

Lemma alive_Some ws i : alive ws i = true ↔ ∃ w, ws !! i = Some w ∧ w_alive w = true.
Proof.
  unfold alive. destruct (ws !! i) as [w|]; split;
    [eauto|by intros (? & [= <-] & ?)|done|by intros (? & ? & _)].
Qed.

Lemma alive_app_l ws l i : i < length ws → alive (ws ++ l) i = alive ws i.
Proof. intros Hi. unfold alive. by rewrite lookup_app_l. Qed.

Lemma alive_app_true ws l i : alive ws i = true → alive (ws ++ l) i = true.
Proof. intros Hi. by rewrite alive_app_l by by apply alive_lt. Qed.

Lemma children_from_app base (l1 l2 : store) m :
  children_from base (l1 ++ l2) m =
    children_from base l1 m ++ children_from (base + length l1) l2 m.
Proof.
  revert base. induction l1 as [|w l1 IH]; intros base; simpl.
  - by rewrite Nat.add_0_r.
  - rewrite IH, <-(assoc_L (++)). do 3 f_equal. lia.
Qed.

Lemma winfo_children_app ws l m :
  winfo_children (ws ++ l) m = winfo_children ws m ++ children_from (length ws) l m.
Proof. unfold winfo_children. by rewrite children_from_app. Qed.

Lemma elem_of_children_from base (l : store) m j :
  j ∈ children_from base l m ↔
  ∃ k w, j = base + k ∧ l !! k = Some w ∧ child_of m w = true.
Proof.
  revert base. induction l as [|w l IH]; intros base; simpl.
  - split; [by intros ?%elem_of_nil|by intros (k & w & _ & ? & _)].
  - rewrite elem_of_app, IH. split.
    + intros [Hj|(k & w' & -> & Hk & Hc)].
      * destruct (child_of m w) eqn:Hc; [|by apply elem_of_nil in Hj].
        apply list_elem_of_singleton in Hj as ->. exists 0, w. by rewrite Nat.add_0_r.
      * exists (S k), w'. split; [lia|done].
    + intros ([|k] & w' & -> & Hk & Hc); simpl in Hk.
      * injection Hk as ->. left. rewrite Hc, Nat.add_0_r. by apply list_elem_of_singleton.
      * right. exists k, w'. split; [lia|done].
Qed.

Lemma elem_of_winfo_children ws m j :
  j ∈ winfo_children ws m ↔
  ∃ w, ws !! j = Some w ∧ w_alive w = true ∧ w_master w = Some m.
Proof.
  unfold winfo_children. rewrite elem_of_children_from. unfold child_of. split.
  - intros (k & w & -> & Hk & [Ha Hm%bool_decide_eq_true]%andb_true_iff). eauto.
  - intros (w & Hj & Ha & Hm). exists j, w. rewrite Ha. split; [done|].
    split; [done|]. by apply bool_decide_eq_true.
Qed.

(** The children depend on the tree only. *)
Lemma children_from_same base (l l' : store) m :
  Forall2 same_node l l' → children_from base l' m = children_from base l m.
Proof.
  intros Hl. revert base. induction Hl as [|w w' l l' [Ha Hm] _ IH]; intros base; [done|].
  simpl. unfold child_of. by rewrite Ha, Hm, IH.
Qed.

Lemma same_node_insert ws i w w' :
  ws !! i = Some w → same_node w w' → Forall2 same_node ws (<[i := w']> ws).
Proof.
  intros Hi Hw. apply Forall2_same_length_lookup. split; [by rewrite length_insert|].
  intros j x y Hx Hy. destruct (decide (i = j)) as [->|Hne].
  - rewrite list_lookup_insert_eq in Hy by by eapply lookup_lt_Some. by simplify_eq.
  - rewrite list_lookup_insert_ne in Hy by done. by simplify_eq.
Qed.

Lemma winfo_children_insert ws i w w' m :
  ws !! i = Some w → same_node w w' →
  winfo_children (<[i := w']> ws) m = winfo_children ws m.
Proof. intros Hi Hw. by eapply children_from_same, same_node_insert. Qed.

Lemma alive_insert ws i w w' j :
  ws !! i = Some w → same_node w w' → alive (<[i := w']> ws) j = alive ws j.
Proof.
  intros Hi [Ha _]. unfold alive. destruct (decide (i = j)) as [->|Hne].
  - rewrite list_lookup_insert_eq by by eapply lookup_lt_Some. by rewrite Hi.
  - by rewrite list_lookup_insert_ne.
Qed.

Lemma masters_ok_insert ws i w w' :
  ws !! i = Some w → same_node w w' → masters_ok ws → masters_ok (<[i := w']> ws).
Proof.
  intros Hi Hw Hok j x Hj Hx. destruct Hw as [Ha Hm].
  assert (∃ y, ws !! j = Some y ∧ w_alive y = true ∧ w_master y = w_master x)
    as (y & Hy & Hya & <-).
  { destruct (decide (i = j)) as [->|Hne].
    - rewrite list_lookup_insert_eq in Hj by by eapply lookup_lt_Some.
      simplify_eq. exists w. by rewrite <-Ha.
    - rewrite list_lookup_insert_ne in Hj by done. eauto. }
  specialize (Hok j y Hy Hya). destruct (w_master y) as [m|]; [|done].
  by rewrite (alive_insert ws i w w').
Qed.

(** ** Every call keeps the store well formed *)

Lemma managed_by_app_l ws l i : i < length ws → managed_by (ws ++ l) i = managed_by ws i.
Proof. intros Hi. unfold managed_by. by rewrite lookup_app_l. Qed.

Lemma managed_by_insert_ne ws i j w' : i ≠ j → managed_by (<[i := w']> ws) j = managed_by ws j.
Proof. intros Hne. unfold managed_by. by rewrite list_lookup_insert_ne. Qed.

Lemma managed_by_insert_same ws i j w w' :
  ws !! i = Some w → w_placement w' = w_placement w →
  managed_by (<[i := w']> ws) j = managed_by ws j.
Proof.
  intros Hi Hp. destruct (decide (i = j)) as [->|Hne]; [|by apply managed_by_insert_ne].
  unfold managed_by. rewrite list_lookup_insert_eq by by eapply lookup_lt_Some.
  by rewrite Hi, Hp.
Qed.

(** A widget that no manager places is no constraint on its siblings. *)
Lemma store_wf_snoc ws w :
  w_placement w = None →
  match w_master w with Some m => alive ws m = true | None => True end →
  store_wf ws → store_wf (ws ++ [w]).
Proof.
  intros Hp Hm [Htree Hman]. split.
  - intros i x [Hi|[-> ->]]%lookup_snoc_Some Hx.
    + specialize (Htree i x (proj2 Hi) Hx). destruct (w_master x) as [m|]; [|done].
      split; [apply Htree|apply alive_app_true, Htree].
    + destruct (w_master x) as [m|]; [|done].
      split; [by apply alive_lt|by apply alive_app_true].
  - assert (∀ m j g, j ∈ winfo_children (ws ++ [w]) m →
                     managed_by (ws ++ [w]) j = Some g →
                     j ∈ winfo_children ws m ∧ managed_by ws j = Some g) as Hold.
    { intros m j g Hj Hg. rewrite winfo_children_app, elem_of_app in Hj.
      destruct Hj as [Hj|Hj].
      - split; [done|]. rewrite <-Hg. symmetry. apply managed_by_app_l.
        apply elem_of_winfo_children in Hj as (x & Hx & _). by eapply lookup_lt_Some.
      - simpl in Hj. destruct (child_of m w); [|by apply elem_of_nil in Hj].
        rewrite app_nil_r in Hj. apply list_elem_of_singleton in Hj as ->.
        unfold managed_by in Hg. rewrite lookup_app_r, Nat.sub_diag in Hg by done.
        simpl in Hg. by rewrite Hp in Hg. }
    intros m j1 j2 g1 g2 H1 H2 G1 G2.
    destruct (Hold _ _ _ H1 G1), (Hold _ _ _ H2 G2). eauto.
Qed.

Lemma create_wf cls master text image command look :
  keeps store_wf (create cls master text image command look).
Proof.
  intros ws Hwf. unfold create. destruct (alive ws master) eqn:Hm; [|done].
  by apply store_wf_snoc.
Qed.

Lemma new_root_wf : keeps store_wf (modify_state (λ ws, ws ++ [Tk])).
Proof. intros ws Hwf. by apply store_wf_snoc. Qed.

(** A change of a widget that leaves its node and its placement. *)
Lemma store_wf_insert_same ws i w w' :
  ws !! i = Some w → same_node w w' → w_placement w' = w_placement w →
  store_wf ws → store_wf (<[i := w']> ws).
Proof.
  intros Hi Hnode Hp [Htree Hman]. split; [by eapply masters_ok_insert|].
  intros m j1 j2 g1 g2.
  rewrite !(winfo_children_insert ws i w w') by done.
  rewrite !(managed_by_insert_same ws i _ w w') by done. apply Hman.
Qed.

Lemma configure_scroll_wf i yscroll xscroll :
  keeps store_wf (configure_scroll i yscroll xscroll).
Proof.
  intros ws Hwf. unfold configure_scroll.
  destruct (ws !! i) as [w|] eqn:Hi; [|done]. destruct (w_alive w) eqn:Ha; [|done].
  simpl. eapply store_wf_insert_same; [done|by split|done..].
Qed.

Lemma same_node_place p w : same_node w (place_widget p w).
Proof. done. Qed.

(** A widget handed to the manager [g], whose siblings are not with the
    other manager. *)
Lemma store_wf_place ws i w m p g other :
  ws !! i = Some w → w_master w = Some m →
  manager_of p = Some g → g ≠ other → (∀ g', g' ≠ other → g' = g) →
  sibling_managed ws m i other = false →
  store_wf ws → store_wf (<[i := place_widget p w]> ws).
Proof.
  intros Hi Hm Hp Hg Htwo Hsib [Htree Hman].
  split; [by eapply masters_ok_insert|].
  assert (managed_by (<[i := place_widget p w]> ws) i = Some g) as Hgi.
  { unfold managed_by. by rewrite list_lookup_insert_eq by by eapply lookup_lt_Some. }
  assert (∀ j g', j ∈ winfo_children ws m → j ≠ i → managed_by ws j = Some g' → g' = g)
    as Hsibs.
  { intros j g' Hj Hne Hg'. apply Htwo. intros ->.
    unfold sibling_managed in Hsib. apply bool_decide_eq_false in Hsib.
    apply Hsib. apply Exists_exists. eauto. }
  assert (∀ m', i ∈ winfo_children ws m' → m' = m) as Hmi.
  { intros m' (x & Hx & _ & Hxm)%elem_of_winfo_children. congruence. }
  intros m' j1 j2 g1 g2.
  rewrite !(winfo_children_insert ws i w (place_widget p w)) by done.
  intros H1 H2. destruct (decide (j1 = i)) as [->|Hne1], (decide (j2 = i)) as [->|Hne2].
  - congruence.
  - rewrite Hgi, managed_by_insert_ne by done. intros [= <-] G2.
    rewrite (Hmi _ H1) in H2. symmetry. eauto.
  - rewrite Hgi, managed_by_insert_ne by done. intros G1 [= <-].
    rewrite (Hmi _ H2) in H1. eauto.
  - rewrite !managed_by_insert_ne by done. eauto.
Qed.

Lemma place_in_master_wf other p g i :
  manager_of p = Some g → g ≠ other → (∀ g', g' ≠ other → g' = g) →
  keeps store_wf (place_in_master other p i).
Proof.
  intros Hp Hg Htwo ws Hwf. unfold place_in_master.
  destruct (ws !! i) as [w|] eqn:Hi; [|done].
  destruct (w_master w) as [m|] eqn:Hm; [|done].
  destruct (w_alive w); [|done]. simpl.
  destruct (sibling_managed ws m i other) eqn:Hsib; [done|]. simpl.
  by eapply store_wf_place.
Qed.

Lemma pack_wf i s f expand padx pady : keeps store_wf (pack i s f expand padx pady).
Proof. apply (place_in_master_wf _ _ ByPack); [done..|]. by intros []. Qed.

Lemma grid_wf i row column padx pady : keeps store_wf (grid i row column padx pady).
Proof. apply (place_in_master_wf _ _ ByGrid); [done..|]. by intros []. Qed.

Lemma create_window_wf canvas x y i anchor :
  keeps store_wf (create_window canvas x y i anchor).
Proof.
  intros ws [Htree Hman]. unfold create_window.
  destruct (ws !! canvas) as [c|]; [|done]. destruct (ws !! i) as [w|] eqn:Hi; [|done].
  destruct (_ && _); [|done]. simpl. split; [by eapply masters_ok_insert|].
  assert (managed_by (<[i := place_widget (CanvasWindow x y anchor) w]> ws) i = None)
    as Hgi.
  { unfold managed_by. by rewrite list_lookup_insert_eq by by eapply lookup_lt_Some. }
  intros m j1 j2 g1 g2.
  rewrite !(winfo_children_insert ws i w (place_widget (CanvasWindow x y anchor) w))
    by done.
  intros H1 H2. destruct (decide (j1 = i)) as [->|Hne1]; [by rewrite Hgi|].
  destruct (decide (j2 = i)) as [->|Hne2]; [by rewrite Hgi|].
  rewrite !managed_by_insert_ne by done. eauto.
Qed.

(** ** Destroying *)

Lemma kill_dead w : w_alive w = false → kill w = w.
Proof. destruct w. simpl. by intros ->. Qed.

Lemma destroyed_snoc i ws w :
  destroyed i (ws ++ [w]) = destroy_step i (destroyed i ws) w.
Proof. unfold destroyed. by rewrite foldl_app. Qed.

(** What [destroy] does to a widget: nothing, or it is gone. *)
Definition fades w w' : Prop := w' = w ∨ w' = kill w.

Lemma destroyed_fades i ws : Forall2 fades ws (destroyed i ws).
Proof.
  induction ws as [|w ws IH] using rev_ind; [by constructor|].
  rewrite destroyed_snoc. apply Forall2_app; [done|]. constructor; [|done].
  unfold fades. destruct (gone_with _ _ _); auto.
Qed.

Lemma length_destroyed i ws : length (destroyed i ws) = length ws.
Proof. symmetry. eapply Forall2_length, destroyed_fades. Qed.

Lemma destroyed_lookup i ws j w' :
  destroyed i ws !! j = Some w' → ∃ w, ws !! j = Some w ∧ fades w w'.
Proof.
  intros Hj. destruct (Forall2_lookup_r _ _ _ _ _ (destroyed_fades i ws) Hj) as (w & ? & ?).
  eauto.
Qed.

Lemma fades_alive w w' : fades w w' → w_alive w' = true → w_alive w = true.
Proof. by intros [->| ->]. Qed.

Lemma fades_master w w' : fades w w' → w_master w' = w_master w.
Proof. by intros [->| ->]. Qed.

Lemma fades_placement w w' : fades w w' → w_placement w' = w_placement w.
Proof. by intros [->| ->]. Qed.

(** Nothing comes back to life. *)
Lemma destroyed_alive i ws j : alive (destroyed i ws) j = true → alive ws j = true.
Proof.
  rewrite !alive_Some. intros (w' & (w & Hw & Hf)%destroyed_lookup & Ha).
  exists w. eauto using fades_alive.
Qed.

Lemma destroyed_children i ws m j :
  j ∈ winfo_children (destroyed i ws) m → j ∈ winfo_children ws m.
Proof.
  rewrite !elem_of_winfo_children.
  intros (w' & (w & Hw & Hf)%destroyed_lookup & Ha & Hm). exists w.
  rewrite <-(fades_master w w') by done. eauto using fades_alive.
Qed.

Lemma destroyed_managed_by i ws j : managed_by (destroyed i ws) j = managed_by ws j.
Proof.
  unfold managed_by. destruct (destroyed i ws !! j) as [w'|] eqn:Hj.
  - apply destroyed_lookup in Hj as (w & -> & Hf). by rewrite (fades_placement w w').
  - apply lookup_ge_None in Hj. rewrite length_destroyed in Hj.
    apply lookup_ge_None in Hj. by rewrite Hj.
Qed.

(** The widget is gone. *)
Lemma destroyed_dead i ws : alive (destroyed i ws) i = false.
Proof.
  induction ws as [|w ws IH] using rev_ind; [done|].
  rewrite destroyed_snoc. unfold destroy_step.
  destruct (decide (i < length ws)) as [Hlt|Hge].
  - by rewrite alive_app_l by by rewrite length_destroyed.
  - unfold alive. destruct (decide (i = length ws)) as [->|Hne].
    + rewrite lookup_app_r, length_destroyed, Nat.sub_diag by by rewrite length_destroyed.
      simpl. unfold gone_with. by rewrite length_destroyed, bool_decide_eq_true_2.
    + rewrite lookup_ge_None_2; [done|]. rewrite length_app, length_destroyed. simpl. lia.
Qed.

(** What is left is a tree again: a widget goes when its master goes. *)
Lemma destroyed_masters_ok i ws : masters_ok (destroyed i ws).
Proof.
  induction ws as [|w ws IH] using rev_ind; [by intros j x ?|].
  rewrite destroyed_snoc. unfold destroy_step.
  intros j x [[_ Hj]|[-> Hxw]]%lookup_snoc_Some Hx.
  - specialize (IH j x Hj Hx). destruct (w_master x) as [m|]; [|done].
    split; [apply IH|apply alive_app_true, IH].
  - destruct (gone_with i (destroyed i ws) w) eqn:Hg; subst x; [done|].
    unfold gone_with in Hg. apply orb_false_iff in Hg as [_ Hg].
    destruct (w_master w) as [m|]; [|done]. apply negb_false_iff in Hg.
    split; [by apply alive_lt|by apply alive_app_true].
Qed.

Lemma destroy_wf i : keeps store_wf (destroy i).
Proof.
  intros ws [_ Hman]. change (store_wf (destroyed i ws)).
  split; [apply destroyed_masters_ok|].
  intros m j1 j2 g1 g2 H1%destroyed_children H2%destroyed_children.
  rewrite !destroyed_managed_by. eauto.
Qed.

Lemma masters_ok_snoc_inv ws w : masters_ok (ws ++ [w]) → masters_ok ws.
Proof.
  intros Hok i x Hi Hx. specialize (Hok i x (lookup_app_l_Some _ _ _ _ Hi) Hx).
  destruct (w_master x) as [m|]; [|done]. destruct Hok as [Hm Ha]. split; [done|].
  rewrite alive_app_l in Ha; [done|]. apply lookup_lt_Some in Hi. lia.
Qed.

(** The widgets that were created before the destroyed one are as they
    were. *)
Lemma destroyed_take i ws : masters_ok ws → take i (destroyed i ws) = take i ws.
Proof.
  induction ws as [|w ws IH] using rev_ind; [done|]. intros Hok.
  specialize (IH (masters_ok_snoc_inv _ _ Hok)). rewrite destroyed_snoc. unfold destroy_step.
  destruct (decide (i ≤ length ws)) as [Hle|Hgt].
  { by rewrite !take_app_le by (by rewrite ?length_destroyed). }
  rewrite !take_ge in IH by (rewrite ?length_destroyed; lia).
  rewrite !take_ge by (rewrite !length_app, ?length_destroyed; simpl; lia).
  rewrite IH. f_equal. f_equal.
  destruct (w_alive w) eqn:Ha; [|destruct (gone_with _ _ _); by rewrite ?kill_dead].
  unfold gone_with. rewrite bool_decide_eq_false_2 by lia. simpl.
  specialize (Hok (length ws) w). rewrite lookup_app_r, Nat.sub_diag in Hok by done.
  specialize (Hok eq_refl Ha). destruct (w_master w) as [m|]; [|done].
  destruct Hok as [Hm Hma]. rewrite alive_app_l in Hma by done. by rewrite Hma.
Qed.

(** ** Clearing a frame *)

Lemma for_each_destroy (l : list nat) ws :
  for_each destroy l ws = (foldl (λ ws c, destroyed c ws) ws l, Ok tt).
Proof. revert ws. induction l as [|c l IH]; intros ws; [done|]. simpl. apply IH. Qed.

Lemma clear_children_eq frame ws :
  clear_children frame ws =
    (foldl (λ ws c, destroyed c ws) ws (winfo_children ws frame), Ok tt).
Proof. apply for_each_destroy. Qed.

Lemma destroyed_all_alive (l : list nat) ws j :
  alive (foldl (λ ws c, destroyed c ws) ws l) j = true → alive ws j = true.
Proof.
  revert ws. induction l as [|c l' IH]; intros ws; [done|]. simpl.
  intros Hj%IH. by eapply destroyed_alive.
Qed.

Lemma destroyed_all_dead (l : list nat) ws j :
  j ∈ l → alive (foldl (λ ws c, destroyed c ws) ws l) j = false.
Proof.
  revert ws. induction l as [|c l' IH]; intros ws; [by intros ?%elem_of_nil|].
  intros [->|Hj]%elem_of_cons; simpl; [|by apply IH].
  apply not_true_is_false. intros Ha%destroyed_all_alive.
  by rewrite destroyed_dead in Ha.
Qed.

Lemma destroyed_all_children (l : list nat) ws m j :
  j ∈ winfo_children (foldl (λ ws c, destroyed c ws) ws l) m → j ∈ winfo_children ws m.
Proof.
  revert ws. induction l as [|c l' IH]; intros ws; [done|]. simpl.
  intros Hj%IH. by eapply destroyed_children.
Qed.

Lemma destroyed_all_wf (l : list nat) ws : store_wf ws → store_wf (foldl (λ ws c, destroyed c ws) ws l).
Proof.
  revert ws. induction l as [|c l' IH]; intros ws Hwf; [done|]. simpl.
  apply IH. by apply (destroy_wf c ws).
Qed.

Lemma destroyed_all_take (l : list nat) ws n :
  masters_ok ws → Forall (λ c, n ≤ c) l →
  take n (foldl (λ ws c, destroyed c ws) ws l) = take n ws.
Proof.
  revert ws. induction l as [|c l' IH]; intros ws Hok Hl; [done|]. simpl.
  apply Forall_cons in Hl as [Hc Hl]. rewrite IH by (done || apply destroyed_masters_ok).
  rewrite <-(Nat.min_l n c), <-!take_take by done. by rewrite destroyed_take.
Qed.

(** After the loop the frame has no child, and the widgets created up to
    the frame are as they were. *)
Lemma clear_children_spec frame ws :
  store_wf ws →
  let ws' := (clear_children frame ws).1 in
  (clear_children frame ws).2 = Ok tt ∧
  store_wf ws' ∧
  winfo_children ws' frame = [] ∧
  take (S frame) ws' = take (S frame) ws ∧
  ∀ j, alive ws' j = true → alive ws j = true.
Proof.
  intros Hwf. rewrite clear_children_eq. simpl. split_and!; [done|..].
  - by apply destroyed_all_wf.
  - apply elem_of_nil_inv. intros j Hj.
    pose proof (destroyed_all_children _ _ _ _ Hj) as Hc.
    apply elem_of_winfo_children in Hj as (w & Hw & Ha & _).
    assert (alive (foldl (λ ws c, destroyed c ws) ws (winfo_children ws frame)) j = true)
      as Hj by (apply alive_Some; eauto).
    by rewrite destroyed_all_dead in Hj.
  - apply destroyed_all_take; [apply Hwf|]. apply Forall_forall.
    intros c (w & Hw & Ha & Hm)%elem_of_winfo_children.
    destruct Hwf as [Hok _]. specialize (Hok c w Hw Ha). rewrite Hm in Hok. lia.
  - apply destroyed_all_alive.
Qed.

(** Clearing a frame that has just been cleared does nothing. *)
Lemma clear_children_twice frame ws :
  store_wf ws →
  clear_children frame (clear_children frame ws).1 = ((clear_children frame ws).1, Ok tt).
Proof.
  intros Hwf. destruct (clear_children_spec frame ws Hwf) as (_ & _ & Hch & _).
  cbv zeta in Hch. by rewrite (clear_children_eq frame (clear_children frame ws).1), Hch.
Qed.

(** ** A call of the program on the widgets *)



Lemma clear_children_wf frame : keeps store_wf (clear_children frame).
Proof. intros ws Hwf. by destruct (clear_children_spec frame ws Hwf) as (_ & ? & _). Qed.

#[export] Hint Resolve create_wf pack_wf grid_wf create_window_wf configure_scroll_wf
  destroy_wf clear_children_wf new_root_wf : iqc.


Lemma store_wf_nil : store_wf [].
Proof. split; [by intros i w ?|]. by intros m j1 j2 g1 g2 ?%elem_of_nil. Qed.

Lemma build_window_wf : keeps store_wf build_window.
Proof. unfold build_window. keeps_steps. Qed.

(** The window of the program. *)
Definition main_window : window := Window 0 1 2 3 4 5 6 7 8 9.

Lemma build_window_run : (build_window []).2 = Ok main_window.
Proof. by vm_compute. Qed.

(** ** Properties of the window *)


(** The construction of lines 194-228 raises nothing and gives the ten
    widgets of the window, all alive in a well-formed store: the title, the
    frame of the buttons, the frame of the canvas and the horizontal
    scrollbar in the main window; the two buttons bound to the two
    selection handlers; each scrollbar bound to the view of the canvas
    along its axis and the canvas bound back to it; the content frame
    inside the canvas, without a child. *)
Theorem build_window_ok :
  ∃ ws, build_window [] = (ws, Ok main_window) ∧
        store_wf ws ∧ length ws = 10 ∧
        Forall (λ w, w_alive w = true) ws ∧
        winfo_children ws (root main_window) =
          [title main_window; btn_frame main_window; canvas_frame main_window;
           scroll_x main_window] ∧
        winfo_children ws (content_frame main_window) = [] ∧
        (w_command <$> ws !! select_images main_window) = Some (Some CallAnalyzeSelectedImages) ∧
        (w_command <$> ws !! select_folder main_window) = Some (Some CallAnalyzeFolder) ∧
        (w_command <$> ws !! scroll_y main_window) = Some (Some (CallYview (canvas main_window))) ∧
        (w_yscrollcommand <$> ws !! canvas main_window) =
          Some (Some (CallScrollbarSet (scroll_y main_window))) ∧
        (w_command <$> ws !! scroll_x main_window) = Some (Some (CallXview (canvas main_window))) ∧
        (w_xscrollcommand <$> ws !! canvas main_window) =
          Some (Some (CallScrollbarSet (scroll_x main_window))) ∧
        (w_placement <$> ws !! content_frame main_window) =
          Some (Some (CanvasWindow 0 0 "nw")).
Proof.
  exists (build_window []).1. split; [by vm_compute|].
  split; [apply build_window_wf, store_wf_nil|].
  split_and!; try by vm_compute.
  apply (bool_decide_unpack _). by vm_compute.
Qed.

(** The loop of lines 77-78 and 125-126 raises nothing and leaves the
    frame without a child; the widgets created up to the frame, which
    include the whole window of lines 194-228 when the frame is the content
    frame, are as they were, and nothing comes back to life. *)
Theorem clear_children_frame frame ws :
  store_wf ws →
  let ws' := (clear_children frame ws).1 in
  (clear_children frame ws).2 = Ok tt ∧
  store_wf ws' ∧
  winfo_children ws' frame = [] ∧
  take (S frame) ws' = take (S frame) ws ∧
  ∀ j, alive ws' j = true → alive ws j = true.
Proof. apply clear_children_spec. Qed.

(** The five bindings: the wheel on every widget, the change of size on the
    content frame only. *)
Lemma bound_main_window i :
  bound (bindings main_window) i "<MouseWheel>" = Some CallOnMousewheel ∧
  bound (bindings main_window) i "<Shift-MouseWheel>" = Some CallOnShiftMousewheel ∧
  bound (bindings main_window) i "<Button-4>" = Some (CallYviewScroll 6 (-1)) ∧
  bound (bindings main_window) i "<Button-5>" = Some (CallYviewScroll 6 1) ∧
  (bound (bindings main_window) i "<Configure>" = Some CallUpdateScrollRegion ↔ i = 9).
Proof.
  unfold bound. cbn [bindings list_find]. split_and!.
  1-4: by repeat (rewrite decide_False by (intros [= ?]; done); cbn).
  destruct (decide (i = 9)) as [->|Hne]; [done|].
  rewrite decide_False by (intros [= ?]; done). cbn. by split.
Qed.

(** ** The window of the program, built *)

(** The store after the start-up. *)
Definition window_store : store := (build_window []).1.

Lemma window_store_wf : store_wf window_store.
Proof. apply build_window_wf, store_wf_nil. Qed.


Lemma clear_children_frame_witness :
  let ws' := (clear_children (btn_frame main_window) window_store).1 in
  (clear_children (btn_frame main_window) window_store).2 = Ok tt ∧
  store_wf ws' ∧
  winfo_children ws' (btn_frame main_window) = [] ∧
  take (S (btn_frame main_window)) ws' = take (S (btn_frame main_window)) window_store ∧
  ∀ j, alive ws' j = true → alive window_store j = true.
Proof. apply (clear_children_frame (btn_frame main_window) window_store window_store_wf). Defined.
