(* ===== verification/Render.v ===== *)
(** * The content frame: rendering and reading back

    [Presenter.show_results] computes the children of [content_frame] as
    data.  Here they are widgets of the store of [Window]: [render] makes
    the calls of lines 129 and 149-182 (a constructor and [pack] for a
    frame, its button and its frame of images; a constructor and [grid] for
    each label of the grid), [refresh] clears the frame first as lines
    125-126 do, and [view] reads the live children of a frame back as the
    data of the presenter.

    The theorems: for any content, rendering raises nothing (in particular
    no master ever gets children from both [pack] and [grid]), keeps the
    store well formed, leaves the widgets of the window as they were, and
    the content frame then reads back as exactly that content. *)

From Stdlib Require Import ZArith Lia.
From stdpp Require Import base tactics option list strings gmap.
From S2P Require Import Prelude Presenter Window.

Implicit Types (ws : store) (w : tk_widget) (i j m : nat).

(** ** Rendering the content *)

(** Lines 177-182: a label of the grid of a category. *)
Definition render_cell (imgs_frame : nat) (c : grid_label * nat * nat) :
    prog store unit :=
  let '(l, row, column) := c in
  match l with
  | ThumbLabel path =>
      create TkLabel imgs_frame "" (Some path) None [] ≫= λ lbl,
      grid lbl row column 5 5
  | NameLabel name =>
      create TkLabel imgs_frame name None None [("font", "Arial 9")] ≫= λ lbl_name,
      grid lbl_name row column 5 0
  end.

(** Line 129 and lines 149-182: the widgets of one child of
    [content_frame]. *)
Definition render_widget (content_frame : nat) (x : widget) : prog store unit :=
  match x with
  | MessageLabel text =>
      create TkLabel content_frame text None None [("font", "Arial 11")] ≫= λ l,
      pack l TOP NONE false 0 20
  | CategoryFrame title text cat cells =>
      create TkLabelFrame content_frame title None None
        [("font", "Arial 11 bold"); ("padx", "10"); ("pady", "10")] ≫= λ frame,
      pack frame TOP X false 10 10 ≫= λ _,
      create TkButton frame text None (Some (CallDownloadCategory cat))
        [("bg", "#2196F3"); ("fg", "white"); ("font", "Arial 10 bold");
         ("padx", "15"); ("pady", "6")] ≫= λ btn,
      pack btn TOP NONE false 0 5 ≫= λ _,
      create TkFrame frame "" None None [] ≫= λ imgs_frame,
      pack imgs_frame TOP X false 0 5 ≫= λ _,
      for_each (render_cell imgs_frame) cells
  end.

(** The widget calls of [show_results] for the content it computes. *)
Definition render (content_frame : nat) (content : list widget) : prog store unit :=
  for_each (render_widget content_frame) content.

(** [show_results], lines 123-190, on the store: the frame is cleared, then
    the content is rendered. *)
Definition refresh (content_frame : nat) (content : list widget) : prog store unit :=
  clear_children content_frame ≫= λ _, render content_frame content.

(** ** Reading the content back *)

Definition view_cell ws j : option (grid_label * nat * nat) :=
  match ws !! j with
  | Some w =>
      match w_placement w with
      | Some (Gridded row column _ _) =>
          Some (match w_image w with
                | Some path => ThumbLabel path
                | None => NameLabel (w_text w)
                end, row, column)
      | _ => None
      end
  | None => None
  end.

Definition view_widget ws j : option widget :=
  match ws !! j with
  | Some w =>
      match w_class w with
      | TkLabel => Some (MessageLabel (w_text w))
      | TkLabelFrame =>
          match winfo_children ws j with
          | [btn; imgs_frame] =>
              match ws !! btn with
              | Some b =>
                  match w_command b with
                  | Some (CallDownloadCategory cat) =>
                      cells ← mapM (view_cell ws) (winfo_children ws imgs_frame);
                      Some (CategoryFrame (w_text w) (w_text b) cat cells)
                  | _ => None
                  end
              | None => None
              end
          | _ => None
          end
      | _ => None
      end
  | None => None
  end.

(** The children of a frame, as content. *)
Definition view ws (frame : nat) : option (list widget) :=
  mapM (view_widget ws) (winfo_children ws frame).

(** ** What rendering appends *)

Definition cell_widget (imgs_frame : nat) (c : grid_label * nat * nat) : tk_widget :=
  let '(l, row, column) := c in
  match l with
  | ThumbLabel path =>
      TkWidget TkLabel (Some imgs_frame) "" (Some path) None None None []
        (Some (Gridded row column 5 5)) true
  | NameLabel name =>
      TkWidget TkLabel (Some imgs_frame) name None None None None [("font", "Arial 9")]
        (Some (Gridded row column 5 0)) true
  end.

(** The widgets of one child of [content_frame], the first of which gets
    the identifier [base]. *)
Definition widget_block (base content_frame : nat) (x : widget) : store :=
  match x with
  | MessageLabel text =>
      [TkWidget TkLabel (Some content_frame) text None None None None
         [("font", "Arial 11")] (Some (Packed TOP NONE false 0 20)) true]
  | CategoryFrame title text cat cells =>
      [TkWidget TkLabelFrame (Some content_frame) title None None None None
         [("font", "Arial 11 bold"); ("padx", "10"); ("pady", "10")]
         (Some (Packed TOP X false 10 10)) true;
       TkWidget TkButton (Some base) text None (Some (CallDownloadCategory cat)) None None
         [("bg", "#2196F3"); ("fg", "white"); ("font", "Arial 10 bold");
          ("padx", "15"); ("pady", "6")]
         (Some (Packed TOP NONE false 0 5)) true;
       TkWidget TkFrame (Some base) "" None None None None []
         (Some (Packed TOP X false 0 5)) true]
      ++ (cell_widget (base + 2) <$> cells)
  end.

Fixpoint blocks (base content_frame : nat) (content : list widget) : store :=
  match content with
  | [] => []
  | x :: content =>
      let b := widget_block base content_frame x in
      b ++ blocks (base + length b) content_frame content
  end.

(** No child of [m] is placed by the manager [g]. *)
Definition free_of ws m (g : manager) : Prop :=
  ∀ j, j ∈ winfo_children ws m → managed_by ws j ≠ Some g.

Lemma masters_ok_snoc ws w :
  match w_master w with Some m => alive ws m = true | None => True end →
  masters_ok ws → masters_ok (ws ++ [w]).
Proof.
  intros Hm Htree i x [Hi|[-> ->]]%lookup_snoc_Some Hx.
  - specialize (Htree i x (proj2 Hi) Hx). destruct (w_master x) as [m|]; [|done].
    split; [apply Htree|apply alive_app_true, Htree].
  - destruct (w_master x) as [m|]; [|done].
    split; [by apply alive_lt|by apply alive_app_true].
Qed.

(** A widget that is not created yet has no child. *)
Lemma winfo_children_new ws m :
  masters_ok ws → length ws ≤ m → winfo_children ws m = [].
Proof.
  intros Hok Hm. apply elem_of_nil_inv. intros j (w & Hj & Ha & Hw)%elem_of_winfo_children.
  specialize (Hok j w Hj Ha). rewrite Hw in Hok. apply lookup_lt_Some in Hj. lia.
Qed.

Lemma free_of_new ws m g : masters_ok ws → length ws ≤ m → free_of ws m g.
Proof. intros Hok Hm j. rewrite winfo_children_new by done. by intros ?%elem_of_nil. Qed.

Lemma free_of_snoc ws w m g :
  free_of ws m g →
  (w_master w = Some m → (w_placement w ≫= manager_of) ≠ Some g) →
  free_of (ws ++ [w]) m g.
Proof.
  intros Hfree Hw j. rewrite winfo_children_app, elem_of_app. intros [Hj|Hj].
  - rewrite managed_by_app_l; [by apply Hfree|].
    apply elem_of_winfo_children in Hj as (x & Hx & _). by eapply lookup_lt_Some.
  - simpl in Hj. unfold child_of in Hj.
    destruct (w_alive w); [|by apply elem_of_nil in Hj]. simpl in Hj.
    case_bool_decide as Hm; [|by apply elem_of_nil in Hj].
    rewrite app_nil_r in Hj. apply list_elem_of_singleton in Hj as ->.
    unfold managed_by. rewrite lookup_app_r, Nat.sub_diag by done. simpl.
    specialize (Hw Hm). by destruct (w_placement w).
Qed.

Lemma free_of_app ws (l : store) m g :
  free_of ws m g →
  Forall (λ w, w_master w = Some m → (w_placement w ≫= manager_of) ≠ Some g) l →
  free_of (ws ++ l) m g.
Proof.
  intros Hfree Hl. induction l as [|w l IH] using rev_ind; [by rewrite app_nil_r|].
  apply Forall_app in Hl as [Hl [Hw _]%Forall_cons]. rewrite app_assoc.
  apply free_of_snoc; auto.
Qed.

Lemma create_Ok ws cls m text image command look :
  alive ws m = true →
  create cls m text image command look ws =
    (ws ++ [TkWidget cls (Some m) text image command None None look None true],
     Ok (length ws)).
Proof. intros Hm. unfold create. by rewrite Hm. Qed.

(** [pack] or [grid] on the widget that has just been created. *)
Lemma place_snoc ws w m other p :
  w_master w = Some m → w_alive w = true → free_of ws m other →
  place_in_master other p (length ws) (ws ++ [w]) = (ws ++ [place_widget p w], Ok tt).
Proof.
  intros Hm Ha Hfree. unfold place_in_master.
  rewrite lookup_app_r, Nat.sub_diag by done. simpl. rewrite Hm, Ha. simpl.
  assert (sibling_managed (ws ++ [w]) m (length ws) other = false) as ->.
  { apply bool_decide_eq_false. rewrite Exists_exists. intros (j & Hj & Hne & Hg).
    rewrite winfo_children_app, elem_of_app in Hj. destruct Hj as [Hj|Hj].
    - apply (Hfree j Hj). rewrite <-Hg. symmetry. apply managed_by_app_l.
      apply elem_of_winfo_children in Hj as (x & Hx & _). by eapply lookup_lt_Some.
    - simpl in Hj. destruct (child_of m w); [|by apply elem_of_nil in Hj].
      rewrite app_nil_r in Hj. by apply list_elem_of_singleton in Hj. }
  simpl. by rewrite insert_app_r_alt, Nat.sub_diag by done.
Qed.

(** A constructor followed by [pack] or [grid], then the rest. *)
Lemma create_place {A : Type} ws cls m text image command look other p
    (k : nat → prog store A) :
  alive ws m = true → free_of ws m other →
  (create cls m text image command look ≫= λ i,
     place_in_master other p i ≫= λ _, k i) ws =
  k (length ws)
    (ws ++ [TkWidget cls (Some m) text image command None None look (Some p) true]).
Proof.
  intros Hm Hfree. rewrite (prog_bind_Ok _ _ _ _ _ (create_Ok _ _ _ _ _ _ _ Hm)).
  by rewrite (prog_bind_Ok _ _ _ _ _
               (place_snoc ws (TkWidget cls (Some m) text image command None None look
                                 None true) m other p eq_refl eq_refl Hfree)).
Qed.

Lemma create_place_end ws cls m text image command look other p :
  alive ws m = true → free_of ws m other →
  (create cls m text image command look ≫= place_in_master other p) ws =
  (ws ++ [TkWidget cls (Some m) text image command None None look (Some p) true], Ok tt).
Proof.
  intros Hm Hfree. rewrite (prog_bind_Ok _ _ _ _ _ (create_Ok _ _ _ _ _ _ _ Hm)).
  by apply (place_snoc ws (TkWidget cls (Some m) text image command None None look
                             None true) m).
Qed.

Lemma render_cell_eq imgs c ws :
  alive ws imgs = true → free_of ws imgs ByPack →
  render_cell imgs c ws = (ws ++ [cell_widget imgs c], Ok tt).
Proof.
  intros Ha Hfree. destruct c as [[[path|name] row] column]; simpl;
    by apply (create_place_end _ _ _ _ _ _ _ ByPack).
Qed.

Lemma render_cells_eq imgs cells ws :
  alive ws imgs = true → free_of ws imgs ByPack →
  for_each (render_cell imgs) cells ws = (ws ++ (cell_widget imgs <$> cells), Ok tt).
Proof.
  revert ws. induction cells as [|c cells IH]; intros ws Ha Hfree.
  { by rewrite app_nil_r. }
  rewrite (for_each_cons_Ok _ _ _ _ _ (render_cell_eq _ c _ Ha Hfree)).
  rewrite IH, <-app_assoc; [done|by apply alive_app_true|].
  apply free_of_snoc; [done|]. by destruct c as [[[path|name] row] column].
Qed.

Lemma alive_snoc_new ws w : w_alive w = true → alive (ws ++ [w]) (length ws) = true.
Proof. intros Ha. unfold alive. by rewrite lookup_app_r, Nat.sub_diag. Qed.

Lemma render_widget_eq cf x ws :
  masters_ok ws → alive ws cf = true → free_of ws cf ByGrid →
  render_widget cf x ws = (ws ++ widget_block (length ws) cf x, Ok tt).
Proof.
  intros Hok Hcf Hfree. pose proof (alive_lt _ _ Hcf) as Hlt.
  destruct x as [text|title text cat cells]; simpl.
  { by apply (create_place_end _ _ _ _ _ _ _ ByGrid). }
  unfold pack. rewrite create_place by done.
  set (frame := TkWidget TkLabelFrame _ _ _ _ _ _ _ _ _).
  assert (∀ g, free_of (ws ++ [frame]) (length ws) g) as Hframe.
  { intros g. apply free_of_snoc; [by apply free_of_new|]. intros [= ?]. lia. }
  rewrite create_place by (by apply alive_snoc_new || done).
  set (btn := TkWidget TkButton _ _ _ _ _ _ _ _ _).
  rewrite create_place; [|by apply alive_app_true, alive_snoc_new|by apply free_of_snoc].
  set (imgs := TkWidget TkFrame _ _ _ _ _ _ _ _ _).
  rewrite !length_app. simpl. rewrite <-!(assoc_L (++)). simpl.
  replace (length ws + 1 + 1) with (length ws + 2) by lia.
  rewrite render_cells_eq.
  - by rewrite <-(assoc_L (++)).
  - unfold alive. rewrite lookup_app_r by lia.
    by replace (length ws + 2 - length ws) with 2 by lia.
  - apply (free_of_app ws [frame; btn; imgs]); [apply free_of_new; [done|lia]|].
    repeat constructor; intros [= ?]; lia.
Qed.

Lemma render_widget_wf cf x : keeps store_wf (render_widget cf x).
Proof.
  destruct x as [text|title text cat cells]; simpl;
    repeat (apply keeps_bind; [|intros ?]);
    auto using create_wf, pack_wf.
  apply keeps_for_each. intros [[[path|name] row] column]; simpl;
    (apply keeps_bind; [|intros ?]); auto using create_wf, grid_wf.
Qed.

Lemma length_widget_block base cf x : 0 < length (widget_block base cf x).
Proof. destruct x; simpl; lia. Qed.

(** Rendering appends the widgets of the content, and raises nothing. *)
Lemma render_eq cf content ws :
  store_wf ws → alive ws cf = true → free_of ws cf ByGrid →
  render cf content ws = (ws ++ blocks (length ws) cf content, Ok tt) ∧
  store_wf (ws ++ blocks (length ws) cf content).
Proof.
  revert ws. induction content as [|x content IH]; intros ws Hwf Hcf Hfree.
  { by rewrite app_nil_r. }
  pose proof (render_widget_eq cf x ws (proj1 Hwf) Hcf Hfree) as Hx.
  pose proof (render_widget_wf cf x ws Hwf) as Hwf'. rewrite Hx in Hwf'. simpl in Hwf'.
  unfold render. rewrite (for_each_cons_Ok _ _ _ _ _ Hx). simpl.
  rewrite (assoc_L (++)), <-length_app. apply IH; [done|by apply alive_app_true|].
  apply free_of_app; [done|]. pose proof (alive_lt _ _ Hcf).
  destruct x as [text|title text cat cells]; simpl; [by repeat constructor|].
  constructor; [done|]. do 2 (constructor; [intros [= ?]; lia|]).
  apply Forall_fmap, Forall_forall. intros [[[path|name] row] column] _ [= ?]; lia.
Qed.

(** ** Reading back what was rendered *)

Lemma view_cell_app_l ws l k : k < length ws → view_cell (ws ++ l) k = view_cell ws k.
Proof. intros Hk. unfold view_cell. by rewrite lookup_app_l. Qed.

Lemma view_cell_widget imgs c ws l :
  view_cell (ws ++ cell_widget imgs c :: l) (length ws) = Some c.
Proof.
  unfold view_cell. rewrite lookup_app_r, Nat.sub_diag by done.
  by destruct c as [[[path|name] row] column].
Qed.

Lemma children_from_none base (l : store) m :
  Forall (λ w, w_master w ≠ Some m) l → children_from base l m = [].
Proof.
  intros Hl. revert base. induction Hl as [|w l Hw _ IH]; intros base; [done|].
  simpl. unfold child_of. by rewrite bool_decide_eq_false_2, andb_false_r, IH.
Qed.

Lemma children_from_cells base imgs cells :
  children_from base (cell_widget imgs <$> cells) imgs = seq base (length cells).
Proof.
  revert base. induction cells as [|c cells IH]; intros base; [done|].
  rewrite fmap_cons. cbn [children_from length seq]. rewrite IH.
  assert (child_of imgs (cell_widget imgs c) = true) as ->; [|done].
  unfold child_of. destruct c as [[[path|name] row] column]; simpl;
    by rewrite bool_decide_eq_true_2.
Qed.

Lemma view_cells ws imgs cells :
  mapM (view_cell (ws ++ (cell_widget imgs <$> cells)))
       (seq (length ws) (length cells)) = Some cells.
Proof.
  apply mapM_Some, Forall2_same_length_lookup. split; [by rewrite length_seq|].
  intros i k c [-> Hi]%lookup_seq Hc.
  apply list_elem_of_split_length in Hc as (cells1 & cells2 & -> & ->).
  rewrite fmap_app, fmap_cons, (assoc_L (++)).
  replace (length ws + length cells1) with (length (ws ++ (cell_widget imgs <$> cells1)))
    by by rewrite length_app, length_fmap.
  apply view_cell_widget.
Qed.

(** What is appended for the content of [cf] does not change how an earlier
    child of [cf] reads. *)
Lemma view_widget_app ws (l : store) cf j :
  masters_ok ws → cf < j → j < length ws →
  Forall (λ w, ∀ m, w_master w = Some m → m = cf ∨ length ws ≤ m) l →
  view_widget (ws ++ l) j = view_widget ws j.
Proof.
  intros Hok Hcf Hj Hl.
  assert (∀ m, cf < m → m < length ws → winfo_children (ws ++ l) m = winfo_children ws m)
    as Hch.
  { intros m ??. rewrite winfo_children_app, children_from_none, app_nil_r; [done|].
    eapply Forall_impl; [exact Hl|]. intros w Hw Hm. destruct (Hw m Hm); lia. }
  assert (∀ m k, k ∈ winfo_children ws m → m < k ∧ k < length ws) as Hlt.
  { intros m k (w & Hk & Ha & Hm)%elem_of_winfo_children.
    specialize (Hok k w Hk Ha). rewrite Hm in Hok. apply lookup_lt_Some in Hk. lia. }
  unfold view_widget. rewrite lookup_app_l, Hch by done.
  destruct (ws !! j) as [w|]; [|done]. destruct (w_class w); try done.
  destruct (winfo_children ws j) as [|btn [|imgs [|]]] eqn:Hj'; try done.
  destruct (Hlt j btn) as [? ?]; [rewrite Hj'; by left|].
  destruct (Hlt j imgs) as [? ?]; [rewrite Hj'; by right; left|].
  rewrite lookup_app_l, Hch by (done || lia).
  destruct (ws !! btn) as [b|]; [|done]. destruct (w_command b) as [[]|]; try done.
  f_equal. apply Forall_mapM_ext, Forall_forall. intros k [? ?]%Hlt.
  by apply view_cell_app_l.
Qed.

Lemma child_of_true m w : w_alive w = true → w_master w = Some m → child_of m w = true.
Proof. intros Ha Hm. unfold child_of. by rewrite Ha, bool_decide_eq_true_2. Qed.

Lemma child_of_false m w : w_master w ≠ Some m → child_of m w = false.
Proof. intros Hm. unfold child_of. by rewrite bool_decide_eq_false_2, andb_false_r. Qed.

Lemma cell_widget_master imgs c : w_master (cell_widget imgs c) = Some imgs.
Proof. by destruct c as [[[path|name] row] column]. Qed.

(** The children of the frame of a category and of its frame of images. *)
Lemma widget_block_children ws cf title text cat cells :
  masters_ok ws → cf < length ws →
  let ws' := ws ++ widget_block (length ws) cf (CategoryFrame title text cat cells) in
  winfo_children ws' (length ws) = [length ws + 1; length ws + 2] ∧
  winfo_children ws' (length ws + 2) = seq (length ws + 3) (length cells).
Proof.
  intros Hok Hcf ws'. subst ws'. rewrite !winfo_children_app.
  rewrite !winfo_children_new by (done || lia). cbn [widget_block app children_from].
  rewrite !(child_of_false _ (TkWidget _ (Some cf) _ _ _ _ _ _ _ _)) by (intros [= ?]; lia).
  rewrite !(child_of_false (length ws + 2)) by (intros [= ?]; lia).
  rewrite !child_of_true by done. cbn [app].
  replace (S (S (S (length ws)))) with (length ws + 3) by lia.
  rewrite children_from_cells, children_from_none.
  - split; [|done]. f_equal; [lia|f_equal; lia].
  - apply Forall_fmap, Forall_forall. intros c _. simpl. rewrite cell_widget_master.
    intros [= ?]. lia.
Qed.

(** A block reads back as the child it was rendered from. *)
Lemma view_widget_block ws cf x :
  masters_ok ws → cf < length ws →
  view_widget (ws ++ widget_block (length ws) cf x) (length ws) = Some x.
Proof.
  intros Hok Hcf. destruct x as [text|title text cat cells].
  { unfold view_widget. by rewrite lookup_app_r, Nat.sub_diag. }
  destruct (widget_block_children ws cf title text cat cells Hok Hcf) as [Hf Hi].
  unfold view_widget. rewrite Hf, Hi. rewrite !lookup_app_r by lia.
  rewrite Nat.sub_diag. replace (length ws + 1 - length ws) with 1 by lia.
  cbn [widget_block lookup list_lookup app w_class w_command w_text].
  change (ws ++ ?a :: ?b :: ?c :: ?l) with (ws ++ [a; b; c] ++ l).
  rewrite (assoc_L (++) ws).
  replace (length ws + 3) with (length (ws ++ widget_block (length ws) cf
    (CategoryFrame title text cat []))) by (rewrite length_app; simpl; lia).
  simpl. by rewrite view_cells.
Qed.

Lemma widget_block_masters base cf x :
  Forall (λ w, ∀ m, w_master w = Some m → m = cf ∨ base ≤ m) (widget_block base cf x).
Proof.
  destruct x as [text|title text cat cells]; simpl;
    repeat (constructor; [intros m [= <-]; lia|]); [done|].
  apply Forall_fmap, Forall_forall. intros c _ m. simpl. rewrite cell_widget_master.
  intros [= <-]. lia.
Qed.

Lemma widget_block_head base cf x :
  cf < base → children_from base (widget_block base cf x) cf = [base].
Proof.
  intros Hcf. destruct x as [text|title text cat cells]; cbn [widget_block app children_from].
  { by rewrite child_of_true. }
  rewrite child_of_true, !(child_of_false cf) by (done || intros [= ?]; lia).
  rewrite children_from_none; [done|].
  apply Forall_fmap, Forall_forall. intros c _. simpl. rewrite cell_widget_master.
  intros [= ?]. lia.
Qed.

(** The store after the widgets of one child have been appended. *)
Lemma widget_block_wf ws cf x :
  store_wf ws → alive ws cf = true → free_of ws cf ByGrid →
  let ws' := ws ++ widget_block (length ws) cf x in
  store_wf ws' ∧ alive ws' cf = true ∧ free_of ws' cf ByGrid.
Proof.
  intros Hwf Hcf Hfree ws'. subst ws'.
  pose proof (render_widget_wf cf x ws Hwf) as Hwf'.
  rewrite (render_widget_eq cf x ws (proj1 Hwf) Hcf Hfree) in Hwf'.
  split_and!; [done|by apply alive_app_true|].
  apply free_of_app; [done|]. pose proof (alive_lt _ _ Hcf).
  destruct x as [text|title text cat cells]; simpl; [by repeat constructor|].
  constructor; [done|]. do 2 (constructor; [intros [= ?]; lia|]).
  apply Forall_fmap, Forall_forall. intros [[[path|name] row] column] _ [= ?]; lia.
Qed.

Lemma view_snoc_block ws cf x pre :
  masters_ok ws → alive ws cf = true → view ws cf = Some pre →
  view (ws ++ widget_block (length ws) cf x) cf = Some (pre ++ [x]).
Proof.
  intros Hok Hcf Hview. pose proof (alive_lt _ _ Hcf) as Hlt. unfold view in *.
  rewrite winfo_children_app, widget_block_head by done.
  apply mapM_Some, Forall2_app.
  - apply mapM_Some in Hview. apply Forall2_same_length_lookup.
    split; [by eapply Forall2_length|]. intros i j y Hj Hy.
    rewrite <-(Forall2_lookup_lr _ _ _ _ _ _ Hview Hj Hy).
    apply list_elem_of_lookup_2, elem_of_winfo_children in Hj as (w & Hw & Ha & Hm).
    pose proof (Hok j w Hw Ha) as Hj'. rewrite Hm in Hj'. apply lookup_lt_Some in Hw.
    apply (view_widget_app _ _ cf); [done|lia|done|]. apply widget_block_masters.
  - repeat constructor. by apply view_widget_block.
Qed.

(** The rendered content reads back, after the children that were there. *)
Lemma view_blocks cf content ws pre :
  store_wf ws → alive ws cf = true → free_of ws cf ByGrid → view ws cf = Some pre →
  view (ws ++ blocks (length ws) cf content) cf = Some (pre ++ content).
Proof.
  revert ws pre. induction content as [|x content IH]; intros ws pre Hwf Hcf Hfree Hview.
  { by rewrite !app_nil_r. }
  destruct (widget_block_wf ws cf x Hwf Hcf Hfree) as (Hwf' & Hcf' & Hfree').
  simpl. rewrite (assoc_L (++)), <-length_app, cons_middle, (assoc_L (++) pre).
  apply IH; [done..|]. by apply view_snoc_block; [apply Hwf|..].
Qed.

(** ** The content frame after [show_results] *)

(** In a frame without a child [show_results] only creates widgets. *)
Lemma refresh_cleared cf content ws :
  winfo_children ws cf = [] → refresh cf content ws = render cf content ws.
Proof. intros Hch. unfold refresh. by rewrite (prog_bind_Ok _ _ ws ws tt) by (by rewrite clear_children_eq, Hch). Qed.

Lemma refresh_eq cf content ws :
  store_wf ws → alive ws cf = true →
  ∃ ws', refresh cf content ws = (ws', Ok tt) ∧
         store_wf ws' ∧ alive ws' cf = true ∧
         view ws' cf = Some content ∧
         take (S cf) ws' = take (S cf) ws.
Proof.
  intros Hwf Hcf.
  destruct (clear_children_spec cf ws Hwf) as (Hok & Hwf1 & Hch & Htake & _).
  destruct (clear_children cf ws) as [ws1 r] eqn:Hclear. simpl in *. subst r.
  assert (alive ws1 cf = true) as Hcf1.
  { unfold alive in *. rewrite <-(lookup_take_lt ws1 (S cf)) by lia.
    rewrite Htake, lookup_take_lt by lia. done. }
  assert (free_of ws1 cf ByGrid) as Hfree by (intros j; rewrite Hch; by intros ?%elem_of_nil).
  destruct (render_eq cf content ws1 Hwf1 Hcf1 Hfree) as [Hr Hwf2].
  exists (ws1 ++ blocks (length ws1) cf content). unfold refresh.
  rewrite (prog_bind_Ok _ _ _ _ _ Hclear).
  split_and!; [done|done|by apply alive_app_true| |].
  - apply (view_blocks cf content ws1 []); [done..|]. unfold view. by rewrite Hch.
  - rewrite take_app_le; [done|]. apply alive_lt in Hcf1. lia.
Qed.

(** ** Properties of the content frame *)

(** Rendering never raises: for any content, in a well-formed store
    whose frame is alive and has no child placed by [grid], the calls of
    [render] all return, the store stays well formed (no widget is created
    in a dead master, no master mixes [pack] and [grid]) and the store
    grows by exactly the widgets of the content. *)
Theorem render_total cf content ws :
  store_wf ws → alive ws cf = true → free_of ws cf ByGrid →
  render cf content ws = (ws ++ blocks (length ws) cf content, Ok tt) ∧
  store_wf (ws ++ blocks (length ws) cf content).
Proof. apply render_eq. Qed.

(** C14: the store implements the content of the presenter: after
    [show_results] on the store (the frame cleared, then the content
    rendered), for any content and any well-formed store in which the frame
    is alive, no call has raised, the store is well formed, the frame reads
    back as exactly this content, in its order, and the widgets created up
    to the frame are as they were. *)
Theorem refresh_view cf content ws :
  store_wf ws → alive ws cf = true →
  ∃ ws', refresh cf content ws = (ws', Ok tt) ∧
         store_wf ws' ∧ alive ws' cf = true ∧
         view ws' cf = Some content ∧
         take (S cf) ws' = take (S cf) ws.
Proof. apply refresh_eq. Qed.

(** ** The content frame of the example *)

Definition example_content : list widget :=
  [CategoryFrame "1080p (Blurry)" "👇 Download 1080p (Blurry) ZIP" "1080p (Blurry)"
     [(ThumbLabel "/pics/b.jpg", 0, 0); (NameLabel "b.jpg", 1, 0)];
   MessageLabel "No valid images found"].

Lemma window_content_frame_alive : alive window_store (content_frame main_window) = true.
Proof. by vm_compute. Qed.

Lemma render_total_witness :
  render 9 example_content window_store =
    (window_store ++ blocks (length window_store) 9 example_content, Ok tt) ∧
  store_wf (window_store ++ blocks (length window_store) 9 example_content).
Proof.
  apply (render_total 9 example_content window_store window_store_wf
           window_content_frame_alive).
  intros j. replace (winfo_children window_store 9) with (@nil nat) by (by vm_compute).
  intros []%elem_of_nil.
Defined.

Lemma refresh_view_witness :
  ∃ ws', refresh 9 example_content window_store = (ws', Ok tt) ∧
         store_wf ws' ∧ alive ws' 9 = true ∧
         view ws' 9 = Some example_content ∧
         take 10 ws' = take 10 window_store.
Proof.
  apply (refresh_view 9 example_content window_store window_store_wf
           window_content_frame_alive).
Defined.
