(* ===== verification/Typing.v ===== *)
(** * The classes of the widgets

    Tk accepts any widget as the master of another and any option on any
    class that has it; [main.py] uses each class for one thing.  Here this
    use is a typing of the store of [Window]: the main window is the only
    widget without a master and every other widget lives in a container (a
    frame, a labelled frame, a canvas or the main window); only buttons and
    scrollbars have a command, only labels an image, only canvases scroll
    commands; a widget is a window of a canvas exactly when its master is a
    canvas.  Typing is a boolean function, so it is checked on the window
    of lines 194-228 by evaluation.

    Typing does not look at which widgets are destroyed: [same_shape] is
    the equivalence of stores that differ only there, and typing respects
    it.

    The theorems: the window as built is typed; destroying the children of
    a frame, rendering a content in a frame and [show_results] on the
    widgets keep a typed store typed. *)

From Stdlib Require Import ZArith Lia.
From stdpp Require Import base tactics option list strings.
From S2P Require Import Prelude Presenter Window Render.

Implicit Types (ws : store) (w : tk_widget) (cls : widget_class).

(** ** Definitions *)

(** The classes whose widgets hold other widgets. *)
Definition container cls : bool :=
  match cls with
  | TkToplevel | TkFrame | TkLabelFrame | TkCanvas => true
  | TkLabel | TkButton | TkScrollbar => false
  end.

(** The class of the widget [i]. *)
Definition class_of ws (i : nat) : option widget_class := w_class <$> ws !! i.

(** The widget is used as its class allows: the main window has no master
    and every other widget has a container for master; only buttons and
    scrollbars have a command, only labels an image, only canvases scroll
    commands; a widget is a window of a canvas exactly when its master is a
    canvas. *)
Definition widget_typed ws w : bool :=
  match w_master w with
  | None => bool_decide (w_class w = TkToplevel)
  | Some m =>
      negb (bool_decide (w_class w = TkToplevel)) &&
      from_option container false (class_of ws m)
  end &&
  match w_command w with
  | Some _ => bool_decide (w_class w = TkButton ∨ w_class w = TkScrollbar)
  | None => true
  end &&
  match w_image w with
  | Some _ => bool_decide (w_class w = TkLabel)
  | None => true
  end &&
  match w_yscrollcommand w, w_xscrollcommand w with
  | None, None => true
  | _, _ => bool_decide (w_class w = TkCanvas)
  end &&
  match w_placement w with
  | Some (CanvasWindow _ _ _) => bool_decide (w_master w ≫= class_of ws = Some TkCanvas)
  | Some _ => negb (bool_decide (w_master w ≫= class_of ws = Some TkCanvas))
  | None => true
  end.

Definition store_typed ws : Prop := Forall (λ w, widget_typed ws w = true) ws.

(** The two stores hold the same widgets, up to which of them are
    destroyed. *)
Definition same_shape ws ws' : Prop := kill <$> ws = kill <$> ws'.

(** ** Lemmas *)

Lemma class_of_app_l ws l i : i < length ws → class_of (ws ++ l) i = class_of ws i.
Proof. intros Hi. unfold class_of. by rewrite lookup_app_l. Qed.

Lemma class_of_app_r ws l i : class_of (ws ++ l) (length ws + i) = class_of l i.
Proof. unfold class_of. by rewrite lookup_app_r, Nat.add_comm, Nat.add_sub by lia. Qed.

Lemma class_of_Some_lt ws i cls : class_of ws i = Some cls → i < length ws.
Proof.
  unfold class_of. intros (w & Hw & _)%fmap_Some. by eapply lookup_lt_Some.
Qed.

(** Typing looks at a store through the classes of its widgets. *)
Lemma widget_typed_ext ws ws' w :
  (∀ m, w_master w = Some m → class_of ws' m = class_of ws m) →
  widget_typed ws' w = widget_typed ws w.
Proof.
  intros Hm. unfold widget_typed. destruct (w_master w) as [m|]; [|done].
  simpl. by rewrite (Hm m).
Qed.

Lemma widget_typed_kill ws w : widget_typed ws (kill w) = widget_typed ws w.
Proof. done. Qed.

(** ** Stores of the same shape *)

#[export] Instance same_shape_equiv : Equivalence same_shape.
Proof. unfold same_shape. split; [by intros ?|by intros ???|by intros ??? -> ->]. Qed.

#[export] Instance class_of_proper : Proper (same_shape ==> (=) ==> (=)) class_of.
Proof.
  intros ws ws' Hs i ? <-. unfold class_of.
  assert (kill <$> ws !! i = kill <$> ws' !! i) as Hk by (by rewrite <-!list_lookup_fmap, Hs).
  destruct (ws !! i), (ws' !! i); simplify_eq/=; [by f_equal|done].
Qed.

#[export] Instance widget_typed_proper :
  Proper (same_shape ==> (=) ==> (=)) widget_typed.
Proof. intros ws ws' Hs w ? <-. apply widget_typed_ext. intros m _. by rewrite Hs. Qed.

(** A store that differs only by the widgets that are destroyed is typed
    if the other is. *)
#[export] Instance store_typed_proper : Proper (same_shape ==> iff) store_typed.
Proof.
  assert (∀ ws ws', same_shape ws ws' → store_typed ws → store_typed ws') as Himp.
  { intros ws ws' Hs Hws. unfold store_typed in *.
    apply (Forall_fmap kill (λ w, widget_typed ws' w = true)). rewrite <-Hs.
    apply Forall_fmap. eapply Forall_impl; [exact Hws|].
    intros w Hw. simpl. by rewrite widget_typed_kill, <-Hs. }
  intros ws ws' Hs. split; apply Himp; [done|by symmetry].
Qed.

Lemma fades_shape ws ws' : Forall2 fades ws ws' → same_shape ws' ws.
Proof.
  unfold same_shape.
  induction 1 as [|w w' ws ws' [->| ->] _ IH]; [done|..]; rewrite !fmap_cons; by f_equal.
Qed.

Lemma destroyed_shape i ws : same_shape (destroyed i ws) ws.
Proof. apply fades_shape, destroyed_fades. Qed.

(** The loop of lines 125-126 changes nothing but the widgets that are
    alive. *)
Lemma clear_children_shape frame ws : same_shape (clear_children frame ws).1 ws.
Proof.
  rewrite clear_children_eq. simpl. generalize (winfo_children ws frame) as l.
  intros l. revert ws. induction l as [|c l IH]; intros ws; [done|].
  cbn [foldl]. by rewrite IH, destroyed_shape.
Qed.

Lemma clear_children_typed frame ws :
  store_typed ws → store_typed (clear_children frame ws).1.
Proof. by rewrite clear_children_shape. Qed.

Lemma store_typed_app ws l :
  store_typed ws → Forall (λ w, widget_typed (ws ++ l) w = true) l →
  (∀ w m, w ∈ ws → w_master w = Some m → m < length ws) →
  store_typed (ws ++ l).
Proof.
  intros Hws Hl Hm. apply Forall_app. split; [|done].
  apply Forall_forall. intros w Hw. rewrite (widget_typed_ext ws).
  - by eapply Forall_forall in Hws.
  - intros m Hwm. apply class_of_app_l. by eapply Hm.
Qed.

Lemma store_typed_master ws w m :
  store_typed ws → w ∈ ws → w_master w = Some m → m < length ws.
Proof.
  intros Hws Hw Hm. eapply Forall_forall in Hws; [|done].
  unfold widget_typed in Hws. rewrite Hm in Hws.
  destruct (class_of ws m) as [cls|] eqn:Hc; [by eapply class_of_Some_lt|].
  simpl in Hws. by rewrite andb_false_r in Hws.
Qed.

(** ** The widgets of the content *)

Lemma widget_block_typed pre cf x post :
  class_of pre cf = Some TkFrame →
  Forall (λ w, widget_typed (pre ++ widget_block (length pre) cf x ++ post) w = true)
         (widget_block (length pre) cf x).
Proof.
  intros Hcf.
  assert (∀ l, class_of (pre ++ l) cf = Some TkFrame) as Hcf'.
  { intros l. rewrite class_of_app_l; [done|]. by eapply class_of_Some_lt. }
  destruct x as [text|title text cat cells]; cbn [widget_block].
  { constructor; [|done]. unfold widget_typed. simpl. by rewrite Hcf'. }
  set (whole := pre ++ _).
  assert (class_of whole (length pre) = Some TkLabelFrame) as Hframe.
  { unfold whole. by rewrite <-(Nat.add_0_r (length pre)), class_of_app_r. }
  assert (class_of whole (length pre + 2) = Some TkFrame) as Himgs.
  { unfold whole. by rewrite class_of_app_r. }
  assert (class_of whole cf = Some TkFrame) as Hcf'' by apply Hcf'.
  repeat (constructor; [unfold widget_typed; simpl; by rewrite ?Hcf'', ?Hframe|]).
  apply Forall_fmap, Forall_forall. intros [[[path|name] row] column] _;
    unfold widget_typed; simpl; by rewrite Himgs.
Qed.

Lemma blocks_typed cf content pre post :
  class_of pre cf = Some TkFrame →
  Forall (λ w, widget_typed (pre ++ blocks (length pre) cf content ++ post) w = true)
         (blocks (length pre) cf content).
Proof.
  revert pre. induction content as [|x content IH]; intros pre Hcf; [done|].
  cbn [blocks]. apply Forall_app. split.
  - rewrite <-(assoc_L (++)). by apply widget_block_typed.
  - rewrite <-(assoc_L (++)), (assoc_L (++) pre), <-length_app. apply IH.
    rewrite class_of_app_l; [done|]. by eapply class_of_Some_lt.
Qed.

(** Rendering in a frame keeps a typed store typed. *)
Lemma render_typed cf content ws :
  store_wf ws → alive ws cf = true → free_of ws cf ByGrid →
  class_of ws cf = Some TkFrame → store_typed ws →
  store_typed (render cf content ws).1.
Proof.
  intros Hwf Hcf Hfree Hcls Hws.
  destruct (render_eq cf content ws Hwf Hcf Hfree) as [-> _]. simpl.
  apply store_typed_app; [done| |by intros; eapply store_typed_master].
  pose proof (blocks_typed cf content ws [] Hcls) as Hb. by rewrite app_nil_r in Hb.
Qed.

Lemma class_of_clear_children frame ws i :
  class_of (clear_children frame ws).1 i = class_of ws i.
Proof. by rewrite clear_children_shape. Qed.

(** [show_results] on the widgets keeps a typed store typed. *)
Lemma refresh_typed cf content ws :
  store_wf ws → alive ws cf = true → class_of ws cf = Some TkFrame →
  store_typed ws → store_typed (refresh cf content ws).1.
Proof.
  intros Hwf Hcf Hcls Hws.
  destruct (clear_children_spec cf ws Hwf) as (Hok & Hwf1 & Hch & Htake & _).
  pose proof (clear_children_typed cf ws Hws) as Hws1.
  pose proof (class_of_clear_children cf ws cf) as Hcls1.
  destruct (clear_children cf ws) as [ws1 r] eqn:Hclear. simpl in *. subst r.
  unfold refresh. rewrite (prog_bind_Ok _ _ _ _ _ Hclear).
  apply render_typed; [done| | |congruence|done].
  - unfold alive in *. rewrite <-(lookup_take_lt ws1 (S cf)) by lia.
    by rewrite Htake, lookup_take_lt by lia.
  - intros j. rewrite Hch. by intros ?%elem_of_nil.
Qed.

(** The window of lines 194-228 is typed. *)
Lemma window_store_typed : store_typed window_store.
Proof. apply (bool_decide_unpack _). by vm_compute. Qed.

(** ** Properties of the classes *)

(** Type preservation: [show_results] on the widgets (lines 123-190)
    keeps the store typed: in a typed, well-formed store whose content
    frame is a live frame, after the frame is cleared and the content
    rendered every widget still has a container for master, commands are on
    buttons, images on labels, and no widget of the content is a window of a
    canvas; no call has raised. *)
Theorem refresh_keeps_typed cf content ws :
  store_wf ws → alive ws cf = true → class_of ws cf = Some TkFrame →
  store_typed ws →
  (refresh cf content ws).2 = Ok tt ∧ store_typed (refresh cf content ws).1.
Proof.
  intros Hwf Hcf Hcls Hws. split; [|by apply refresh_typed].
  by destruct (refresh_eq cf content ws Hwf Hcf) as (ws' & -> & _).
Qed.

Lemma refresh_keeps_typed_witness :
  (refresh (content_frame main_window) example_content window_store).2 = Ok tt ∧
  store_typed (refresh (content_frame main_window) example_content window_store).1.
Proof.
  apply refresh_keeps_typed;
    [apply window_store_wf|by vm_compute|by vm_compute|apply window_store_typed].
Defined.
