(* ===== verification/Exporter.v ===== *)
(** * Archive Exporter

    [download_category] of [main.py] (lines 102-120), the handler of the
    button of a category.  A category that is absent or empty gives a
    warning; an empty answer of the file dialog ends the handler; otherwise
    the files of the category are copied into a directory named after the
    category inside a fresh temporary directory, the temporary directory is
    packed into a ZIP archive, the temporary directory is removed whether or
    not the block raised, and a box reports the success.

    The handler runs on a [world]: the file system and the message boxes
    shown so far.  What the user answers to the file dialog ([save_path],
    empty when the dialog is cancelled) and the name that the system picks
    for the temporary directory ([tmp]) are inputs of the handler.

    The theorems: the two early exits; the frame of the handler (it changes
    no path but the archive and the directories above it that were missing,
    which [shutil.make_archive] creates; it leaves no staging directory; it
    keeps the file system consistent; and when it raises it changes nothing
    and shows nothing); the contents of the archive; where the archive is
    written. *)

From Stdlib Require Import Ascii String.
From stdpp Require Import base tactics option list strings gmap.
From S2P Require Import Prelude PyDict PyPath PathNorm FileSys Consistent.

(** ** The world of the handler *)

(** A message box. *)
Inductive dialog : Type :=
| ShowWarning (title message : string)
| ShowInfo (title message : string).

#[export] Instance dialog_eq_dec : EqDecision dialog.
Proof. solve_decision. Defined.

Record world : Type := World {
  world_fs : gmap string node;
  world_dialogs : list dialog;
}.

(** [messagebox.showwarning] and [messagebox.showinfo]. *)
Definition messagebox (d : dialog) : prog world unit :=
  modify_state (λ w, World (world_fs w) (world_dialogs w ++ [d])).

(** A statement on the file system, as a statement on the world. *)
Definition on_fs {A : Type} (m : prog (gmap string node) A) : prog world A := fun w =>
  let '(s, r) := m (world_fs w) in (World s (world_dialogs w), r).

(** [with tempfile.TemporaryDirectory() as tmp: body]: the directory is
    made, the body runs, and the directory is removed on every exit of the
    body. *)
Definition TemporaryDirectory {A : Type} (tmp : string)
    (body : string → prog (gmap string node) A) : prog (gmap string node) A :=
  mkdtemp tmp ≫= λ tmp, finally (body tmp) (rmtree tmp).

(** ** The code *)

(** The path of the archive that line 118 writes: [make_archive] makes
    the name it is given absolute and adds the extension. *)
Definition archive_path (save_path : string) : string :=
  abspath (str_replace ".zip" "" save_path) +:+ ".zip".

(** The conditions on the answer of the dialog and on the name of the
    temporary directory under which an export writes the archive in a
    directory that exists: an answer that is not empty, a temporary
    directory that can be made, and an archive path whose directory exists,
    that is not a directory and not in the temporary directory. *)
Definition target_ready (s : gmap string node) (save_path tmp : string) : Prop :=
  save_path ≠ "" ∧
  tmp ≠ "" ∧ endswith_sep tmp = false ∧ fs_fresh s tmp ∧
  forallb (isdir s) (ancestors tmp) = true ∧
  forallb (isdir s) (ancestors (archive_path save_path)) = true ∧
  s !! archive_path save_path ≠ Some Dir ∧
  archive_path save_path ≠ tmp ∧ is_under tmp (archive_path save_path) = false.

(** The same conditions without the directory of the archive: in a
    consistent file system it is enough that no file is in the place of a
    directory above the archive. *)
Definition target_writable (s : gmap string node) (save_path tmp : string) : Prop :=
  save_path ≠ "" ∧
  tmp ≠ "" ∧ endswith_sep tmp = false ∧ fs_fresh s tmp ∧
  forallb (isdir s) (ancestors tmp) = true ∧
  fs_ok s ∧
  Forall (λ dir, isfile s dir = false) (ancestors (archive_path save_path)) ∧
  s !! archive_path save_path ≠ Some Dir ∧
  archive_path save_path ≠ tmp ∧ is_under tmp (archive_path save_path) = false.

(** The conditions under which the export of a category with the files
    [files] runs to its end: a category named without a separator, files
    that are still there, and a target as above. *)
Definition export_ready (s : gmap string node) (cat_name save_path tmp : string)
    (files : list (string * string)) : Prop :=
  files ≠ [] ∧ cat_name ≠ "" ∧ has_sep cat_name = false ∧
  Forall (λ file, isfile s file.2 = true) files ∧
  target_ready s save_path tmp.

#[export] Instance target_ready_dec s save_path tmp :
  Decision (target_ready s save_path tmp).
Proof. unfold target_ready. apply _. Defined.

#[export] Instance target_writable_dec s save_path tmp :
  Decision (target_writable s save_path tmp).
Proof. unfold target_writable. apply _. Defined.

#[export] Instance export_ready_dec s cat_name save_path tmp files :
  Decision (export_ready s cat_name save_path tmp files).
Proof. unfold export_ready. apply _. Defined.

Section exporter.
Context `{Archiver}.
Implicit Types (s : gmap string node) (w : world).
Implicit Types (categorized : list (string * list (string * string))).
Implicit Types (files : list (string * string)).
Implicit Types (cat_name save_path tmp : string).

(** Line 103: [cat_name not in categorized or not categorized[cat_name]]. *)
Definition no_data categorized cat_name : outcome bool :=
  if negb (dict_contains cat_name categorized) then Ok true
  else dict_index cat_name categorized ≫= λ files, Ok (bool_decide (files = [])).

(** Lines 114-118: the body of the [with] block. *)
Definition stage_and_archive categorized cat_name save_path tmp :
    prog (gmap string node) string :=
  let cat_dir := join tmp cat_name in
  makedirs cat_dir ≫= λ _,
  read_state (λ _, dict_index cat_name categorized) ≫= λ files,
  for_each (λ file, shutil_copy file.2 cat_dir) files ≫= λ _,
  make_archive (str_replace ".zip" "" save_path) tmp.

(** [def download_category(cat_name)], lines 102-120. *)
Definition download_category categorized cat_name save_path tmp : prog world unit :=
  read_state (λ _, no_data categorized cat_name) ≫= λ missing : bool,
  if missing then messagebox (ShowWarning "No Data" ("No images in " +:+ cat_name))
  else if bool_decide (save_path = "") then mret tt
  else
    on_fs (TemporaryDirectory tmp (stage_and_archive categorized cat_name save_path))
      ≫= λ _,
    messagebox (ShowInfo "Success" (cat_name +:+ " saved as " +:+ basename save_path)).

End exporter.

(** ** The staging directory *)

Section staging.
Context (s : gmap string node) (tmp cat_name : string).
Context (Htmp : tmp ≠ "") (Hend : endswith_sep tmp = false).
Context (Hfresh : fs_fresh s tmp).
Context (Hanc : forallb (isdir s) (ancestors tmp) = true).
Context (Hcat : cat_name ≠ "") (Hsep : has_sep cat_name = false).
Implicit Types (t : gmap string node) (file : string * string).
Implicit Types (files : list (string * string)).

(** The bytes of the file at [path]. *)
Definition file_data (path : string) : string :=
  match s !! path with Some (File data) => data | _ => "" end.

(** The entry of a file of the category in the archive: its base name in
    the directory of the category, with its bytes. *)
Definition member file : string * node :=
  (cat_name +:+ "/" +:+ basename file.2, File (file_data file.2)).

(** The tree that is archived, by names relative to the temporary
    directory: the directory of the category and the entries of the files,
    a later file taking the place of an earlier one of the same base name. *)
Definition staged_tree files : gmap string node :=
  foldl (λ t file, <[(member file).1 := (member file).2]> t) {[cat_name := Dir]} files.

(** The path of the name [r] in the temporary directory. *)
Definition in_tmp (r : string) : string := tmp +:+ "/" +:+ r.

#[local] Instance in_tmp_inj : Inj (=) (=) in_tmp.
Proof. by intros r1 r2 ?%app_inv_head_s%app_inv_head_s. Qed.

(** The file system while the files are staged: the tree [t] under [tmp]. *)
Definition staged_fs t : gmap string node := kmap in_tmp t ∪ <[tmp := Dir]> s.

(** The tree holds the directory of the category and no other directory. *)
Definition tree_ok t : Prop :=
  t !! cat_name = Some Dir ∧ map_Forall (λ r n, r = cat_name ∨ n ≠ Dir) t.

Lemma in_tmp_under r : tmp ≠ in_tmp r ∧ is_under tmp (in_tmp r) = true.
Proof.
  split; [|apply is_under_child]. intros Heq.
  pose proof (is_under_child tmp r) as Hu. unfold in_tmp in Heq.
  rewrite <-Heq, is_under_self in Hu. done.
Qed.

Lemma staged_fs_under t r : staged_fs t !! in_tmp r = t !! r.
Proof.
  unfold staged_fs. destruct (in_tmp_under r) as [Hne Hu].
  destruct (t !! r) as [n|] eqn:Ht.
  - apply lookup_union_Some_l. rewrite (lookup_kmap in_tmp). exact Ht.
  - apply lookup_union_None. rewrite (lookup_kmap in_tmp), lookup_insert_ne by done.
    split; [done|]. apply (fs_fresh_lookup s tmp); auto.
Qed.

Lemma staged_fs_outside t p :
  p ≠ tmp → is_under tmp p = false → staged_fs t !! p = s !! p.
Proof.
  intros Hp Hu. unfold staged_fs. rewrite lookup_union_r.
  - by rewrite lookup_insert_ne.
  - apply lookup_kmap_None; [apply _|]. intros r ->.
    by rewrite (proj2 (in_tmp_under r)) in Hu.
Qed.

Lemma staged_fs_tmp t : staged_fs t !! tmp = Some Dir.
Proof.
  unfold staged_fs. rewrite lookup_union_r, lookup_insert_eq; [done|].
  apply lookup_kmap_None; [apply _|]. intros r Hr.
  by destruct (in_tmp_under r).
Qed.

Lemma staged_fs_insert t r n : <[in_tmp r := n]> (staged_fs t) = staged_fs (<[r := n]> t).
Proof. unfold staged_fs. by rewrite (kmap_insert in_tmp), insert_union_l. Qed.

Lemma staged_fs_agree t : agree_outside tmp s (staged_fs t).
Proof. intros p ??. by apply staged_fs_outside. Qed.


Lemma file_data_isfile p : isfile s p = true → s !! p = Some (File (file_data p)).
Proof.
  intros [data Hp]%isfile_true. unfold file_data. by rewrite Hp.
Qed.

(** A file that exists is not in the fresh directory. *)
Lemma isfile_outside p : isfile s p = true → p ≠ tmp ∧ is_under tmp p = false.
Proof.
  intros [data Hp]%isfile_true. by apply (Hfresh p (File data)).
Qed.

Lemma cat_dir_join b :
  has_sep b = false →
  join (tmp +:+ "/" +:+ cat_name) b = in_tmp (cat_name +:+ "/" +:+ b).
Proof.
  intros Hb. unfold in_tmp. rewrite join_relative.
  - by rewrite !app_assoc_s.
  - by destruct tmp.
  - by apply endswith_sep_child.
  - by apply startswith_sep_no_sep.
Qed.

Lemma tree_ok_insert t file :
  tree_ok t → tree_ok (<[(member file).1 := (member file).2]> t).
Proof.
  intros [Hdir Hall]. assert ((member file).1 ≠ cat_name) as Hne.
  { unfold member. simpl. intros Heq. apply (f_equal String.length) in Heq.
    rewrite !app_length_s in Heq. simpl in Heq. lia. }
  split; [by rewrite lookup_insert_ne|].
  apply map_Forall_insert_2; [by right|done].
Qed.

Lemma tmp_not_root : all_sep tmp = false.
Proof. by apply all_sep_no_end. Qed.

(** What is a directory before the export is one while the files are
    staged. *)
Lemma isdir_staged t dir : isdir s dir = true → isdir (staged_fs t) dir = true.
Proof.
  rewrite !isdir_true. intros Hdir. destruct (Hfresh dir Dir Hdir) as [Hne Hout].
  by rewrite staged_fs_outside.
Qed.

(** The directories above a staged file exist. *)
Lemma ancestors_staged t b :
  tree_ok t → has_sep b = false →
  forallb (isdir (staged_fs t)) (ancestors (in_tmp (cat_name +:+ "/" +:+ b))) = true.
Proof.
  intros [Hdir _] Hb. unfold in_tmp.
  replace (tmp +:+ "/" +:+ cat_name +:+ "/" +:+ b)
    with ((tmp +:+ "/" +:+ cat_name) +:+ "/" +:+ b) by by rewrite !app_assoc_s.
  rewrite !ancestors_child, !forallb_app;
    [|apply tmp_not_root|done|by rewrite all_sep_app, tmp_not_root|done].
  simpl. rewrite !andb_true_r. apply andb_true_iff. split; [apply andb_true_iff; split|].
  - apply forallb_Forall. apply forallb_Forall in Hanc.
    eapply Forall_impl; [exact Hanc|]. apply isdir_staged.
  - apply isdir_true, staged_fs_tmp.
  - apply isdir_true. by rewrite <-Hdir, <-(staged_fs_under t cat_name).
Qed.

(** One copy into the directory of the category. *)
Lemma shutil_copy_staged t file :
  tree_ok t → isfile s file.2 = true →
  shutil_copy file.2 (in_tmp cat_name) (staged_fs t) =
    (staged_fs (<[(member file).1 := (member file).2]> t), Ok tt).
Proof.
  intros [Hdir Hall] Hfile. destruct (isfile_outside _ Hfile) as [Hne Hout].
  rewrite <-staged_fs_insert. unfold member at 1 2. cbn [fst snd].
  rewrite <-cat_dir_join by iqc.
  apply shutil_copy_into.
  - apply isdir_true. by rewrite <-Hdir, <-(staged_fs_under t cat_name).
  - rewrite staged_fs_outside by done. by apply file_data_isfile.
  - rewrite cat_dir_join by iqc. intros Heq.
    rewrite <-Heq in Hout. by rewrite (proj2 (in_tmp_under _)) in Hout.
  - rewrite cat_dir_join by iqc. apply ancestors_staged; [done|iqc].
  - rewrite cat_dir_join, staged_fs_under by iqc.
    intros Ht. destruct (Hall _ _ Ht) as [Heq|]; [|done].
    apply (f_equal String.length) in Heq. rewrite !app_length_s in Heq.
    simpl in Heq. lia.
Qed.

(** The loop of line 116 when every file of the category can be read. *)
Lemma copy_loop_staged files t :
  tree_ok t → Forall (λ file, isfile s file.2 = true) files →
  for_each (λ file, shutil_copy file.2 (in_tmp cat_name)) files (staged_fs t) =
    (staged_fs (foldl (λ t file, <[(member file).1 := (member file).2]> t) t files),
     Ok tt).
Proof.
  intros Ht Hfiles. revert t Ht.
  induction Hfiles as [|file files Hfile _ IH]; intros t Ht; [done|].
  rewrite (for_each_cons_Ok (λ file, shutil_copy file.2 (in_tmp cat_name)) file files
             _ _ (shutil_copy_staged t file Ht Hfile)).
  by apply IH, tree_ok_insert.
Qed.

(** The loop in general: it changes nothing outside the temporary
    directory. *)
Lemma copy_loop_agree files s' :
  agree_outside tmp s s' →
  agree_outside tmp s
    (for_each (λ file, shutil_copy file.2 (in_tmp cat_name)) files s').1.
Proof.
  apply (for_each_preserves (agree_outside tmp s)). clear s'.
  intros file s' Hs'. etrans; [exact Hs'|]. intros p Hp Hu.
  destruct (shutil_copy _ _ s') as [s'' o] eqn:Hcopy. simpl.
  apply (shutil_copy_frame _ _ _ _ _ _ Hcopy).
  - intros ->. by rewrite (proj2 (in_tmp_under _)) in Hu.
  - rewrite cat_dir_join by iqc. intros ->.
    by rewrite (proj2 (in_tmp_under _)) in Hu.
Qed.

(** The loop stops with an exception at a file that cannot be read. *)
Lemma copy_loop_unreadable files s' :
  agree_outside tmp s s' →
  Exists (λ file, isfile s file.2 = false ∧ file.2 ≠ tmp ∧
                  is_under tmp file.2 = false) files →
  raised (for_each (λ file, shutil_copy file.2 (in_tmp cat_name)) files s').2 = true.
Proof.
  intros Hs' Hex. revert s' Hs'.
  induction Hex as [file files (Hfile & Hne & Hout)|file files _ IH]; intros s' Hs'.
  - destruct (shutil_copy_unreadable s' file.2 (in_tmp cat_name)) as [e He].
    { unfold isfile in *. by rewrite Hs'. }
    by rewrite (for_each_cons_Raise (λ file, shutil_copy file.2 (in_tmp cat_name))
                 file files _ _ _ He).
  - pose proof (copy_loop_agree [file] s' Hs') as Hstep.
    simpl in *. unfold mbind, prog_bind in *.
    destruct (shutil_copy _ _ s') as [s'' [[]|e]]; [by apply IH|done].
Qed.

(** The directory of the category is made in the new temporary
    directory. *)
Lemma makedirs_staged :
  makedirs (join tmp cat_name) (<[tmp := Dir]> s) = (staged_fs {[cat_name := Dir]}, Ok tt).
Proof.
  destruct (is_under_join tmp cat_name Htmp Hend) as [-> Hu];
    [by apply startswith_sep_no_sep|].
  rewrite makedirs_child; try done.
  - unfold staged_fs. by rewrite (kmap_singleton in_tmp), <-insert_union_singleton_l.
  - apply tmp_not_root.
  - apply forallb_forall. intros d Hd. apply isdir_insert_Dir.
    by eapply forallb_forall in Hanc.
  - apply isdir_true, lookup_insert_eq.
  - rewrite lookup_insert_ne by apply in_tmp_under.
    apply (fs_fresh_lookup s tmp); auto.
Qed.

(** The file system with the two new directories is consistent. *)
Lemma fs_ok_staged : fs_ok s → fs_ok (staged_fs {[cat_name := Dir]}).
Proof.
  intros Hok. pose proof (fs_ok_makedirs (join tmp cat_name) (<[tmp := Dir]> s)) as Hmk.
  rewrite makedirs_staged in Hmk. apply Hmk, fs_ok_insert; auto.
Qed.

Lemma tree_ok_singleton : tree_ok {[cat_name := Dir]}.
Proof.
  split; [apply lookup_singleton_eq|]. apply map_Forall_singleton. by left.
Qed.

(** An archive of a file system that holds the tree [t] under [tmp]. *)
Lemma archive_entries_tree t (s' : gmap string node) :
  t !! "" = None → (∀ r, s' !! in_tmp r = t !! r) →
  list_to_map (archive_entries s' tmp) = t ∧ NoDup (archive_entries s' tmp).*1.
Proof.
  intros Ht Hs'. split; [|apply NoDup_archive_entries].
  apply map_eq. intros r. rewrite archive_entries_lookup.
  case_decide as Hr; [by subst|]. apply Hs'.
Qed.

(** The archive of the staged tree holds the tree. *)
Lemma archive_entries_staged t :
  t !! "" = None →
  list_to_map (archive_entries (staged_fs t) tmp) = t ∧
  NoDup (archive_entries (staged_fs t) tmp).*1.
Proof. intros Ht. apply archive_entries_tree; [done|apply staged_fs_under]. Qed.

(** The staged files in a consistent file system. *)
Lemma fs_ok_staged_tree files :
  fs_ok s → Forall (λ file, isfile s file.2 = true) files →
  fs_ok (staged_fs (staged_tree files)).
Proof.
  intros Hok Hfiles.
  pose proof (for_each_preserves fs_ok
                (λ file : string * string, shutil_copy file.2 (in_tmp cat_name))
                files (staged_fs {[cat_name := Dir]})) as Hloop.
  rewrite copy_loop_staged in Hloop by (done || apply tree_ok_singleton).
  apply Hloop; [|by apply fs_ok_staged]. intros file s'. apply fs_ok_shutil_copy.
Qed.

(** The archive can be written from the staging state when it can be
    written outside the temporary directory. *)
Lemma archive_ready_staged t base_name :
  Forall (λ dir, isfile s dir = false) (ancestors (abspath base_name +:+ ".zip")) →
  s !! (abspath base_name +:+ ".zip") ≠ Some Dir →
  abspath base_name +:+ ".zip" ≠ tmp →
  is_under tmp (abspath base_name +:+ ".zip") = false →
  archive_ready (staged_fs t) base_name tmp.
Proof.
  intros Hfile Hnd Hne Hout. split_and!.
  - apply isdir_true, staged_fs_tmp.
  - rewrite Forall_forall in Hfile |- *. intros a Ha.
    destruct (ancestors_outside tmp _ a Hne Hout Ha). unfold isfile.
    rewrite staged_fs_outside by done. by apply Hfile.
  - by rewrite staged_fs_outside.
Qed.

Lemma mkdirs_staged_under dirs t r :
  Forall (λ a, a ≠ tmp ∧ is_under tmp a = false) dirs →
  mkdirs dirs (staged_fs t) !! in_tmp r = t !! r.
Proof.
  intros Hdirs. rewrite mkdirs_lookup, decide_False; [apply staged_fs_under|].
  intros Hin. rewrite Forall_forall in Hdirs. destruct (Hdirs _ Hin) as [_ Hout].
  by rewrite (proj2 (in_tmp_under r)) in Hout.
Qed.

Lemma staged_tree_no_empty files : staged_tree files !! "" = None.
Proof.
  unfold staged_tree.
  assert (({[cat_name := Dir]} : gmap string node) !! "" = None) as Hinit
    by (by apply lookup_singleton_None).
  revert Hinit. generalize ({[cat_name := Dir]} : gmap string node).
  induction files as [|file files IH]; intros t Ht; simpl; [done|].
  apply IH. rewrite lookup_insert_ne; [done|]. unfold member. simpl.
  by destruct cat_name.
Qed.

End staging.

#[export] Hint Resolve staged_fs_agree tree_ok_singleton : iqc.

(** ** The archived tree *)

Section tree.
Context (s : gmap string node) (cat_name : string).
Implicit Types (file : string * string) (files : list (string * string)).

Lemma staged_tree_snoc files file :
  staged_tree s cat_name (files ++ [file]) =
    <[(member s cat_name file).1 := (member s cat_name file).2]>
      (staged_tree s cat_name files).
Proof. unfold staged_tree. by rewrite foldl_app. Qed.

Lemma member_key_inj file1 file2 :
  (member s cat_name file1).1 = (member s cat_name file2).1 ↔
  basename file1.2 = basename file2.2.
Proof.
  unfold member. simpl. split; [|by intros ->].
  by intros ?%app_inv_head_s%app_inv_head_s.
Qed.

Lemma member_key_ne file : (member s cat_name file).1 ≠ cat_name.
Proof.
  unfold member. simpl. intros Heq. apply (f_equal String.length) in Heq.
  rewrite !app_length_s in Heq. simpl in Heq. lia.
Qed.

(** Under each base name the tree holds the bytes of the last file of the
    category with that base name. *)
Lemma staged_tree_last_lookup l1 file l2 :
  Forall (λ f, basename f.2 ≠ basename file.2) l2 →
  staged_tree s cat_name (l1 ++ file :: l2) !! (cat_name +:+ "/" +:+ basename file.2) =
    Some (File (file_data s file.2)).
Proof.
  change (cat_name +:+ "/" +:+ basename file.2) with (member s cat_name file).1.
  change (File (file_data s file.2)) with (member s cat_name file).2.
  induction l2 as [|f l2 IH] using rev_ind; intros Hl2.
  - rewrite staged_tree_snoc. apply lookup_insert_eq.
  - apply Forall_app in Hl2 as [Hl2 [Hf _]%Forall_cons].
    rewrite app_comm_cons, (assoc_L (++)), staged_tree_snoc.
    rewrite lookup_insert_ne by (by rewrite member_key_inj). auto.
Qed.

(** When the base names are distinct the tree holds one entry per file. *)
Lemma staged_tree_NoDup files :
  NoDup (basename <$> files.*2) →
  NoDup ((cat_name, Dir) :: (member s cat_name <$> files)).*1 ∧
  staged_tree s cat_name files =
    list_to_map ((cat_name, Dir) :: (member s cat_name <$> files)).
Proof.
  induction files as [|file files IH] using rev_ind; intros Hnd.
  - split; [apply NoDup_singleton|]. unfold staged_tree. simpl.
    by rewrite insert_empty.
  - rewrite !fmap_app, NoDup_app in Hnd. destruct Hnd as (Hfiles & Hfile & _).
    destruct (IH Hfiles) as [IH1 IH2].
    assert ((member s cat_name file).1 ∉
              ((cat_name, Dir) :: (member s cat_name <$> files)).*1) as Hnew.
    { rewrite fmap_cons, not_elem_of_cons. split; [apply member_key_ne|].
      rewrite <-list_fmap_compose.
      intros (f & Hk%member_key_inj & Hf)%list_elem_of_fmap.
      apply (Hfile (basename f.2)); [|simpl; rewrite <-Hk; left].
      rewrite <-list_fmap_compose. apply list_elem_of_fmap. eauto. }
    rewrite fmap_app. change (member s cat_name <$> [file]) with [member s cat_name file].
    rewrite app_comm_cons. split.
    + rewrite fmap_app. apply NoDup_app. split_and!; [done| |apply NoDup_singleton].
      intros k Hk ->%list_elem_of_singleton. done.
    + rewrite staged_tree_snoc, IH2.
      destruct (member s cat_name file) as [k v]. by rewrite list_to_map_snoc.
Qed.

Lemma staged_tree_entries files (entries : list (string * node)) :
  NoDup (basename <$> files.*2) → NoDup entries.*1 →
  list_to_map entries = staged_tree s cat_name files →
  entries ≡ₚ (cat_name, Dir) :: (member s cat_name <$> files).
Proof.
  intros [Hnd Heq]%staged_tree_NoDup Hent Hmap.
  apply (list_to_map_inj (M:=gmap string)); [done..|]. by rewrite Hmap.
Qed.

End tree.

(** ** The handler *)

Section handler.
Context `{Archiver}.
Implicit Types (s : gmap string node) (w : world).
Implicit Types (d : list (string * list (string * string))).
Implicit Types (files : list (string * string)).
Implicit Types (cat_name save_path tmp : string).

Lemma no_data_eq d cat_name :
  no_data d cat_name =
    Ok (match dict_get cat_name d with Some (_ :: _) => false | _ => true end).
Proof.
  unfold no_data, dict_contains, dict_index.
  by destruct (dict_get cat_name d) as [[|file files]|].
Qed.

(** The handler by cases on the category and on the answer of the dialog. *)
Lemma download_category_cases d cat_name save_path tmp w :
  download_category d cat_name save_path tmp w =
    match dict_get cat_name d with
    | Some (_ :: _) =>
        if bool_decide (save_path = "") then (w, Ok tt)
        else
          match TemporaryDirectory tmp (stage_and_archive d cat_name save_path)
                  (world_fs w) with
          | (s', Ok _) =>
              (World s' (world_dialogs w ++
                 [ShowInfo "Success" (cat_name +:+ " saved as " +:+ basename save_path)]),
               Ok tt)
          | (s', Raise e) => (World s' (world_dialogs w), Raise e)
          end
    | _ =>
        (World (world_fs w)
           (world_dialogs w ++ [ShowWarning "No Data" ("No images in " +:+ cat_name)]),
         Ok tt)
    end.
Proof.
  unfold download_category, read_state, mbind, prog_bind. rewrite no_data_eq.
  destruct (dict_get cat_name d) as [[|file files]|]; try done.
  case_bool_decide; [done|]. unfold on_fs.
  by destruct (TemporaryDirectory _ _ _) as [s' [t|e]].
Qed.

(** The block of the temporary directory, once the directory is made: the
    loop of the copies from the state with the directory of the category,
    then the archive. *)
Lemma stage_and_archive_eq d cat_name save_path tmp s files :
  tmp ≠ "" → endswith_sep tmp = false → fs_fresh s tmp →
  forallb (isdir s) (ancestors tmp) = true → has_sep cat_name = false →
  dict_get cat_name d = Some files →
  stage_and_archive d cat_name save_path tmp (<[tmp := Dir]> s) =
    match for_each (λ file, shutil_copy file.2 (in_tmp tmp cat_name)) files
            (staged_fs s tmp {[cat_name := Dir]}) with
    | (s3, Ok _) => make_archive (str_replace ".zip" "" save_path) tmp s3
    | (s3, Raise e) => (s3, Raise e)
    end.
Proof.
  intros Htmp Hend Hfresh Hanc Hsep Hd. unfold stage_and_archive.
  assert (makedirs (join tmp cat_name) (<[tmp := Dir]> s) =
            (staged_fs s tmp {[cat_name := Dir]}, Ok tt)) as Hmk
    by by apply makedirs_staged.
  prog_step Hmk. rewrite read_state_bind.
  unfold dict_index. rewrite Hd.
  by destruct (is_under_join tmp cat_name Htmp Hend) as [-> _];
    [apply startswith_sep_no_sep|].
Qed.

Lemma stage_and_archive_cases d cat_name save_path tmp s files :
  tmp ≠ "" → endswith_sep tmp = false → fs_fresh s tmp →
  forallb (isdir s) (ancestors tmp) = true →
  cat_name ≠ "" → has_sep cat_name = false →
  dict_get cat_name d = Some files →
  ∃ s3, agree_outside tmp s s3 ∧ (fs_ok s → fs_ok s3) ∧
    (stage_and_archive d cat_name save_path tmp (<[tmp := Dir]> s) =
       make_archive (str_replace ".zip" "" save_path) tmp s3 ∨
     ∃ e, stage_and_archive d cat_name save_path tmp (<[tmp := Dir]> s) = (s3, Raise e)).
Proof.
  intros Htmp Hend Hfresh Hanc Hcat Hsep Hd.
  rewrite (stage_and_archive_eq d cat_name save_path tmp s files) by done.
  set (copy := λ file : string * string, shutil_copy file.2 (in_tmp tmp cat_name)).
  assert (agree_outside tmp s
            (for_each copy files (staged_fs s tmp {[cat_name := Dir]})).1) as Hagree
    by (apply copy_loop_agree; iqc).
  assert (fs_ok s →
          fs_ok (for_each copy files (staged_fs s tmp {[cat_name := Dir]})).1) as Hok.
  { intros Hok. apply (for_each_preserves fs_ok); [|by apply fs_ok_staged].
    intros file s'. apply fs_ok_shutil_copy. }
  destruct (for_each _ files _) as [s3 [[]|e]]; exists s3; eauto.
Qed.

(** What the block of the temporary directory does to a consistent file
    system, whatever happens in it: when it raises the file system is as
    before, and otherwise the changes are confined to the archive. *)
Lemma export_fs_cases d cat_name save_path tmp s files :
  tmp ≠ "" → endswith_sep tmp = false →
  cat_name ≠ "" → has_sep cat_name = false →
  dict_get cat_name d = Some files → fs_ok s →
  ∃ s' o,
    TemporaryDirectory tmp (stage_and_archive d cat_name save_path) s = (s', o) ∧
    (raised o = true → s' = s) ∧ confined (archive_path save_path) s s'.
Proof.
  intros Htmp Hend Hcat Hsep Hd Hok. unfold TemporaryDirectory.
  destruct (mkdtemp_cases s tmp) as [(Hfresh & Hanc & Hmk)|Hmk];
    [|prog_step Hmk; by eexists _, _].
  prog_step Hmk. unfold finally.
  destruct (stage_and_archive_cases d cat_name save_path tmp s files)
    as (s3 & Hagree & Hok3 & [->|[e ->]]); try done.
  - pose proof (make_archive_Raise s3 (str_replace ".zip" "" save_path) tmp (Hok3 Hok))
      as Hraise.
    pose proof (make_archive_confined s3 (str_replace ".zip" "" save_path) tmp (Hok3 Hok))
      as Hconf.
    destruct (make_archive _ tmp s3) as [s4 o]. eexists _, _. split; [done|].
    simpl in *. split.
    + intros ->%Hraise. by apply rmtree_agree_outside.
    + by apply (confined_rmtree tmp _ s s3).
  - eexists _, _. split; [done|]. simpl.
    by rewrite (rmtree_agree_outside tmp s s3) by done.
Qed.


(** The block when every file of the category can be read and the archive
    can be written: the archive of the staged tree is at its path and the
    staging directory is gone. *)
Lemma export_fs_Ok d cat_name save_path tmp s files :
  tmp ≠ "" → endswith_sep tmp = false → fs_fresh s tmp →
  forallb (isdir s) (ancestors tmp) = true →
  cat_name ≠ "" → has_sep cat_name = false →
  dict_get cat_name d = Some files →
  Forall (λ file, isfile s file.2 = true) files →
  forallb (isdir s) (ancestors (archive_path save_path)) = true →
  s !! archive_path save_path ≠ Some Dir →
  archive_path save_path ≠ tmp → is_under tmp (archive_path save_path) = false →
  TemporaryDirectory tmp (stage_and_archive d cat_name save_path) s =
    (<[archive_path save_path :=
         File (zip_pack (archive_entries
                           (staged_fs s tmp (staged_tree s cat_name files)) tmp))]> s,
     Ok (archive_path save_path)).
Proof.
  intros Htmp Hend Hfresh Hanc Hcat Hsep Hd Hfiles Hzanc Hnd Hne Hout.
  unfold TemporaryDirectory.
  prog_step (mkdtemp_Ok s tmp Hfresh Hanc).
  unfold finally.
  rewrite (stage_and_archive_eq d cat_name save_path tmp s files) by done.
  rewrite (copy_loop_staged s tmp cat_name) by iqc.
  fold (staged_tree s cat_name files).
  rewrite make_archive_Ok.
  - fold (archive_path save_path). rewrite rmtree_insert_outside by done.
    by rewrite (rmtree_agree_outside tmp s) by iqc.
  - apply isdir_true, staged_fs_tmp.
  - apply forallb_Forall. apply forallb_Forall in Hzanc.
    eapply Forall_impl; [exact Hzanc|]. by apply isdir_staged.
  - by rewrite staged_fs_outside.
Qed.

(** The block when every file of the category can be read and nothing is
    in the way of the archive, in a consistent file system: the directories
    above the archive that were missing are made, the archive of the staged
    tree is at its path, and the staging directory is gone. *)
Lemma export_fs_mkdirs d cat_name save_path tmp s files :
  cat_name ≠ "" → has_sep cat_name = false →
  dict_get cat_name d = Some files →
  Forall (λ file, isfile s file.2 = true) files →
  target_writable s save_path tmp →
  ∃ data entries,
    TemporaryDirectory tmp (stage_and_archive d cat_name save_path) s =
      (<[archive_path save_path := File data]>
         (mkdirs (ancestors (archive_path save_path)) s),
       Ok (archive_path save_path)) ∧
    zip_unpack data = Some entries ∧ NoDup entries.*1 ∧
    list_to_map entries = staged_tree s cat_name files.
Proof.
  intros Hcat Hsep Hd Hfiles
    (Hsave & Htmp & Hend & Hfresh & Hanc & Hok & Hfile & Hnd & Hne & Hout).
  assert (Forall (λ a, a ≠ tmp ∧ is_under tmp a = false)
            (ancestors (archive_path save_path))) as Hdirs.
  { apply Forall_forall. intros a. by apply ancestors_outside. }
  eexists _, _. split.
  - unfold TemporaryDirectory. prog_step (mkdtemp_Ok s tmp Hfresh Hanc).
    unfold finally.
    rewrite (stage_and_archive_eq d cat_name save_path tmp s files) by done.
    rewrite (copy_loop_staged s tmp cat_name) by iqc.
    fold (staged_tree s cat_name files).
    rewrite make_archive_spec by (by apply fs_ok_staged_tree).
    rewrite decide_True by (by apply archive_ready_staged).
    fold (archive_path save_path).
    rewrite rmtree_insert_outside by done.
    by rewrite (rmtree_mkdirs tmp _ s) by iqc.
  - split; [apply zip_unpack_pack|]. apply and_comm.
    apply archive_entries_tree; [by apply staged_tree_no_empty|].
    intros r. by apply mkdirs_staged_under.
Qed.

(** ** Properties of the exporter *)

(** C26: exporting a category that is absent from the dictionary, or whose
    list is empty, writes nothing: the file system is unchanged, the handler
    returns, and the one box shown is the warning "No Data". *)
Theorem download_category_no_data d cat_name save_path tmp w :
  dict_contains cat_name d = false ∨ dict_get cat_name d = Some [] →
  download_category d cat_name save_path tmp w =
    (World (world_fs w)
       (world_dialogs w ++ [ShowWarning "No Data" ("No images in " +:+ cat_name)]),
     Ok tt).
Proof.
  intros Hno. rewrite download_category_cases.
  destruct Hno as [Hno%not_true_iff_false| ->]; [|done].
  rewrite dict_contains_is_Some, <-eq_None_not_Some in Hno. by rewrite Hno.
Qed.

(** When the file dialog is cancelled (its answer is empty) the handler
    returns without touching the file system and without a box. *)
Theorem download_category_cancel d cat_name tmp w files :
  dict_get cat_name d = Some files → files ≠ [] →
  download_category d cat_name "" tmp w = (w, Ok tt).
Proof.
  intros Hd Hne. rewrite download_category_cases, Hd. by destruct files.
Qed.






(** C4: the export is all or nothing, and confined to the archive: for a
    category named without a separator and a temporary directory named as
    the system names them, whatever the files of the category and the
    state of a consistent file system, the handler changes no path except
    the path of the archive and the directories above it that were missing,
    which it creates, so that no staging directory is left behind; and when
    the handler raises, the file system is as before and no box has been
    shown. *)
Theorem download_category_atomic d cat_name save_path tmp w :
  tmp ≠ "" → endswith_sep tmp = false →
  cat_name ≠ "" → has_sep cat_name = false →
  fs_ok (world_fs w) →
  let r := download_category d cat_name save_path tmp w in
  (raised r.2 = true → r.1 = w) ∧
  confined (archive_path save_path) (world_fs w) (world_fs r.1).
Proof.
  intros Htmp Hend Hcat Hsep Hok. cbv zeta. rewrite download_category_cases.
  destruct (dict_get cat_name d) as [[|file files]|] eqn:Hd; try done.
  case_bool_decide; [done|].
  destruct (export_fs_cases d cat_name save_path tmp (world_fs w) _
              Htmp Hend Hcat Hsep Hd Hok) as (s' & o & -> & Hraise & Hconf).
  destruct o as [t|e]; simpl; [done|].
  split; [|done]. intros _. rewrite (Hraise eq_refl). by destruct w.
Qed.

(** The export that runs to its end. *)
Lemma download_category_Ok d cat_name save_path tmp w files :
  dict_get cat_name d = Some files →
  export_ready (world_fs w) cat_name save_path tmp files →
  ∃ data entries,
    download_category d cat_name save_path tmp w =
      (World (<[archive_path save_path := File data]> (world_fs w))
         (world_dialogs w ++
            [ShowInfo "Success" (cat_name +:+ " saved as " +:+ basename save_path)]),
       Ok tt) ∧
    zip_unpack data = Some entries ∧ NoDup entries.*1 ∧
    list_to_map entries = staged_tree (world_fs w) cat_name files.
Proof.
  intros Hd (Hne & Hcat & Hsep & Hfiles &
             Hsave & Htmp & Hend & Hfresh & Hanc & Hzanc & Hdir & Hnt & Hout).
  eexists _, _. rewrite download_category_cases, Hd.
  destruct files as [|file files']; [done|].
  rewrite bool_decide_eq_false_2 by done.
  rewrite (export_fs_Ok d cat_name save_path tmp (world_fs w) _) by done.
  split; [done|]. split; [apply zip_unpack_pack|]. apply and_comm.
  apply archive_entries_staged; [done|]. by apply staged_tree_no_empty.
Qed.

(** The export that runs to its end and makes the directories that are
    missing above the archive. *)
Lemma download_category_mkdirs d cat_name save_path tmp w files :
  dict_get cat_name d = Some files → files ≠ [] →
  cat_name ≠ "" → has_sep cat_name = false →
  Forall (λ file, isfile (world_fs w) file.2 = true) files →
  target_writable (world_fs w) save_path tmp →
  ∃ data entries,
    download_category d cat_name save_path tmp w =
      (World (<[archive_path save_path := File data]>
                (mkdirs (ancestors (archive_path save_path)) (world_fs w)))
         (world_dialogs w ++
            [ShowInfo "Success" (cat_name +:+ " saved as " +:+ basename save_path)]),
       Ok tt) ∧
    zip_unpack data = Some entries ∧ NoDup entries.*1 ∧
    list_to_map entries = staged_tree (world_fs w) cat_name files.
Proof.
  intros Hd Hne Hcat Hsep Hfiles Htarget.
  destruct (export_fs_mkdirs d cat_name save_path tmp (world_fs w) files)
    as (data & entries & Hrun & Hzip); try done.
  exists data, entries. split; [|done].
  rewrite download_category_cases, Hd. destruct files as [|file files']; [done|].
  rewrite bool_decide_eq_false_2 by (by destruct Htarget).
  by rewrite Hrun.
Qed.

(** The block raises, and leaves the file system as it was, when a file of
    the category cannot be read. *)
Lemma export_fs_unreadable d cat_name save_path tmp s files :
  tmp ≠ "" → endswith_sep tmp = false →
  cat_name ≠ "" → has_sep cat_name = false →
  dict_get cat_name d = Some files →
  Exists (λ file, isfile s file.2 = false ∧ file.2 ≠ tmp ∧
                  is_under tmp file.2 = false) files →
  ∃ e, TemporaryDirectory tmp (stage_and_archive d cat_name save_path) s = (s, Raise e).
Proof.
  intros Htmp Hend Hcat Hsep Hd Hex. unfold TemporaryDirectory.
  destruct (mkdtemp_cases s tmp) as [(Hfresh & Hanc & Hmk)|Hmk];
    [|prog_step Hmk; eauto].
  prog_step Hmk. unfold finally.
  rewrite (stage_and_archive_eq d cat_name save_path tmp s files) by done.
  set (copy := λ file : string * string, shutil_copy file.2 (in_tmp tmp cat_name)).
  assert (raised (for_each copy files (staged_fs s tmp {[cat_name := Dir]})).2 = true)
    as Hloop by (apply (copy_loop_unreadable s); iqc).
  assert (agree_outside tmp s
            (for_each copy files (staged_fs s tmp {[cat_name := Dir]})).1) as Hagree
    by (apply copy_loop_agree; iqc).
  destruct (for_each _ files _) as [s3 [[]|e]]; [done|]. exists e.
  by rewrite (rmtree_agree_outside tmp s s3).
Qed.

(** C2: when every file of the category can be read and the archive can be
    written, the export succeeds: the file system is the one before with a
    file at the path of the archive, the box "Success" is shown, and the
    archive unpacks to the tree that holds the directory named after the
    category and, under each base name, the bytes of the last file of the
    category with that base name.  When the base names are distinct the
    entries are the directory and one entry per file of the category with
    its bytes: the round trip of the specification. *)
Theorem download_category_archive d cat_name save_path tmp w files :
  dict_get cat_name d = Some files →
  export_ready (world_fs w) cat_name save_path tmp files →
  ∃ data entries,
    download_category d cat_name save_path tmp w =
      (World (<[archive_path save_path := File data]> (world_fs w))
         (world_dialogs w ++
            [ShowInfo "Success" (cat_name +:+ " saved as " +:+ basename save_path)]),
       Ok tt) ∧
    zip_unpack data = Some entries ∧
    list_to_map entries = staged_tree (world_fs w) cat_name files ∧
    (NoDup (basename <$> files.*2) →
     entries ≡ₚ (cat_name, Dir) :: (member (world_fs w) cat_name <$> files)).
Proof.
  intros Hd Hready.
  destruct (download_category_Ok d cat_name save_path tmp w files Hd Hready)
    as (data & entries & Hrun & Hzip & Hnd & Hmap).
  exists data, entries. split_and!; [done..|].
  intros Hnames. by apply staged_tree_entries.
Qed.

(** C12: the export makes the directories that are missing above the
    archive: in a consistent file system, when every file of the category
    can be read, no file is in the place of a directory above the archive
    and no directory in the place of the archive, the handler ends with the
    box "Success"; the file system is the one before with a directory at
    each path above the archive and the archive at its path, and the
    archive unpacks to the tree of the category.  The directory of the
    archive need not exist. *)
Theorem download_category_makes_dirs d cat_name save_path tmp w files :
  dict_get cat_name d = Some files → files ≠ [] →
  cat_name ≠ "" → has_sep cat_name = false →
  Forall (λ file, isfile (world_fs w) file.2 = true) files →
  target_writable (world_fs w) save_path tmp →
  ∃ data entries,
    download_category d cat_name save_path tmp w =
      (World (<[archive_path save_path := File data]>
                (mkdirs (ancestors (archive_path save_path)) (world_fs w)))
         (world_dialogs w ++
            [ShowInfo "Success" (cat_name +:+ " saved as " +:+ basename save_path)]),
       Ok tt) ∧
    zip_unpack data = Some entries ∧
    list_to_map entries = staged_tree (world_fs w) cat_name files.
Proof.
  intros Hd Hne Hcat Hsep Hfiles Htarget.
  destruct (download_category_mkdirs d cat_name save_path tmp w files)
    as (data & entries & Hrun & Hzip & _ & Hmap); eauto.
Qed.

(** C28: a file of the category that has a later namesake in the category is
    not in the archive: the entry of its base name holds the bytes of the
    last file of that base name, so that an export of files with equal base
    names and different contents loses files. *)
Theorem download_category_namesakes d cat_name save_path tmp w l1 file l2 :
  dict_get cat_name d = Some (l1 ++ file :: l2) →
  export_ready (world_fs w) cat_name save_path tmp (l1 ++ file :: l2) →
  Forall (λ f, basename f.2 ≠ basename file.2) l2 →
  ∃ data entries,
    world_fs (download_category d cat_name save_path tmp w).1
      !! archive_path save_path = Some (File data) ∧
    zip_unpack data = Some entries ∧
    member (world_fs w) cat_name file ∈ entries ∧
    ∀ file', basename file'.2 = basename file.2 →
             file_data (world_fs w) file'.2 ≠ file_data (world_fs w) file.2 →
             member (world_fs w) cat_name file' ∉ entries.
Proof.
  intros Hd Hready Hlast.
  destruct (download_category_Ok d cat_name save_path tmp w _ Hd Hready)
    as (data & entries & -> & Hzip & Hnd & Hmap).
  exists data, entries. simpl. rewrite lookup_insert_eq. split_and!; [done..| |].
  - apply (elem_of_list_to_map (M:=gmap string)); [done|].
    rewrite Hmap. by apply staged_tree_last_lookup.
  - intros file' Hname Hdata Hin.
    apply (elem_of_list_to_map (M:=gmap string)) in Hin; [|done].
    rewrite Hmap, Hname, (staged_tree_last_lookup _ _ l1 file l2 Hlast) in Hin.
    by injection Hin.
Qed.

(** C27: when a file of the category is no longer there, the export fails
    as a whole: the handler raises, no archive is written, nothing is left
    of the staging directory, and no box is shown, neither the success box
    nor an error box. *)
Theorem download_category_unreadable d cat_name save_path tmp w files :
  dict_get cat_name d = Some files → save_path ≠ "" →
  tmp ≠ "" → endswith_sep tmp = false →
  cat_name ≠ "" → has_sep cat_name = false →
  Exists (λ file, isfile (world_fs w) file.2 = false ∧ file.2 ≠ tmp ∧
                  is_under tmp file.2 = false) files →
  ∃ e, download_category d cat_name save_path tmp w = (w, Raise e).
Proof.
  intros Hd Hsave Htmp Hend Hcat Hsep Hex.
  rewrite download_category_cases, Hd.
  destruct files as [|file files']; [by apply Exists_nil in Hex|].
  rewrite bool_decide_eq_false_2 by done.
  destruct (export_fs_unreadable d cat_name save_path tmp (world_fs w) _
              Htmp Hend Hcat Hsep Hd Hex) as [e ->].
  exists e. by destruct w.
Qed.

(** The archive is written at the chosen path when the path is absolute
    and normal, ends with [".zip"] and has no other occurrence of it, and at
    the chosen path followed by [".zip"] when [".zip"] does not occur in
    it. *)
Theorem archive_path_extension (stem : string) :
  occurs ".zip" stem = false → abspath stem = stem →
  archive_path (stem +:+ ".zip") = stem +:+ ".zip" ∧
  archive_path stem = stem +:+ ".zip".
Proof.
  intros Hstem Habs. unfold archive_path.
  by rewrite str_replace_zip_suffix, str_replace_absent, Habs.
Qed.

End handler.

(** ** The exporter on examples *)

(** A file system with two folders of pictures, and a dictionary with a
    category of two files, a category of two files of the same base name,
    and a category whose file has been deleted since the analysis. *)
Definition export_fs : gmap string node :=
  list_to_map
    [("/tmp", Dir); ("/home", Dir);
     ("/pics", Dir); ("/pics/a.jpg", File "bytes of a"); ("/pics/b.jpg", File "bytes of b");
     ("/old", Dir); ("/old/a.jpg", File "bytes of the old a")].

Definition export_categorized : list (string * list (string * string)) :=
  [("1080p (Blurry)", [("a.jpg", "/pics/a.jpg"); ("b.jpg", "/pics/b.jpg")]);
   ("720p (Clear)", [("a.jpg", "/pics/a.jpg"); ("a.jpg", "/old/a.jpg")]);
   ("360p (Clear)", [("a.jpg", "/pics/a.jpg"); ("gone.jpg", "/pics/gone.jpg")])].

Definition export_world : world := World export_fs [].

Lemma download_category_no_data_witness :
  (dict_contains "4K or above (Clear)" export_categorized = false ∨
   dict_get "4K or above (Clear)" export_categorized = Some []) ∧
  download_category (H:=bits_archiver) export_categorized "4K or above (Clear)"
    "/home/best.zip" "/tmp/tmpk3x9" export_world =
    (World export_fs [ShowWarning "No Data" "No images in 4K or above (Clear)"], Ok tt).
Proof.
  assert (dict_contains "4K or above (Clear)" export_categorized = false ∨
          dict_get "4K or above (Clear)" export_categorized = Some []) as Hno
    by (by left).
  split; [done|].
  exact (download_category_no_data (H:=bits_archiver) export_categorized _
           "/home/best.zip" "/tmp/tmpk3x9" export_world Hno).
Defined.

Lemma download_category_cancel_witness :
  download_category (H:=bits_archiver) export_categorized "1080p (Blurry)" ""
    "/tmp/tmpk3x9" export_world = (export_world, Ok tt).
Proof.
  apply (download_category_cancel (H:=bits_archiver) export_categorized
           "1080p (Blurry)" "/tmp/tmpk3x9" export_world
           [("a.jpg", "/pics/a.jpg"); ("b.jpg", "/pics/b.jpg")]); done.
Defined.

Lemma export_ready_example :
  export_ready export_fs "1080p (Blurry)" "/home/blurry.zip" "/tmp/tmpk3x9"
    [("a.jpg", "/pics/a.jpg"); ("b.jpg", "/pics/b.jpg")].
Proof. apply (bool_decide_unpack _). by vm_compute. Qed.

Lemma download_category_archive_witness :
  ∃ data entries,
    download_category (H:=bits_archiver) export_categorized "1080p (Blurry)"
      "/home/blurry.zip" "/tmp/tmpk3x9" export_world =
      (World (<["/home/blurry.zip" := File data]> export_fs)
         [ShowInfo "Success" "1080p (Blurry) saved as blurry.zip"], Ok tt) ∧
    zip_unpack (Archiver:=bits_archiver) data = Some entries ∧
    entries ≡ₚ [("1080p (Blurry)", Dir);
                ("1080p (Blurry)/a.jpg", File "bytes of a");
                ("1080p (Blurry)/b.jpg", File "bytes of b")].
Proof.
  destruct (download_category_archive (H:=bits_archiver) export_categorized
              "1080p (Blurry)" "/home/blurry.zip" "/tmp/tmpk3x9" export_world
              _ eq_refl export_ready_example)
    as (data & entries & Hrun & Hzip & _ & Hentries).
  exists data, entries. split_and!; [done..|].
  apply Hentries. apply (bool_decide_unpack _). by vm_compute.
Defined.

Lemma download_category_namesakes_witness :
  ∃ data entries,
    world_fs (download_category (H:=bits_archiver) export_categorized "720p (Clear)"
                "/home/clear.zip" "/tmp/tmpk3x9" export_world).1
      !! "/home/clear.zip" = Some (File data) ∧
    zip_unpack (Archiver:=bits_archiver) data = Some entries ∧
    ("720p (Clear)/a.jpg", File "bytes of the old a") ∈ entries ∧
    ("720p (Clear)/a.jpg", File "bytes of a") ∉ entries.
Proof.
  assert (export_ready export_fs "720p (Clear)" "/home/clear.zip" "/tmp/tmpk3x9"
            ([("a.jpg", "/pics/a.jpg")] ++ ("a.jpg", "/old/a.jpg") :: [])) as Hready
    by (apply (bool_decide_unpack _); by vm_compute).
  destruct (download_category_namesakes (H:=bits_archiver) export_categorized
              "720p (Clear)" "/home/clear.zip" "/tmp/tmpk3x9" export_world
              [("a.jpg", "/pics/a.jpg")] ("a.jpg", "/old/a.jpg") []
              eq_refl Hready (Forall_nil_2 _))
    as (data & entries & Hfile & Hzip & Hin & Hout).
  exists data, entries. split_and!; [done..|].
  apply (Hout ("a.jpg", "/pics/a.jpg")); by vm_compute.
Defined.

Lemma download_category_unreadable_witness :
  ∃ e, download_category (H:=bits_archiver) export_categorized "360p (Clear)"
         "/home/small.zip" "/tmp/tmpk3x9" export_world = (export_world, Raise e).
Proof.
  apply (download_category_unreadable (H:=bits_archiver) export_categorized
           "360p (Clear)" "/home/small.zip" "/tmp/tmpk3x9" export_world
           [("a.jpg", "/pics/a.jpg"); ("gone.jpg", "/pics/gone.jpg")]);
    try done.
  apply Exists_cons_tl, Exists_cons_hd. by vm_compute.
Defined.

Lemma download_category_makes_dirs_witness :
  ∃ data entries,
    download_category (H:=bits_archiver) export_categorized "1080p (Blurry)"
      "/home/2024/best.zip" "/tmp/tmpk3x9" export_world =
      (World (<["/home/2024/best.zip" := File data]> (<["/home/2024" := Dir]> export_fs))
         [ShowInfo "Success" "1080p (Blurry) saved as best.zip"], Ok tt) ∧
    zip_unpack (Archiver:=bits_archiver) data = Some entries ∧
    (list_to_map entries : gmap string node) !! "1080p (Blurry)/a.jpg" =
      Some (File "bytes of a").
Proof.
  assert (target_writable export_fs "/home/2024/best.zip" "/tmp/tmpk3x9") as Htarget
    by (apply (bool_decide_unpack _); by vm_compute).
  assert (Forall (λ file : string * string, isfile export_fs file.2 = true)
            [("a.jpg", "/pics/a.jpg"); ("b.jpg", "/pics/b.jpg")]) as Hfiles
    by (apply (bool_decide_unpack _); by vm_compute).
  destruct (download_category_makes_dirs (H:=bits_archiver) export_categorized
              "1080p (Blurry)" "/home/2024/best.zip" "/tmp/tmpk3x9" export_world
              _ eq_refl ltac:(done) ltac:(done) eq_refl Hfiles Htarget)
    as (data & entries & Hrun & Hzip & Hmap).
  exists data, entries. split_and!; [|done|].
  - rewrite Hrun. do 3 f_equal.
  - rewrite Hmap. by vm_compute.
Defined.


Lemma download_category_atomic_witness :
  let r := download_category (H:=bits_archiver) export_categorized "360p (Clear)"
             "/home/small.zip" "/tmp/tmpk3x9" export_world in
  (raised r.2 = true → r.1 = export_world) ∧
  confined (archive_path "/home/small.zip") export_fs (world_fs r.1).
Proof.
  apply (download_category_atomic (H:=bits_archiver) export_categorized
           "360p (Clear)" "/home/small.zip" "/tmp/tmpk3x9" export_world); try done.
  apply (bool_decide_unpack _). by vm_compute.
Defined.

Lemma archive_path_extension_witness :
  archive_path "/home/blurry.zip" = "/home/blurry.zip" ∧
  archive_path "/home/blurry" = "/home/blurry.zip".
Proof. apply (archive_path_extension "/home/blurry"); by vm_compute. Defined.

