(* ===== verification/App.v ===== *)
(** * The application: window, handlers and event loop

    The rest of [main.py]: the start-up (the request for DPI awareness of
    lines 12-20, the empty dictionary of line 59, the window of lines
    193-228), the handlers of the two selection buttons
    ([analyze_selected_images], [analyze_folder]) with the analysis they
    start ([analyze_images]), the handler of the download buttons, the
    handlers of the mouse wheel, and the event loop of Tk that calls them.

    The state of the application is a record [app]: the global dictionary,
    the children of [content_frame], the lines printed on the standard
    output, the world of the exporter (file system and message boxes) and
    the calls made on the canvas.  An [event] carries what the outside world
    contributes to a handler: the answer of a dialog, the name picked for a
    temporary directory, the motion of the wheel, a change that another
    program makes to the file system.  [reachable] is the set of states the
    event loop can be in.

    The theorems: the invariant of the reachable states (the dictionary is
    the result of an analysis and the window shows it); the consistency of
    the file system along every run; a download button
    never leads to the warning of an empty category; what a folder analysis
    files, and that an export after it is a round trip; the units that the
    wheel scrolls. *)

From Stdlib Require Import ZArith Lia.
From stdpp Require Import base tactics option list strings gmap.
From S2P Require Import Prelude Resolution PyDict PyPath PySorted FileSys Imaging.
From S2P Require Import Engine Presenter Exporter.

(** ** Start-up *)

(** The two calls of lines 15 and 18. *)
Inductive dpi_call : Type :=
| SetProcessDpiAwareness (level : Z)
| SetProcessDPIAware.

#[export] Instance dpi_call_eq_dec : EqDecision dpi_call.
Proof. solve_decision. Defined.

(** Lines 13-20: the calls that are made, given the platform and what each
    call would do.  The statement never raises: the last handler is
    [pass]. *)
Definition dpi_bootstrap (system : string) (shcore user32 : outcome unit) :
    list dpi_call :=
  if bool_decide (system = "Windows") then
    match shcore with
    | Ok _ => [SetProcessDpiAwareness 1]
    | Raise _ =>
        match user32 with
        | Ok _ | Raise _ => [SetProcessDpiAwareness 1; SetProcessDPIAware]
        end
    end
  else [].

(** ** The state *)

(** A call on the canvas. *)
Inductive canvas_call : Type :=
| UpdateIdletasks
| ConfigScrollregion
| YviewScroll (units : Z)
| XviewScroll (units : Z).

#[export] Instance canvas_call_eq_dec : EqDecision canvas_call.
Proof. solve_decision. Defined.

Record app : Type := App {
  (** The global [categorized] of line 59. *)
  categorized : list (string * list (string * string));
  (** The children of [content_frame]. *)
  content : list widget;
  (** The paths reported by the [print] of line 189. *)
  console : list string;
  (** The file system and the message boxes shown. *)
  world_of : world;
  (** The calls made on the canvas. *)
  canvas : list canvas_call;
}.

(** Lines 59 and 193-228: an empty dictionary and a window whose content
    frame has no child. *)
Definition init_app (s : gmap string node) : app :=
  App [] [] [] (World s []) [].

(** A statement on the world, as a statement on the application. *)
Definition on_world {A : Type} (m : prog world A) : prog app A := fun a =>
  let '(w, r) := m (world_of a) in
  (App (categorized a) (content a) (console a) w (canvas a), r).

(** A call on the canvas. *)
Definition canvas_do (c : canvas_call) : prog app unit :=
  modify_state (λ a, App (categorized a) (content a) (console a) (world_of a)
                         (canvas a ++ [c])).

(** ** The handlers *)

(** Lines 232 and 235: the units scrolled for a motion [delta] of the
    wheel; [//] is the floor division. *)
Definition wheel_units (delta : Z) : Z := -1 * (delta / 120).

(** [def on_mousewheel(event)], lines 231-232. *)
Definition on_mousewheel (delta : Z) : prog app unit :=
  canvas_do (YviewScroll (wheel_units delta)).

(** [def on_shift_mousewheel(event)], lines 234-235. *)
Definition on_shift_mousewheel (delta : Z) : prog app unit :=
  canvas_do (XviewScroll (wheel_units delta)).

(** [def update_scroll_region(event=None)], lines 238-239. *)
Definition update_scroll_region : prog app unit :=
  canvas_do ConfigScrollregion.

Section handlers.
Context `{ImageLib} `{Archiver}.
Implicit Types (a : app) (s : gmap string node).

(** [def analyze_images(file_list)], lines 75-99. *)
Definition analyze_images (file_list : list string) : prog app unit := fun a =>
  let s := world_fs (world_of a) in
  let content1 : list widget := [] in
  let categorized1 := categorize_files s file_list (categorized a) in
  let '(content2, printed) := show_results s categorized1 content1 in
  (App categorized1 content2 (console a ++ printed) (world_of a)
       (canvas a ++ [UpdateIdletasks; ConfigScrollregion]),
   Ok tt).

(** Line 65: the regular files of the folder, by their paths. *)
Definition folder_files s (folder : string) : outcome (list string) :=
  match listdir s folder with
  | Ok names => Ok (filter (λ path, isfile s path = true) (join folder <$> names))
  | Raise e => Raise e
  end.

(** [def analyze_folder()], lines 62-66; [folder] is the answer of the
    dialog, empty when it is cancelled. *)
Definition analyze_folder (folder : string) : prog app unit :=
  if bool_decide (folder = "") then mret tt
  else
    read_state (λ a, folder_files (world_fs (world_of a)) folder) ≫= λ files,
    analyze_images files.

(** [def analyze_selected_images()], lines 69-72; [files] is the answer of
    the dialog, empty when it is cancelled. *)
Definition analyze_selected_images (files : list string) : prog app unit :=
  if bool_decide (files = []) then mret tt else analyze_images files.

(** Line 161: the command of the button of a category,
    [lambda c=cat: download_category(c)]. *)
Definition click_download (cat save_path tmp : string) : prog app unit := fun a =>
  on_world (download_category (categorized a) cat save_path tmp) a.

(** ** The event loop *)

Inductive event : Type :=
| SelectImages (answer : list string)
| SelectFolder (answer : string)
| Download (cat save_path tmp : string)
| MouseWheel (delta : Z)
| ShiftMouseWheel (delta : Z)
| Button4
| Button5
| Configure
| FsChange (s : gmap string node).

(** The bindings of lines 207-210, 161 and 241-245.  [FsChange] is not an
    event of Tk: it stands for what other programs do to the file system
    between two events. *)
Definition handle (e : event) : prog app unit :=
  match e with
  | SelectImages answer => analyze_selected_images answer
  | SelectFolder answer => analyze_folder answer
  | Download cat save_path tmp => click_download cat save_path tmp
  | MouseWheel delta => on_mousewheel delta
  | ShiftMouseWheel delta => on_shift_mousewheel delta
  | Button4 => canvas_do (YviewScroll (-1))
  | Button5 => canvas_do (YviewScroll 1)
  | Configure => update_scroll_region
  | FsChange s =>
      on_world (modify_state (λ w, World s (world_dialogs w)))
  end.

(** One turn of [root.mainloop()], line 247: the handler of the event runs;
    when it raises, Tk reports the exception and the loop goes on with the
    state that the handler left. *)
Definition mainloop_step (a : app) (e : event) : app := (handle e a).1.

(** Whether the event can occur: a download needs a button. *)
Definition enabled (a : app) (e : event) : Prop :=
  match e with
  | Download cat _ _ =>
      ∃ title text cells, CategoryFrame title text cat cells ∈ content a
  | _ => True
  end.



(** The states of the event loop started on the file system [s0]. *)
Inductive reachable (s0 : gmap string node) : app → Prop :=
| reachable_init : reachable s0 (init_app s0)
| reachable_step a e :
    reachable s0 a → enabled a e → reachable s0 (mainloop_step a e).

End handlers.

#[local] Open Scope Z_scope.

(** ** The wheel *)

Lemma wheel_units_bounds_aux (delta : Z) :
  - delta ≤ 120 * wheel_units delta < - delta + 120.
Proof. unfold wheel_units. Z.div_mod_to_equations. lia. Qed.

Lemma wheel_units_notch_aux (k : Z) : wheel_units (120 * k) = - k.
Proof. unfold wheel_units. Z.div_mod_to_equations. lia. Qed.

Lemma wheel_units_opp (delta : Z) :
  wheel_units (- delta) = - wheel_units delta ↔ delta mod 120 = 0.
Proof. unfold wheel_units. Z.div_mod_to_equations. lia. Qed.

#[local] Close Scope Z_scope.

(** ** The invariant of the event loop *)

Section app.
Context `{ImageLib} `{Archiver}.
Implicit Types (a : app) (s : gmap string node) (ev : event).

(** The invariant of the event loop: the dictionary is the result of an
    analysis, the window is empty with an empty dictionary or shows the
    dictionary, and every box shown so far reports a success. *)
Definition app_inv a : Prop :=
  (∃ s, categorized_inv s (categorized a) ∧
        (content a = [] ∧ categorized a = [] ∨
         content a = (show_results s (categorized a) []).1)) ∧
  Forall (λ d, ∃ message, d = ShowInfo "Success" message)
         (world_dialogs (world_of a)).

Lemma app_inv_init s0 : app_inv (init_app s0).
Proof.
  split; [|by constructor]. exists s0. split; [apply categorized_inv_nil|by left].
Qed.

(** What an analysis leaves. *)
Lemma analyze_images_eq file_list a :
  analyze_images file_list a =
    (let s := world_fs (world_of a) in
     let d := categorize_files s file_list (categorized a) in
     App d (show_results s d []).1 (console a ++ (show_results s d []).2) (world_of a)
         (canvas a ++ [UpdateIdletasks; ConfigScrollregion]),
     Ok tt).
Proof.
  unfold analyze_images. cbv zeta. by destruct (show_results _ _ _).
Qed.

Lemma analyze_images_inv file_list a :
  app_inv a → app_inv (analyze_images file_list a).1.
Proof.
  intros [_ Hdialogs]. rewrite analyze_images_eq. split; [|done].
  exists (world_fs (world_of a)). simpl.
  split; [iqc|by right].
Qed.

Lemma analyze_folder_cases folder a :
  analyze_folder folder a = (a, Ok tt) ∨
  (∃ e, analyze_folder folder a = (a, Raise e)) ∨
  ∃ files, folder_files (world_fs (world_of a)) folder = Ok files ∧
           analyze_folder folder a = analyze_images files a.
Proof.
  unfold analyze_folder. case_bool_decide; [by left|right].
  rewrite read_state_bind. destruct (folder_files _ _) as [files|e]; eauto.
Qed.

Lemma analyze_folder_Ok folder a files :
  folder ≠ "" → folder_files (world_fs (world_of a)) folder = Ok files →
  analyze_folder folder a = analyze_images files a.
Proof.
  intros Hne Hf. unfold analyze_folder. rewrite bool_decide_eq_false_2 by done.
  by rewrite read_state_bind, Hf.
Qed.

Lemma folder_files_isdir s folder :
  isdir s folder = true → ∃ files, folder_files s folder = Ok files.
Proof.
  intros [names Hls]%listdir_isdir. unfold folder_files. rewrite Hls. eauto.
Qed.

(** The button of a category that is displayed: the test of line 103 is
    false. *)
Lemma enabled_download a cat save_path tmp :
  app_inv a → enabled a (Download cat save_path tmp) →
  ∃ file files, dict_get cat (categorized a) = Some (file :: files).
Proof.
  intros [(s & Hinv & [[Hc _]|Hc]) _] (title & text & cells & Hin); simpl in Hin.
  { rewrite Hc in Hin. by apply elem_of_nil in Hin. }
  rewrite Hc in Hin.
  destruct (show_results_button _ _ _ _ _ _ _ Hinv Hin) as ([|file files] & Hd & Hne);
    [done|eauto].
Qed.

Lemma click_download_inv a cat save_path tmp :
  app_inv a → enabled a (Download cat save_path tmp) →
  app_inv (click_download cat save_path tmp a).1.
Proof.
  intros Hinv Hen. destruct (enabled_download _ _ _ _ Hinv Hen) as (file & files & Hd).
  destruct Hinv as [Hcat Hdialogs].
  unfold click_download, on_world. rewrite download_category_cases, Hd.
  case_bool_decide; [by destruct a as [? ? ? [] ?]|].
  destruct (TemporaryDirectory _ _ _) as [s' [t|e]]; split; simpl; try done.
  apply Forall_app. split; [done|]. repeat constructor. eauto.
Qed.

Lemma mainloop_step_inv a ev :
  app_inv a → enabled a ev → app_inv (mainloop_step a ev).
Proof.
  intros Hinv Hen. unfold mainloop_step.
  destruct ev; simpl; try (by destruct Hinv).
  - unfold analyze_selected_images. case_bool_decide; [done|].
    by apply analyze_images_inv.
  - destruct (analyze_folder_cases answer a) as [->|[[e ->]|(files & _ & ->)]];
      [done..|]. by apply analyze_images_inv.
  - by apply click_download_inv.
Qed.


(** ** The analysis of a folder *)

(** The files that a folder analysis scans: the regular files that are
    directly in the folder, each once, with distinct base names. *)
Lemma folder_files_Ok s folder files :
  folder ≠ "" → endswith_sep folder = false →
  folder_files s folder = Ok files →
  NoDup (basename <$> files) ∧
  ∀ path, path ∈ files ↔
          isfile s path = true ∧ ∃ name, child_name folder path = Some name.
Proof.
  intros Hne Hend. unfold folder_files.
  destruct (listdir s folder) as [names|] eqn:Hls; [|done]. intros [= <-].
  assert (∀ name, name ∈ names → join folder name = folder +:+ "/" +:+ name ∧
                                 basename (join folder name) = name) as Hjoin.
  { intros name (_ & Hsep & _)%(elem_of_listdir s folder names); [|done].
    split; [|by apply basename_join].
    by apply join_relative; [..|apply startswith_sep_no_sep]. }
  split.
  - eapply sublist_NoDup; [|apply fmap_sublist, sublist_filter].
    rewrite <-list_fmap_compose.
    rewrite (list_fmap_ext (basename ∘ join folder) id names)
      by (intros ? name ?%list_elem_of_lookup_2; by apply Hjoin).
    rewrite list_fmap_id. by eapply NoDup_listdir.
  - intros path. rewrite list_elem_of_filter, list_elem_of_fmap.
    apply and_iff_compat_l_strong. intros Hfile. split.
    + intros (name & -> & Hin). exists name. destruct (Hjoin _ Hin) as [-> _].
      apply child_name_Some.
      by apply (elem_of_listdir s folder names) in Hin as (? & ? & _).
    + intros [name (Hn & Hsep & ->)%child_name_Some]. exists name.
      assert (name ∈ names) as Hin.
      { apply (elem_of_listdir s folder names); [done|]. split_and!; [done..|].
        apply isfile_true in Hfile as [data ->]. by eexists. }
      by destruct (Hjoin _ Hin) as [-> _].
Qed.


(** A folder analysis followed by an export, started from the state [a]. *)
Lemma folder_export s a folder cat save_path tmp file_list :
  world_fs (world_of a) = s →
  folder_files s folder = Ok file_list →
  NoDup (basename <$> file_list) →
  let a1 := (analyze_images file_list a).1 in
  enabled a1 (Download cat save_path tmp) →
  target_ready s save_path tmp →
  ∃ files, dict_get cat (categorized a1) = Some files ∧
           NoDup (basename <$> files.*2) ∧
           export_ready (world_fs (world_of a1)) cat save_path tmp files.
Proof.
  intros <- Hfiles Hnd a1 (title & text & cells & Hin) Htarget. subst a1.
  rewrite analyze_images_eq in *. simpl in *.
  pose proof (categorize_files_inv_holds (world_fs (world_of a)) file_list
                (categorized a)) as Hinv.
  destruct (show_results_button _ _ _ _ _ _ _ Hinv Hin) as (files & Hd & Hne).
  destruct (categorize_files_names _ _ _ _ _ Hnd Hd) as (Hnames & Hall).
  assert (valid_key cat) as [Hcat Hsep]%valid_key_name.
  { destruct Hinv as [_ Hkeys]. rewrite Forall_forall in Hkeys.
    by destruct (Hkeys (cat, files) (dict_get_Some_elem _ _ _ Hd)) as (_ & ? & _). }
  exists files. split_and!; [done..|]. unfold export_ready. split_and!; try done.
  eapply Forall_impl; [exact Hall|]. by intros file [? _].
Qed.

(** ** Consistency of the file system *)





Lemma reachable_inv_holds s0 a : reachable s0 a → app_inv a.
Proof.
  induction 1 as [|a ev _ IH Hen]; [apply app_inv_init|].
  by apply mainloop_step_inv.
Qed.

(** ** Properties of the application *)

(** C5: in every state that the event loop reaches, the dictionary is the
    result of an analysis (unique keys, no empty list, keys of the engine),
    the window is empty with an empty dictionary or shows exactly the
    dictionary, and every message box shown so far reports a success. *)
Theorem reachable_inv s0 a : reachable s0 a → app_inv a.
Proof. apply reachable_inv_holds. Qed.

(** C25: a download button never leads to the warning of line 104: in a
    reachable state, the category of every button that is displayed is in
    the dictionary with a list that is not empty, so the test of line 103 is
    false; and the click leaves the dictionary and the window as they
    are. *)
Theorem download_button_live s0 a cat save_path tmp :
  reachable s0 a → enabled a (Download cat save_path tmp) →
  no_data (categorized a) cat = Ok false ∧
  categorized (mainloop_step a (Download cat save_path tmp)) = categorized a ∧
  content (mainloop_step a (Download cat save_path tmp)) = content a ∧
  ∀ title message,
    ShowWarning title message
      ∉ world_dialogs (world_of (mainloop_step a (Download cat save_path tmp))).
Proof.
  intros Hinv%reachable_inv_holds Hen.
  destruct (enabled_download _ _ _ _ Hinv Hen) as (file & files & Hd).
  pose proof (mainloop_step_inv a _ Hinv Hen) as [_ Hdialogs].
  split_and!.
  - by rewrite no_data_eq, Hd.
  - unfold mainloop_step. simpl. unfold click_download, on_world.
    by destruct (download_category _ _ _ _ _).
  - unfold mainloop_step. simpl. unfold click_download, on_world.
    by destruct (download_category _ _ _ _ _).
  - intros title message Hin. rewrite Forall_forall in Hdialogs.
    by destruct (Hdialogs _ Hin).
Qed.

(** C37: the analysis of a folder scans the regular files that are directly in
    the folder, each once: sub-folders are not entered, and no two scanned
    files have the same base name. *)
Theorem analyze_folder_files folder a :
  folder ≠ "" → endswith_sep folder = false →
  isdir (world_fs (world_of a)) folder = true →
  ∃ file_list,
    analyze_folder folder a = analyze_images file_list a ∧
    NoDup (basename <$> file_list) ∧
    ∀ path, path ∈ file_list ↔
            isfile (world_fs (world_of a)) path = true ∧
            ∃ name, child_name folder path = Some name.
Proof.
  intros Hne Hend [file_list Hf]%folder_files_isdir. exists file_list.
  split; [by apply analyze_folder_Ok|]. by apply folder_files_Ok.
Qed.

(** A folder that cannot be listed leaves the application as it was:
    the handler raises before the dictionary is cleared, so the window
    keeps the previous results. *)
Theorem analyze_folder_missing folder a :
  folder ≠ "" → isdir (world_fs (world_of a)) folder = false →
  analyze_folder folder a = (a, Raise OSError).
Proof.
  intros Hne Hdir. unfold analyze_folder. rewrite bool_decide_eq_false_2 by done.
  rewrite read_state_bind. unfold folder_files, listdir. by rewrite Hdir.
Qed.

(** C6: the round trip of the specification, from the window: after the
    analysis of a folder, the button of a category, with an answer and a
    temporary directory that allow the export, writes at the path of the
    archive an archive that unpacks to the directory named after the
    category and one entry per file of the category, named by the base name
    of the file and holding its bytes; the box reports the success. *)
Theorem folder_export_roundtrip folder a cat save_path tmp :
  let s := world_fs (world_of a) in
  folder ≠ "" → endswith_sep folder = false → isdir s folder = true →
  let a1 := mainloop_step a (SelectFolder folder) in
  enabled a1 (Download cat save_path tmp) →
  target_ready s save_path tmp →
  let a2 := mainloop_step a1 (Download cat save_path tmp) in
  ∃ files data entries,
    dict_get cat (categorized a1) = Some files ∧
    world_fs (world_of a2) = <[archive_path save_path := File data]> s ∧
    zip_unpack data = Some entries ∧
    entries ≡ₚ (cat, Dir) :: (member s cat <$> files) ∧
    world_dialogs (world_of a2) =
      world_dialogs (world_of a) ++
        [ShowInfo "Success" (cat +:+ " saved as " +:+ basename save_path)].
Proof.
  intros s Hne Hend Hdir a1 Hen Htarget a2. subst a1 a2. unfold mainloop_step in *.
  cbn [handle] in *.
  destruct (folder_files_isdir _ _ Hdir) as [file_list Hf].
  pose proof (analyze_folder_Ok folder a file_list Hne Hf) as Hrun.
  rewrite Hrun in *. destruct (folder_files_Ok _ _ _ Hne Hend Hf) as [Hnd _].
  destruct (folder_export s a folder cat save_path tmp file_list eq_refl Hf Hnd
              Hen Htarget) as (files & Hd & Hnames & Hready).
  destruct (download_category_Ok _ _ _ _ _ _ Hd Hready)
    as (data & entries & Hdl & Hzip & Hnd' & Hmap).
  exists files, data, entries. unfold click_download, on_world. rewrite Hdl.
  rewrite analyze_images_eq in *. simpl in *.
  split_and!; try done. by apply staged_tree_entries.
Qed.


(** Analysing the same files again, on an unchanged file system, leaves
    the same dictionary and the same content: the dictionary is rebuilt from
    the files alone. *)
Lemma analyze_images_idempotent file_list a :
  let a1 := (analyze_images file_list a).1 in
  let a2 := (analyze_images file_list a1).1 in
  categorized a2 = categorized a1 ∧ content a2 = content a1.
Proof.
  cbv zeta. rewrite !analyze_images_eq. cbn [fst categorized content world_of].
  by rewrite (categorize_files_replaces _ _ _ (categorized a)).
Qed.

End app.

(** ** Properties of the wheel and of the start-up *)

#[local] Open Scope Z_scope.

(** C40: the wheel scrolls by the ceiling of [-delta / 120] units: a motion of
    whole notches scrolls one unit per notch against its sign, and a motion
    of less than a notch scrolls one unit when it is negative and nothing
    when it is positive, so that the two directions are symmetric exactly
    for whole notches. *)
Theorem wheel_units_ceiling (delta : Z) :
  - delta ≤ 120 * wheel_units delta < - delta + 120 ∧
  (wheel_units (- delta) = - wheel_units delta ↔ delta mod 120 = 0).
Proof. split; [apply wheel_units_bounds_aux|apply wheel_units_opp]. Qed.

(** A motion of [k] notches of 120 scrolls [-k] units, on either axis. *)
Theorem on_mousewheel_notches (k : Z) (a : app) :
  canvas (on_mousewheel (120 * k) a).1 = canvas a ++ [YviewScroll (- k)] ∧
  canvas (on_shift_mousewheel (120 * k) a).1 = canvas a ++ [XviewScroll (- k)].
Proof.
  unfold on_mousewheel, on_shift_mousewheel. simpl.
  by rewrite wheel_units_notch_aux.
Qed.

#[local] Close Scope Z_scope.

(** The request for DPI awareness is made on Windows only; the second
    call is made exactly when the first one raised; whatever the calls do,
    the start-up goes on. *)
Theorem dpi_bootstrap_calls (system : string) (shcore user32 : outcome unit) :
  (dpi_bootstrap system shcore user32 = [] ↔ system ≠ "Windows") ∧
  (SetProcessDPIAware ∈ dpi_bootstrap system shcore user32 ↔
   system = "Windows" ∧ raised shcore = true).
Proof.
  unfold dpi_bootstrap. case_bool_decide as Hsys.
  - destruct shcore as [[]|e1], user32 as [[]|e2]; simpl;
      (split; split; [done|done|..]);
      rewrite ?elem_of_cons, ?elem_of_nil; intuition congruence.
  - split; [done|]. rewrite elem_of_nil. intuition.
Qed.

(** ** The application on the example folder *)

(** The example folder, with the directory of the temporary files and a
    directory for the archives. *)
Definition app_fs : gmap string node := <["/home" := Dir]> (<["/tmp" := Dir]> toy_fs).

(** The window after the folder of the example has been analysed. *)
Definition app_analysed : app :=
  mainloop_step (H:=toy_imaging) (H0:=bits_archiver) (init_app app_fs)
    (SelectFolder "/pics").

Lemma app_analysed_reachable :
  reachable (H:=toy_imaging) (H0:=bits_archiver) app_fs app_analysed.
Proof. apply reachable_step; [apply reachable_init|done]. Qed.

Lemma app_analysed_button :
  enabled app_analysed (Download "1080p (Blurry)" "/home/blurry.zip" "/tmp/tmpk3x9").
Proof.
  exists "1080p (Blurry)", "👇 Download 1080p (Blurry) ZIP",
    [(ThumbLabel "/pics/b.jpg", 0, 0); (NameLabel "b.jpg", 1, 0)].
  apply (bool_decide_unpack _). by vm_compute.
Qed.

Lemma reachable_inv_witness : app_inv (H:=toy_imaging) app_analysed.
Proof.
  apply (reachable_inv (H:=toy_imaging) (H0:=bits_archiver) app_fs).
  apply app_analysed_reachable.
Defined.

Lemma download_button_live_witness :
  no_data (categorized app_analysed) "1080p (Blurry)" = Ok false ∧
  categorized (mainloop_step (H:=toy_imaging) (H0:=bits_archiver) app_analysed
                 (Download "1080p (Blurry)" "/home/blurry.zip" "/tmp/tmpk3x9")) =
    categorized app_analysed ∧
  content (mainloop_step (H:=toy_imaging) (H0:=bits_archiver) app_analysed
             (Download "1080p (Blurry)" "/home/blurry.zip" "/tmp/tmpk3x9")) =
    content app_analysed ∧
  ∀ title message,
    ShowWarning title message
      ∉ world_dialogs
          (world_of (mainloop_step (H:=toy_imaging) (H0:=bits_archiver) app_analysed
                       (Download "1080p (Blurry)" "/home/blurry.zip" "/tmp/tmpk3x9"))).
Proof.
  exact (download_button_live (H:=toy_imaging) (H0:=bits_archiver) app_fs app_analysed
           "1080p (Blurry)" "/home/blurry.zip" "/tmp/tmpk3x9"
           app_analysed_reachable app_analysed_button).
Defined.

Lemma analyze_folder_files_witness :
  ∃ file_list,
    analyze_folder (H:=toy_imaging) "/pics" (init_app app_fs) =
      analyze_images (H:=toy_imaging) file_list (init_app app_fs) ∧
    NoDup (basename <$> file_list) ∧
    ∀ path, path ∈ file_list ↔
            isfile app_fs path = true ∧ ∃ name, child_name "/pics" path = Some name.
Proof.
  apply (analyze_folder_files (H:=toy_imaging) "/pics" (init_app app_fs)); done.
Defined.

Lemma analyze_folder_missing_witness :
  analyze_folder (H:=toy_imaging) "/holidays" app_analysed =
    (app_analysed, Raise OSError).
Proof.
  apply (analyze_folder_missing (H:=toy_imaging) "/holidays" app_analysed); done.
Defined.

Lemma folder_export_roundtrip_witness :
  ∃ files data entries,
    dict_get "1080p (Blurry)" (categorized app_analysed) = Some files ∧
    world_fs (world_of (mainloop_step (H:=toy_imaging) (H0:=bits_archiver) app_analysed
                          (Download "1080p (Blurry)" "/home/blurry.zip" "/tmp/tmpk3x9"))) =
      <[archive_path "/home/blurry.zip" := File data]> app_fs ∧
    zip_unpack (Archiver:=bits_archiver) data = Some entries ∧
    entries ≡ₚ ("1080p (Blurry)", Dir) :: (member app_fs "1080p (Blurry)" <$> files) ∧
    world_dialogs
      (world_of (mainloop_step (H:=toy_imaging) (H0:=bits_archiver) app_analysed
                   (Download "1080p (Blurry)" "/home/blurry.zip" "/tmp/tmpk3x9"))) =
      [] ++ [ShowInfo "Success" "1080p (Blurry) saved as blurry.zip"].
Proof.
  assert (target_ready app_fs "/home/blurry.zip" "/tmp/tmpk3x9") as Htarget
    by (apply (bool_decide_unpack _); by vm_compute).
  exact (folder_export_roundtrip (H:=toy_imaging) (H0:=bits_archiver) "/pics"
           (init_app app_fs) "1080p (Blurry)" "/home/blurry.zip" "/tmp/tmpk3x9"
           ltac:(done) eq_refl eq_refl app_analysed_button Htarget).
Defined.


(** The analysis of the example folder through the window: the four
    images that are directly in the folder are filed, each under its key;
    the text file and the truncated photograph are left out, and the image
    of the sub-folder is not scanned. *)
Theorem analyze_folder_example :
  dict_to_gmap (categorized app_analysed) =
    list_to_map [("4K or above (Clear)", [("a.jpg", "/pics/a.jpg")]);
                 ("1080p (Blurry)", [("b.jpg", "/pics/b.jpg")]);
                 ("480p (Clear)", [("anim.gif", "/pics/anim.gif")]);
                 ("Below 360p (Clear)", [("c.jpg", "/pics/c.jpg")])] ∧
  length (categorized app_analysed) = 4.
Proof. split; [apply (bool_decide_unpack _)|]; by vm_compute. Qed.
