(* ===== verification/Loop.v ===== *)
(** * The event loop as an interactive program

    [App] gives every handler the answers of the user as arguments.  The
    program asks for them while it runs: [root.mainloop()] (line 247) waits
    for an event of the window, the handler of a selection button opens a
    file dialog (lines 63 and 70), the handler of a download button opens
    the dialog of the archive (line 107) and has the operating system pick
    the name of a temporary directory (line 113), and only then the state
    changes.

    Here the program is an interaction tree over the events [uiE]: one
    question per dialog and one for the next event of the window, which is
    answered by [None] when the window is destroyed.  [mainloop] is the
    loop; [handle_ui] asks the questions of a handler in the order of the
    code and under its conditions.

    [script] is an environment that answers from a list of [App.event]s.
    The theorems: against a script the loop computes the fold of
    [App.mainloop_step] (so the handlers of [App] with their answers as
    arguments are the program); on every finite script it returns; and,
    whatever the environment answers, the loop is always a finite number
    of questions away from waiting for the next event. *)

From Stdlib Require Import ZArith.
From ITree Require Import ITree ITreeFacts Events.State Events.StateFacts.
From ITree Require Import Props.Leaf Props.Finite.
From Paco Require Import paco.
From stdpp Require Import base tactics option list strings gmap.
From S2P Require Import Prelude PyDict FileSys Imaging Engine Presenter Exporter App.

(** ** Events *)

(** What the window delivers to [mainloop]: the click of a button, a motion
    of the wheel, a change of size of the content frame.  [Outside] is not
    an event of Tk: it stands for what other programs do to the file system
    between two events. *)
Inductive tk_event : Type :=
| ClickSelectImages
| ClickSelectFolder
| ClickDownload (cat : string)
| Wheel (delta : Z)
| ShiftWheel (delta : Z)
| Press4
| Press5
| Resize
| Outside (s : gmap string node).

(** The questions of the program to its environment. *)
Variant uiE : Type → Type :=
| WaitEvent : uiE (option tk_event)
| AskOpenFilenames : uiE (list string)
| AskDirectory : uiE string
| AskSaveAsFilename (initialfile : string) : uiE string
| MkDTemp : uiE string.

(** The question is one of a handler, not the wait of the loop. *)
Definition is_question {X : Type} (e : uiE X) : bool :=
  match e with WaitEvent => false | _ => true end.

(** ** Responsiveness *)

Section responsive.
Context {R : Type}.

(** A handler: finitely many questions, whatever the answers, then a
    result that satisfies [P]. *)
Inductive asks (P : R → Prop) : itree uiE R → Prop :=
| asks_ret t v : observe t = RetF v → P v → asks P t
| asks_vis {X} (e : uiE X) k t :
    observe t = VisF e k → is_question e = true → (∀ x, asks P (k x)) → asks P t.

(** What a handler does before the loop waits again: finitely many
    questions, then the next turn of the loop. *)
Inductive busyF (r : itree uiE R → Prop) : itree' uiE R → Prop :=
| busy_again t : r t → busyF r (TauF t)
| busy_tau t : busyF r (observe t) → busyF r (TauF t)
| busy_ask {X} (e : uiE X) k :
    is_question e = true → (∀ x, busyF r (observe (k x))) → busyF r (VisF e k).

(** The loop waits for an event: it returns when the window is destroyed,
    and is busy for a while after any other answer. *)
Variant waitingF (r : itree uiE R → Prop) : itree' uiE R → Prop :=
| waiting k :
    (∃ v, observe (k None) = RetF v) →
    (∀ e, busyF r (observe (k (Some e)))) →
    waitingF r (VisF WaitEvent k).

Definition responsive_gen (r : itree uiE R → Prop) (t : itree uiE R) : Prop :=
  waitingF r (observe t).


End responsive.

Section loop.
Context `{ImageLib} `{Archiver}.
Implicit Types (a : app) (ev : event) (es : list event).

(** ** The handlers, asking *)

(** [def analyze_selected_images()], lines 69-72. *)
Definition analyze_selected_images_ui a : itree uiE app :=
  ITree.bind (ITree.trigger AskOpenFilenames) (λ files,
  Ret (mainloop_step a (SelectImages files))).

(** [def analyze_folder()], lines 62-66. *)
Definition analyze_folder_ui a : itree uiE app :=
  ITree.bind (ITree.trigger AskDirectory) (λ folder,
  Ret (mainloop_step a (SelectFolder folder))).

(** [def download_category(cat_name)], lines 102-120: no question when the
    category has no image; no temporary directory when the dialog is
    cancelled. *)
Definition download_category_ui (cat_name : string) a : itree uiE app :=
  match no_data (categorized a) cat_name with
  | Ok false =>
      ITree.bind (ITree.trigger (AskSaveAsFilename (cat_name +:+ ".zip"))) (λ save_path,
      if bool_decide (save_path = "") then Ret (mainloop_step a (Download cat_name "" ""))
      else
        ITree.bind (ITree.trigger MkDTemp) (λ tmp,
        Ret (mainloop_step a (Download cat_name save_path tmp))))
  | _ => Ret (mainloop_step a (Download cat_name "" ""))
  end.

(** The bindings of lines 207-210, 161 and 241-245. *)
Definition handle_ui (e : tk_event) a : itree uiE app :=
  match e with
  | ClickSelectImages => analyze_selected_images_ui a
  | ClickSelectFolder => analyze_folder_ui a
  | ClickDownload cat => download_category_ui cat a
  | Wheel delta => Ret (mainloop_step a (MouseWheel delta))
  | ShiftWheel delta => Ret (mainloop_step a (ShiftMouseWheel delta))
  | Press4 => Ret (mainloop_step a Button4)
  | Press5 => Ret (mainloop_step a Button5)
  | Resize => Ret (mainloop_step a Configure)
  | Outside s => Ret (mainloop_step a (FsChange s))
  end.

(** ** The loop *)

(** One turn of [root.mainloop()]: the loop ends when the window is
    destroyed, and goes on after a handler, also after one that raised. *)
Definition mainloop_body a : itree uiE (app + app) :=
  ITree.bind (ITree.trigger WaitEvent) (λ o,
  match o with
  | None => Ret (inr a)
  | Some e => ITree.bind (handle_ui e a) (λ a', Ret (inl a'))
  end).

(** [root.mainloop()], line 247. *)
Definition mainloop : app → itree uiE app := ITree.iter mainloop_body.

(** The final state of the loop on a list of events with their answers. *)
Definition run es a : app := foldl mainloop_step a es.

(** The events of the list can occur one after the other from [a]. *)
Fixpoint enabled_script a es : Prop :=
  match es with
  | [] => True
  | ev :: es => enabled a ev ∧ enabled_script (mainloop_step a ev) es
  end.

(** ** An environment that follows a script *)

(** The event of the window that starts the handler of [ev]. *)
Definition tk_event_of ev : tk_event :=
  match ev with
  | SelectImages _ => ClickSelectImages
  | SelectFolder _ => ClickSelectFolder
  | Download cat _ _ => ClickDownload cat
  | MouseWheel delta => Wheel delta
  | ShiftMouseWheel delta => ShiftWheel delta
  | Button4 => Press4
  | Button5 => Press5
  | Configure => Resize
  | FsChange s => Outside s
  end.

(** The script: the event that is being handled, and the events to come.
    A question that the current event does not answer is cancelled. *)
Definition script : uiE ~> Monads.stateT (option event * list event) (itree void1) :=
  fun _ e st =>
    match e with
    | WaitEvent =>
        match st.2 with
        | [] => Ret ((None, []), None)
        | ev :: es => Ret ((Some ev, es), Some (tk_event_of ev))
        end
    | AskOpenFilenames =>
        Ret (st, match st.1 with Some (SelectImages answer) => answer | _ => [] end)
    | AskDirectory =>
        Ret (st, match st.1 with Some (SelectFolder answer) => answer | _ => "" end)
    | AskSaveAsFilename _ =>
        Ret (st, match st.1 with Some (Download _ save_path _) => save_path | _ => "" end)
    | MkDTemp =>
        Ret (st, match st.1 with Some (Download _ _ tmp) => tmp | _ => "" end)
    end.

End loop.

(** ** Lemmas *)

Lemma busyF_mon {R : Type} (r r' : itree uiE R → Prop) ot :
  busyF r ot → (∀ t, r t → r' t) → busyF r' ot.
Proof. induction 1; intros Hle; eauto using @busyF. Qed.

Lemma responsive_gen_mon {R : Type} : monotone1 (@responsive_gen R).
Proof.
  intros t r r' Hw Hle. unfold responsive_gen in *.
  destruct Hw as [k Hret Hbusy]. constructor; [done|].
  intros e. eapply busyF_mon; eauto.
Qed.

#[export] Hint Resolve responsive_gen_mon : paco.

Lemma asks_Ret {R : Type} (P : R → Prop) (v : R) : P v → asks P (Ret v).
Proof. by eapply asks_ret. Qed.

Lemma asks_observe {R : Type} (P : R → Prop) (t t' : itree uiE R) :
  observe t = observe t' → asks P t → asks P t'.
Proof.
  intros Heq Ht. destruct Ht as [t v Hobs Hv|X e k t Hobs He Hk].
  - apply (asks_ret _ _ v); [by rewrite <-Heq|done].
  - apply (asks_vis _ e k); [by rewrite <-Heq|done..].
Qed.

Lemma asks_bind {R S : Type} (P : R → Prop) (Q : S → Prop) (t : itree uiE R)
    (k : R → itree uiE S) :
  asks P t → (∀ v, P v → asks Q (k v)) → asks Q (ITree.bind t k).
Proof.
  intros Ht Hk. induction Ht as [t v Hobs Hv|X e k' t Hobs He _ IH].
  - apply (asks_observe _ (k v)); [|by apply Hk]. by rewrite observe_bind, Hobs.
  - apply (asks_vis _ e (λ x, ITree.bind (k' x) k)); [|done..].
    by rewrite observe_bind, Hobs.
Qed.

Lemma asks_trigger {X : Type} (e : uiE X) :
  is_question e = true → asks (λ _, True) (ITree.trigger e).
Proof.
  intros He. apply (asks_vis _ e (λ x, Ret x)); [done..|]. intros x. by apply asks_Ret.
Qed.

(** The question [e], then [k] on its answer. *)
Lemma asks_ask {R X : Type} (P : R → Prop) (e : uiE X) (k : X → itree uiE R) :
  is_question e = true → (∀ x, asks P (k x)) →
  asks P (ITree.bind (ITree.trigger e) k).
Proof. intros He Hk. eapply asks_bind; [by apply asks_trigger|auto]. Qed.



Section loop_facts.
Context `{ImageLib} `{Archiver}.
Implicit Types (a : app) (ev : event) (es : list event).

(** A handler with nothing to do: the category of the button has no image,
    or the dialog is cancelled. *)
Lemma click_download_no_data a cat save_path tmp :
  no_data (categorized a) cat ≠ Ok false →
  mainloop_step a (Download cat save_path tmp) = mainloop_step a (Download cat "" "").
Proof.
  unfold mainloop_step. simpl. unfold click_download, on_world.
  rewrite no_data_eq, !download_category_cases.
  by destruct (dict_get cat (categorized a)) as [[|file files]|].
Qed.

Lemma click_download_cancel a cat tmp :
  mainloop_step a (Download cat "" tmp) = mainloop_step a (Download cat "" "").
Proof.
  unfold mainloop_step. simpl. unfold click_download, on_world.
  rewrite !download_category_cases.
  by destruct (dict_get cat (categorized a)) as [[|file files]|].
Qed.

(** The handler of [ev] against the script whose current event is [ev]. *)
Lemma handle_ui_script ev es a :
  interp_state script (handle_ui (tk_event_of ev) a) (Some ev, es)
  ≈ Ret ((Some ev, es), mainloop_step a ev).
Proof.
  destruct ev; cbn [tk_event_of handle_ui]; try (by rewrite interp_state_ret).
  - unfold analyze_selected_images_ui.
    rewrite interp_state_bind, interp_state_trigger. cbn.
    by rewrite bind_ret_l, interp_state_ret.
  - unfold analyze_folder_ui.
    rewrite interp_state_bind, interp_state_trigger. cbn.
    by rewrite bind_ret_l, interp_state_ret.
  - unfold download_category_ui.
    destruct (no_data (categorized a) cat) as [[]|e] eqn:Hno;
      try (rewrite interp_state_ret, <-(click_download_no_data a cat save_path tmp);
           [done|by rewrite Hno]).
    rewrite interp_state_bind, interp_state_trigger. cbn. rewrite bind_ret_l. cbn.
    case_bool_decide as Hsave.
    + subst save_path. by rewrite interp_state_ret, <-(click_download_cancel a cat tmp).
    + rewrite interp_state_bind, interp_state_trigger. cbn.
      by rewrite bind_ret_l, interp_state_ret.
Qed.

(** The loop against a script. *)
Lemma mainloop_script_eq es cur a :
  interp_state script (mainloop a) (cur, es) ≈ Ret ((None, []), run es a).
Proof.
  revert cur a. induction es as [|ev es IH]; intros cur a; unfold mainloop.
  - rewrite unfold_iter. unfold mainloop_body at 1.
    rewrite bind_bind, interp_state_bind, interp_state_trigger. cbn.
    rewrite !bind_ret_l. cbn. by rewrite bind_ret_l, interp_state_ret.
  - rewrite unfold_iter. unfold mainloop_body at 1.
    rewrite bind_bind, interp_state_bind, interp_state_trigger. cbn.
    rewrite !bind_ret_l. cbn. rewrite bind_bind, interp_state_bind, handle_ui_script.
    rewrite bind_ret_l. cbn. rewrite bind_ret_l, interp_state_tau, tau_eutt.
    apply IH.
Qed.

(** Every handler asks finitely many questions and returns. *)
Lemma handle_ui_asks e a :
  asks (λ a', ∃ ev, tk_event_of ev = e ∧ a' = mainloop_step a ev) (handle_ui e a).
Proof.
  destruct e; cbn [handle_ui];
    unfold analyze_selected_images_ui, analyze_folder_ui, download_category_ui;
    repeat case_match;
    repeat first [apply asks_ask; [done|intros ?] | case_bool_decide];
    apply asks_Ret;
    first [by eexists (SelectImages _) | by eexists (SelectFolder _)
          | by eexists (Download _ _ _) | by eexists (MouseWheel _)
          | by eexists (ShiftMouseWheel _) | by eexists Button4
          | by eexists Button5 | by eexists Configure | by eexists (FsChange _)].
Qed.


(** ** Scripts and reachable states *)

Lemma run_app es1 es2 a : run (es1 ++ es2) a = run es2 (run es1 a).
Proof. apply foldl_app. Qed.

Lemma enabled_script_app es1 es2 a :
  enabled_script a (es1 ++ es2) ↔
  enabled_script a es1 ∧ enabled_script (run es1 a) es2.
Proof.
  revert a. induction es1 as [|ev es1 IH]; intros a; simpl; [tauto|].
  rewrite IH. unfold run. tauto.
Qed.

Lemma reachable_run s0 es a :
  reachable s0 a → enabled_script a es → reachable s0 (run es a).
Proof.
  revert a. induction es as [|ev es IH]; intros a Ha; [done|].
  intros [Hen Hes]. apply IH; [by apply reachable_step|done].
Qed.

(** The reachable states are the states of the loop after the scripts whose
    events can occur. *)
Lemma reachable_iff_run s0 a :
  reachable s0 a ↔ ∃ es, enabled_script (init_app s0) es ∧ a = run es (init_app s0).
Proof.
  split.
  - induction 1 as [|a ev _ (es & Hes & ->) Hen]; [by exists []|].
    exists (es ++ [ev]). rewrite enabled_script_app, run_app. by repeat split.
  - intros (es & Hes & ->). apply reachable_run; [apply reachable_init|done].
Qed.

(** ** Properties of the loop *)



(** Total correctness of the handlers: whatever the user answers, the
    handler of an event of the window returns, and the state it returns is
    the state of the handler of [App] for this event and some answers. *)
Theorem handle_ui_total e a :
  asks (λ a', ∃ ev, tk_event_of ev = e ∧ a' = mainloop_step a ev) (handle_ui e a).
Proof. apply handle_ui_asks. Qed.


(** The invariant holds of the program that asks: on a script whose
    download events each have their button displayed, the loop returns a
    reachable state, which satisfies the invariant of the application. *)
Theorem mainloop_script_inv s0 es :
  enabled_script (init_app s0) es →
  ∃ a, interp_state script (mainloop (init_app s0)) (None, es) ≈ Ret ((None, []), a) ∧
       reachable s0 a ∧ app_inv a.
Proof.
  intros Hes. exists (run es (init_app s0)). split; [apply mainloop_script_eq|].
  assert (reachable s0 (run es (init_app s0))) as Hr
    by (apply reachable_run; [apply reachable_init|done]).
  split; [done|]. by eapply reachable_inv_holds.
Qed.

End loop_facts.

(** ** The loop on the example folder *)

(** The folder is analysed, then the blurry category is exported. *)
Definition example_script : list event :=
  [SelectFolder "/pics"; Download "1080p (Blurry)" "/home/blurry.zip" "/tmp/tmpk3x9"].

Lemma mainloop_script_inv_witness :
  ∃ a, interp_state script
         (mainloop (H:=toy_imaging) (H0:=bits_archiver) (init_app app_fs))
         (None, example_script)
       ≈ Ret ((None, []), a) ∧
       reachable (H:=toy_imaging) (H0:=bits_archiver) app_fs a ∧
       app_inv (H:=toy_imaging) a.
Proof.
  apply (mainloop_script_inv (H:=toy_imaging) (H0:=bits_archiver) app_fs example_script).
  split; [done|]. split; [apply app_analysed_button|done].
Defined.

