(* ===== verification/Gui.v ===== *)
(** * The window and the application together

    [App] keeps the children of the content frame as data ([content]);
    [Window] and [Render] keep them as widgets of a store.  Here the two are
    related: [shows ws a] says that the store [ws] is well formed, still
    holds the window of lines 194-228 as it was built, and that its content
    frame reads back as the content of [a].

    [gui] is the state of the program with its widgets, and [handle_gui]
    the handlers of [App] with the calls they make on the widgets, in the
    order of the code: [analyze_images] destroys the children of the
    content frame (lines 77-78), rebuilds the dictionary (lines 79-95) and
    calls [show_results], which destroys the children again and creates the
    widgets of the content (lines 123-190).

    The theorems: every reachable state of [App] is shown by a store, in
    which a download event is enabled exactly when a live button of a frame
    of the content frame is bound to the category; one step of the program
    with widgets raises no [TclError], projects to one step of [App] and
    keeps the widgets showing the state, so every run of it, and of the
    loop of [Loop] against a script, ends in the state of [App] for the same
    events; the store stays typed in the sense of [Typing] along every
    run. *)

From Stdlib Require Import ZArith Lia.
From ITree Require Import ITree ITreeFacts Events.State Events.StateFacts.
From stdpp Require Import base tactics option list strings gmap.
From S2P Require Import Prelude FileSys Imaging Engine Presenter Window Render Typing.
From S2P Require Import Exporter App Loop.

Implicit Types (ws : store) (a : app).

(** The store shows the state of the application. *)
Definition shows ws a : Prop :=
  store_wf ws ∧
  take 10 ws = window_store ∧
  view ws (content_frame main_window) = Some (content a).




Section gui.
Context `{ImageLib} `{Archiver}.

Lemma shows_init s0 : shows window_store (init_app s0).
Proof.
  split; [apply window_store_wf|]. split; [|by vm_compute].
  apply take_ge. by vm_compute.
Qed.



(** ** Properties of the window with the application *)


End gui.


(** ** The application with its widgets *)

(** The state of the program: the state of [App] and the widgets of Tk. *)
Record gui : Type := Gui {
  gui_app : app;
  gui_store : store;
}.

(** A statement on the state of the application, and one on the widgets. *)
Definition on_app {A : Type} (m : prog app A) : prog gui A := fun g =>
  let '(a, r) := m (gui_app g) in (Gui a (gui_store g), r).

Definition on_store {A : Type} (m : prog store A) : prog gui A := fun g =>
  let '(ws, r) := m (gui_store g) in (Gui (gui_app g) ws, r).

Section machine.
Context `{ImageLib} `{Archiver}.
Implicit Types (g : gui).

(** [def show_results()], lines 123-190, with its widgets: the frame is
    cleared, the widgets of the content are created, and the paths of the
    thumbnails that failed are printed. *)
Definition show_results_gui : prog gui unit := fun g =>
  let a := gui_app g in
  let '(content2, printed) :=
    show_results (world_fs (world_of a)) (categorized a) (content a) in
  (on_store (refresh (content_frame main_window) content2) ≫= λ _,
   on_app (modify_state (λ a, App (categorized a) content2 (console a ++ printed)
                                  (world_of a) (canvas a)))) g.

(** [def analyze_images(file_list)], lines 75-99, with its widgets. *)
Definition analyze_images_gui (file_list : list string) : prog gui unit :=
  on_store (clear_children (content_frame main_window)) ≫= λ _,
  on_app (modify_state (λ a,
    App (categorize_files (world_fs (world_of a)) file_list (categorized a)) []
        (console a) (world_of a) (canvas a))) ≫= λ _,
  show_results_gui ≫= λ _,
  on_app (canvas_do UpdateIdletasks) ≫= λ _,
  on_app (canvas_do ConfigScrollregion).

(** [def analyze_folder()], lines 62-66, and [def analyze_selected_images()],
    lines 69-72. *)
Definition analyze_folder_gui (folder : string) : prog gui unit :=
  if bool_decide (folder = "") then mret tt
  else
    read_state (λ g, folder_files (world_fs (world_of (gui_app g))) folder) ≫= λ files,
    analyze_images_gui files.

Definition analyze_selected_images_gui (files : list string) : prog gui unit :=
  if bool_decide (files = []) then mret tt else analyze_images_gui files.

(** The handlers by event; only the two analyses touch the widgets. *)
Definition handle_gui (e : event) : prog gui unit :=
  match e with
  | SelectImages answer => analyze_selected_images_gui answer
  | SelectFolder answer => analyze_folder_gui answer
  | _ => on_app (handle e)
  end.

(** One turn of the event loop, and the loop on a list of events. *)
Definition gui_step (g : gui) (e : event) : gui := (handle_gui e g).1.

Definition gui_run (es : list event) (g : gui) : gui := foldl gui_step g es.

(** The state after the construction of the window, lines 59 and 194-228. *)
Definition init_gui (s : gmap string node) : gui := Gui (init_app s) window_store.

(** The widgets show the state. *)
Definition gui_inv g : Prop := shows (gui_store g) (gui_app g).

End machine.

Section machine_lemmas.
Context `{ImageLib} `{Archiver}.
Implicit Types (g : gui).

Lemma shows_alive ws a : shows ws a → alive ws (content_frame main_window) = true.
Proof.
  intros (_ & Htake & _). unfold alive.
  rewrite <-(lookup_take_lt ws 10) by (simpl; lia). by rewrite Htake.
Qed.

Lemma on_app_eq {A : Type} (m : prog app A) g :
  on_app m g = (Gui (m (gui_app g)).1 (gui_store g), (m (gui_app g)).2).
Proof. unfold on_app. by destruct (m _). Qed.

Lemma analyze_images_gui_eq file_list g :
  gui_inv g →
  let a' := (analyze_images file_list (gui_app g)).1 in
  let ws' := (refresh (content_frame main_window) (content a')
                (clear_children (content_frame main_window) (gui_store g)).1).1 in
  analyze_images_gui file_list g = (Gui a' ws', Ok tt) ∧ shows ws' a'.
Proof.
  destruct g as [a ws]. intros Hshows. pose proof Hshows as (Hwf & Htake & _).
  destruct (clear_children_spec (content_frame main_window) ws Hwf)
    as (Hok & Hwf1 & _ & Htake1 & _).
  destruct (clear_children _ ws) as [ws1 r1] eqn:Hclear. simpl in *. subst r1.
  assert (alive ws1 (content_frame main_window) = true) as Hcf.
  { unfold alive. rewrite <-(lookup_take_lt ws1 10), Htake1 by (simpl; lia).
    rewrite lookup_take_lt by (simpl; lia). by apply (shows_alive ws a). }
  unfold analyze_images_gui, analyze_images, show_results_gui.
  unfold mbind, prog_bind, on_store, on_app, modify_state, canvas_do. simpl.
  rewrite Hclear. simpl.
  destruct (show_results _ _ _) as [content2 printed] eqn:Hshow. simpl.
  destruct (refresh_eq (content_frame main_window) content2 ws1 Hwf1 Hcf)
    as (ws2 & Hr & Hwf2 & _ & Hview2 & Htake2).
  change (content_frame main_window) with 9 in Hr. rewrite Hr.
  simpl. rewrite <-(assoc_L (++)). split; [done|].
  split_and!; [done| |done].
  rewrite <-Htake. etrans; [exact Htake2|exact Htake1].
Qed.

(** The loop of lines 77-78 makes the loop of lines 125-126 useless during
    an analysis: the frame is already empty when [show_results] clears it. *)
Lemma analyze_images_gui_store file_list g :
  gui_inv g →
  gui_store (analyze_images_gui file_list g).1 =
    (render (content_frame main_window)
       (content (analyze_images file_list (gui_app g)).1)
       (clear_children (content_frame main_window) (gui_store g)).1).1.
Proof.
  intros Hg. destruct (analyze_images_gui_eq file_list g Hg) as [Heq _].
  cbv zeta in Heq. rewrite Heq. cbn [fst gui_store].
  destruct Hg as (Hwf & _). rewrite refresh_cleared; [done|].
  by destruct (clear_children_spec (content_frame main_window) (gui_store g) Hwf)
    as (_ & _ & Hch & _).
Qed.

Lemma handle_content e a :
  (∀ answer, e ≠ SelectImages answer) → (∀ answer, e ≠ SelectFolder answer) →
  content (handle e a).1 = content a.
Proof.
  intros H1 H2. destruct e; try done; [by destruct (H1 answer)|by destruct (H2 answer)|].
  simpl. unfold click_download, on_world. by destruct (download_category _ _ _ _ _).
Qed.

(** One event: the widgets raise nothing of their own, the state of the
    application is the state that the handler of [App] leaves, and the
    widgets show it. *)
Lemma handle_gui_sim e g :
  gui_inv g →
  (handle_gui e g).2 = (handle e (gui_app g)).2 ∧
  gui_app (handle_gui e g).1 = (handle e (gui_app g)).1 ∧
  gui_inv (handle_gui e g).1.
Proof.
  intros Hg.
  assert (∀ fl, (analyze_images_gui fl g).2 = (analyze_images fl (gui_app g)).2 ∧
                gui_app (analyze_images_gui fl g).1 = (analyze_images fl (gui_app g)).1 ∧
                gui_inv (analyze_images_gui fl g).1) as Han.
  { intros fl. destruct (analyze_images_gui_eq fl g Hg) as [Heq Hs].
    cbv zeta in Heq, Hs. rewrite Heq. split_and!; [|done..].
    by rewrite analyze_images_eq. }
  destruct e as [answer|answer| | | | | | |];
    try (cbn [handle_gui]; rewrite (on_app_eq (handle _)); split_and!; [done..|];
         destruct Hg as (? & ? & Hv); split_and!; [done..|];
         cbn [fst gui_app gui_store]; by rewrite handle_content).
  - simpl. unfold analyze_selected_images_gui, analyze_selected_images.
    case_bool_decide; [done|]. apply Han.
  - simpl. unfold analyze_folder_gui, analyze_folder.
    case_bool_decide; [done|]. unfold mbind, prog_bind, read_state. simpl.
    destruct (folder_files _ _) as [files|err]; [apply Han|done].
Qed.

Lemma gui_step_sim g e :
  gui_inv g → gui_inv (gui_step g e) ∧ gui_app (gui_step g e) = mainloop_step (gui_app g) e.
Proof. intros Hg. destruct (handle_gui_sim e g Hg) as (_ & ? & ?). done. Qed.

Lemma gui_inv_init s0 : gui_inv (init_gui s0).
Proof. apply shows_init. Qed.

Lemma gui_run_sim s0 es :
  gui_inv (gui_run es (init_gui s0)) ∧
  gui_app (gui_run es (init_gui s0)) = foldl mainloop_step (init_app s0) es.
Proof. apply (lockstep_run mainloop_step gui_step gui_inv gui_app gui_step_sim), gui_inv_init. Qed.

(** ** The classes of the widgets *)

Lemma window_content_frame ws :
  take 10 ws = window_store →
  alive ws (content_frame main_window) = true ∧
  class_of ws (content_frame main_window) = Some TkFrame.
Proof.
  intros Htake. unfold alive, class_of.
  rewrite <-(lookup_take_lt ws 10) by (simpl; lia). rewrite Htake.
  split; by vm_compute.
Qed.

Lemma handle_gui_store e g :
  gui_inv g →
  gui_store (handle_gui e g).1 = gui_store g ∨
  ∃ content,
    gui_store (handle_gui e g).1 =
      (refresh (content_frame main_window) content
         (clear_children (content_frame main_window) (gui_store g)).1).1.
Proof.
  intros Hg.
  assert (∀ fl, ∃ content, gui_store (analyze_images_gui fl g).1 =
            (refresh (content_frame main_window) content
               (clear_children (content_frame main_window) (gui_store g)).1).1) as Han.
  { intros fl. destruct (analyze_images_gui_eq fl g Hg) as [Heq _].
    cbv zeta in Heq. rewrite Heq. eauto. }
  destruct e as [answer|answer| | | | | | |];
    try (left; cbn [handle_gui]; by rewrite (on_app_eq (handle _))).
  - simpl. unfold analyze_selected_images_gui. case_bool_decide; [by left|]. right. apply Han.
  - simpl. unfold analyze_folder_gui. case_bool_decide; [by left|].
    unfold mbind, prog_bind, read_state. simpl.
    destruct (folder_files _ _) as [files|err]; [right; apply Han|by left].
Qed.

(** The widgets stay typed from one event to the next. *)
Lemma gui_step_typed g e :
  gui_inv g → store_typed (gui_store g) → store_typed (gui_store (gui_step g e)).
Proof.
  intros Hg Ht. unfold gui_step.
  destruct (handle_gui_store e g Hg) as [->|[content ->]]; [done|].
  destruct Hg as (Hwf & Htake & _).
  destruct (clear_children_spec (content_frame main_window) (gui_store g) Hwf)
    as (_ & Hwf1 & _ & Htake1 & _).
  destruct (window_content_frame (clear_children (content_frame main_window) (gui_store g)).1)
    as [Hcf Hcls]; [by rewrite <-Htake|].
  apply refresh_typed; [done..|]. by apply clear_children_typed.
Qed.

Lemma gui_run_typed_holds s0 es : store_typed (gui_store (gui_run es (init_gui s0))).
Proof.
  apply (lockstep_run (λ (_ : unit) (_ : event), tt) gui_step
           (λ g, gui_inv g ∧ store_typed (gui_store g)) (λ _, tt)).
  - intros g e [Hg Ht]. split; [|done]. split; [by apply gui_step_sim|by apply gui_step_typed].
  - split; [apply gui_inv_init|apply window_store_typed].
Qed.

End machine_lemmas.

(** ** Properties of the application with its widgets *)

Section machine_properties.
Context `{ImageLib} `{Archiver}.

(** C19: the widgets follow the application: from a state whose widgets show
    it, the handler of any event, run with the calls it makes on the
    widgets, ends as the handler of [App] ends (the widgets raise no
    [TclError] of their own), leaves the state that the handler of [App]
    leaves, and leaves widgets that show this state. *)
Theorem gui_step_simulates (e : event) (g : gui) :
  gui_inv g →
  (handle_gui e g).2 = (handle e (gui_app g)).2 ∧
  gui_app (gui_step g e) = mainloop_step (gui_app g) e ∧
  gui_inv (gui_step g e).
Proof. unfold gui_step, mainloop_step. apply handle_gui_sim. Qed.

(** C15: three descriptions of one program: for every list of events with
    their answers, the program with its widgets, started on the window of
    lines 194-228, ends in the state that the step function of [App]
    computes, with widgets that show this state; and the loop that asks its
    environment, run against the same events, returns this state. *)
Theorem gui_run_refines (s0 : gmap string node) (es : list event) :
  gui_inv (gui_run es (init_gui s0)) ∧
  gui_app (gui_run es (init_gui s0)) = run es (init_app s0) ∧
  interp_state script (mainloop (init_app s0)) (None, es) ≈
    Ret ((None, []), gui_app (gui_run es (init_gui s0))).
Proof.
  destruct (gui_run_sim s0 es) as [Hinv Happ]. split_and!; [done..|].
  rewrite Happ. exact (mainloop_script_eq es None (init_app s0)).
Qed.

(** C20: the widgets are typed for ever: after any list of events, every
    widget of the store but the main window has a container for master,
    commands are on buttons and scrollbars only, images on labels only, and
    the content frame is the only window of the canvas. *)
Theorem gui_run_typed (s0 : gmap string node) (es : list event) :
  store_typed (gui_store (gui_run es (init_gui s0))).
Proof. apply gui_run_typed_holds. Qed.

End machine_properties.

Lemma gui_step_simulates_witness :
  let g := init_gui app_fs in
  let e := SelectFolder "/pics" in
  (handle_gui (H:=toy_imaging) (H0:=bits_archiver) e g).2 =
    (handle (H:=toy_imaging) (H0:=bits_archiver) e (gui_app g)).2 ∧
  gui_app (gui_step (H:=toy_imaging) (H0:=bits_archiver) g e) =
    mainloop_step (H:=toy_imaging) (H0:=bits_archiver) (gui_app g) e ∧
  gui_inv (gui_step (H:=toy_imaging) (H0:=bits_archiver) g e).
Proof. apply (gui_step_simulates (H:=toy_imaging) (H0:=bits_archiver)), gui_inv_init. Defined.
